(* ===== verification/_CoqProject ===== *)
-Q . S2P
Prelude.v
GoStrings.v
GoNet.v
Config.v
Model.v
Sha256.v
DnsMsg.v
Ecs.v
Split.v
StoreCache.v
AnswerCache.v
L1Cache.v
Dnssec.v
RateLimit.v
Metrics.v
Upstream.v
DoqConn.v
Ipdb.v
Dualstack.v
Files.v
CertStore.v
Threat.v
Warmup.v
Handler.v
Discovery.v
WarmRun.v
Server.v
Lifecycle.v
QueryLog.v
Backfill.v
Sql.v
Db.v
World.v
Repos.v
Http.v
Auth.v
Admin.v
CertMgr.v
Ops.v
Routes.v
LogSearch.v
Guarantees.v
Interleave.v
Concurrent.v
Sessions.v
Isolation.v
Dnsd.v
Boot.v
Commands.v
Stop.v
Bench.v
