(* ===== verification/Prelude.v ===== *)
(** * A verified model of the DNS management platform

    The program is a multi-tenant recursive front end: the daemon [dnsd]
    answers DNS queries over UDP, TCP, DoT, DoH and DoQ for tenants that are
    told apart by server name, and the daemon [apid] manages tenants,
    upstreams and rules in a database. A query passes the listener
    (src/internal/dnsx/server.go), which attaches the tenant and the client
    address, and [Core.Process] (handler.go), which validates it, applies
    the tenant's rate limit, decides the client subnet, asks the threat
    blocker, looks in the answer cache, and on a miss chooses an upstream
    group by the split rules, exchanges with failover, applies the DNSSEC
    policy, stores the answer and logs the query.

    ** Files

    - [Prelude], [GoStrings], [GoNet], [DnsMsg]: the language and its
      libraries. Outcomes with error and panic, fixed-width integers, Go
      strings as byte strings with UTF-8 decoding, [net.IP] and CIDR
      parsing and printing, DNS messages with the parts of the dns library
      the sources call as the class [DnsLib].
    - [Config]: src/internal/config/config.go. The configuration record,
      the environment and .env readers, [Load] and [Validate].
    - [Model]: src/internal/model/model.go. The persisted structs.
    - [Ecs]: dnsx/ecs.go. The EDNS client subnet option.
    - [Split]: dnsx/split.go. Split rules and the choice of group.
    - [StoreCache]: src/internal/store/cache.go. The interface [Cache] as a
      class with its laws, the modules [MemoryCache] and [RedisCache] with
      their instances, [Safe] and [CacheKey].
    - [AnswerCache]: dnsx/cache.go. [Get], [Put] and TTLs over any [Cache];
      the module [SingleFlight] as a step relation on interleaved callers.
    - [L1Cache], [Dnssec], [RateLimit], [Metrics]: the files of dnsx with
      those names; in [Metrics] the module [CounterSet].
    - [Upstream]: dnsx/upstream.go, upstream_udp_dot.go, upstream_doq.go.
      The manager's heap of groups and entries (a reload leaves groups held
      by running requests alone), selection, failover, probing, framing.
    - [DoqConn]: the DoQ client of upstream_doq.go with the connection it
      keeps.
    - [Ipdb], [Dualstack]: dnsx/ipdb.go and dualstack.go. Location
      databases, the IPv6 to IPv4 mapping chain and its verifier.
    - [Files]: Go's path/filepath and a file system whose operations may
      fail.
    - [CertStore]: dnsx/certstore.go. Certificates per server name.
    - [Threat]: src/internal/threatintel/threatintel.go and broadcast.go.
    - [Warmup]: dnsx/warmup.go and [reloadHotSet] of handler.go.
    - [Handler]: dnsx/handler.go, and the fetching half of warmup.go. The
      record [Core] is the state all requests share; [NewCore] its start,
      [Process] one call.
    - [Discovery]: requests, threat workers, refreshes and reloads on one
      core as interleaved steps.
    - [WarmRun]: [WarmupManager.run]. The goroutines of a warm job under
      its semaphore, interleaved, with their unsynchronised counters.
    - [Server]: dnsx/server.go, and the listener parts of upstream_doq.go
      and handler.go.
    - [Lifecycle]: the rest of server.go: TLS configurations and ALPN, the
      DoH headers, [Start], the listener goroutines and [Shutdown].
    - [Sha256], [QueryLog]: src/internal/store/querylog.go. The query-log
      writer as a transition system, the SQL of a log search, and the
      audit hash chain.
    - [Backfill]: src/cmd/backfill-audit-hash/main.go. The repair of the
      audit chain.
    - [Sql]: src/internal/store/mysql.go. The statement splitter and the
      application of a schema.
    - [Db]: src/db/schema.sql and the statements of repos.go. Tables as
      lists of rows; INSERT, UPDATE and DELETE with MySQL's enumeration,
      uniqueness and foreign-key rules; [wf_db], the tables' invariant.
    - [World]: the state a management request works on (database, Redis,
      audit log, clock, sent alerts, statement faults) and its monad [act].
    - [Repos]: src/internal/store/repos.go and repos_domains.go. One
      definition per repository method, in the monad of [World].
    - [Http]: requests, replies, [chain], [middleware] and response headers
      of src/internal/api/server.go; the JSON bodies of the handlers.
    - [Auth]: src/internal/api/auth.go. Tokens, login, refresh, logout,
      password change, alerts, the bearer and role middleware.
    - [Admin]: src/internal/api/handlers_tenants.go, handlers_security.go,
      handlers_domains.go. Tenants, users, bootstrap, the security officer.
    - [CertMgr]: src/internal/certmgr/certmgr.go and the certificate handlers
      of handlers_domains.go. Issuing and renewal over [Files] and [World].
    - [Ops]: src/internal/api/handlers_ops.go, handlers_cache.go,
      handlers_dns.go, handlers_logs.go. Handlers that work on the DNS core
      too: the monad [api] over [ApiState], which holds the [World] and the
      [Core] of [Handler].
    - [Routes]: [API.Handler] of server.go. The table of routes, the
      dispatch of the multiplexer, and [serve], one request from listener
      to reply.
    - [LogSearch]: the table of the query log, the inserting transaction,
      and an evaluator for the SQL that the log search and the usage
      statistics send.
    - [Guarantees]: what holds of every request and of every history of
      requests.
    - [Interleave]: programs as trees of atomic statements, pools of them
      under a schedule, and the rely-guarantee rule for pools.
    - [Concurrent]: the handlers and the router as such trees, one per
      request: the goroutines of the HTTP server.
    - [Sessions]: the authentication requests as trees, and what the
      statements do to a refresh token.
    - [Isolation]: the requests of tenant users as trees, from the listener
      to the reply, and which rows their statements touch.
    - [Dnsd]: src/cmd/dnsd/main.go. The start of the DNS daemon, its
      statistics publisher and its poll for configuration changes, interleaved
      with the management daemon; [FlushToRedis] of dnsx/metrics.go.
    - [Boot]: src/cmd/apid/main.go, src/cmd/dnsd/main.go and [API.Start].
      The start of both daemons as sequences of fallible steps with a trace
      of goroutines, sockets and served channels.
    - [Commands]: src/cmd/gencert/main.go and src/cmd/debug-verify/main.go,
      with the calendar of package time.
    - [Stop]: the shutdown of the DNS daemon interleaved with requests.
    - [Bench]: src/tools/dnsbench/main.go. Rounds, counters and the report
      of the load generator, with rounding of float64.

    ** How the code is modelled

    A method of a struct is a function from the struct's record to the new
    record and the result; a nil pointer is [None]; an error is [Err] and a
    panic [Panic]. The clock is an argument ([now], in nanoseconds). Code
    outside the repository is a class or a section variable: the Redis
    client, the network, the dns library, JSON, the regexp engine, random
    numbers, Go's map iteration order, the HTTP services, bcrypt, JWT
    signing, UUIDs, MySQL's collation, and for the pipeline the tenant
    lookup. Where a theorem relies on such code its documented behaviour is
    a class of laws ([CacheLaws], [CacheKeeps], [RedisLaws], [EdnsLaws],
    [ReplyLaws], [RandLaws], [MapOrderLaws], [SameText]; for the management
    side [CollationLaws], [BcryptLaws], [JWTLaws], [UUIDLaws], [RedisFrame]
    and the like), and a concrete instance in the same file shows that the laws can
    hold and carries the witnesses. Any database statement may fail: the
    world holds a stream of faults, one consumed by each statement, and the
    theorems quantify over it.

    A DNS query is atomic except where the code hands results between
    queries: [SingleFlight] is a transition system over any number of
    callers, and [Process] takes the result of the flight it joins, if any,
    as an argument. The other concurrent parts are step functions run over
    schedules: the query-log writer, the workers of [Discovery], warm jobs,
    the listener goroutines, the poll against configuration changes, and
    the shutdown. A management request is a function on the state ([serve]);
    [Concurrent] takes the same request apart into a tree whose nodes are
    the single SQL statements and Redis commands ([world_op], [api_op]),
    proves that running the tree alone is [serve], and interleaves any
    number of them. The audit transaction, the counter of the login limiter
    and a call of the DNS core are each one node. A schedule may stop
    anywhere, as a process that is ended does.

    ** Recursion and fuel

    Loops are structural wherever the data allows. [Ipdb.search] takes the
    index size as fuel (the interval shrinks every step, and [search_floor]
    is total); [Upstream.exchange_loop] counts the attempts the source
    counts; [Server.skipName_loop] and [Server.dot_loop] take the number of
    unread bytes, and [Server.serveDoTConn_terminates] shows that more makes
    no difference; [GoNet.parse6_loop] takes the length of its input.

    ** What the theorems show

    - Tenants: a request cannot change another tenant's cached answers
      ([Process_tenant_isolation]) because cache keys are injective
      ([CacheKey_injective]); rules and groups do not leak
      ([GroupForQuery_isolation]); the handshake admits only tenants with
      DoT enabled ([handshake_gate], [prefixFromSNI_spec]).
    - Answers: ids ([Process_answers]), blocking ([Process_blocked]) and its
      discovery ([discovery_blocks]), cache round
      trip and TTL bounds ([Put_then_Get], [Put_ttl_bounds]), DNSSEC policy
      ([Validate_verify]), client subnets ([AllowECS_false_strips],
      [attachECS_exact], [ecs_print_parse]).
    - Concurrency: one execution per key, no lost or mixed results, no
      deadlock ([SingleFlight_exclusive], [SingleFlight_progress]); a warm
      job ends under every schedule within its concurrency
      ([warm_run_terminates]) and has then fetched every pair once
      ([warm_run_complete]); management requests interleaved statement by
      statement keep the database intact ([concurrent_integrity]), and of
      those that present one refresh token at most one is served
      ([refresh_once_concurrent]); those of tenant users leave all other
      tenants and accounts alone ([tenants_isolated]).
    - Upstreams: no crash and genuine answers
      ([ExchangeWithFailover_safe]), round robin reaches a working upstream
      ([round_robin_tries_all]), weights, health and reload; keeping a DoQ
      connection cannot be told from dialling ([doq_reuse_transparent]).
    - Wire: a DoT connection refines a message-level specification under any
      chunking ([serveDoTConn_answers]); raw messages are read exactly
      ([raw_message_read]); GET and POST of DoH agree ([doh_get_post]).
    - Logs: every finished write of the query log is accounted for under
      any interleaving and never blocks ([writer_accounts],
      [writer_never_blocks]); written audit logs verify
      ([audit_chain_intact]) and edits of a recorded entry are noticed
      ([audit_tamper_evident]); searches send no user text as SQL
      ([QueryLogs_bound], [escapeLike_literal]) and return the matching rows
      of the tenant ([log_search_confined]); rows are read back as written
      ([insert_scan]) and the usage statistics count each once
      ([usage_accounts]).
    - Data: binary search, longest prefix, RFC 6052 extraction, blacklist
      and certificate matching against their declarative specifications.
    - Access: no protected handler runs without a valid session of an
      accepted role and tenant ([complete_mediation]); the duties of
      administrator, security officer and auditor are separate
      ([duties_separated]); a tenant user changes nothing but its own
      account and the switches of its tenant ([tenant_confined]); nobody
      becomes a second super-administrator ([no_new_admin]).
    - Sessions: refresh tokens work once ([refresh_single_use]), revocation
      ends sessions ([revoke_kills]), a login is decided by the account
      ([login_outcome]), passwords by the policy ([password_policy]).
    - Database: every history of requests, with any statements failing,
      keeps keys, references and enumerations intact ([serve_integrity]);
      the tenant cache is transparent ([TenantByPrefix_refines]); the rule
      listing and the splitter together decide as the table says
      ([ListRules_decides]); a confirmed change is what the DNS core then
      works with ([config_live]); a schema splits into its statements
      ([splitStatements_roundtrip]).
    - Certificates: an issued certificate is served ([Issue_served]), a
      renewal pass restores every domain ([renewal_restores]), no file outside
      the certificate directory changes ([Issue_contained], for the renewal
      loop [RenewLoop_contained]); a pair made by gencert is loaded by the
      daemons and covers the domain for two years ([gencert_works]).
    - Daemons: the DNS daemon follows the database in every interleaving
      ([hot_reload_follows]), the overview shows what it published
      ([overview_published]); the repair tool leaves a chain that verifies
      ([backfill_repairs]) and the checking tool agrees with what was
      written ([debug_verify_agrees]); what each daemon needs to come up and what it
      then serves ([apid_starts], [dnsd_starts], [Start_reports]); listeners
      end on shutdown ([Shutdown_completes]) and requests over UDP, TCP and
      DoH are answered before the core closes ([shutdown_drains]).
    - Benchmark: the printed percentiles are nearest-rank percentiles in
      spite of rounding ([bench_percentiles]).
    - Defects: theorems that pin down behaviour the authors cannot want,
      such as [raw_pipelined_lost], [Process_joined_Id],
      [doq_shared_budget], [clamp_not_forwarded], [failover_tries_one],
      [global_hot_ignored], [AllowLogin_memory_window], [Snapshot_stale],
      [audit_truncation_undetected], [auditHash_ambiguous],
      [TenantByDomain_fails], [lockout_after_four], [revoke_same_second],
      [splitStatements_comment_quote], [warm_lost_update],
      [warm_zero_stuck], [log_window_reversed], [long_name_drops_batch],
      [alpn_not_narrowed], [Shutdown_misses_late_listener],
      [apid_channels], [apid_zero_interval], [shutdown_dot_crash],
      [success_above_100], [FlushToRedis_refused], and races between
      management requests: [bootstrap_twice], [guesses_in_parallel],
      [suspension_undone].

    ** Not modelled

    The socket, TLS and QUIC stacks and the database and Redis servers, which
    are code outside the repository; the delivery of timer ticks, which are
    events of the schedules; the interleaving of statements inside the audit
    transaction, which rests on the row locks of the database, and inside a
    call of the DNS core; floating-point rounding outside [Bench] (rates are
    rationals there); accessor methods; flags and printing of the commands;
    the user interfaces, which are in other languages. *)

From stdpp Require Export base gmap strings list pretty fin_maps.
From Stdlib Require Export ZArith Lia Ascii.

#[global] Open Scope Z_scope.

(** ** Outcomes

    A Go function that returns [(T, error)] returns [Ok t] or [Err msg]; a
    nil dereference or an out-of-range index is [Panic]. *)

Inductive outcome (A : Type) : Type :=
| Ok (a : A)
| Err (msg : string)
| Panic.
Arguments Ok {A} a.
Arguments Err {A} msg.
Arguments Panic {A}.

Definition outcome_bind {A B} (o : outcome A) (f : A → outcome B) : outcome B :=
  match o with
  | Ok a => f a
  | Err e => Err e
  | Panic => Panic
  end.

Declare Scope go_scope.
Delimit Scope go_scope with go.
Notation "'let!' x := c 'in' k" := (outcome_bind c (λ x, k))
  (at level 10, x pattern, c at level 200, k at level 200) : go_scope.

#[global] Instance outcome_eq_dec {A} `{EqDecision A} : EqDecision (outcome A).
Proof. solve_decision. Defined.

(** ** Machine integers

    A [w]-bit unsigned integer is a [Z] in [0, 2^w); conversions and
    arithmetic wrap as in Go. [int] and [int64] are 64-bit two's
    complement. *)

Definition u8 (z : Z) : Z := z mod 256.
Definition u16 (z : Z) : Z := z mod 65536.
Definition u32 (z : Z) : Z := z mod 4294967296.
Definition u64 (z : Z) : Z := z mod 18446744073709551616.
Definition i64 (z : Z) : Z :=
  (z + 9223372036854775808) mod 18446744073709551616 - 9223372036854775808.

Definition i32 (z : Z) : Z := (z + 2147483648) mod 4294967296 - 2147483648.

Definition is_u8 (z : Z) : Prop := 0 ≤ z < 256.
Definition is_u16 (z : Z) : Prop := 0 ≤ z < 65536.
Definition is_u32 (z : Z) : Prop := 0 ≤ z < 4294967296.

Lemma u8_bound z : is_u8 (u8 z).
Proof. apply Z.mod_pos_bound. lia. Qed.
Lemma u32_bound z : is_u32 (u32 z).
Proof. apply Z.mod_pos_bound. lia. Qed.
Lemma u8_small z : is_u8 z → u8 z = z.
Proof. apply Z.mod_small. Qed.
Lemma u16_small z : is_u16 z → u16 z = z.
Proof. apply Z.mod_small. Qed.
Lemma u32_small z : is_u32 z → u32 z = z.
Proof. apply Z.mod_small. Qed.

(** ** Automation *)

Create HintDb dns.
#[export] Hint Resolve u8_bound u32_bound : dns.

(** Turns the boolean comparisons of the code into propositions, one case
    per branch. *)
Ltac zbool :=
  repeat match goal with
  | H : (_ && _)%bool = true |- _ => apply andb_true_iff in H; destruct H
  | H : (_ || _)%bool = false |- _ => apply orb_false_iff in H; destruct H
  | H : negb _ = true |- _ => apply negb_true_iff in H
  | H : negb _ = false |- _ => apply negb_false_iff in H
  | H : (_ =? _)%Z = true |- _ => apply Z.eqb_eq in H
  | H : (_ =? _)%Z = false |- _ => apply Z.eqb_neq in H
  | H : (_ <? _)%Z = true |- _ => apply Z.ltb_lt in H
  | H : (_ <? _)%Z = false |- _ => apply Z.ltb_ge in H
  | H : (_ <=? _)%Z = true |- _ => apply Z.leb_le in H
  | H : (_ <=? _)%Z = false |- _ => apply Z.leb_gt in H
  | H : (_ =? _)%string = true |- _ => apply String.eqb_eq in H
  | H : (_ =? _)%string = false |- _ => apply String.eqb_neq in H
  | H : bool_decide _ = true |- _ => apply bool_decide_eq_true in H
  | H : bool_decide _ = false |- _ => apply bool_decide_eq_false in H
  end.

(** Linear arithmetic with division and remainder by constants. *)
Ltac divlia := Z.to_euclidean_division_equations; lia.

(** Case analysis on every [if] and [match] of the goal, keeping the
    equations. *)
Ltac split_ifs :=
  repeat case_match; zbool; simplify_eq/=.

(** ** Shared list lemmas *)

Section lists.
Context {A B : Type}.

(** The first element a predicate accepts: the shape of every
    [for _, r := range rs { if !p(r) { continue }; return f(r) }]. *)
Fixpoint first_match (p : A → bool) (l : list A) : option A :=
  match l with
  | [] => None
  | x :: l => if p x then Some x else first_match p l
  end.

Lemma first_match_Some p l x :
  first_match p l = Some x ↔
  ∃ l1 l2, l = l1 ++ x :: l2 ∧ p x = true ∧ Forall (λ y, p y = false) l1.
Proof.
  induction l as [|y l IH]; simpl.
  { split; [done|]. intros (l1 & l2 & H & _). by destruct l1. }
  destruct (p y) eqn:Hy.
  - split.
    + intros [= ->]. exists [], l. by repeat constructor.
    + intros (l1 & l2 & H & Hx & Hl1). destruct l1 as [|z l1]; simplify_eq/=; [done|].
      inversion Hl1; congruence.
  - rewrite IH. split.
    + intros (l1 & l2 & -> & Hx & Hl1). exists (y :: l1), l2. by repeat constructor.
    + intros (l1 & l2 & H & Hx & Hl1). destruct l1 as [|z l1]; simplify_eq/=; [congruence|].
      inversion Hl1; simplify_eq. eauto.
Qed.

Lemma first_match_None p l :
  first_match p l = None ↔ Forall (λ y, p y = false) l.
Proof.
  induction l as [|y l IH]; simpl; [by split; constructor|].
  destruct (p y) eqn:Hy; split; try done.
  - inversion 1; congruence.
  - intros H. constructor; [done|by apply IH].
  - inversion 1; by apply IH.
Qed.

(** The longest-match loop: [score] is the match length of an element
    ([None] when it does not match); the scan keeps the first element
    with the greatest score. *)
Fixpoint best_match (score : A → option Z) (l : list A) (best : option A) (bestLen : Z)
    : option A :=
  match l with
  | [] => best
  | x :: l =>
      match score x with
      | Some n => if bestLen <? n then best_match score l (Some x) n
                  else best_match score l best bestLen
      | None => best_match score l best bestLen
      end
  end.

Lemma best_match_spec score l best bestLen :
  match best_match score l best bestLen with
  | Some x =>
      (best = Some x ∧ ∀ y n, y ∈ l → score y = Some n → n ≤ bestLen) ∨
      (x ∈ l ∧ ∃ n, score x = Some n ∧ bestLen < n ∧
               ∀ y k, y ∈ l → score y = Some k → k ≤ n)
  | None => best = None ∧ ∀ y n, y ∈ l → score y = Some n → n ≤ bestLen
  end.
Proof.
  revert best bestLen. induction l as [|y l IH]; intros best bestLen; simpl.
  { destruct best; [left|]; (split; [done|intros ? ? H; by inversion H]). }
  destruct (score y) as [n|] eqn:Hy; [destruct (bestLen <? n) eqn:Hlt0; zbool|].
  - specialize (IH (Some y) n). destruct (best_match _ _ _ _) as [x|].
    + right. destruct IH as [[[= ->] Hle]|(Hin & k & Hk & Hlt & Hle)].
      * split; [left|]. exists n. repeat split; try done.
        intros z k [->|?]%elem_of_cons ?; [by simplify_eq|eauto].
      * split; [by right|]. exists k. repeat split; try done; [lia|].
        intros z j [->|?]%elem_of_cons ?; [simplify_eq; lia|eauto].
    + by destruct IH.
  - specialize (IH best bestLen). destruct (best_match _ _ _ _) as [x|].
    + destruct IH as [[-> Hle]|(Hin & k & Hk & Hlt & Hle)].
      * left. split; [done|]. intros z k [->|?]%elem_of_cons ?; [by simplify_eq|eauto].
      * right. split; [by right|]. exists k. repeat split; try done.
        intros z j [->|?]%elem_of_cons ?; [simplify_eq; lia|eauto].
    + destruct IH as [-> Hle]. split; [done|].
      intros z k [->|?]%elem_of_cons ?; [by simplify_eq|eauto].
  - specialize (IH best bestLen). destruct (best_match _ _ _ _) as [x|].
    + destruct IH as [[-> Hle]|(Hin & k & Hk & Hlt & Hle)].
      * left. split; [done|]. intros z k [->|?]%elem_of_cons ?; [congruence|eauto].
      * right. split; [by right|]. exists k. repeat split; try done.
        intros z j [->|?]%elem_of_cons ?; [congruence|eauto].
    + destruct IH as [-> Hle]. split; [done|].
      intros z k [->|?]%elem_of_cons ?; [congruence|eauto].
Qed.

(** The form both lookup tables use: the scan starts at [best = -1,
    bestLen = -1] and the scores are prefix lengths. *)
Lemma best_match_start score l :
  (∀ y n, y ∈ l → score y = Some n → 0 ≤ n) →
  match best_match score l None (-1) with
  | Some x => x ∈ l ∧ ∃ n, score x = Some n ∧ ∀ y k, y ∈ l → score y = Some k → k ≤ n
  | None => ∀ y, y ∈ l → score y = None
  end.
Proof.
  intros Hpos. pose proof (best_match_spec score l None (-1)) as H.
  destruct (best_match _ _ _ _) as [x|].
  - destruct H as [[? _]|(Hin & n & Hn & _ & Hle)]; [done|eauto].
  - destruct H as [_ Hle]. intros y Hy. destruct (score y) as [n|] eqn:Hn; [|done].
    specialize (Hle _ _ Hy Hn). specialize (Hpos _ _ Hy Hn). lia.
Qed.
End lists.
