(* ===== verification/GoStrings.v ===== *)
(** * The Go string library the sources use

    A Go string is a byte sequence: here a [string], one [ascii] per byte.
    The file models the functions of packages [strings], [unicode/utf8] and
    [fmt] that the repository calls: slicing, prefix and suffix tests,
    trimming, splitting, searching, the rune iteration of [for _, r := range s],
    case mapping, and the verbs [%d] and [%X].

    [strings.ToLower] and [ToUpper] map non-ASCII runes through the Unicode
    tables, which are the class [UnicodeCase]; everything about ASCII text,
    in particular every DNS name in presentation form, is independent of
    the instance. *)

From S2P Require Import Prelude.

(** ** Bytes and slices *)

Definition byte_of (c : ascii) : Z := Z.of_N (Ascii.N_of_ascii c).
Definition ascii_of (z : Z) : ascii := Ascii.ascii_of_N (Z.to_N z).

Lemma byte_of_bound c : is_u8 (byte_of c).
Proof.
  unfold is_u8, byte_of. pose proof (Ascii.N_ascii_bounded c). lia.
Qed.
Lemma ascii_of_byte c : ascii_of (byte_of c) = c.
Proof. unfold ascii_of, byte_of. rewrite N2Z.id. apply Ascii.ascii_N_embedding. Qed.
Lemma byte_of_ascii z : is_u8 z → byte_of (ascii_of z) = z.
Proof.
  unfold is_u8, ascii_of, byte_of. intros. rewrite Ascii.N_ascii_embedding; lia.
Qed.
Lemma byte_of_inj c d : byte_of c = byte_of d → c = d.
Proof. intros H. by rewrite <-(ascii_of_byte c), <-(ascii_of_byte d), H. Qed.

(** [[]byte(s)] and [string(b)]. *)
Fixpoint bytes_of (s : string) : list Z :=
  match s with
  | EmptyString => []
  | String c s => byte_of c :: bytes_of s
  end.
Fixpoint string_of_bytes (l : list Z) : string :=
  match l with
  | [] => EmptyString
  | b :: l => String (ascii_of b) (string_of_bytes l)
  end.

Lemma string_of_bytes_of s : string_of_bytes (bytes_of s) = s.
Proof. induction s as [|c s IH]; simpl; [done|]. by rewrite IH, ascii_of_byte. Qed.
Lemma bytes_of_string_of l : Forall is_u8 l → bytes_of (string_of_bytes l) = l.
Proof. induction 1; simpl; [done|]. by rewrite byte_of_ascii, IHForall. Qed.

(** [s[:n]] and [s[n:]] for [n <= len(s)]. *)
Fixpoint take_str (n : nat) (s : string) : string :=
  match n, s with
  | S n, String c s => String c (take_str n s)
  | _, _ => EmptyString
  end.
Fixpoint drop_str (n : nat) (s : string) : string :=
  match n, s with
  | O, _ => s
  | S n, String _ s => drop_str n s
  | S _, EmptyString => EmptyString
  end.

Abbreviation len := String.length.

#[global] Arguments String.append !_ _ : simpl nomatch.

Lemma bytes_of_app s t : bytes_of (s +:+ t) = bytes_of s ++ bytes_of t.
Proof. induction s; simpl; congruence. Qed.
Lemma append_nil_r s : (s +:+ "")%string = s.
Proof. induction s; simpl; congruence. Qed.
Lemma append_assoc_str s t u : ((s +:+ t) +:+ u = s +:+ (t +:+ u))%string.
Proof. induction s; simpl; congruence. Qed.
Lemma length_append s t : len (s +:+ t) = (len s + len t)%nat.
Proof. induction s; simpl; congruence. Qed.
Lemma append_inj_l s t u : (s +:+ t = s +:+ u)%string → t = u.
Proof. induction s; simpl; [done|]. intros [= ?]. auto. Qed.
Lemma take_drop_str n s : (take_str n s +:+ drop_str n s)%string = s.
Proof. revert n. induction s; intros [|n]; simpl; try done. by rewrite IHs. Qed.
Lemma take_str_app s t : take_str (len s) (s +:+ t) = s.
Proof. induction s as [|c s IH]; simpl; [by destruct t|]. by rewrite IH. Qed.
Lemma drop_str_app s t : drop_str (len s) (s +:+ t) = t.
Proof. induction s; simpl; done. Qed.
Lemma length_drop_str n s : len (drop_str n s) = (len s - n)%nat.
Proof. revert n. induction s; intros [|n]; simpl; try done; apply IHs. Qed.
Lemma length_take_str n s : len (take_str n s) = (n `min` len s)%nat.
Proof. revert n. induction s; intros [|n]; simpl; try done. by rewrite IHs. Qed.
Lemma app_inj_len s1 s2 t1 t2 :
  len t1 = len t2 → (s1 +:+ t1 = s2 +:+ t2)%string → s1 = s2 ∧ t1 = t2.
Proof.
  revert s2. induction s1 as [|c s1 IH]; intros [|d s2] Hl; simpl.
  - done.
  - intros ->. simpl in Hl. rewrite length_append in Hl. lia.
  - intros <-. simpl in Hl. rewrite length_append in Hl. lia.
  - intros [= -> H]. destruct (IH s2 Hl H). by subst.
Qed.

(** ** Prefixes, suffixes, search *)

Fixpoint HasPrefix (s p : string) {struct p} : bool :=
  match p, s with
  | EmptyString, _ => true
  | String c p, String d s => Ascii.eqb c d && HasPrefix s p
  | String _ _, EmptyString => false
  end.
Definition HasSuffix (s suf : string) : bool :=
  Nat.leb (len suf) (len s) && (drop_str (len s - len suf) s =? suf)%string.
Definition TrimPrefix (s p : string) : string :=
  if HasPrefix s p then drop_str (len p) s else s.
Definition TrimSuffix (s suf : string) : string :=
  if HasSuffix s suf then take_str (len s - len suf) s else s.

(** [strings.Index]; [None] is -1. *)
Fixpoint Index (s sub : string) : option nat :=
  if HasPrefix s sub then Some O
  else match s with
       | EmptyString => None
       | String _ s => S <$> Index s sub
       end.
Definition Contains (s sub : string) : bool := bool_decide (is_Some (Index s sub)).

(** [strings.Split(s, sep)] for a one-byte separator, the only ones used. *)
Fixpoint Split (s : string) (sep : ascii) : list string :=
  match s with
  | EmptyString => [EmptyString]
  | String c s =>
      if Ascii.eqb c sep then EmptyString :: Split s sep
      else match Split s sep with
           | [] => [String c EmptyString]
           | x :: l => String c x :: l
           end
  end.
Fixpoint Join (l : list string) (sep : string) : string :=
  match l with
  | [] => EmptyString
  | [x] => x
  | x :: l => (x +:+ sep +:+ Join l sep)%string
  end.
(** [strings.Count(s, c)] for a one-byte [c]. *)
Fixpoint CountByte (s : string) (c : ascii) : Z :=
  match s with
  | EmptyString => 0
  | String d s => (if Ascii.eqb d c then 1 else 0) + CountByte s c
  end.

Lemma HasPrefix_spec s p : HasPrefix s p = true ↔ ∃ t, s = (p +:+ t)%string.
Proof.
  revert s. induction p as [|c p IH]; intros s; simpl.
  { split; [intros _; by exists s|done]. }
  destruct s as [|d s].
  { split; [done|]. intros [t H]. done. }
  rewrite andb_true_iff, IH, Ascii.eqb_eq. split.
  - intros [-> [t ->]]. by exists t.
  - intros [t [= -> ->]]. eauto.
Qed.
Lemma HasPrefix_app p t : HasPrefix (p +:+ t) p = true.
Proof. apply HasPrefix_spec. eauto. Qed.
Lemma HasSuffix_spec s suf : HasSuffix s suf = true ↔ ∃ t, s = (t +:+ suf)%string.
Proof.
  unfold HasSuffix. rewrite andb_true_iff, Nat.leb_le, String.eqb_eq. split.
  - intros [Hl Hd]. exists (take_str (len s - len suf) s).
    rewrite <-Hd at 2. by rewrite take_drop_str.
  - intros [t ->]. rewrite length_append. split; [lia|].
    replace (len t + len suf - len suf)%nat with (len t) by lia. apply drop_str_app.
Qed.
Lemma HasSuffix_app t suf : HasSuffix (t +:+ suf) suf = true.
Proof. apply HasSuffix_spec. eauto. Qed.
Lemma TrimSuffix_app t suf : TrimSuffix (t +:+ suf) suf = t.
Proof.
  unfold TrimSuffix. rewrite HasSuffix_app, length_append.
  replace (len t + len suf - len suf)%nat with (len t) by lia. apply take_str_app.
Qed.
Lemma TrimPrefix_app p t : TrimPrefix (p +:+ t) p = t.
Proof. unfold TrimPrefix. by rewrite HasPrefix_app, drop_str_app. Qed.

Lemma Index_Some s sub n :
  Index s sub = Some n → (take_str n s +:+ sub +:+ drop_str (n + len sub) s)%string = s ∧ (n ≤ len s)%nat.
Proof.
  revert n. induction s as [|c s IH]; intros n; simpl.
  - destruct sub; simpl; [|done]. intros [= <-]. by split.
  - destruct (HasPrefix (String c s) sub) eqn:Hp.
    + intros [= <-]. apply HasPrefix_spec in Hp as [t Ht]. simpl. rewrite Ht, drop_str_app.
      split; [done|lia].
    + intros (m & Hm & ->)%fmap_Some. destruct (IH _ Hm) as [H1 H2]. simpl. rewrite H1. split; [done|lia].
Qed.

Lemma Split_ne s sep : Split s sep ≠ [].
Proof. destruct s as [|c s]; simpl; [done|]. case_match; [done|]. by destruct (Split s sep). Qed.
Lemma Join_cons x l sep : l ≠ [] → Join (x :: l) sep = (x +:+ sep +:+ Join l sep)%string.
Proof. by destruct l. Qed.
Lemma Join_Split s sep : Join (Split s sep) (String sep EmptyString) = s.
Proof.
  induction s as [|c s IH]; simpl; [done|].
  destruct (Ascii.eqb_spec c sep) as [->|].
  - rewrite Join_cons by apply Split_ne. simpl. by rewrite IH.
  - pose proof (Split_ne s sep). destruct (Split s sep) as [|x [|y l]]; [done| |]; simpl in *; congruence.
Qed.

(** ** Runes: [for _, r := range s]

    [range_string s] lists the runes of [s] with the bytes each was decoded
    from. As in Go, a byte that starts no valid UTF-8 sequence gives
    [RuneError] and consumes one byte. *)

Definition RuneError : Z := 65533.

Definition is_cont (b : Z) : bool := (128 <=? b) && (b <=? 191).
(** The admissible second bytes of a three- or four-byte sequence. *)
Definition second_ok (b0 b1 : Z) : bool :=
  if b0 =? 224 then (160 <=? b1) && (b1 <=? 191)
  else if b0 =? 237 then (128 <=? b1) && (b1 <=? 159)
  else if b0 =? 240 then (144 <=? b1) && (b1 <=? 191)
  else if b0 =? 244 then (128 <=? b1) && (b1 <=? 143)
  else is_cont b1.

Abbreviation low6 b := (Z.land b 63).

Fixpoint range_string (s : string) : list (Z * string) :=
  match s with
  | EmptyString => []
  | String c0 r0 =>
      let b0 := byte_of c0 in
      let bad (_ : unit) := (RuneError, String c0 EmptyString) :: range_string r0 in
      if b0 <? 128 then (b0, String c0 EmptyString) :: range_string r0
      else if (194 <=? b0) && (b0 <=? 223) then
        match r0 with
        | String c1 r1 =>
            let b1 := byte_of c1 in
            if is_cont b1
            then (Z.land b0 31 * 64 + low6 b1, String c0 (String c1 EmptyString)) :: range_string r1
            else bad tt
        | _ => bad tt
        end
      else if (224 <=? b0) && (b0 <=? 239) then
        match r0 with
        | String c1 (String c2 r2) =>
            let b1 := byte_of c1 in
            let b2 := byte_of c2 in
            if second_ok b0 b1 && is_cont b2
            then (Z.land b0 15 * 4096 + low6 b1 * 64 + low6 b2,
                  String c0 (String c1 (String c2 EmptyString))) :: range_string r2
            else bad tt
        | _ => bad tt
        end
      else if (240 <=? b0) && (b0 <=? 244) then
        match r0 with
        | String c1 (String c2 (String c3 r3)) =>
            let b1 := byte_of c1 in
            let b2 := byte_of c2 in
            let b3 := byte_of c3 in
            if second_ok b0 b1 && is_cont b2 && is_cont b3
            then (Z.land b0 7 * 262144 + low6 b1 * 4096 + low6 b2 * 64 + low6 b3,
                  String c0 (String c1 (String c2 (String c3 EmptyString)))) :: range_string r3
            else bad tt
        | _ => bad tt
        end
      else bad tt
  end.

Definition runes (s : string) : list Z := (range_string s).*1.

Definition is_ascii_string (s : string) : bool := forallb (λ b, b <? 128) (bytes_of s).

Lemma is_ascii_cons c s :
  is_ascii_string (String c s) = (byte_of c <? 128) && is_ascii_string s.
Proof. done. Qed.
Lemma is_ascii_app s t : is_ascii_string (s +:+ t) = is_ascii_string s && is_ascii_string t.
Proof. induction s; simpl; [done|]. by rewrite !is_ascii_cons, IHs, andb_assoc. Qed.

Lemma range_string_ascii s :
  is_ascii_string s = true →
  range_string s = (λ b, (b, String (ascii_of b) EmptyString)) <$> bytes_of s.
Proof.
  induction s as [|c s IH]; [done|]. rewrite is_ascii_cons, andb_true_iff.
  intros [Hc Hs]. simpl. by rewrite Hc, IH, ascii_of_byte.
Qed.
Lemma runes_ascii s : is_ascii_string s = true → runes s = bytes_of s.
Proof.
  intros H. unfold runes. rewrite range_string_ascii by done. rewrite <-list_fmap_compose.
  apply list_fmap_id.
Qed.

Definition concat_str (l : list string) : string := foldr String.append EmptyString l.

Lemma concat_str_app l1 l2 : concat_str (l1 ++ l2) = (concat_str l1 +:+ concat_str l2)%string.
Proof. induction l1; simpl; [done|]. by rewrite IHl1, append_assoc_str. Qed.

(** [utf8.AppendRune] for a valid rune. *)
Definition encode_rune (r : Z) : string :=
  string_of_bytes
    (if r <? 128 then [r]
     else if r <? 2048 then [192 + r / 64; 128 + r mod 64]
     else if r <? 65536 then [224 + r / 4096; 128 + (r / 64) mod 64; 128 + r mod 64]
     else [240 + r / 262144; 128 + (r / 4096) mod 64; 128 + (r / 64) mod 64; 128 + r mod 64]).

(** ** Case mapping *)

Class UnicodeCase := {
  unicode_lower : Z → Z;   (* unicode.ToLower on a rune >= 0x80 *)
  unicode_upper : Z → Z;   (* unicode.ToUpper on a rune >= 0x80 *)
}.
(** An instance without cased letters outside ASCII, for evaluation. *)
Definition ascii_case : UnicodeCase := {| unicode_lower r := r; unicode_upper r := r |}.

Definition lower_byte (b : Z) : Z := if (65 <=? b) && (b <=? 90) then b + 32 else b.
Definition upper_byte (b : Z) : Z := if (97 <=? b) && (b <=? 122) then b - 32 else b.

Definition ToLower `{UnicodeCase} (s : string) : string :=
  if is_ascii_string s then string_of_bytes (lower_byte <$> bytes_of s)
  else concat_str ((λ r, encode_rune (if r <? 128 then lower_byte r else unicode_lower r)) <$> runes s).
Definition ToUpper `{UnicodeCase} (s : string) : string :=
  if is_ascii_string s then string_of_bytes (upper_byte <$> bytes_of s)
  else concat_str ((λ r, encode_rune (if r <? 128 then upper_byte r else unicode_upper r)) <$> runes s).

Lemma lower_byte_bound b : is_u8 b → is_u8 (lower_byte b).
Proof. unfold is_u8, lower_byte. intros. case_match; zbool; lia. Qed.
Lemma lower_byte_ascii b : b < 128 → lower_byte b < 128.
Proof. unfold lower_byte. intros. case_match; zbool; lia. Qed.
Lemma lower_byte_idemp b : lower_byte (lower_byte b) = lower_byte b.
Proof. unfold lower_byte. repeat case_match; zbool; lia. Qed.

Lemma ToLower_nil `{UnicodeCase} : ToLower "" = "".
Proof. done. Qed.
Lemma ToLower_cons `{UnicodeCase} c s :
  is_ascii_string (String c s) = true →
  ToLower (String c s) = String (ascii_of (lower_byte (byte_of c))) (ToLower s).
Proof.
  intros Ha. unfold ToLower. rewrite Ha. rewrite is_ascii_cons, andb_true_iff in Ha.
  destruct Ha as [_ ->]. done.
Qed.
Lemma ToLower_ascii `{UnicodeCase} s :
  is_ascii_string s = true → is_ascii_string (ToLower s) = true.
Proof.
  induction s as [|c s IH]; [done|]. intros Ha. rewrite ToLower_cons by done.
  rewrite is_ascii_cons, andb_true_iff in Ha |- *. destruct Ha as [Hc Hs].
  split; [|auto]. rewrite byte_of_ascii by apply lower_byte_bound, byte_of_bound.
  apply Z.ltb_lt, lower_byte_ascii. by apply Z.ltb_lt.
Qed.
Lemma ToLower_idemp `{UnicodeCase} s :
  is_ascii_string s = true → ToLower (ToLower s) = ToLower s.
Proof.
  induction s as [|c s IH]; [done|]. intros Ha.
  pose proof (ToLower_ascii _ Ha) as Ha'. rewrite ToLower_cons in Ha' |- * by done.
  rewrite ToLower_cons by done. rewrite is_ascii_cons, andb_true_iff in Ha.
  rewrite IH by apply Ha. rewrite byte_of_ascii by apply lower_byte_bound, byte_of_bound.
  by rewrite lower_byte_idemp.
Qed.
Lemma ToLower_app `{UnicodeCase} s t :
  is_ascii_string (s +:+ t) = true → ToLower (s +:+ t) = (ToLower s +:+ ToLower t)%string.
Proof.
  induction s as [|c s IH]; [done|]. intros Ha. change (String c s +:+ t)%string with (String c (s +:+ t)) in *.
  rewrite ToLower_cons by done. rewrite is_ascii_cons, andb_true_iff in Ha. destruct Ha as [Hc Hs].
  rewrite IH by done. rewrite ToLower_cons; [done|].
  rewrite is_ascii_cons, Hc. rewrite is_ascii_app, andb_true_iff in Hs. by destruct Hs as [-> _].
Qed.
Lemma length_ToLower `{UnicodeCase} s :
  is_ascii_string s = true → len (ToLower s) = len s.
Proof.
  induction s as [|c s IH]; [done|]. intros Ha. rewrite ToLower_cons by done. simpl.
  rewrite is_ascii_cons, andb_true_iff in Ha. by rewrite IH by apply Ha.
Qed.

(** ** Trimming *)

Definition is_space (r : Z) : bool :=
  ((9 <=? r) && (r <=? 13)) || (r =? 32) || (r =? 133) || (r =? 160) || (r =? 5760)
  || ((8192 <=? r) && (r <=? 8202)) || (r =? 8232) || (r =? 8233) || (r =? 8239)
  || (r =? 8287) || (r =? 12288).

Fixpoint drop_while {A} (p : A → bool) (l : list A) : list A :=
  match l with
  | [] => []
  | x :: l => if p x then drop_while p l else x :: l
  end.

(** [strings.TrimSpace] *)
Definition TrimSpace (s : string) : string :=
  let sp := λ x : Z * string, is_space x.1 in
  concat_str ((reverse (drop_while sp (reverse (drop_while sp (range_string s))))).*2).

(** ** Formatting: [%d] of an integer and [%X] of a rune *)

Definition fmt_d (z : Z) : string := pretty z.

Definition hex_digit (upper : bool) (d : Z) : ascii :=
  ascii_of (if d <? 10 then 48 + d else if upper then 55 + d else 87 + d).
Fixpoint hex_go (upper : bool) (fuel : nat) (z : Z) (acc : string) : string :=
  match fuel with
  | O => acc
  | S fuel =>
      let acc := String (hex_digit upper (z mod 16)) acc in
      if z / 16 =? 0 then acc else hex_go upper fuel (z / 16) acc
  end.
(** Sixteen digits cover every 64-bit value. *)
Definition fmt_X (z : Z) : string := hex_go true 16 z EmptyString.
(** [%q]: the string between double quotes with the escapes of
    [strconv.Quote]. Beyond ASCII every rune counts as printable. *)
Definition quote_byte (b : Z) : string :=
  let esc (c : Z) := string_of_bytes [92; c] in
  if b =? 34 then esc 34 else if b =? 92 then esc 92
  else if b =? 7 then esc 97 else if b =? 8 then esc 98 else if b =? 12 then esc 102 else if b =? 10 then esc 110
  else if b =? 13 then esc 114 else if b =? 9 then esc 116 else if b =? 11 then esc 118
  else if (b <? 32) || (b =? 127)
  then (esc 120 +:+ String (hex_digit false (b / 16)) (String (hex_digit false (b mod 16)) EmptyString))%string
  else string_of_bytes [b].
Definition fmt_q (s : string) : string :=
  (string_of_bytes [34] +:+ foldr (λ b acc, quote_byte b +:+ acc) "" (bytes_of s) +:+ string_of_bytes [34])%string.
Definition fmt_x (z : Z) : string := hex_go false 16 z EmptyString.

Example fmt_X_ex : fmt_X 0x4E2D = "4E2D" ∧ fmt_X 0 = "0" ∧ fmt_d (-12) = "-12".
Proof. done. Qed.
Example TrimSpace_ex : TrimSpace ("  a b " +:+ string_of_bytes [227; 128; 128]) = "a b".
Proof. vm_compute. done. Qed.
Example ToLower_ex : @ToLower ascii_case "WWW.Example.COM" = "www.example.com".
Proof. vm_compute. done. Qed.
Example runes_ex : runes "a中" = [97; 0x4E2D].
Proof. vm_compute. done. Qed.
