(* ===== verification/GoNet.v ===== *)
(** * Package [net]: addresses, masks, networks, parsing and printing

    [net.IP] and [net.IPMask] are byte slices: lists of bytes, [[]] being the
    nil slice. The functions follow the Go implementation, including the two
    representations of an IPv4 address (4 bytes, or 16 bytes with the
    [::ffff:0:0/96] prefix), which the sources have to handle. *)

From S2P Require Import Prelude GoStrings.

Abbreviation IP := (list Z).
Abbreviation IPMask := (list Z).

Definition v4InV6Prefix : list Z := [0;0;0;0;0;0;0;0;0;0;255;255].
Definition is_nil {A} (l : list A) : bool := match l with [] => true | _ => false end.
Definition IPv4 (a b c d : Z) : IP := v4InV6Prefix ++ [a; b; c; d].

Definition To4 (ip : IP) : IP :=
  if Nat.eqb (length ip) 4 then ip
  else if Nat.eqb (length ip) 16 && bool_decide (take 12 ip = v4InV6Prefix) then drop 12 ip
  else [].
Definition To16 (ip : IP) : IP :=
  if Nat.eqb (length ip) 4 then v4InV6Prefix ++ ip
  else if Nat.eqb (length ip) 16 then ip
  else [].

(** One byte of a CIDR mask with [n] leading ones still to place. *)
Definition mask_byte (n : Z) : Z :=
  if 8 <=? n then 255 else if n <=? 0 then 0 else 256 - 2 ^ (8 - n).
Fixpoint mask_bytes (k : nat) (ones : Z) : IPMask :=
  match k with
  | O => []
  | S k => mask_byte ones :: mask_bytes k (ones - 8)
  end.
Definition CIDRMask (ones bits : Z) : IPMask :=
  if negb ((bits =? 32) || (bits =? 128)) then []
  else if (ones <? 0) || (bits <? ones) then []
  else mask_bytes (Z.to_nat (bits / 8)) ones.

Definition and_bytes (a b : list Z) : list Z := zip_with Z.land a b.

(** [ip.Mask(mask)] *)
Definition Mask (ip : IP) (mask : IPMask) : IP :=
  let mask := if Nat.eqb (length mask) 16 && Nat.eqb (length ip) 4
                 && bool_decide (take 12 mask = replicate 12 255)
              then drop 12 mask else mask in
  let ip := if Nat.eqb (length mask) 4 && Nat.eqb (length ip) 16
               && bool_decide (take 12 ip = v4InV6Prefix)
            then drop 12 ip else ip in
  if Nat.eqb (length ip) (length mask) then and_bytes ip mask else [].

(** The number of leading ones of a mask byte, [None] when the byte is not
    ones followed by zeros. *)
Definition byte_ones (b : Z) : option Z :=
  if b =? 255 then Some 8 else if b =? 254 then Some 7 else if b =? 252 then Some 6
  else if b =? 248 then Some 5 else if b =? 240 then Some 4 else if b =? 224 then Some 3
  else if b =? 192 then Some 2 else if b =? 128 then Some 1 else if b =? 0 then Some 0
  else None.
Fixpoint simpleMaskLength (m : IPMask) : option Z :=
  match m with
  | [] => Some 0
  | b :: m =>
      if b =? 255 then Z.add 8 <$> simpleMaskLength m
      else if forallb (λ x, x =? 0) m then byte_ones b else None
  end.
(** [mask.Size()]: (ones, bits), (0, 0) for a non-canonical mask. *)
Definition Size (m : IPMask) : Z * Z :=
  match simpleMaskLength m with
  | Some n => (n, Z.of_nat (length m) * 8)
  | None => (0, 0)
  end.

Record IPNet := { net_ip : IP; net_mask : IPMask }.

Definition networkNumberAndMask (n : IPNet) : IP * IPMask :=
  let ip := if is_nil (To4 (net_ip n)) then net_ip n else To4 (net_ip n) in
  if is_nil (To4 (net_ip n)) && negb (Nat.eqb (length ip) 16) then ([], [])
  else
    let m := net_mask n in
    if Nat.eqb (length m) 4 then if Nat.eqb (length ip) 4 then (ip, m) else ([], [])
    else if Nat.eqb (length m) 16 then if Nat.eqb (length ip) 4 then (ip, drop 12 m) else (ip, m)
    else ([], []).

(** [n.Contains(ip)] *)
Definition NetContains (n : IPNet) (ip : IP) : bool :=
  let '(nn, m) := networkNumberAndMask n in
  let ip := if is_nil (To4 ip) then ip else To4 ip in
  Nat.eqb (length ip) (length nn) && bool_decide (and_bytes nn m = and_bytes ip m).

(** ** Parsing: [netip.ParseAddr], [net.ParseIP], [net.ParseCIDR] *)

Definition is_digit (c : ascii) : bool := (48 <=? byte_of c) && (byte_of c <=? 57).

(** [dtoi]: all of [s] must be decimal digits and the value below
    [0xFFFFFF]. *)
Fixpoint dtoi_go (s : string) (acc : Z) : option Z :=
  match s with
  | EmptyString => Some acc
  | String c s =>
      if is_digit c then
        let acc := acc * 10 + (byte_of c - 48) in
        if 16777215 <=? acc then None else dtoi_go s acc
      else None
  end.
Definition dtoi (s : string) : option Z :=
  match s with EmptyString => None | _ => dtoi_go s 0 end.

(** One octet of a dotted quad: digits, at most 255, no leading zero. *)
Definition parse_octet (s : string) : option Z :=
  match s with
  | EmptyString => None
  | String c rest =>
      if (byte_of c =? 48) && negb (rest =? "")%string then None
      else match dtoi s with
           | Some n => if n <=? 255 then Some n else None
           | None => None
           end
  end.
Definition parseIPv4 (s : string) : option IP :=
  match Split s "." with
  | [a; b; c; d] =>
      match parse_octet a, parse_octet b, parse_octet c, parse_octet d with
      | Some a, Some b, Some c, Some d => Some [a; b; c; d]
      | _, _, _, _ => None
      end
  | _ => None
  end.

Definition hex_val (c : ascii) : option Z :=
  let b := byte_of c in
  if (48 <=? b) && (b <=? 57) then Some (b - 48)
  else if (97 <=? b) && (b <=? 102) then Some (b - 87)
  else if (65 <=? b) && (b <=? 70) then Some (b - 55)
  else None.
(** Reads a group of at most four hex digits: (value, digits, rest). *)
Fixpoint hex_group (s : string) (off acc : Z) : option (Z * Z * string) :=
  match s with
  | EmptyString => Some (acc, off, s)
  | String c r =>
      match hex_val c with
      | Some d => if 3 <? off then None else hex_group r (off + 1) (acc * 16 + d)
      | None => Some (acc, off, s)
      end
  end.

(** The group loop of [parseIPv6]: [acc] holds the bytes read so far and
    [ell] the position of the ellipsis. At most eight groups are read. *)
Fixpoint parse6_loop (fuel : nat) (s : string) (acc : IP) (ell : option nat)
    : option (IP * option nat * string) :=
  match fuel with
  | O => Some (acc, ell, s)
  | S fuel =>
      match hex_group s 0 0 with
      | None => None
      | Some (v, off, r) =>
          if off =? 0 then None
          else if HasPrefix r "." then
            if bool_decide (ell = None) && negb (Nat.eqb (length acc) 12) then None
            else if Nat.ltb 16 (length acc + 4) then None
            else match parseIPv4 s with
                 | Some q => Some (acc ++ q, ell, EmptyString)
                 | None => None
                 end
          else
            let acc := acc ++ [v / 256; v mod 256] in
            match r with
            | EmptyString => Some (acc, ell, EmptyString)
            | String c r1 =>
                if negb (Ascii.eqb c ":") then None
                else match r1 with
                     | EmptyString => None
                     | String c2 r2 =>
                         if Ascii.eqb c2 ":" then
                           match ell with
                           | Some _ => None
                           | None =>
                               match r2 with
                               | EmptyString => Some (acc, Some (length acc), EmptyString)
                               | _ => parse6_loop fuel r2 acc (Some (length acc))
                               end
                           end
                         else parse6_loop fuel r1 acc ell
                     end
            end
      end
  end.
Definition parseIPv6 (s : string) : option IP :=
  if Contains s "%" then None
  else if (s =? "::")%string then Some (replicate 16 0)
  else
    let '(s, ell) := if HasPrefix s "::" then (drop_str 2 s, Some O) else (s, None) in
    match parse6_loop 8 s [] ell with
    | Some (acc, ell, EmptyString) =>
        if Nat.ltb (length acc) 16 then
          match ell with
          | None => None
          | Some e => Some (take e acc ++ replicate (16 - length acc) 0 ++ drop e acc)
          end
        else match ell with Some _ => None | None => Some acc end
    | _ => None
    end.

(** [netip.ParseAddr] without zones: 4 bytes for IPv4, 16 for IPv6. The
    first of ['.'], [':'] and ['%'] selects the parser. *)
Fixpoint ParseAddr_kind (s : string) : option ascii :=
  match s with
  | EmptyString => None
  | String c s =>
      if Ascii.eqb c "." || Ascii.eqb c ":" || Ascii.eqb c "%" then Some c else ParseAddr_kind s
  end.
Definition ParseAddr (s : string) : option IP :=
  match ParseAddr_kind s with
  | Some c => if Ascii.eqb c "." then parseIPv4 s
              else if Ascii.eqb c ":" then parseIPv6 s else None
  | None => None
  end.

(** [net.ParseIP]: always the 16-byte form, [[]] on failure. *)
Definition ParseIP (s : string) : IP :=
  match ParseAddr s with Some a => To16 a | None => [] end.

(** [net.ParseCIDR]: the network ([None] on error). *)
Definition ParseCIDR (s : string) : option IPNet :=
  match Index s "/" with
  | None => None
  | Some i =>
      match ParseAddr (take_str i s), dtoi (drop_str (i + 1) s) with
      | Some a, Some n =>
          let bits := Z.of_nat (length a) * 8 in
          if bits <? n then None
          else let m := CIDRMask n bits in
               Some {| net_ip := Mask (To16 a) m; net_mask := m |}
      | _, _ => None
      end
  end.

(** ** Printing: [ip.String()] *)

Fixpoint groups16 (ip : IP) : list Z :=
  match ip with
  | a :: b :: r => (a * 256 + b) :: groups16 r
  | _ => []
  end.
(** The first longest run of at least two zero groups: (start, end). *)
Fixpoint zero_run (g : list Z) : nat :=
  match g with z :: g => if z =? 0 then S (zero_run g) else O | [] => O end.
Fixpoint find_zeros (g : list Z) (i : nat) (best : option (nat * nat)) : option (nat * nat) :=
  match g with
  | [] => best
  | _ :: r =>
      let l := zero_run g in
      let cur := match best with Some (s, e) => (e - s)%nat | None => O end in
      find_zeros r (S i) (if Nat.leb 2 l && Nat.ltb cur l then Some (i, (i + l)%nat) else best)
  end.
Definition hex_groups (g : list Z) : string := Join (fmt_x <$> g) ":".
Definition string6 (ip : IP) : string :=
  let g := groups16 ip in
  match find_zeros g 0 None with
  | None => hex_groups g
  | Some (s, e) => (hex_groups (take s g) +:+ "::" +:+ hex_groups (drop e g))%string
  end.
Definition string4 (ip : IP) : string := Join (fmt_d <$> ip) ".".
Definition hexString (ip : IP) : string :=
  concat_str ((λ b, String (hex_digit false (b / 16)) (String (hex_digit false (b mod 16)) EmptyString)) <$> ip).
Definition IPString (ip : IP) : string :=
  if is_nil ip then "<nil>"
  else if negb (Nat.eqb (length ip) 4 || Nat.eqb (length ip) 16) then ("?" +:+ hexString ip)%string
  else if is_nil (To4 ip) then string6 ip else string4 (To4 ip).

Example ParseIP_ex1 : ParseIP "203.0.113.7" = IPv4 203 0 113 7.
Proof. vm_compute. done. Qed.
Example ParseIP_ex2 :
  ParseIP "2001:db8::1" = [32;1;13;184;0;0;0;0;0;0;0;0;0;0;0;1] ∧
  ParseIP "::ffff:1.2.3.4" = IPv4 1 2 3 4 ∧ ParseIP "1::2::3" = [] ∧ ParseIP "1.2.3.04" = [].
Proof. vm_compute. done. Qed.
Example IPString_ex :
  IPString (ParseIP "2001:DB8:0:0:1:0:0:1") = "2001:db8::1:0:0:1" ∧ IPString (ParseIP "::1") = "::1".
Proof. vm_compute. done. Qed.
Example ParseCIDR_ex :
  ParseCIDR "1.2.3.4/24" = Some {| net_ip := [1;2;3;0]; net_mask := [255;255;255;0] |}.
Proof. vm_compute. done. Qed.

(** ** Masks *)

Lemma length_mask_bytes k n : length (mask_bytes k n) = k.
Proof. revert n. induction k; intros n; simpl; [done|]. by rewrite IHk. Qed.

Lemma mask_bytes_zero k n : n ≤ 0 → mask_bytes k n = replicate k 0.
Proof.
  revert n. induction k as [|k IH]; intros n Hn; simpl; [done|].
  rewrite IH by lia. unfold mask_byte. repeat case_match; zbool; try lia. done.
Qed.

(** A property of the integers in [lo, lo+n) checked by evaluation. *)
Lemma forall_range (P : Z → bool) (lo : Z) (n : nat) :
  forallb P ((λ i, lo + Z.of_nat i) <$> seq 0 n) = true →
  ∀ z, lo ≤ z < lo + Z.of_nat n → P z = true.
Proof.
  intros H z Hz. rewrite forallb_forall in H. apply H, list_elem_of_In.
  apply list_elem_of_fmap. exists (Z.to_nat (z - lo)). split; [lia|].
  apply elem_of_seq. lia.
Qed.

Lemma mask_byte_ones n : 0 ≤ n < 8 →
  byte_ones (mask_byte n) = Some n ∧ mask_byte n ≠ 255.
Proof.
  intros Hn.
  assert (bool_decide (byte_ones (mask_byte n) = Some n ∧ mask_byte n ≠ 255) = true) as H.
  { revert n Hn. refine (forall_range _ 0 8 _). vm_compute. done. }
  by apply bool_decide_eq_true in H.
Qed.

Lemma simpleMaskLength_mask_bytes k n :
  0 ≤ n ≤ 8 * Z.of_nat k → simpleMaskLength (mask_bytes k n) = Some n.
Proof.
  revert n. induction k as [|k IH]; intros n Hn; simpl; [f_equal; lia|].
  destruct (decide (8 ≤ n)) as [H8|H8].
  - replace (mask_byte n) with 255 by (unfold mask_byte; case_match; zbool; [done|lia]).
    simpl. rewrite IH by lia. simpl. f_equal. lia.
  - destruct (mask_byte_ones n) as [H1 H2]; [lia|].
    apply Z.eqb_neq in H2. rewrite H2, mask_bytes_zero by lia.
    replace (forallb _ (replicate k 0)) with true; [done|].
    symmetry. clear. induction k; simpl; auto.
Qed.

Lemma CIDRMask_length ones bits :
  (bits = 32 ∨ bits = 128) → 0 ≤ ones ≤ bits →
  CIDRMask ones bits = mask_bytes (Z.to_nat (bits / 8)) ones.
Proof.
  intros Hb Ho. unfold CIDRMask.
  replace ((bits =? 32) || (bits =? 128)) with true by (symmetry; destruct Hb as [-> | ->]; done).
  replace ((ones <? 0) || (bits <? ones)) with false; [done|].
  symmetry. apply orb_false_iff. split; apply Z.ltb_ge; lia.
Qed.

Lemma Size_CIDRMask ones bits :
  (bits = 32 ∨ bits = 128) → 0 ≤ ones ≤ bits → Size (CIDRMask ones bits) = (ones, bits).
Proof.
  intros Hb Ho. rewrite CIDRMask_length by done. unfold Size.
  rewrite simpleMaskLength_mask_bytes, length_mask_bytes.
  - f_equal. destruct Hb as [-> | ->]; done.
  - destruct Hb as [-> | ->]; [change (Z.to_nat (32 / 8)) with 4%nat|change (Z.to_nat (128 / 8)) with 16%nat]; lia.
Qed.

Lemma and_bytes_idemp a m : and_bytes (and_bytes a m) m = and_bytes a m.
Proof.
  revert m. induction a as [|x a IH]; intros [|y m]; simpl; try done.
  unfold and_bytes in *. simpl. by rewrite IH, <-Z.land_assoc, Z.land_diag.
Qed.
Lemma length_and_bytes a m : length a = length m → length (and_bytes a m) = length a.
Proof. intros. unfold and_bytes. rewrite length_zip_with. lia. Qed.

Lemma Mask_same_length ip m :
  length ip = length m → Mask ip m = and_bytes ip m.
Proof.
  intros H. unfold Mask. destruct (Nat.eqb_spec (length m) 16) as [H16|H16]; simpl.
  - replace (Nat.eqb (length ip) 4) with false by (symmetry; apply Nat.eqb_neq; lia).
    simpl. rewrite H16. simpl. rewrite H, ?H16. done.
  - destruct (Nat.eqb_spec (length ip) 16); [lia|]. rewrite andb_false_r. simpl.
    by rewrite H, Nat.eqb_refl.
Qed.

Lemma To4_4 ip : length ip = 4%nat → To4 ip = ip.
Proof. intros H. unfold To4. by rewrite H. Qed.
Lemma To4_mapped q : length q = 4%nat → To4 (v4InV6Prefix ++ q) = q.
Proof. intros H. unfold To4. rewrite length_app, H. simpl. done. Qed.
Lemma To4_length ip : length (To4 ip) = 4%nat ∨ To4 ip = [].
Proof.
  unfold To4. repeat case_match; auto.
  - left. by apply Nat.eqb_eq.
  - apply andb_true_iff in H0 as [H0 _]. apply Nat.eqb_eq in H0. left. rewrite length_drop. lia.
Qed.
Lemma is_nil_spec {A} (l : list A) : is_nil l = true ↔ l = [].
Proof. by destruct l. Qed.
Lemma is_nil_length {A} (l : list A) : length l ≠ O → is_nil l = false.
Proof. by destruct l. Qed.

(** A network built from an address and a mask of the same length contains
    exactly the addresses that agree with it under the mask. *)
Lemma NetContains_v6 ip m x :
  length ip = 16%nat → length m = 16%nat → To4 (and_bytes ip m) = [] →
  NetContains {| net_ip := and_bytes ip m; net_mask := m |} x = true ↔
  To4 x = [] ∧ length x = 16%nat ∧ and_bytes x m = and_bytes ip m.
Proof.
  intros Hi Hm Ht. unfold NetContains, networkNumberAndMask. simpl. rewrite Ht. simpl.
  rewrite length_and_bytes, Hi by congruence. simpl. rewrite Hm. simpl.
  destruct (is_nil (To4 x)) eqn:Hx.
  - apply is_nil_spec in Hx. rewrite Hx, length_and_bytes, Hi by congruence.
    rewrite andb_true_iff, Nat.eqb_eq, bool_decide_eq_true, and_bytes_idemp. naive_solver.
  - destruct (To4_length x) as [H4|H4]; [|by rewrite H4 in Hx].
    rewrite H4, length_and_bytes, Hi by congruence. simpl. split; [done|].
    intros [H _]. by rewrite H in Hx.
Qed.

(** ** IPv4 addresses print and parse back *)

Definition no_byte (c : ascii) (s : string) : bool :=
  forallb (λ b, negb (b =? byte_of c)) (bytes_of s).

Lemma Split_app x c t :
  no_byte c x = true → Split (x +:+ String c t) c = x :: Split t c.
Proof.
  induction x as [|d x IH]; simpl.
  - by rewrite Ascii.eqb_refl.
  - unfold no_byte. simpl. intros [Hd Hx]%andb_true_iff.
    destruct (Ascii.eqb_spec d c) as [->|]; [by rewrite Z.eqb_refl in Hd|].
    rewrite IH; done.
Qed.
Lemma Split_single x c : no_byte c x = true → Split x c = [x].
Proof.
  induction x as [|d x IH]; simpl; [done|]. unfold no_byte. simpl.
  intros [Hd Hx]%andb_true_iff.
  destruct (Ascii.eqb_spec d c) as [->|]; [by rewrite Z.eqb_refl in Hd|]. by rewrite IH.
Qed.
Lemma Split_Join l c : l ≠ [] → Forall (λ s, no_byte c s = true) l → Split (Join l (String c "")) c = l.
Proof.
  intros Hne Hl. induction Hl as [|x l Hx Hl IH]; [done|]. destruct l as [|y l]; [by apply Split_single|].
  rewrite Join_cons by done. cbn [String.append]. rewrite Split_app by done. by rewrite IH.
Qed.

Definition octet_ok (n : Z) : bool :=
  bool_decide (parse_octet (fmt_d n) = Some n) && no_byte "." (fmt_d n) && no_byte ":" (fmt_d n)
  && no_byte "%" (fmt_d n) && no_byte "/" (fmt_d n) && is_ascii_string (fmt_d n).
Lemma octets_ok n : is_u8 n → octet_ok n = true.
Proof. unfold is_u8. revert n. refine (forall_range _ 0 256 _). vm_compute. done. Qed.

Lemma parseIPv4_string4 a b c d :
  is_u8 a → is_u8 b → is_u8 c → is_u8 d →
  parseIPv4 (string4 [a; b; c; d]) = Some [a; b; c; d].
Proof.
  intros Ha%octets_ok Hb%octets_ok Hc%octets_ok Hd%octets_ok. unfold octet_ok in *. zbool.
  unfold parseIPv4, string4. simpl. rewrite !Split_app, Split_single by done.
  by repeat match goal with H : parse_octet _ = Some _ |- _ => rewrite H; clear H end.
Qed.

Lemma ParseAddr_kind_skip x t :
  no_byte "." x = true → no_byte ":" x = true → no_byte "%" x = true →
  ParseAddr_kind (x +:+ t) = ParseAddr_kind t.
Proof.
  induction x as [|e x IH]; simpl; [done|]. unfold no_byte; simpl.
  intros [H1 H1']%andb_true_iff [H2 H2']%andb_true_iff [H3 H3']%andb_true_iff.
  rewrite IH by done.
  assert (∀ k, negb (byte_of e =? byte_of k) = true → Ascii.eqb e k = false) as Hk.
  { intros k Hk. destruct (Ascii.eqb_spec e k) as [->|]; [by rewrite Z.eqb_refl in Hk|done]. }
  by rewrite !Hk.
Qed.

Lemma ParseAddr_string4 a b c d :
  is_u8 a → is_u8 b → is_u8 c → is_u8 d →
  ParseAddr (string4 [a; b; c; d]) = Some [a; b; c; d].
Proof.
  intros Ha Hb Hc Hd. unfold ParseAddr. unfold string4 at 1.
  pose proof (octets_ok a Ha) as Ho. unfold octet_ok in Ho. zbool.
  simpl. rewrite ParseAddr_kind_skip by done. simpl. by apply parseIPv4_string4.
Qed.
