(* ===== verification/Config.v ===== *)
(** * Configuration (src/internal/config/config.go)

    The environment is a map from variable names to values. [Load] builds
    the configuration record from it, after the optional [.env] file has
    been merged in by [loadDotEnv], and keeps it only when [Validate] finds
    no problem. Durations are nanoseconds.

    Parameters: [ParseDuration] (package [time]), the text of an [os.Stat]
    error, the host name. *)

From S2P Require Import Prelude GoStrings GoNet.

Abbreviation env := (gmap string string).

Definition millisecond : Z := 1000000.
Definition second : Z := 1000000000.
Definition minute : Z := 60 * second.
Definition hour : Z := 60 * minute.

(** The zero [time.Time], in nanoseconds. *)
Definition zeroTime : Z := -62135596800000000000.

(** [d.Seconds()] truncated to an integer, as in [int64(d.Seconds())]. *)
Definition int_seconds (d : Z) : Z := Z.quot d second.

Record Config := {
  Env : string;
  InstanceID : string;
  LogLevel : string;
  BaseDomain : string;
  DNSListenUDP : string;
  DNSListenTCP : string;
  DoTListen : string;
  DoHListen : string;
  DoQListen : string;
  TLSCertFile : string;
  TLSKeyFile : string;
  DefaultGroup : string;
  UpstreamTimeout : Z;
  HealthInterval : Z;
  HealthDomain : string;
  HealthFailsToDown : Z;
  CacheDriver : string;
  RedisAddr : string;
  RedisPassword : string;
  RedisDB : Z;
  CacheMaxTTL : Z;
  NegCacheTTL : Z;
  WarmThreshold : Z;
  LogDriver : string;
  MySQLDSN : string;
  LogBatchSize : Z;
  LogFlushInterval : Z;
  LogQueryDefaultWindow : Z;
  LogQueryMaxWindow : Z;
  LogQueryMaxOffset : Z;
  LogQueryCountCap : Z;
  DNSSECMode : string;
  RequireADFromUpstream : bool;
  ECSPassthrough : bool;
  ECSScopeMax : Z;
  IntListenUDP : string;
  IntListenTCP : string;
  DualstackEnabled : bool;
  NAT64Prefixes : list string;
  MapFile : string;
  MapAPIURL : string;
  MapAPITimeout : Z;
  ECSDeriveMask : Z;
  GeoIPv4File : string;
  GeoIPv6File : string;
  GeoStrictCity : bool;
  RateLimitQPS : Z;
  RateLimitVIPMult : Z;
  LoginRateLimit : Z;
  LoginRateWindow : Z;
  TrustProxyHeaders : bool;
  APIListen : string;
  APIAdminListen : string;
  APIMTLSCAFile : string;
  APIJWTSecret : string;
  JWTExpiry : Z;
  JWTRefreshExp : Z;
  SecurityAlertWebhook : string;
  SecurityAlertToken : string;
  SecurityAlertMinFails : Z;
  SecurityAlertCooldown : Z;
  APICORSOrigins : list string;
  WarmupConcurrency : Z;
  BootstrapToken : string;
  ACMEEnabled : bool;
  ACMEEmail : string;
  ACMEStaging : bool;
  ACMEDirectoryURL : string;
  CertDir : string;
  ACMEHTTPPort : string;
  AliyunAccessKeyID : string;
  AliyunAccessKeySecret : string;
  CertRenewBefore : Z;
  ThreatIntelEnabled : bool;
  ThreatIntelURL : string;
  ThreatIntelToken : string;
  ThreatIntelBlacklistFile : string;
  ThreatIntelCacheTTL : Z;
  ThreatIntelTimeout : Z;
  ThreatBroadcastEnabled : bool;
  ThreatBroadcastAddr : string;
  ThreatBroadcastPort : Z;
  ThreatWorkerCount : Z;
  ThreatQueueSize : Z;
  ThreatBlockMode : string;
  ThreatBlockPool : string;
}.

(** ** Library functions used by the loader *)

(** [net.SplitHostPort] *)
Fixpoint LastIndexByte (s : string) (c : ascii) : option nat :=
  match s with
  | EmptyString => None
  | String d s =>
      match LastIndexByte s c with
      | Some i => Some (S i)
      | None => if Ascii.eqb d c then Some O else None
      end
  end.
Definition addrErr {A} (addr why : string) : outcome A :=
  Err ("address " +:+ addr +:+ ": " +:+ why)%string.
Definition SplitHostPort (hp : string) : outcome (string * string) :=
  match LastIndexByte hp ":" with
  | None => addrErr hp "missing port in address"
  | Some i =>
      let port := drop_str (i + 1) hp in
      let finish (host : string) (j k : nat) :=
        if Contains (drop_str j hp) "[" then addrErr hp "unexpected '[' in address"
        else if Contains (drop_str k hp) "]" then addrErr hp "unexpected ']' in address"
        else Ok (host, port) in
      if HasPrefix hp "[" then
        match Index hp "]" with
        | None => addrErr hp "missing ']' in address"
        | Some e =>
            if Nat.eqb (e + 1) (len hp) then addrErr hp "missing port in address"
            else if Nat.eqb (e + 1) i then finish (drop_str 1 (take_str e hp)) 1%nat (e + 1)%nat
            else if HasPrefix (drop_str (e + 1) hp) ":" then addrErr hp "too many colons in address"
            else addrErr hp "missing port in address"
        end
      else
        let host := take_str i hp in
        if Contains host ":" then addrErr hp "too many colons in address" else finish host O O
  end.

(** [strconv.Atoi] *)
Fixpoint atoi_go (s : string) (acc : Z) : option Z :=
  match s with
  | EmptyString => Some acc
  | String c s => if is_digit c then atoi_go s (acc * 10 + (byte_of c - 48)) else None
  end.
Definition Atoi (s : string) : option Z :=
  let neg := HasPrefix s "-" in
  let d := if neg || HasPrefix s "+" then drop_str 1 s else s in
  match d with
  | EmptyString => None
  | _ =>
      match atoi_go d 0 with
      | Some n =>
          if neg then if n <=? 9223372036854775808 then Some (- n) else None
          else if n <=? 9223372036854775807 then Some n else None
      | None => None
      end
  end.

(** [strconv.ParseBool] *)
Definition ParseBool (s : string) : option bool :=
  if bool_decide (s ∈ ["1"; "t"; "T"; "TRUE"; "true"; "True"]) then Some true
  else if bool_decide (s ∈ ["0"; "f"; "F"; "FALSE"; "false"; "False"]) then Some false
  else None.

(** [strings.Trim(s, cutset)] for a cutset of ASCII bytes. *)
Fixpoint list_of (s : string) : list ascii :=
  match s with EmptyString => [] | String c s => c :: list_of s end.
Fixpoint of_list (l : list ascii) : string :=
  match l with [] => EmptyString | c :: l => String c (of_list l) end.
Definition Trim (s : string) (cut : list ascii) : string :=
  let p c := existsb (Ascii.eqb c) cut in
  of_list (reverse (drop_while p (reverse (drop_while p (list_of s))))).

(** ** The loader *)

Section config.
Context `{UnicodeCase}.
Variable ParseDuration : string → option Z.
Variable hostname : string.
(** [os.Stat path]: the error text, or [None] when the file is readable. *)
Variable stat : string → option string.

Definition getenv (e : env) (k def : string) : string :=
  match e !! k with
  | Some v => if (v =? "")%string then def else v
  | None => def
  end.
Definition getint (e : env) (k : string) (def : Z) : Z :=
  match e !! k with
  | Some v => default def (Atoi v)
  | None => def
  end.
Definition getbool (e : env) (k : string) (def : bool) : bool :=
  match e !! k with
  | Some v => default def (ParseBool v)
  | None => def
  end.
Definition getdur (e : env) (k : string) (def : Z) : Z :=
  match e !! k with
  | Some v => default def (ParseDuration v)
  | None => def
  end.
Definition splitCSV (s : string) : list string :=
  filter (λ p, p ≠ ""%string) (TrimSpace <$> Split s ",").

(** [os.Setenv], whose error the loader ignores: an empty name or a NUL
    byte leaves the environment unchanged. *)
Definition Setenv (e : env) (k v : string) : env :=
  if (k =? "")%string || Contains k (String "000" EmptyString) || Contains v (String "000" EmptyString)
  then e else <[k:=v]> e.

(** One line of the dotenv file: a variable that is already set wins. *)
Definition loadDotEnv_line (e : env) (line : string) : env :=
  let line := TrimSpace line in
  if (line =? "")%string || HasPrefix line "#" then e
  else match Index line "=" with
       | None => e
       | Some i =>
           let k := TrimSpace (take_str i line) in
           let v := Trim (TrimSpace (drop_str (i + 1) line)) ["034"; "039"]%char in
           match e !! k with
           | Some _ => e
           | None => Setenv e k v
           end
       end.
Definition loadDotEnv (data : option string) (e : env) : env :=
  match data with
  | None => e
  | Some d => foldl loadDotEnv_line e (Split d "010")
  end.

Definition isPlaceholderSecret (s : string) : bool :=
  let up := ToUpper (TrimSpace s) in
  existsb (Contains up)
    ["CHANGE_ME"; "CHANGEME"; "PLACEHOLDER"; "YOUR_SECRET"; "YOUR-"; "EXAMPLE"].

(** A check contributes at most one message. *)
Definition check (b : bool) (msg : string) : list string := if b then [msg] else [].
Definition check_listen (skip_empty : bool) (l : string * string) : list string :=
  let '(name, addr) := l in
  if skip_empty && (addr =? "")%string then []
  else match SplitHostPort addr with
       | Err e => [(name +:+ " invalid: " +:+ e)%string]
       | _ => []
       end.
Definition check_stat (name path : string) : list string :=
  match stat path with
  | Some e => [(name +:+ " not readable: " +:+ e)%string]
  | None => []
  end.

Definition validate_errs (c : Config) : list string :=
  check (negb ((Env c =? "dev") || (Env c =? "prod"))%string) "ENV must be dev or prod"
  ++ check ((BaseDomain c =? "")%string || negb (Contains (BaseDomain c) "."))
       "BASE_DOMAIN must be a FQDN like dns.example.com"
  ++ check ((TLSCertFile c =? "") || (TLSKeyFile c =? ""))%string
       ("TLS_CERT_FILE and TLS_KEY_FILE are required (wildcard cert for *." +:+ BaseDomain c +:+ ")")
  ++ check_stat "TLS_CERT_FILE" (TLSCertFile c)
  ++ check_stat "TLS_KEY_FILE" (TLSKeyFile c)
  ++ (if (CacheDriver c =? "redis")%string
      then check (RedisAddr c =? "")%string "REDIS_ADDR required when CACHE_DRIVER=redis"
      else if negb (CacheDriver c =? "memory")%string then ["CACHE_DRIVER must be redis or memory"]
      else check (Env c =? "prod")%string "CACHE_DRIVER=memory is forbidden in prod")
  ++ (if (LogDriver c =? "mysql")%string
      then check (MySQLDSN c =? "")%string "MYSQL_DSN required when LOG_DRIVER=mysql"
      else if negb (LogDriver c =? "stdout")%string then ["LOG_DRIVER must be mysql or stdout"]
      else check (Env c =? "prod")%string "LOG_DRIVER=stdout is forbidden in prod")
  ++ check (negb ((DNSSECMode c =? "passthrough") || (DNSSECMode c =? "ad-only")
                  || (DNSSECMode c =? "verify"))%string)
       "DNSSEC_MODE must be passthrough|ad-only|verify"
  ++ (if Nat.ltb (len (APIJWTSecret c)) 32
      then ["API_JWT_SECRET must be at least 32 chars (generate with: openssl rand -hex 32)"]
      else check (isPlaceholderSecret (APIJWTSecret c))
        "API_JWT_SECRET must be a real random secret (placeholder detected; generate with: openssl rand -hex 32)")
  ++ check (negb (BootstrapToken c =? "")%string
            && (Nat.ltb (len (BootstrapToken c)) 32 || isPlaceholderSecret (BootstrapToken c)))
       "BOOTSTRAP_TOKEN must be a strong random token (>=32 chars) or empty (placeholder/short tokens are rejected)"
  ++ check ((ECSScopeMax c <? 0) || (32 <? ECSScopeMax c)) "ECS_SCOPE_MAX must be 0..32"
  ++ check ((ECSDeriveMask c <? 0) || (32 <? ECSDeriveMask c)) "ECS_DERIVE_MASK must be 0..32"
  ++ mjoin (check_listen true <$> [("INT_LISTEN_UDP", IntListenUDP c); ("INT_LISTEN_TCP", IntListenTCP c)])
  ++ check (RateLimitQPS c <=? 0) "RATE_LIMIT_QPS must be > 0"
  ++ mjoin (check_listen false <$>
       [("DNS_LISTEN_UDP", DNSListenUDP c); ("DNS_LISTEN_TCP", DNSListenTCP c); ("DOT_LISTEN", DoTListen c);
        ("DOH_LISTEN", DoHListen c); ("DOQ_LISTEN", DoQListen c); ("API_LISTEN", APIListen c);
        ("API_ADMIN_LISTEN", APIAdminListen c)]).

Definition nl : string := String "010" EmptyString.
Definition Validate (c : Config) : outcome unit :=
  match validate_errs c with
  | [] => Ok tt
  | errs => Err ("config validation failed:" +:+ nl +:+ "  - " +:+ Join errs (nl +:+ "  - "))%string
  end.

Definition config_of_env (env : env) : Config :=
{|
   Env := getenv env "ENV" "dev";
   InstanceID := getenv env "INSTANCE_ID" ("inst-" +:+ hostname);
   LogLevel := getenv env "LOG_LEVEL" "info";
   BaseDomain := getenv env "BASE_DOMAIN" "dns.example.com";
   DNSListenUDP := getenv env "DNS_LISTEN_UDP" ":53";
   DNSListenTCP := getenv env "DNS_LISTEN_TCP" ":53";
   DoTListen := getenv env "DOT_LISTEN" ":853";
   DoHListen := getenv env "DOH_LISTEN" ":8443";
   DoQListen := getenv env "DOQ_LISTEN" ":784";
   TLSCertFile := getenv env "TLS_CERT_FILE" "";
   TLSKeyFile := getenv env "TLS_KEY_FILE" "";
   DefaultGroup := getenv env "DEFAULT_UPSTREAM_GROUP" "default";
   UpstreamTimeout := getdur env "UPSTREAM_TIMEOUT" (4 * second);
   HealthInterval := getdur env "HEALTH_INTERVAL" (30 * second);
   HealthDomain := getenv env "HEALTH_DOMAIN" "health-check.example.com";
   HealthFailsToDown := getint env "HEALTH_FAILS_TO_DOWN" 3;
   CacheDriver := getenv env "CACHE_DRIVER" "redis";
   RedisAddr := getenv env "REDIS_ADDR" "127.0.0.1:6379";
   RedisPassword := getenv env "REDIS_PASSWORD" "";
   RedisDB := getint env "REDIS_DB" 0;
   CacheMaxTTL := getdur env "CACHE_MAX_TTL" (6 * hour);
   NegCacheTTL := getdur env "NEG_CACHE_TTL" (30 * second);
   WarmThreshold := getdur env "WARM_THRESHOLD" (60 * second);
   LogDriver := getenv env "LOG_DRIVER" "mysql";
   MySQLDSN := getenv env "MYSQL_DSN" "dns:dns@tcp(127.0.0.1:3306)/dns_platform?parseTime=true&charset=utf8mb4";
   LogBatchSize := getint env "LOG_BATCH_SIZE" 500;
   LogFlushInterval := getdur env "LOG_FLUSH_INTERVAL" (2 * second);
   LogQueryDefaultWindow := getdur env "LOG_QUERY_DEFAULT_WINDOW" (24 * hour);
   LogQueryMaxWindow := getdur env "LOG_QUERY_MAX_WINDOW" (7 * 24 * hour);
   LogQueryMaxOffset := getint env "LOG_QUERY_MAX_OFFSET" 100000;
   LogQueryCountCap := getint env "LOG_QUERY_COUNT_CAP" 100000;
   DNSSECMode := getenv env "DNSSEC_MODE" "ad-only";
   RequireADFromUpstream := getbool env "DNSSEC_REQUIRE_AD" true;
   ECSPassthrough := getbool env "ECS_PASSTHROUGH" true;
   ECSScopeMax := getint env "ECS_SCOPE_MAX" 24;
   IntListenUDP := getenv env "INT_LISTEN_UDP" "";
   IntListenTCP := getenv env "INT_LISTEN_TCP" "";
   DualstackEnabled := getbool env "DUALSTACK_ENABLED" false;
   NAT64Prefixes := splitCSV (getenv env "NAT64_PREFIXES" "");
   MapFile := getenv env "IPV6_IPV4_MAP_FILE" "";
   MapAPIURL := getenv env "IPV6_IPV4_MAP_API_URL" "";
   MapAPITimeout := getdur env "IPV6_IPV4_MAP_API_TIMEOUT" (500 * millisecond);
   ECSDeriveMask := getint env "ECS_DERIVE_MASK" 32;
   GeoIPv4File := getenv env "GEO_IPV4_FILE" "";
   GeoIPv6File := getenv env "GEO_IPV6_FILE" "";
   GeoStrictCity := getbool env "GEO_STRICT_CITY" false;
   RateLimitQPS := getint env "RATE_LIMIT_QPS" 100;
   RateLimitVIPMult := getint env "RATE_LIMIT_VIP_MULT" 10;
   LoginRateLimit := getint env "LOGIN_RATE_LIMIT" 10;
   LoginRateWindow := getdur env "LOGIN_RATE_WINDOW" (10 * minute);
   TrustProxyHeaders := getbool env "TRUST_PROXY_HEADERS" false;
   APIListen := getenv env "API_LISTEN" ":8080";
   APIAdminListen := getenv env "API_ADMIN_LISTEN" ":8443";
   APIMTLSCAFile := getenv env "API_MTLS_CA_FILE" "";
   APIJWTSecret := getenv env "API_JWT_SECRET" "";
   JWTExpiry := getdur env "JWT_EXPIRY" (15 * minute);
   JWTRefreshExp := getdur env "JWT_REFRESH_EXPIRY" (7 * 24 * hour);
   SecurityAlertWebhook := getenv env "SECURITY_ALERT_WEBHOOK" "";
   SecurityAlertToken := getenv env "SECURITY_ALERT_TOKEN" "";
   SecurityAlertMinFails := getint env "SECURITY_ALERT_MIN_FAILS" 5;
   SecurityAlertCooldown := getdur env "SECURITY_ALERT_COOLDOWN" (15 * minute);
   APICORSOrigins := splitCSV (getenv env "API_CORS_ORIGINS" "http://localhost:8081,http://127.0.0.1:8081");
   WarmupConcurrency := getint env "WARMUP_CONCURRENCY" 32;
   BootstrapToken := getenv env "BOOTSTRAP_TOKEN" "";
   ACMEEnabled := (getenv env "ACME_ENABLED" "" =? "true")%string;
   ACMEEmail := getenv env "ACME_EMAIL" "";
   ACMEStaging := (getenv env "ACME_STAGING" "" =? "true")%string;
   ACMEDirectoryURL := getenv env "ACME_DIRECTORY_URL" "";
   CertDir := getenv env "CERT_DIR" "/etc/dns-platform/certs";
   ACMEHTTPPort := getenv env "ACME_HTTP_PORT" "127.0.0.1:5002";
   AliyunAccessKeyID := getenv env "ALIYUN_ACCESS_KEY_ID" "";
   AliyunAccessKeySecret := getenv env "ALIYUN_ACCESS_KEY_SECRET" "";
   CertRenewBefore := getdur env "CERT_RENEW_BEFORE" (30 * 24 * hour);
   ThreatIntelEnabled := getbool env "THREAT_INTEL_ENABLED" false;
   ThreatIntelURL := getenv env "THREAT_INTEL_URL" "";
   ThreatIntelToken := getenv env "THREAT_INTEL_TOKEN" "";
   ThreatIntelBlacklistFile := getenv env "THREAT_INTEL_BLACKLIST_FILE" "";
   ThreatIntelCacheTTL := getdur env "THREAT_INTEL_CACHE_TTL" (5 * minute);
   ThreatIntelTimeout := getdur env "THREAT_INTEL_TIMEOUT" (500 * millisecond);
   ThreatBroadcastEnabled := getbool env "THREAT_BROADCAST_ENABLED" false;
   ThreatBroadcastAddr := getenv env "THREAT_BROADCAST_ADDR" "255.255.255.255";
   ThreatBroadcastPort := getint env "THREAT_BROADCAST_PORT" 9999;
   ThreatWorkerCount := getint env "THREAT_WORKER_COUNT" 8;
   ThreatQueueSize := getint env "THREAT_QUEUE_SIZE" 4096;
   ThreatBlockMode := getenv env "THREAT_BLOCK_MODE" "off";
   ThreatBlockPool := getenv env "THREAT_BLOCK_IP_POOL" "127.0.0.1,0.0.0.0"
|}.

(** [Load envFile]: [file] is the content of the dotenv file, [None] when
    no path is given or the file cannot be read. *)
Definition Load (file : option string) (e : env) : outcome Config :=
  let c := config_of_env (loadDotEnv file e) in
  match Validate c with
  | Ok _ => Ok c
  | Err m => Err m
  | Panic => Panic
  end.

(** *** What a loaded configuration guarantees *)

Lemma check_nil b msg : check b msg = [] → b = false.
Proof. by destruct b. Qed.

Lemma Load_Ok file e c :
  Load file e = Ok c → c = config_of_env (loadDotEnv file e) ∧ validate_errs c = [].
Proof.
  unfold Load, Validate. destruct (validate_errs _) eqn:Hv; [|done].
  intros [= <-]. done.
Qed.

Lemma validate_sound c :
  validate_errs c = [] →
  (Env c = "dev" ∨ Env c = "prod") ∧
  (Env c = "prod" → CacheDriver c = "redis" ∧ LogDriver c = "mysql") ∧
  (32 ≤ len (APIJWTSecret c))%nat ∧ isPlaceholderSecret (APIJWTSecret c) = false ∧
  (BootstrapToken c ≠ "" → (32 ≤ len (BootstrapToken c))%nat ∧
                           isPlaceholderSecret (BootstrapToken c) = false) ∧
  0 ≤ ECSScopeMax c ≤ 32 ∧ 0 ≤ ECSDeriveMask c ≤ 32 ∧ 0 < RateLimitQPS c.
Proof.
  unfold validate_errs. intros Hv.
  repeat match goal with H : _ ++ _ = [] |- _ => apply app_nil in H as [? H] end.
  repeat match goal with H : check _ _ = [] |- _ => apply check_nil in H end.
  zbool.
  split_and!; try lia.
  - destruct (String.eqb_spec (Env c) "dev"); [by left|].
    destruct (String.eqb_spec (Env c) "prod"); [by right|]. done.
  - intros Hp. rewrite Hp in *. split.
    + destruct (String.eqb_spec (CacheDriver c) "redis"); [done|].
      by destruct (String.eqb_spec (CacheDriver c) "memory").
    + destruct (String.eqb_spec (LogDriver c) "mysql"); [done|].
      by destruct (String.eqb_spec (LogDriver c) "stdout").
  - destruct (Nat.ltb_spec (len (APIJWTSecret c)) 32); [done|lia].
  - destruct (Nat.ltb_spec (len (APIJWTSecret c)) 32); [done|by eapply check_nil].
  - intros Hb. destruct (String.eqb_spec (BootstrapToken c) ""); [done|].
    match goal with H : negb false && _ = false |- _ => simpl in H; apply orb_false_iff in H as [Hl ?] end.
    split; [|done]. apply Nat.ltb_ge in Hl. lia.
Qed.
End config.

(** ** Properties *)

(** A configuration that [Load] returns never combines production
    with a development driver, carries a JWT secret (and, when bootstrap is
    enabled, a bootstrap token) of at least 32 characters that is no
    placeholder, and has its ECS prefix bounds and rate limit in range. *)
Theorem Load_secure `{UnicodeCase} ParseDuration hostname stat file e c :
  Load ParseDuration hostname stat file e = Ok c →
  (Env c = "dev" ∨ Env c = "prod") ∧
  (Env c = "prod" → CacheDriver c = "redis" ∧ LogDriver c = "mysql") ∧
  (32 ≤ len (APIJWTSecret c))%nat ∧ isPlaceholderSecret (APIJWTSecret c) = false ∧
  (BootstrapToken c ≠ "" → (32 ≤ len (BootstrapToken c))%nat ∧
                           isPlaceholderSecret (BootstrapToken c) = false) ∧
  0 ≤ ECSScopeMax c ≤ 32 ∧ 0 ≤ ECSDeriveMask c ≤ 32 ∧ 0 < RateLimitQPS c.
Proof. intros [_ Hv]%Load_Ok. eapply validate_sound, Hv. Qed.

(** A concrete environment with a certificate, a key and a secret. *)
Definition demo_env : env :=
  list_to_map [("TLS_CERT_FILE", "/c.pem"); ("TLS_KEY_FILE", "/k.pem");
               ("API_JWT_SECRET", "0123456789abcdef0123456789abcdef")]%string.
Definition demo_config : Config := @config_of_env (λ _, None) "h1" demo_env.

Lemma Load_demo : @Load ascii_case (λ _, None) "h1" (λ _, None) None demo_env = Ok demo_config.
Proof. vm_compute. done. Qed.
Lemma Load_secure_witness :
  Env demo_config = "dev" ∨ Env demo_config = "prod".
Proof. eapply (@Load_secure ascii_case (λ _, None) "h1" (λ _, None) None demo_env). apply Load_demo. Defined.
