(* ===== verification/Model.v ===== *)
(** * Domain types (src/internal/model/model.go)

    Records for the structs, with every field; the string-typed enumerations
    ([Role], [CertStatus], [UpstreamProtocol], [MatchType]) stay strings, as
    in the source, with their constants. [time.Time] is an instant in
    nanoseconds. *)

From S2P Require Import Prelude GoStrings.

Abbreviation Time := Z (only parsing).
Abbreviation Role := string (only parsing).

Definition RoleAdmin : Role := "admin".
Definition RoleSysAdmin : Role := "sysadmin".
Definition RoleSecAdmin : Role := "secadmin".
Definition RoleAuditAdmin : Role := "auditadmin".
Definition RoleTenant : Role := "tenant".

Record Tenant := {
  t_ID : string;
  t_Name : string;
  t_Prefix : string;
  t_BaseDomain : string;
  t_Enabled : bool;
  t_VIP : bool;
  t_RateLimitQPS : Z;
  t_CacheMaxTTL : Z;
  t_DefaultECS : string;
  t_AllowECS : bool;
  t_DoTEnabled : bool;
  t_DoHEnabled : bool;
  t_DoQEnabled : bool;
  t_UpstreamGroup : string;
  t_CreatedAt : Time;
  t_UpdatedAt : Time;
}.

Abbreviation CertStatus := string (only parsing).
Definition CertNone : CertStatus := "none".
Definition CertIssuing : CertStatus := "issuing".
Definition CertActive : CertStatus := "active".
Definition CertRenewing : CertStatus := "renewing".
Definition CertError : CertStatus := "error".

Record TenantDomain := {
  td_ID : string;
  td_TenantID : string;
  td_Domain : string;
  td_Enabled : bool;
  td_CertStatus : CertStatus;
  td_CertExpiry : option Time;
  td_CertError : string;
  td_CreatedAt : Time;
  td_UpdatedAt : Time;
}.

Definition DotEndpoint (t : Tenant) : string :=
  if (t_Prefix t =? "")%string then "" else (t_Prefix t +:+ "." +:+ t_BaseDomain t)%string.
Definition DoHEndpoint (t : Tenant) : string :=
  if (t_Prefix t =? "")%string then ""
  else ("https://" +:+ t_Prefix t +:+ "." +:+ t_BaseDomain t +:+ "/dns-query")%string.

Record User := {
  u_ID : string;
  u_TenantID : string;
  u_Username : string;
  u_PasswordHash : string;
  u_Role : Role;
  u_Email : string;
  u_FailedAttempts : Z;
  u_LockedUntil : Time;
  u_LastLogin : Time;
  u_MustChangePwd : bool;
  u_PwdChangedAt : Time;
  u_CreatedAt : Time;
}.

Abbreviation UpstreamProtocol := string (only parsing).
Definition ProtoUDP : UpstreamProtocol := "udp".
Definition ProtoTCP : UpstreamProtocol := "tcp".
Definition ProtoDoT : UpstreamProtocol := "dot".
Definition ProtoDoH : UpstreamProtocol := "doh".
Definition ProtoDoQ : UpstreamProtocol := "doq".

Record Upstream := {
  up_ID : string;
  up_GroupID : string;
  up_Name : string;
  up_Protocol : UpstreamProtocol;
  up_Address : string;
  up_Port : Z;
  up_Hostname : string;
  up_DoHPath : string;
  up_Weight : Z;
  up_TimeoutMS : Z;
  up_TLSInsecure : bool;
  up_Enabled : bool;
  up_Healthy : bool;
  up_ConsecFails : Z;
  up_CreatedAt : Time;
}.

Record UpstreamGroup := {
  g_ID : string;
  g_TenantID : string;
  g_Name : string;
  g_Strategy : string;
  g_HealthDomain : string;
  g_CreatedAt : Time;
  g_Upstreams : list Upstream;
}.

Abbreviation MatchType := string (only parsing).
Definition MatchSuffix : MatchType := "suffix".
Definition MatchPrefix : MatchType := "prefix".
Definition MatchExact : MatchType := "exact".
Definition MatchRegex : MatchType := "regex".
Definition MatchAll : MatchType := "all".

Record SplitRule := {
  r_ID : string;
  r_TenantID : string;
  r_Name : string;
  r_MatchType : MatchType;
  r_MatchValue : string;
  r_GroupID : string;
  r_Priority : Z;
  r_Enabled : bool;
  r_CreatedAt : Time;
}.

Record HotDomain := {
  h_ID : string;
  h_TenantID : string;
  h_Domain : string;
  h_Weight : Z;
  h_Enabled : bool;
}.

Record QueryLogRow := {
  ql_TS : Time;
  ql_TenantID : string;
  ql_ClientIP : string;
  ql_ECS : string;
  ql_QName : string;
  ql_QType : string;
  ql_RCode : string;
  ql_CacheHit : bool;
  ql_UpstreamGrp : string;
  ql_Upstream : string;
  ql_RTTMS : Z;
  ql_DNSSECOK : bool;
  ql_VIP : bool;
  ql_Via : string;
}.

Record AuditRow := {
  a_TS : Time;
  a_ActorID : string;
  a_ActorName : string;
  a_Action : string;
  a_Target : string;
  a_Detail : string;
  a_ClientIP : string;
  a_PrevHash : string;
  a_EntryHash : string;
  a_Verifier : string;
}.

Record DualstackBinding := {
  db_ID : string;
  db_IPv6Subnet : string;
  db_IPv4 : string;
  db_ISP : string;
  db_Region : string;
  db_Enabled : bool;
  db_CreatedAt : Time;
}.

(** A tenant with every switch on, for evaluation. *)
Definition demo_tenant : Tenant := {|
  t_ID := "t1"; t_Name := "acme"; t_Prefix := "acme-01"; t_BaseDomain := "dns.example.com";
  t_Enabled := true; t_VIP := false; t_RateLimitQPS := 100; t_CacheMaxTTL := 21600;
  t_DefaultECS := ""; t_AllowECS := true; t_DoTEnabled := true; t_DoHEnabled := true;
  t_DoQEnabled := true; t_UpstreamGroup := ""; t_CreatedAt := 0; t_UpdatedAt := 0 |}.
