(* ===== verification/Sha256.v ===== *)
(** * SHA-256 and hexadecimal text

    [crypto/sha256] and [encoding/hex] as the audit chain uses them: the
    digest of a byte string (FIPS 180-4) and its lower-case text. *)

From S2P Require Import Prelude GoStrings.

Definition K256 : list Z :=
  [1116352408; 1899447441; 3049323471; 3921009573; 961987163; 1508970993;
   2453635748; 2870763221; 3624381080; 310598401; 607225278; 1426881987;
   1925078388; 2162078206; 2614888103; 3248222580; 3835390401; 4022224774;
   264347078; 604807628; 770255983; 1249150122; 1555081692; 1996064986;
   2554220882; 2821834349; 2952996808; 3210313671; 3336571891; 3584528711;
   113926993; 338241895; 666307205; 773529912; 1294757372; 1396182291;
   1695183700; 1986661051; 2177026350; 2456956037; 2730485921; 2820302411;
   3259730800; 3345764771; 3516065817; 3600352804; 4094571909; 275423344;
   430227734; 506948616; 659060556; 883997877; 958139571; 1322822218;
   1537002063; 1747873779; 1955562222; 2024104815; 2227730452; 2361852424;
   2428436474; 2756734187; 3204031479; 3329325298].
Definition H256 : list Z :=
  [1779033703; 3144134277; 1013904242; 2773480762; 1359893119; 2600822924; 528734635; 1541459225].

Definition rotr (x n : Z) : Z := Z.lor (Z.shiftr x n) (u32 (Z.shiftl x (32 - n))).
Definition xor3 (a b c : Z) : Z := Z.lxor (Z.lxor a b) c.
Definition bigS0 (x : Z) : Z := xor3 (rotr x 2) (rotr x 13) (rotr x 22).
Definition bigS1 (x : Z) : Z := xor3 (rotr x 6) (rotr x 11) (rotr x 25).
Definition smallS0 (x : Z) : Z := xor3 (rotr x 7) (rotr x 18) (Z.shiftr x 3).
Definition smallS1 (x : Z) : Z := xor3 (rotr x 17) (rotr x 19) (Z.shiftr x 10).
Definition ch (x y z : Z) : Z := Z.lxor (Z.land x y) (Z.land (Z.lxor x 4294967295) z).
Definition maj (x y z : Z) : Z := xor3 (Z.land x y) (Z.land x z) (Z.land y z).

(** The bytes of an integer, most significant first. *)
Fixpoint be_bytes (n : nat) (z : Z) : list Z :=
  match n with
  | O => []
  | S n => be_bytes n (z / 256) ++ [z mod 256]
  end.
Definition be_word (l : list Z) : Z := foldl (λ a b, a * 256 + b) 0 l.
Fixpoint chunks (fuel k : nat) (l : list Z) : list (list Z) :=
  match fuel, l with
  | S fuel, _ :: _ => take k l :: chunks fuel k (drop k l)
  | _, _ => []
  end.

Definition pad (msg : list Z) : list Z :=
  let n := length msg in
  msg ++ [128] ++ replicate (Z.to_nat ((55 - Z.of_nat n) mod 64)) 0 ++ be_bytes 8 (8 * Z.of_nat n).

(** The message schedule, newest word first. *)
Fixpoint schedule (n : nat) (w : list Z) : list Z :=
  match n with
  | O => w
  | S n =>
      let at_ (i : nat) := default 0 (w !! i) in
      schedule n (u32 (smallS1 (at_ 1%nat) + at_ 6%nat + smallS0 (at_ 14%nat) + at_ 15%nat) :: w)
  end.
Definition round (s : list Z) (kw : Z * Z) : list Z :=
  match s with
  | [a; b; c; d; e; f; g; h] =>
      let t1 := h + bigS1 e + ch e f g + kw.1 + kw.2 in
      let t2 := bigS0 a + maj a b c in
      [u32 (t1 + t2); a; b; c; u32 (d + t1); e; f; g]
  | _ => s
  end.
Definition compress (hs : list Z) (block : list Z) : list Z :=
  let w := reverse (schedule 48 (reverse (be_word <$> chunks 16 4 block))) in
  zip_with (λ x y, u32 (x + y)) hs (foldl round hs (zip K256 w)).
Definition sha256 (msg : list Z) : list Z :=
  let padded := pad msg in
  concat (be_bytes 4 <$> foldl compress H256 (chunks (length padded) 64 padded)).

Definition hex_EncodeToString (l : list Z) : string :=
  foldr (λ b s, String (hex_digit false (b / 16)) (String (hex_digit false (b mod 16)) s)) EmptyString l.
Definition sha256_hex (text : string) : string := hex_EncodeToString (sha256 (bytes_of text)).

Example sha256_abc : sha256_hex "abc" = "ba7816bf8f01cfea414140de5dae2223b00361a396177a9cb410ff61f20015ad".
Proof. vm_compute. reflexivity. Qed.
Example sha256_two_blocks :
  sha256_hex "abcdbcdecdefdefgefghfghighijhijkijkljklmklmnlmnomnopnopq"
  = "248d6a61d20638b8e5c026930c3e6039a33ce45964ff2167f6ecedd419db06c1".
Proof. vm_compute. reflexivity. Qed.

(** A digest is never the empty text. *)
Lemma round_length s kw : length s = 8%nat → length (round s kw) = 8%nat.
Proof. destruct s as [|a [|b [|c [|d [|e [|f [|g [|h [|]]]]]]]]]; try done. Qed.
Lemma compress_length hs block : length hs = 8%nat → length (compress hs block) = 8%nat.
Proof.
  intros Hl. unfold compress. rewrite length_zip_with, Hl.
  assert (∀ l s, length s = 8%nat → length (foldl round s l) = 8%nat) as Hf.
  { induction l as [|kw l IH]; intros s Hs; [done|]. by apply IH, round_length. }
  by rewrite Hf.
Qed.
Lemma sha256_hex_ne text : sha256_hex text ≠ "".
Proof.
  unfold sha256_hex, sha256. set (blocks := chunks _ _ _).
  assert (∀ l hs, length hs = 8%nat → length (foldl compress hs l) = 8%nat) as Hf.
  { induction l as [|b l IH]; intros hs Hs; [done|]. by apply IH, compress_length. }
  specialize (Hf blocks H256 eq_refl). destruct (foldl compress H256 blocks) as [|w ws]; [done|].
  cbn [fmap list_fmap concat be_bytes]. done.
Qed.
