(* ===== verification/DnsMsg.v ===== *)
(** * DNS messages (package [github.com/miekg/dns])

    The message type the pipeline works on, with the fields the sources
    read or write. An OPT record is kept at the level of its accessors
    ([UDPSize], [Version], [Do], the option list). The functions of the
    library are the fields of the class [DnsLib]: the model assumes nothing
    of them beyond the laws a theorem names, and [EdnsLaws] states the
    documented behaviour of [IsEdns0]. *)

From S2P Require Import Prelude GoStrings GoNet.

Definition TypeA : Z := 1.
Definition TypeAAAA : Z := 28.
Definition TypeOPT : Z := 41.
Definition ClassINET : Z := 1.
Definition RcodeSuccess : Z := 0.
Definition RcodeServerFailure : Z := 2.
Definition RcodeNameError : Z := 3.
Definition RcodeRefused : Z := 5.
Definition RcodeBadVers : Z := 16.

Record RR_Header := { Name : string; Rrtype : Z; Class_ : Z; Ttl : Z }.

Record EDNS0_SUBNET := {
  Family_ : Z; SourceNetmask : Z; SourceScope : Z; Address_ : IP
}.
Inductive EDNS0 :=
| SUBNET (e : EDNS0_SUBNET)
| EDE (InfoCode : Z) (ExtraText : string)
| OtherOpt (code : Z) (data : list Z).

Record OPT := {
  o_UDPSize : Z; o_ExtRcode : Z; o_Version : Z; o_Do : bool; o_Option : list EDNS0
}.
(** [&dns.OPT{Hdr: dns.RR_Header{Name: ".", Rrtype: dns.TypeOPT}}] *)
Definition newOPT : OPT :=
  {| o_UDPSize := 0; o_ExtRcode := 0; o_Version := 0; o_Do := false; o_Option := [] |}.
Definition SetUDPSize (o : OPT) (n : Z) : OPT :=
  {| o_UDPSize := n; o_ExtRcode := o_ExtRcode o; o_Version := o_Version o; o_Do := o_Do o;
     o_Option := o_Option o |}.
Definition set_Option (o : OPT) (l : list EDNS0) : OPT :=
  {| o_UDPSize := o_UDPSize o; o_ExtRcode := o_ExtRcode o; o_Version := o_Version o; o_Do := o_Do o;
     o_Option := l |}.

Record RRSIG := {
  TypeCovered : Z; KeyTag : Z; Inception : Z; Expiration : Z; sig_rest : list Z
}.
Inductive RData :=
| RD_A (ip : IP)
| RD_AAAA (ip : IP)
| RD_SOA (Minttl : Z) (rest : list Z)
| RD_RRSIG (sig : RRSIG)
| RD_DNSKEY (key : list Z)
| RD_OPT (o : OPT)
| RD_Other (rdata : list Z).
Record RR := { Hdr : RR_Header; Data : RData }.

Record Question := { q_Name : string; q_Qtype : Z; q_Qclass : Z }.

Record Msg := {
  m_Id : Z; m_Response : bool; m_Opcode : Z; m_Authoritative : bool; m_Truncated : bool;
  m_RecursionDesired : bool; m_RecursionAvailable : bool; m_AuthenticatedData : bool;
  m_CheckingDisabled : bool; m_Rcode : Z; m_Compress : bool;
  m_Question : list Question; m_Answer : list RR; m_Ns : list RR; m_Extra : list RR
}.
(** [new(dns.Msg)] *)
Definition newMsg : Msg :=
  {| m_Id := 0; m_Response := false; m_Opcode := 0; m_Authoritative := false; m_Truncated := false;
     m_RecursionDesired := false; m_RecursionAvailable := false; m_AuthenticatedData := false;
     m_CheckingDisabled := false; m_Rcode := 0; m_Compress := false;
     m_Question := []; m_Answer := []; m_Ns := []; m_Extra := [] |}.

Definition set_Id (m : Msg) (i : Z) : Msg :=
  let 'Build_Msg _ a b c d e f g h i0 j k l n o := m in Build_Msg i a b c d e f g h i0 j k l n o.
Definition set_Authoritative (m : Msg) (x : bool) : Msg :=
  let 'Build_Msg z a b c d e f g h i j k l n o := m in Build_Msg z a b x d e f g h i j k l n o.
Definition set_AuthenticatedData (m : Msg) (x : bool) : Msg :=
  let 'Build_Msg z a b c d e f g h i j k l n o := m in Build_Msg z a b c d e f x h i j k l n o.
Definition set_Compress (m : Msg) (x : bool) : Msg :=
  let 'Build_Msg z a b c d e f g h i j k l n o := m in Build_Msg z a b c d e f g h i x k l n o.
Definition set_Answer (m : Msg) (x : list RR) : Msg :=
  let 'Build_Msg z a b c d e f g h i j k l n o := m in Build_Msg z a b c d e f g h i j k x n o.
Definition set_Ns (m : Msg) (x : list RR) : Msg :=
  let 'Build_Msg z a b c d e f g h i j k l n o := m in Build_Msg z a b c d e f g h i j k l x o.
Definition set_Extra (m : Msg) (x : list RR) : Msg :=
  let 'Build_Msg z a b c d e f g h i j k l n o := m in Build_Msg z a b c d e f g h i j k l n x.

#[global] Instance EDNS0_SUBNET_eq_dec : EqDecision EDNS0_SUBNET.
Proof. solve_decision. Defined.
#[global] Instance EDNS0_eq_dec : EqDecision EDNS0.
Proof. solve_decision. Defined.
#[global] Instance OPT_eq_dec : EqDecision OPT.
Proof. solve_decision. Defined.
#[global] Instance RRSIG_eq_dec : EqDecision RRSIG.
Proof. solve_decision. Defined.
#[global] Instance RR_Header_eq_dec : EqDecision RR_Header.
Proof. solve_decision. Defined.
#[global] Instance RData_eq_dec : EqDecision RData.
Proof. solve_decision. Defined.
#[global] Instance RR_eq_dec : EqDecision RR.
Proof. solve_decision. Defined.
#[global] Instance Question_eq_dec : EqDecision Question.
Proof. solve_decision. Defined.
#[global] Instance Msg_eq_dec : EqDecision Msg.
Proof. solve_decision. Defined.

Definition opt_rr (o : OPT) : RR :=
  {| Hdr := {| Name := "."; Rrtype := TypeOPT; Class_ := 0; Ttl := 0 |}; Data := RD_OPT o |}.
Definition as_opt (r : RR) : option OPT := match Data r with RD_OPT o => Some o | _ => None end.

Definition is_opt (r : RR) : bool := match Data r with RD_OPT _ => true | _ => false end.

(** ** The library interface *)

Class DnsLib := {
  (** Position in the additional section of the OPT record [IsEdns0]
      returns a pointer to. *)
  edns_index : list RR → option nat;
  (** [m.SetRcode(req, rcode)] and [m.SetReply(req)] on a new message;
      [None] is a nil request. *)
  SetRcode : option Msg → Z → Msg;
  SetReply : Msg → Msg;
  (** [m.SetQuestion(name, qtype)] on a new message (the id is random) and
      [m.SetEdns0(size, do)]. *)
  SetQuestion : string → Z → Msg;
  SetEdns0 : Msg → Z → bool → Msg;
  Fqdn : string → string;
  TypeToString : Z → string;
  StringToType : string → option Z;
  RcodeToString : Z → string;
  (** Wire format: [m.Pack()] and [m.Unpack(raw)], [None] on error. *)
  Pack : Msg → option (list Z);
  Unpack : list Z → option Msg;
  (** [k.KeyTag()] of a DNSKEY and [sig.Verify(key, rrset)]. *)
  DNSKEY_KeyTag : RR → Z;
  SigVerify : RRSIG → RR → list RR → bool;
}.

(** [m.IsEdns0()]: the OPT record, [None] for nil. *)
Definition IsEdns0 `{DnsLib} (m : Msg) : option OPT :=
  edns_index (m_Extra m) ≫= λ i, m_Extra m !! i ≫= as_opt.
(** Writing through the pointer [IsEdns0] returned. *)
Definition update_opt `{DnsLib} (m : Msg) (f : OPT → OPT) : Msg :=
  match edns_index (m_Extra m) with
  | Some i =>
      set_Extra m (alter (λ r, match Data r with
                               | RD_OPT o => {| Hdr := Hdr r; Data := RD_OPT (f o) |}
                               | _ => r
                               end) i (m_Extra m))
  | None => m
  end.

(** Documented behaviour: [IsEdns0] returns an OPT record of the additional
    section, and nil only when there is none. *)
Class EdnsLaws `{DnsLib} : Prop := {
  edns_index_opt : ∀ l i, edns_index l = Some i → ∃ r o, l !! i = Some r ∧ as_opt r = Some o;
  edns_index_none : ∀ l, edns_index l = None → Forall (λ r, as_opt r = None) l;
  (** The choice depends only on which records are OPT records. *)
  edns_index_shape : ∀ l l', is_opt <$> l = is_opt <$> l' → edns_index l = edns_index l';
}.

Section edns.
Context `{EdnsLaws}.

Definition write_opt (f : OPT → OPT) (r : RR) : RR :=
  match Data r with
  | RD_OPT o => {| Hdr := Hdr r; Data := RD_OPT (f o) |}
  | _ => r
  end.

Lemma update_opt_Some m o f :
  IsEdns0 m = Some o → IsEdns0 (update_opt m f) = Some (f o).
Proof.
  unfold IsEdns0, update_opt. destruct (edns_index (m_Extra m)) as [i|] eqn:Hi; [|done].
  simpl. destruct (m_Extra m !! i) as [r|] eqn:Hr; [|done]. simpl. intros Ho.
  destruct m; simpl in *.
  erewrite (edns_index_shape _ m_Extra0), Hi; simpl.
  - rewrite list_lookup_alter, decide_True by done. rewrite Hr. simpl.
    unfold as_opt in *. destruct (Data r); simplify_eq/=. done.
  - clear Hi. revert i Hr. induction m_Extra0 as [|x l IH]; intros [|i] Hr; simplify_eq/=.
    + f_equal. unfold is_opt. by destruct (Data r) eqn:E; rewrite ?E.
    + f_equal. by apply IH.
Qed.

Lemma update_opt_None m f : IsEdns0 m = None → update_opt m f = m.
Proof.
  unfold IsEdns0, update_opt. destruct (edns_index _) as [i|] eqn:Hi; [|done]. simpl.
  destruct (edns_index_opt _ _ Hi) as (r & o & -> & Ho). simpl. by rewrite Ho.
Qed.

(** Appending an OPT record to a message without one makes it the record
    [IsEdns0] returns. *)
Lemma IsEdns0_append m o :
  IsEdns0 m = None → IsEdns0 (set_Extra m (m_Extra m ++ [opt_rr o])) = Some o.
Proof.
  unfold IsEdns0. intros Hn. destruct m; simpl in *.
  assert (Forall (λ r, as_opt r = None) m_Extra0) as Hf.
  { apply edns_index_none. destruct (edns_index m_Extra0) as [i|] eqn:Hi; [|done]. simpl in Hn.
    destruct (edns_index_opt _ _ Hi) as (r & o' & Hr & Ho). by rewrite Hr in Hn; simpl in Hn; rewrite Ho in Hn. }
  destruct (edns_index (m_Extra0 ++ [opt_rr o])) as [i|] eqn:Hi; simpl.
  - destruct (edns_index_opt _ _ Hi) as (r & o' & Hr & Ho). rewrite Hr. simpl.
    apply lookup_app_Some in Hr as [Hr|[Hl Hr]].
    + rewrite Forall_lookup in Hf. specialize (Hf _ _ Hr). congruence.
    + apply list_lookup_singleton_Some in Hr as [_ <-]. done.
  - apply edns_index_none in Hi. apply Forall_app in Hi as [_ Hi]. by inversion Hi.
Qed.

Lemma IsEdns0_Extra m m' : m_Extra m = m_Extra m' → IsEdns0 m = IsEdns0 m'.
Proof. unfold IsEdns0. by intros ->. Qed.
End edns.

(** ** An executable instance

    The last OPT record is the one [IsEdns0] finds; replies copy id and
    question. The wire codec is a table with one entry per message given. *)

Fixpoint last_opt (l : list RR) (i : nat) (acc : option nat) : option nat :=
  match l with
  | [] => acc
  | r :: l => last_opt l (S i) (if is_opt r then Some i else acc)
  end.
Definition demo_reply (req : option Msg) (rcode : Z) : Msg :=
  let r := default newMsg req in
  Build_Msg (m_Id r) true (m_Opcode r) false false (m_RecursionDesired r) false false
    (m_CheckingDisabled r) rcode false (take 1 (m_Question r)) [] [] [].
Definition demo_lib (codec : list (list Z * Msg)) : DnsLib := {|
  edns_index l := last_opt l 0 None;
  SetRcode := demo_reply;
  SetReply req := demo_reply (Some req) RcodeSuccess;
  SetQuestion n t := Build_Msg 4242 false 0 false false true false false false 0 false
                       [{| q_Name := n; q_Qtype := t; q_Qclass := ClassINET |}] [] [] [];
  SetEdns0 m sz d := set_Extra m (m_Extra m ++
    [opt_rr {| o_UDPSize := sz; o_ExtRcode := 0; o_Version := 0; o_Do := d; o_Option := [] |}]);
  Fqdn s := if HasSuffix s "." then s else (s +:+ ".")%string;
  TypeToString t := if t =? TypeA then "A" else if t =? TypeAAAA then "AAAA" else "";
  StringToType s := if (s =? "A")%string then Some TypeA
                    else if (s =? "AAAA")%string then Some TypeAAAA else None;
  RcodeToString r := if r =? 0 then "NOERROR" else if r =? 2 then "SERVFAIL"
                     else if r =? 3 then "NXDOMAIN" else if r =? 5 then "REFUSED" else "";
  Pack m := fst <$> first_match (λ x, bool_decide (x.2 = m)) codec;
  Unpack raw := snd <$> first_match (λ x, bool_decide (x.1 = raw)) codec;
  DNSKEY_KeyTag r := match Data r with RD_DNSKEY (t :: _) => t | _ => 0 end;
  SigVerify sig key set := match Data key with
                           | RD_DNSKEY (_ :: k) => bool_decide (k = sig_rest sig)
                           | _ => false
                           end;
|}.

Lemma last_opt_spec l i acc :
  last_opt l i acc =
  match last_opt l 0 None with Some j => Some (i + j)%nat | None => acc end.
Proof.
  revert i acc. induction l as [|r l IH]; intros i acc; simpl; [done|].
  rewrite (IH (S i)), (IH 1%nat). destruct (last_opt l 0 None) as [j|]; simpl.
  - f_equal. lia.
  - destruct (is_opt r); simpl; [f_equal; lia|done].
Qed.
Lemma last_opt_cons r l :
  last_opt (r :: l) 0 None =
  match last_opt l 0 None with Some j => Some (S j) | None => if is_opt r then Some O else None end.
Proof. simpl. rewrite last_opt_spec. by destruct (last_opt l 0 None). Qed.
Lemma as_opt_is_opt r : is_opt r = true ↔ is_Some (as_opt r).
Proof. unfold is_opt, as_opt. destruct (Data r); split; intros; try done; by apply is_Some_None in H. Qed.

#[global] Instance demo_lib_laws codec : @EdnsLaws (demo_lib codec).
Proof.
  split; simpl.
  - induction l as [|r l IH]; intros i; [done|]. rewrite last_opt_cons.
    destruct (last_opt l 0 None) as [j|] eqn:Hj.
    + intros [= <-]. by apply IH.
    + destruct (is_opt r) eqn:Hr; [|done]. intros [= <-].
      apply as_opt_is_opt in Hr as [o Ho]. eauto.
  - induction l as [|r l IH]; [constructor|]. rewrite last_opt_cons.
    destruct (last_opt l 0 None) as [j|] eqn:Hj; [done|].
    destruct (is_opt r) eqn:Hr; [done|]. intros _. constructor; [|auto].
    destruct (as_opt r) eqn:E; [|done].
    assert (is_opt r = true) as ?; [|congruence]. apply as_opt_is_opt. eauto.
  - induction l as [|r l IH]; intros [|r' l'] Hl; try done.
    rewrite !last_opt_cons. rewrite !fmap_cons in Hl. injection Hl as Hr Hl. by rewrite (IH l' Hl), Hr.
Qed.
