(* ===== verification/Ecs.v ===== *)
(** * EDNS Client Subnet (src/internal/dnsx/ecs.go)

    Extraction, normalisation and clamping of the client subnet, the
    rewriting of queries and responses, and the textual form used as cache
    scope. A nil [*ECSInfo] is [None]; a method on a nil receiver returns
    as the source does. *)

From S2P Require Import Prelude GoStrings GoNet DnsMsg.

Record ECSInfo := {
  Family : Z;      (* uint16: 1 = IPv4, 2 = IPv6 *)
  Source : Z;      (* uint8 *)
  Scope : Z;       (* uint8 *)
  Address : IP;
  HasOption : bool
}.
#[global] Instance ECSInfo_eq_dec : EqDecision ECSInfo.
Proof. solve_decision. Defined.

(** [&ECSInfo{}] *)
Definition noECS : ECSInfo :=
  {| Family := 0; Source := 0; Scope := 0; Address := []; HasOption := false |}.

Definition with_net (e : ECSInfo) (src : Z) (a : IP) : ECSInfo :=
  {| Family := Family e; Source := src; Scope := Scope e; Address := a; HasOption := HasOption e |}.

Definition normalize (e : ECSInfo) : ECSInfo :=
  let s := if Source e =? 0 then 24 else Source e in
  let s := if (32 <? s) && (Family e =? 1) then 32 else s in
  let s := if (128 <? s) && (Family e =? 2) then 128 else s in
  if is_nil (Address e) then with_net e s (Address e)
  else
    let a := if (Family e =? 1) && Nat.eqb (length (Address e)) 4 && (s <? 32)
             then Mask (Address e) (CIDRMask s 32) else Address e in
    let a := if (Family e =? 2) && Nat.eqb (length a) 16 && (s <? 128)
             then Mask a (CIDRMask s 128) else a in
    with_net e s a.

Definition clampScope (e : ECSInfo) (max : Z) : ECSInfo :=
  if negb (HasOption e) || negb (Family e =? 1) || is_nil (Address e) then e
  else if (max <? 0) || (32 <? max) || (Source e <=? max) then e
  else
    let s := u8 max in
    with_net e s (if s <? 32 then Mask (Address e) (CIDRMask s 32) else Address e).

Definition is_subnet (o : EDNS0) : bool := match o with SUBNET _ => true | _ => false end.
Definition first_subnet (l : list EDNS0) : option EDNS0_SUBNET :=
  match first_match is_subnet l with Some (SUBNET e) => Some e | _ => None end.
Definition drop_subnets (l : list EDNS0) : list EDNS0 :=
  List.filter (λ o, negb (is_subnet o)) l.

Section ecs.
Context `{DnsLib}.

Definition ecsFromMsg (m : Msg) : ECSInfo :=
  match IsEdns0 m with
  | None => noECS
  | Some opt =>
      match first_subnet (o_Option opt) with
      | Some e =>
          normalize {| Family := Family_ e; Source := SourceNetmask e; Scope := SourceScope e;
                       Address := Address_ e; HasOption := true |}
      | None => noECS
      end
  end.

Definition ecsString (e : option ECSInfo) : string :=
  match e with
  | None => ""
  | Some e =>
      if negb (HasOption e) || is_nil (Address e) then ""
      else (IPString (Address e) +:+ "/" +:+ fmt_d (Source e))%string
  end.

Definition ScopeKey (e : option ECSInfo) : string :=
  match e with
  | None => "g"
  | Some e =>
      if negb (HasOption e) then "g"
      else if (Source e =? 0) || is_nil (Address e) then "g"
      else (IPString (Address e) +:+ "/" +:+ fmt_d (Source e))%string
  end.

Definition subnet_option (e : ECSInfo) (scope : Z) : EDNS0 :=
  SUBNET {| Family_ := Family e; SourceNetmask := Source e; SourceScope := scope;
            Address_ := Address e |}.

(** [m.Copy()] is a deep copy: the result shares nothing with [m]. *)
Definition attachECS (m : Msg) (ecs : option ECSInfo) : Msg :=
  match ecs with
  | None => m
  | Some e =>
      if negb (HasOption e) then m
      else
        let out := match IsEdns0 m with
                   | Some _ => m
                   | None => set_Extra m (m_Extra m ++ [opt_rr newOPT])
                   end in
        update_opt out (λ o,
          let o := SetUDPSize o 4096 in
          let o := set_Option o (drop_subnets (o_Option o)) in
          set_Option o (o_Option o ++ [subnet_option e 0]))
  end.

Definition stripECS (m : Msg) : Msg :=
  match IsEdns0 m with
  | None => m
  | Some _ => update_opt m (λ o, set_Option o (drop_subnets (o_Option o)))
  end.

Definition echoECS (m : Msg) (ecs : option ECSInfo) : Msg :=
  match ecs with
  | None => m
  | Some e =>
      if negb (HasOption e) then m
      else
        let m := match IsEdns0 m with
                 | Some _ => m
                 | None => set_Extra m (m_Extra m ++ [opt_rr newOPT])
                 end in
        match IsEdns0 m with
        | Some o => if existsb is_subnet (o_Option o) then m
                    else update_opt m (λ o, set_Option o (o_Option o ++ [subnet_option e (Scope e)]))
        | None => m
        end
  end.
End ecs.

(** [Ok None] is the source's [(nil, nil)] for the empty string. *)
Definition parseECSFromString (s : string) : outcome (option ECSInfo) :=
  if (s =? "")%string then Ok None
  else match ParseCIDR s with
       | Some n =>
           let ones := (Size (net_mask n)).1 in
           let v6 := is_nil (To4 (net_ip n)) in
           Ok (Some {| Family := if v6 then 2 else 1; Source := u8 ones; Scope := 0;
                       Address := if v6 then net_ip n else To4 (net_ip n); HasOption := true |})
       | None =>
           let ip := ParseIP s in
           if is_nil ip then Err ("invalid ECS " +:+ fmt_q s)%string
           else if is_nil (To4 ip)
           then Ok (Some {| Family := 2; Source := 128; Scope := 0; Address := ip; HasOption := true |})
           else Ok (Some {| Family := 1; Source := 32; Scope := 0; Address := To4 ip; HasOption := true |})
       end.

Definition ecsToCacheString (e : option ECSInfo) : string :=
  match e with
  | None => ""
  | Some e' =>
      if negb (HasOption e') || is_nil (Address e') || (Source e' =? 0) then "" else ecsString e
  end.

Definition packUint16 (v : Z) : list Z := [v / 256; v mod 256].

(** ** The subnet options of a message *)

Definition subnets (m : Msg) `{DnsLib} : list EDNS0_SUBNET :=
  match IsEdns0 m with
  | Some o => omap (λ x, match x with SUBNET e => Some e | _ => None end) (o_Option o)
  | None => []
  end.

Lemma drop_subnets_app l1 l2 : drop_subnets (l1 ++ l2) = drop_subnets l1 ++ drop_subnets l2.
Proof. unfold drop_subnets. apply List.filter_app. Qed.
Lemma omap_drop_subnets l :
  omap (λ x, match x with SUBNET e => Some e | _ => None end) (drop_subnets l) = [].
Proof. induction l as [|[] l IH]; simpl; done. Qed.
Lemma existsb_drop_subnets l : existsb is_subnet (drop_subnets l) = false.
Proof. induction l as [|[] l IH]; simpl; done. Qed.

Section ecs_lemmas.
Context `{EdnsLaws}.

(** What an [attachECS] leaves of the message's OPT record. *)
Lemma attachECS_opt m e :
  HasOption e = true →
  ∃ o', IsEdns0 (attachECS m (Some e)) = Some o' ∧ o_UDPSize o' = 4096 ∧
        o_Option o' = drop_subnets (from_option o_Option [] (IsEdns0 m)) ++ [subnet_option e 0].
Proof.
  intros He. unfold attachECS. rewrite He. simpl.
  destruct (IsEdns0 m) as [o|] eqn:Hm; eexists.
  - split; [by eapply update_opt_Some|by split].
  - split; [eapply update_opt_Some; by apply IsEdns0_append|by split].
Qed.

Lemma stripECS_subnets m : subnets (stripECS m) = [].
Proof.
  unfold stripECS, subnets. destruct (IsEdns0 m) as [o|] eqn:Hm; [|by rewrite Hm].
  erewrite update_opt_Some by done. simpl. apply omap_drop_subnets.
Qed.

Lemma attachECS_subnets m e :
  HasOption e = true →
  subnets (attachECS m (Some e)) =
    [{| Family_ := Family e; SourceNetmask := Source e; SourceScope := 0; Address_ := Address e |}].
Proof.
  intros He. destruct (attachECS_opt m e He) as (o & Ho & _ & Hl).
  unfold subnets. rewrite Ho, Hl, omap_app, omap_drop_subnets. done.
Qed.

Lemma echoECS_subnets m e :
  HasOption e = true → subnets m = [] →
  subnets (echoECS m (Some e)) =
    [{| Family_ := Family e; SourceNetmask := Source e; SourceScope := Scope e; Address_ := Address e |}].
Proof.
  intros He Hm. unfold echoECS. rewrite He. simpl.
  set (m1 := match IsEdns0 m with Some _ => m | None => _ end).
  assert (∃ o, IsEdns0 m1 = Some o ∧ existsb is_subnet (o_Option o) = false ∧
               omap (λ x, match x with SUBNET e => Some e | _ => None end) (o_Option o) = []) as (o & Ho & Hx & Hs).
  { unfold m1, subnets in *. destruct (IsEdns0 m) as [o|] eqn:E.
    - exists o. split_and!; try done. clear -Hm. induction (o_Option o) as [|[] l IH]; simpl in *; auto; done.
    - exists newOPT. split_and!; try done. by apply IsEdns0_append. }
  rewrite Ho, Hx. unfold subnets. erewrite update_opt_Some by done. simpl.
  by rewrite omap_app, Hs.
Qed.
End ecs_lemmas.

(** ** Clamping *)

(** An IPv4 client subnet as [ecsFromMsg] and [parseECSFromString] build
    them: one of the two representations of an IPv4 address. *)
Definition ecs_v4 (e : ECSInfo) (q : IP) : Prop :=
  HasOption e = true ∧ Family e = 1 ∧ is_u8 (Source e) ∧ length q = 4%nat ∧
  (Address e = q ∨ Address e = v4InV6Prefix ++ q).

Lemma CIDRMask_32_length n : 0 ≤ n ≤ 32 → length (CIDRMask n 32) = 4%nat.
Proof. intros Hn. rewrite CIDRMask_length by auto. by rewrite length_mask_bytes. Qed.

Lemma Mask_v4 a q n :
  length q = 4%nat → (a = q ∨ a = v4InV6Prefix ++ q) → 0 ≤ n ≤ 32 →
  Mask a (CIDRMask n 32) = and_bytes q (CIDRMask n 32).
Proof.
  intros Hq Ha Hn. pose proof (CIDRMask_32_length n Hn) as Hm. destruct Ha as [-> | ->].
  - apply Mask_same_length. congruence.
  - unfold Mask. rewrite Hm, length_app, Hq. simpl.
    rewrite Hm. simpl. by rewrite drop_0, Hq.
Qed.

Lemma clampScope_small e max : Source e ≤ max → clampScope e max = e.
Proof.
  intros Hs. unfold clampScope. case_match; [done|].
  replace (Source e <=? max) with true by (symmetry; by apply Z.leb_le).
  by rewrite orb_true_r.
Qed.

Lemma clampScope_large e q max :
  ecs_v4 e q → 0 ≤ max < 32 → max < Source e →
  clampScope e max = with_net e max (and_bytes q (CIDRMask max 32)).
Proof.
  intros (Ho & Hf & Hs & Hq & Ha) Hmax Hlt. unfold clampScope. rewrite Ho, Hf. simpl.
  assert (is_nil (Address e) = false) as ->.
  { apply is_nil_length. destruct Ha as [-> | ->]; rewrite ?length_app; simpl; lia. }
  replace ((max <? 0) || (32 <? max) || (Source e <=? max)) with false
    by (symmetry; rewrite !orb_false_iff, !Z.ltb_ge, Z.leb_gt; lia).
  simpl. rewrite u8_small by (unfold is_u8; lia).
  replace (max <? 32) with true by (symmetry; apply Z.ltb_lt; lia).
  by rewrite (Mask_v4 _ q) by (done || lia).
Qed.

(** ** Printing and parsing back *)

Lemma Index_byte x c t :
  no_byte c x = true → Index (x +:+ String c t) (String c EmptyString) = Some (len x).
Proof.
  induction x as [|d x IH]; simpl.
  - by rewrite Ascii.eqb_refl.
  - unfold no_byte; simpl. intros [Hd Hx]%andb_true_iff.
    destruct (Ascii.eqb_spec c d) as [->|]; [by rewrite Z.eqb_refl in Hd|].
    simpl. by rewrite IH.
Qed.
Lemma no_byte_app c s t : no_byte c (s +:+ t) = no_byte c s && no_byte c t.
Proof. induction s as [|d s IH]; simpl; [done|]. unfold no_byte in *; simpl. by rewrite IH, andb_assoc. Qed.
Lemma no_byte_cons c d s : no_byte c (String d s) = negb (byte_of d =? byte_of c) && no_byte c s.
Proof. done. Qed.
Lemma drop_str_succ x c t : drop_str (len x + 1) (x +:+ String c t) = t.
Proof. induction x; simpl; done. Qed.

Lemma string4_no_slash a b c d :
  is_u8 a → is_u8 b → is_u8 c → is_u8 d → no_byte "/" (string4 [a; b; c; d]) = true.
Proof.
  intros Ha%octets_ok Hb%octets_ok Hc%octets_ok Hd%octets_ok. unfold octet_ok in *. zbool.
  unfold string4. simpl. repeat rewrite ?no_byte_app, ?no_byte_cons.
  repeat (apply andb_true_iff; split); done.
Qed.
Lemma dtoi_prefix n : 0 ≤ n ≤ 128 → dtoi (fmt_d n) = Some n.
Proof.
  intros Hn. assert (bool_decide (dtoi (fmt_d n) = Some n) = true) as Hb; [|by apply bool_decide_eq_true in Hb].
  revert n Hn. assert (∀ n, 0 ≤ n < 0 + Z.of_nat 129 → bool_decide (dtoi (fmt_d n) = Some n) = true) as Hr;
    [|intros n Hn; apply Hr; lia].
  refine (forall_range _ 0 129 _). vm_compute. done.
Qed.

Lemma ParseCIDR_v4 q n :
  length q = 4%nat → Forall is_u8 q → 0 ≤ n ≤ 32 →
  ParseCIDR (string4 q +:+ String "/" (fmt_d n)) =
    Some {| net_ip := and_bytes q (CIDRMask n 32); net_mask := CIDRMask n 32 |}.
Proof.
  intros Hq Hu Hn. destruct q as [|a [|b [|c [|d [|]]]]]; try done.
  rewrite !Forall_cons in Hu. destruct Hu as (Ha & Hb & Hc & Hd & _).
  unfold ParseCIDR. rewrite Index_byte by by apply string4_no_slash.
  rewrite take_str_app, drop_str_succ, ParseAddr_string4, dtoi_prefix by (done || lia).
  change (Z.of_nat (length [a; b; c; d]) * 8) with 32.
  replace (32 <? n) with false by (symmetry; apply Z.ltb_ge; lia).
  rewrite (Mask_v4 _ [a; b; c; d]) by (done || auto). done.
Qed.

(** A masked IPv4 client subnet, ready to be used as a cache scope. *)
Definition ecs_canonical (e : ECSInfo) : Prop :=
  HasOption e = true ∧ Family e = 1 ∧ 0 ≤ Source e ≤ 32 ∧ Scope e = 0 ∧
  length (Address e) = 4%nat ∧ Forall is_u8 (Address e) ∧
  and_bytes (Address e) (CIDRMask (Source e) 32) = Address e.

Lemma ecsString_v4 e :
  ecs_canonical e → ecsString (Some e) = (string4 (Address e) +:+ String "/" (fmt_d (Source e)))%string.
Proof.
  intros (Ho & _ & _ & _ & Hl & _). unfold ecsString. rewrite Ho. simpl.
  unfold IPString. rewrite To4_4 by done. rewrite !is_nil_length by lia. by rewrite Hl.
Qed.

Lemma parse_print_v4 e : ecs_canonical e → parseECSFromString (ecsString (Some e)) = Ok (Some e).
Proof.
  intros Hc. rewrite ecsString_v4 by done. destruct Hc as (Ho & Hf & Hs & Hsc & Hl & Hu & Hm).
  unfold parseECSFromString. rewrite ParseCIDR_v4 by done. simpl.
  rewrite Hm, Size_CIDRMask, To4_4 by auto. rewrite is_nil_length by lia. simpl.
  rewrite u8_small by (unfold is_u8; lia).
  destruct (String.eqb_spec (string4 (Address e) +:+ String "/" (fmt_d (Source e))) "") as [E|];
    [apply (f_equal len) in E; rewrite length_append in E; simpl in E; lia|].
  destruct e; simpl in *; subst. done.
Qed.

(** ** Properties *)

(** Forwarding a client subnet leaves exactly one subnet option in
    the query, carrying the given family, prefix and address with scope 0;
    the other EDNS options keep their order, the advertised UDP size is
    4096, and nothing outside the additional section changes. *)
Theorem attachECS_exact `{EdnsLaws} m e :
  HasOption e = true →
  (∃ o, IsEdns0 (attachECS m (Some e)) = Some o ∧ o_UDPSize o = 4096 ∧
        o_Option o = drop_subnets (from_option o_Option [] (IsEdns0 m)) ++ [subnet_option e 0]) ∧
  subnets (attachECS m (Some e)) =
    [{| Family_ := Family e; SourceNetmask := Source e; SourceScope := 0; Address_ := Address e |}] ∧
  ∃ x, attachECS m (Some e) = set_Extra m x.
Proof.
  intros He. split_and!; [by apply attachECS_opt|by apply attachECS_subnets|].
  unfold attachECS, update_opt. rewrite He. simpl.
  destruct (IsEdns0 m), m; simpl; case_match; simpl; eauto.
Qed.

Definition demo_ecs : ECSInfo :=
  {| Family := 1; Source := 24; Scope := 0; Address := [203; 0; 113; 0]; HasOption := true |}.
Lemma attachECS_exact_witness :
  @subnets (@attachECS (demo_lib []) newMsg (Some demo_ecs)) (demo_lib []) =
    [{| Family_ := 1; SourceNetmask := 24; SourceScope := 0; Address_ := [203; 0; 113; 0] |}].
Proof. apply (@attachECS_exact (demo_lib []) (demo_lib_laws []) newMsg demo_ecs). reflexivity. Defined.

(** Clamping caps the prefix length of an IPv4 client subnet at the
    configured maximum and re-masks the address to it, so that no host bit
    beyond the maximum survives; a subnet already within the maximum is
    untouched, and clamping twice is clamping once. *)
Theorem clampScope_spec e q max :
  ecs_v4 e q → 0 ≤ max < 32 →
  Source (clampScope e max) = Source e `min` max ∧
  (max < Source e → Address (clampScope e max) = and_bytes q (CIDRMask max 32)) ∧
  (Source e ≤ max → clampScope e max = e) ∧
  clampScope (clampScope e max) max = clampScope e max.
Proof.
  intros He Hmax. destruct (decide (Source e ≤ max)) as [Hs|Hs].
  - rewrite (clampScope_small e max Hs), (clampScope_small e max Hs). split_and!; [lia|lia|done|done].
  - rewrite (clampScope_large e q) by (done || lia). simpl. split_and!; [lia|done|lia|].
    by rewrite clampScope_small by (simpl; lia).
Qed.

Lemma clampScope_spec_witness :
  Source (clampScope {| Family := 1; Source := 32; Scope := 0; Address := [203; 0; 113; 7]; HasOption := true |} 24) = 24.
Proof.
  apply (clampScope_spec {| Family := 1; Source := 32; Scope := 0; Address := [203; 0; 113; 7]; HasOption := true |}
           [203; 0; 113; 7] 24).
  - unfold ecs_v4, is_u8; simpl; split_and!; auto; lia.
  - lia.
Defined.

(** The text of a masked IPv4 client subnet parses back to
    the same subnet, so a cache scope written to the active-subnet set
    warms exactly the entries it was recorded for. *)
Theorem ecs_print_parse e :
  ecs_canonical e → parseECSFromString (ecsString (Some e)) = Ok (Some e).
Proof. apply parse_print_v4. Qed.

Lemma ecs_print_parse_witness :
  ecsString (Some demo_ecs) = "203.0.113.0/24" ∧ parseECSFromString (ecsString (Some demo_ecs)) = Ok (Some demo_ecs).
Proof.
  split; [vm_compute; reflexivity|]. apply ecs_print_parse.
  unfold ecs_canonical, is_u8; simpl. split_and!; auto; try lia.
  repeat constructor; lia.
Defined.

(** Two masked IPv4 subnets with the same non-empty cache token
    are the same subnet: answers cached for one client network are never
    served to another. *)
Theorem ecs_token_injective e1 e2 :
  ecs_canonical e1 → ecs_canonical e2 → Source e1 ≠ 0 →
  ecsToCacheString (Some e1) = ecsToCacheString (Some e2) → e1 = e2.
Proof.
  intros H1 H2 Hs Heq. pose proof (parse_print_v4 _ H1) as P1. pose proof (parse_print_v4 _ H2) as P2.
  unfold ecsToCacheString in Heq.
  destruct H1 as (Ho1 & _ & _ & _ & Hl1 & _), H2 as (Ho2 & _ & _ & _ & Hl2 & _).
  rewrite Ho1, Ho2, !is_nil_length in Heq by lia. cbn [negb orb] in Heq.
  apply Z.eqb_neq in Hs. rewrite Hs in Heq.
  destruct (Source e2 =? 0); [rewrite Heq in P1; done|]. rewrite Heq, P2 in P1. congruence.
Qed.

Lemma ecs_token_injective_witness : demo_ecs = demo_ecs.
Proof.
  apply ecs_token_injective; try (unfold ecs_canonical, is_u8; simpl; split_and!; auto; try lia; repeat constructor; lia); done.
Defined.
