(* ===== verification/Split.v ===== *)
(** * Traffic splitting (src/internal/dnsx/split.go)

    The splitter keeps the rules in the order the repository lists them
    (priority descending) and the precompiled regular expressions by rule
    id. Package [regexp] is the parameter [regexp_compile]. The read lock
    only protects the two fields, which [Reload] replaces together: an
    operation works on one snapshot of the state. *)

From S2P Require Import Prelude GoStrings Model.

Abbreviation Regexp := (string → bool).

Record Splitter := { rules : list SplitRule; regex : gmap string Regexp }.

Definition NewSplitter : Splitter := {| rules := []; regex := ∅ |}.

Section split.
Context `{UnicodeCase}.
Variable regexp_compile : string → option Regexp.

Definition reload_step (re : gmap string Regexp) (r : SplitRule) : gmap string Regexp :=
  if ((r_MatchType r =? MatchRegex) && negb (r_MatchValue r =? ""))%string then
    match regexp_compile (r_MatchValue r) with
    | Some rgx => <[r_ID r:=rgx]> re
    | None => re
    end
  else re.
Definition Reload (rs : list SplitRule) : Splitter :=
  {| rules := rs; regex := foldl reload_step ∅ rs |}.

Definition matchRule (s : Splitter) (r : SplitRule) (q : string) : bool :=
  if (r_MatchType r =? MatchAll)%string then true
  else if (r_MatchType r =? MatchExact)%string then (q =? ToLower (r_MatchValue r))%string
  else if (r_MatchType r =? MatchSuffix)%string then
    let v := ToLower (r_MatchValue r) in
    let v := if HasPrefix v "." then v else ("." +:+ v)%string in
    HasSuffix q v || (q =? TrimPrefix v ".")%string
  else if (r_MatchType r =? MatchPrefix)%string then HasPrefix q (ToLower (r_MatchValue r))
  else if (r_MatchType r =? MatchRegex)%string then
    match regex s !! r_ID r with
    | Some rgx => rgx q
    | None => false
    end
  else false.

(** A rule the loop of [Match] does not skip. *)
Definition eligible (s : Splitter) (tenantID q : string) (r : SplitRule) : bool :=
  if negb (r_Enabled r) then false
  else if negb (r_TenantID r =? "")%string && negb (r_TenantID r =? tenantID)%string then false
  else matchRule s r q.

Definition Match (s : Splitter) (tenantID qname : string) : string * string :=
  let q := ToLower (TrimSuffix qname ".") in
  match first_match (eligible s tenantID q) (rules s) with
  | Some r => (r_GroupID r, r_Name r)
  | None => ("", "")
  end.

Definition tenantID (t : option Tenant) : string :=
  match t with None => "" | Some t => t_ID t end.

Definition pinned_rule_name : string := "tenant-pinned(vip)".

Definition GroupForQuery (s : Splitter) (tenant : option Tenant) (qname : string) : string * string :=
  match tenant with
  | Some t =>
      if negb (t_UpstreamGroup t =? "")%string then (t_UpstreamGroup t, pinned_rule_name)
      else let '(gid, name) := Match s (t_ID t) qname in
           if negb (gid =? "")%string then (gid, name) else ("", "")
  | None =>
      let '(gid, name) := Match s "" qname in
      if negb (gid =? "")%string then (gid, name) else ("", "")
  end.

End split.

(** ** Lemmas *)

Section split_lemmas.
Context `{UnicodeCase}.

(** The domain a suffix rule stands for. *)
Definition rule_domain (r : SplitRule) : string := TrimPrefix (ToLower (r_MatchValue r)) ".".

Lemma suffix_value r :
  (if HasPrefix (ToLower (r_MatchValue r)) "." then ToLower (r_MatchValue r)
   else "." +:+ ToLower (r_MatchValue r))%string = ("." +:+ rule_domain r)%string.
Proof.
  unfold rule_domain, TrimPrefix. destruct (HasPrefix _ ".") eqn:Hp; [|done].
  apply HasPrefix_spec in Hp as [t ->]. by rewrite drop_str_app.
Qed.

Lemma matchRule_suffix s r q :
  r_MatchType r = MatchSuffix →
  matchRule s r q = true ↔
  q = rule_domain r ∨ ∃ p, q = (p +:+ "." +:+ rule_domain r)%string.
Proof.
  intros Hr. unfold matchRule. rewrite Hr. change (MatchSuffix =? MatchAll)%string with false.
  change (MatchSuffix =? MatchExact)%string with false. change (MatchSuffix =? MatchSuffix)%string with true.
  cbv zeta iota. rewrite suffix_value, orb_true_iff, String.eqb_eq, HasSuffix_spec.
  rewrite (TrimPrefix_app "." (rule_domain r)). tauto.
Qed.

Lemma eligible_scope s tid q r :
  eligible s tid q r = true → r_Enabled r = true ∧ (r_TenantID r = "" ∨ r_TenantID r = tid) ∧ matchRule s r q = true.
Proof.
  unfold eligible. intros Hr. destruct (r_Enabled r); [|done]. simpl in Hr.
  destruct (String.eqb_spec (r_TenantID r) ""), (String.eqb_spec (r_TenantID r) tid); naive_solver.
Qed.
End split_lemmas.

(** Rules as [ListRules] delivers them. *)
Definition priority_sorted (rs : list SplitRule) : Prop :=
  ∀ i j r1 r2, (i ≤ j)%nat → rs !! i = Some r1 → rs !! j = Some r2 → r_Priority r2 ≤ r_Priority r1.

(** ** Properties *)

(** A suffix rule matches its domain and every name below it, at
    a label boundary, and nothing else. *)
Theorem suffix_rule_boundary `{UnicodeCase} s r q :
  r_MatchType r = MatchSuffix →
  matchRule s r q = true ↔
  q = rule_domain r ∨ ∃ p, q = (p +:+ "." +:+ rule_domain r)%string.
Proof. apply matchRule_suffix. Qed.

Definition demo_rule (id tid mt mv gid : string) (prio : Z) : SplitRule :=
  {| r_ID := id; r_TenantID := tid; r_Name := id; r_MatchType := mt; r_MatchValue := mv;
     r_GroupID := gid; r_Priority := prio; r_Enabled := true; r_CreatedAt := 0 |}.
Lemma suffix_rule_boundary_witness :
  @matchRule ascii_case NewSplitter (demo_rule "r1" "" "suffix" "Example.com" "g1" 10) "a.example.com" = true ∧
  @matchRule ascii_case NewSplitter (demo_rule "r1" "" "suffix" "Example.com" "g1" 10) "evilexample.com" = false.
Proof.
  split; [|vm_compute; reflexivity].
  apply (@suffix_rule_boundary ascii_case NewSplitter (demo_rule "r1" "" "suffix" "Example.com" "g1" 10)).
  - reflexivity.
  - right. exists "a". vm_compute. reflexivity.
Defined.

Lemma Match_best `{UnicodeCase} s tid qname :
  priority_sorted (rules s) →
  let q := ToLower (TrimSuffix qname ".") in
  (∃ r, r ∈ rules s ∧ Match s tid qname = (r_GroupID r, r_Name r) ∧
        r_Enabled r = true ∧ (r_TenantID r = "" ∨ r_TenantID r = tid) ∧ matchRule s r q = true ∧
        ∀ r', r' ∈ rules s → eligible s tid q r' = true → r_Priority r' ≤ r_Priority r) ∨
  (Match s tid qname = ("", "") ∧ ∀ r, r ∈ rules s → eligible s tid q r = false).
Proof.
  intros Hs q. unfold Match. fold q.
  destruct (first_match (eligible s tid q) (rules s)) as [r|] eqn:Hm.
  - left. apply first_match_Some in Hm as (l1 & l2 & Hl & Hr & Hf). exists r.
    destruct (eligible_scope _ _ _ _ Hr) as (He & Ht & Hq).
    split_and!; try done; [rewrite Hl; set_solver|].
    intros r' [j Hj]%list_elem_of_lookup Hr'.
    assert (length l1 ≤ j)%nat as Hle.
    { destruct (decide (length l1 ≤ j)%nat) as [|Hlt]; [done|].
      rewrite Hl, lookup_app_l in Hj by lia. rewrite Forall_lookup in Hf.
      specialize (Hf _ _ Hj). simpl in Hf. congruence. }
    apply (Hs _ _ _ _ Hle); [|done]. rewrite Hl. by apply list_lookup_middle.
  - right. split; [done|]. intros r Hr. rewrite first_match_None, Forall_forall in Hm. by apply Hm.
Qed.

(** With the rules in priority order, [Match] answers with an
    enabled rule that is global or the tenant's own, matches the lower-cased
    name without its final dot, and has the highest priority among all such
    rules; it answers with no group only when there is no such rule. *)
Theorem Match_highest_priority `{UnicodeCase} s tid qname :
  priority_sorted (rules s) →
  let q := ToLower (TrimSuffix qname ".") in
  (∃ r, r ∈ rules s ∧ Match s tid qname = (r_GroupID r, r_Name r) ∧
        r_Enabled r = true ∧ (r_TenantID r = "" ∨ r_TenantID r = tid) ∧ matchRule s r q = true ∧
        ∀ r', r' ∈ rules s → eligible s tid q r' = true → r_Priority r' ≤ r_Priority r) ∨
  (Match s tid qname = ("", "") ∧ ∀ r, r ∈ rules s → eligible s tid q r = false).
Proof. apply Match_best. Qed.

Definition demo_splitter : Splitter :=
  {| rules := [demo_rule "r2" "" "suffix" "cn" "g-cn" 20; demo_rule "r1" "t1" "all" "" "g-t1" 10]; regex := ∅ |}.
Lemma demo_sorted : priority_sorted (rules demo_splitter).
Proof.
  intros [|[|i]] [|[|j]] r1 r2 Hij H1 H2; simplify_eq/=; lia.
Qed.
Lemma Match_highest_priority_witness :
  @Match ascii_case demo_splitter "t1" "WWW.Example.CN." = ("g-cn", "r2").
Proof.
  destruct (@Match_highest_priority ascii_case demo_splitter "t1" "WWW.Example.CN." demo_sorted)
    as [(r & _ & Hm & _)|[_ Hn]].
  - vm_compute. reflexivity.
  - assert (Hin : demo_rule "r2" "" "suffix" "cn" "g-cn" 20 ∈ rules demo_splitter) by constructor.
    specialize (Hn _ Hin). vm_compute in Hn. discriminate Hn.
Defined.

(** A tenant with a pinned upstream group always gets that group,
    whatever the rules say; a tenant without one never gets a group from
    another tenant's rule. *)
Theorem GroupForQuery_isolation `{UnicodeCase} s t qname :
  (t_UpstreamGroup t ≠ "" → GroupForQuery s (Some t) qname = (t_UpstreamGroup t, pinned_rule_name)) ∧
  (t_UpstreamGroup t = "" →
   ∀ gid name, GroupForQuery s (Some t) qname = (gid, name) → gid ≠ "" →
   ∃ r, r ∈ rules s ∧ r_GroupID r = gid ∧ r_Name r = name ∧ (r_TenantID r = "" ∨ r_TenantID r = t_ID t)).
Proof.
  unfold GroupForQuery. split.
  - intros Hg%String.eqb_neq. by rewrite Hg.
  - intros Hg gid name Heq Hne. apply String.eqb_eq in Hg. rewrite Hg in Heq. simpl in Heq.
    unfold Match in Heq.
    destruct (first_match _ (rules s)) as [r|] eqn:Hm; [|simpl in Heq; congruence].
    apply first_match_Some in Hm as (l1 & l2 & Hl & Hr & _).
    destruct (eligible_scope _ _ _ _ Hr) as (_ & Ht & _). exists r.
    destruct (String.eqb_spec (r_GroupID r) ""); simplify_eq/=.
    split_and!; try done. rewrite Hl. set_solver.
Qed.

Lemma GroupForQuery_isolation_witness :
  @GroupForQuery ascii_case demo_splitter (Some demo_tenant) "WWW.Example.CN." = ("g-cn", "r2") ∧
  ∃ r, r ∈ rules demo_splitter ∧ r_GroupID r = "g-cn" ∧ r_Name r = "r2" ∧
       (r_TenantID r = "" ∨ r_TenantID r = t_ID demo_tenant).
Proof.
  split; [vm_compute; reflexivity|].
  apply (proj2 (@GroupForQuery_isolation ascii_case demo_splitter demo_tenant "WWW.Example.CN.")).
  - vm_compute. reflexivity.
  - vm_compute. reflexivity.
  - discriminate.
Defined.
