(* ===== verification/StoreCache.v ===== *)
(** * The answer store (src/internal/store/cache.go)

    The [Cache] interface as a class with the law its users rely on, the
    Redis and the in-memory implementation with their instances, and the
    key helpers [Safe] and [CacheKey]. The Redis server and [encoding/json]
    are parameters; base64 is the Standard Library's and is modelled. *)

From S2P Require Import Prelude GoStrings Config.

Record CacheEntry := { MsgB64 : string; Stored : Z; TTL : Z }.
#[global] Instance CacheEntry_eq_dec : EqDecision CacheEntry.
Proof. solve_decision. Defined.

(** ** The interface

    [now] is the wall clock in nanoseconds. A method that returns an error
    returns it as [Some msg] beside the new state. *)

Class Cache (S : Type) := {
  Get : S → Z → string → outcome (option CacheEntry);
  Set_ : S → Z → string → CacheEntry → S * option string;
  Del : S → Z → list string → S * option string;
  Purge : S → Z → string → S * outcome Z;
}.

(** What the pipeline relies on: a lookup after a [Set_] answers with the
    entry set or with a miss, and a [Set_] changes no other key. *)
Class CacheLaws (S : Type) `{Cache S} : Prop := {
  Get_Set : ∀ s now now' k e,
    now ≤ now' → (Set_ s now k e).2 = None →
    Get (Set_ s now k e).1 now' k ∈ [Ok (Some e); Ok None];
  Get_Set_ne : ∀ s now now' k k' e,
    k ≠ k' → Get (Set_ s now k e).1 now' k' = Get s now' k';
}.

(** A store that also keeps what it is given: until the entry's TTL, at most
    a day, the lookup is a hit. A Redis server that evicts keys satisfies
    only [CacheLaws]. *)
Class CacheKeeps (S : Type) `{Cache S} : Prop := {
  Get_Set_fresh : ∀ s now now' k e,
    now ≤ now' < now + TTL e * second → 1 ≤ TTL e ≤ 86400 → (Set_ s now k e).2 = None →
    Get (Set_ s now k e).1 now' k = Ok (Some e);
}.

(** ** Memory cache *)

Module MemoryCache.
Abbreviation t := (gmap string CacheEntry).

Definition NewMemoryCache : t := ∅.
Definition Get (c : t) (_ : Z) (key : string) : outcome (option CacheEntry) := Ok (c !! key).
Definition Set_ (c : t) (_ : Z) (key : string) (e : CacheEntry) : t * option string :=
  (<[key := e]> c, None).
Definition Del (c : t) (_ : Z) (keys : list string) : t * option string :=
  (foldl (λ m k, delete k m) c keys, None).
Definition Purge (c : t) (_ : Z) (prefix : string) : t * outcome Z :=
  let c' := filter (λ kv, HasPrefix kv.1 prefix = false) c in
  (c', Ok (Z.of_nat (size c) - Z.of_nat (size c'))).
(** One tick of the sweeper goroutine. *)
Definition sweep (c : t) (nowUnix : Z) : t :=
  filter (λ kv, nowUnix - Stored kv.2 < TTL kv.2) c.
End MemoryCache.

#[global] Instance memory_cache : Cache MemoryCache.t := {
  Get := MemoryCache.Get; Set_ := MemoryCache.Set_; Del := MemoryCache.Del;
  Purge := MemoryCache.Purge
}.
#[global] Instance memory_cache_laws : CacheLaws MemoryCache.t.
Proof.
  split; simpl; unfold MemoryCache.Get.
  - intros. rewrite lookup_insert_eq. set_solver.
  - intros. by rewrite lookup_insert_ne.
Qed.

#[global] Instance memory_cache_keeps : CacheKeeps MemoryCache.t.
Proof. split. simpl. unfold MemoryCache.Get. intros. by rewrite lookup_insert_eq. Qed.

(** ** Redis cache *)

(** The commands of the Redis client the sources use on string keys. A nil
    reply is [Ok None]; an expiration is in nanoseconds. [rdb_scan_delete]
    is not a command: the SCAN iterator and the DELs are interleaved by the
    client, so the scan gives its keys and its final error. *)
Class Redis (R : Type) := {
  rdb_get : R → Z → string → outcome (option string);
  rdb_set : R → Z → string → string → Z → R * option string;
  rdb_del : R → Z → list string → R * option string;
  rdb_scan : R → Z → string → list string * option string;
}.
(** SET then GET answers with the value or, once expired, with nil; a SET
    touches no other key. *)
Class RedisLaws (R : Type) `{Redis R} : Prop := {
  rdb_get_set : ∀ r now now' k v ttl,
    now ≤ now' → (rdb_set r now k v ttl).2 = None →
    rdb_get (rdb_set r now k v ttl).1 now' k ∈ [Ok (Some v); Ok None];
  rdb_get_set_ne : ∀ r now now' k k' v ttl,
    k ≠ k' → rdb_get (rdb_set r now k v ttl).1 now' k' = rdb_get r now' k';
}.
(** Without eviction a key lives for its expiration. *)
Class RedisKeeps (R : Type) `{Redis R} : Prop := {
  rdb_get_set_fresh : ∀ r now now' k v ttl,
    now ≤ now' < now + ttl → (rdb_set r now k v ttl).2 = None →
    rdb_get (rdb_set r now k v ttl).1 now' k = Ok (Some v);
}.
(** [encoding/json] on a [CacheEntry]. *)
Class EntryJSON := {
  Marshal_entry : CacheEntry → outcome string;
  Unmarshal_entry : string → outcome CacheEntry;
}.
Class EntryJSONLaws `{EntryJSON} : Prop := {
  Unmarshal_Marshal : ∀ e s, Marshal_entry e = Ok s → Unmarshal_entry s = Ok e;
}.

Module RedisCache.
Section redis.
Context {R : Type} `{Redis R} `{EntryJSON}.

Definition Get (r : R) (now : Z) (key : string) : outcome (option CacheEntry) :=
  match rdb_get r now key with
  | Ok None => Ok None
  | Err e => Err e
  | Panic => Panic
  | Ok (Some raw) =>
      match Unmarshal_entry raw with
      | Ok e => Ok (Some e)
      | Err e => Err e
      | Panic => Panic
      end
  end.

(** The expiration passed to SET. *)
Definition set_ttl (e : CacheEntry) : Z :=
  let ttl := i64 (TTL e * second) in
  let ttl := if ttl <=? 0 then 1 else ttl in
  if 24 * hour <? ttl then 24 * hour else ttl.

Definition Set_ (r : R) (now : Z) (key : string) (e : CacheEntry) : R * option string :=
  match Marshal_entry e with
  | Ok raw => rdb_set r now key raw (set_ttl e)
  | Err m => (r, Some m)
  | Panic => (r, Some "panic")
  end.

Definition Del (r : R) (now : Z) (keys : list string) : R * option string := rdb_del r now keys.

(** The loop over the iterator: one DEL per key, failures not counted. *)
Fixpoint purge_keys (r : R) (now : Z) (keys : list string) (deleted : Z) : R * Z :=
  match keys with
  | [] => (r, deleted)
  | k :: keys =>
      match rdb_del r now [k] with
      | (r, None) => purge_keys r now keys (deleted + 1)
      | (r, Some _) => purge_keys r now keys deleted
      end
  end.
Definition Purge (r : R) (now : Z) (prefix : string) : R * outcome Z :=
  let '(keys, err) := rdb_scan r now (prefix +:+ "*") in
  let '(r, deleted) := purge_keys r now keys 0 in
  (r, match err with None => Ok deleted | Some e => Err e end).

Lemma set_ttl_bounds e : 1 ≤ set_ttl e ≤ 24 * hour.
Proof.
  assert (24 * hour = 86400000000000) as Hh by reflexivity.
  unfold set_ttl. repeat case_match; zbool; lia.
Qed.
End redis.
End RedisCache.

#[global] Instance redis_cache {R} `{Redis R} `{EntryJSON} : Cache R := {
  Get := RedisCache.Get; Set_ := RedisCache.Set_; Del := RedisCache.Del;
  Purge := RedisCache.Purge
}.
#[global] Instance redis_cache_laws {R} `{RedisLaws R} `{EntryJSONLaws} : CacheLaws R.
Proof.
  split; simpl; unfold RedisCache.Get, RedisCache.Set_.
  - intros s now now' k e Hle. destruct (Marshal_entry e) as [raw| |] eqn:Hm; simpl; try done.
    intros Hok.
    pose proof (rdb_get_set s now now' k raw (RedisCache.set_ttl e) Hle Hok) as Hg.
    apply elem_of_cons in Hg as [->|Hg]; [rewrite (Unmarshal_Marshal _ _ Hm); set_solver|].
    apply list_elem_of_singleton in Hg as ->. set_solver.
  - intros s now now' k k' e Hne. destruct (Marshal_entry e); simpl; [|done..].
    by rewrite rdb_get_set_ne.
Qed.
#[global] Instance redis_cache_keeps {R} `{RedisKeeps R} `{EntryJSONLaws} : CacheKeeps R.
Proof.
  split. simpl. unfold RedisCache.Get, RedisCache.Set_. intros s now now' k e Hn Ht.
  assert (RedisCache.set_ttl e = TTL e * second) as Hset.
  { assert (24 * hour = 86400 * second) as Hh by reflexivity. assert (second = 1000000000) as Hs by reflexivity.
    unfold RedisCache.set_ttl. assert (i64 (TTL e * second) = TTL e * second) as -> by (rewrite Hs; unfold i64; divlia).
    repeat case_match; zbool; lia. }
  destruct (Marshal_entry e) as [raw| |] eqn:Hm; simpl; try done. rewrite Hset. intros Hok.
  rewrite rdb_get_set_fresh by done. by rewrite (Unmarshal_Marshal _ _ Hm).
Qed.

(** ** Key helpers *)

Definition safe_rune (r : Z) : bool :=
  ((97 <=? r) && (r <=? 122)) || ((65 <=? r) && (r <=? 90)) || ((48 <=? r) && (r <=? 57))
  || (r =? 46) || (r =? 95) || (r =? 45) || (r =? 47).
(** What one iteration writes: the rune, or [%] and its code in hexadecimal. *)
Definition safe_piece (r : Z) : string :=
  if safe_rune r then encode_rune r else String "%" (fmt_X r).
Fixpoint Safe_loop (rs : list Z) (b : string) : string :=
  match rs with
  | [] => b
  | r :: rs =>
      let b := (b +:+ safe_piece r)%string in
      if (120 <=? len b)%nat then b else Safe_loop rs b
  end.
Definition Safe (s : string) : string :=
  let b := Safe_loop (runes s) EmptyString in
  if (len b =? 0)%nat then "_" else b.

Definition CacheKey `{UnicodeCase} (tenantID ecs qname qtype : string) : string :=
  let ecs := if (ecs =? "")%string then "g" else ecs in
  ("dns:cache:" +:+ Safe tenantID +:+ ":" +:+ Safe ecs +:+ ":" +:+ Safe (ToLower qname) +:+ ":" +:+ qtype)%string.

Definition ECSActiveSetKey (tenantID : string) : string := ("dns:ecs:" +:+ Safe tenantID)%string.

Example Safe_ex : Safe "a b*:中" = "a%20b%2A%3A%4E2D".
Proof. vm_compute. reflexivity. Qed.

(** *** Base64 ([base64.StdEncoding]) *)

Definition b64_char (v : Z) : ascii :=
  ascii_of (if v <? 26 then 65 + v else if v <? 52 then 71 + v else if v <? 62 then v - 4
            else if v =? 62 then 43 else 47).
Definition b64_val (c : ascii) : option Z :=
  let b := byte_of c in
  if (65 <=? b) && (b <=? 90) then Some (b - 65)
  else if (97 <=? b) && (b <=? 122) then Some (b - 71)
  else if (48 <=? b) && (b <=? 57) then Some (b + 4)
  else if b =? 43 then Some 62
  else if b =? 47 then Some 63
  else None.

Fixpoint EncodeToString (src : list Z) : string :=
  match src with
  | [] => EmptyString
  | [a] => String (b64_char (a / 4)) (String (b64_char (a mod 4 * 16)) "==")
  | [a; b] =>
      String (b64_char (a / 4)) (String (b64_char (a mod 4 * 16 + b / 16))
        (String (b64_char (b mod 16 * 4)) "="))
  | a :: b :: c :: src =>
      String (b64_char (a / 4)) (String (b64_char (a mod 4 * 16 + b / 16))
        (String (b64_char (b mod 16 * 4 + c / 64)) (String (b64_char (c mod 64)) (EncodeToString src))))
  end.

(** Line breaks are ignored; unused trailing bits are not checked. *)
Fixpoint strip_newlines (s : string) : string :=
  match s with
  | EmptyString => EmptyString
  | String c s => if (byte_of c =? 10) || (byte_of c =? 13) then strip_newlines s
                  else String c (strip_newlines s)
  end.
Definition corrupt {A} : outcome A := Err "illegal base64 data".
Fixpoint decode_quads (s : string) : outcome (list Z) :=
  match s with
  | EmptyString => Ok []
  | String c0 (String c1 (String c2 (String c3 s))) =>
      match b64_val c0, b64_val c1 with
      | Some v0, Some v1 =>
          let x := v0 * 4 + v1 / 16 in
          match b64_val c2, b64_val c3 with
          | Some v2, Some v3 =>
              match decode_quads s with
              | Ok l => Ok (x :: (v1 mod 16 * 16 + v2 / 4) :: (v2 mod 4 * 64 + v3) :: l)
              | o => o
              end
          | Some v2, None =>
              if (byte_of c3 =? 61) && (s =? "")%string then Ok [x; v1 mod 16 * 16 + v2 / 4] else corrupt
          | None, _ =>
              if (byte_of c2 =? 61) && (byte_of c3 =? 61) && (s =? "")%string then Ok [x] else corrupt
          end
      | _, _ => corrupt
      end
  | _ => corrupt
  end.
Definition DecodeString (s : string) : outcome (list Z) := decode_quads (strip_newlines s).

Definition PackMsg (raw : list Z) : string := EncodeToString raw.
Definition UnpackMsg (s : string) : outcome (list Z) := DecodeString s.

Example PackMsg_ex : PackMsg [77; 97; 110; 255] = "TWFu/w==" ∧ UnpackMsg "TWFu/w==" = Ok [77; 97; 110; 255]
  ∧ UnpackMsg "TWFu/w=" = corrupt.
Proof. by vm_compute. Qed.

(** ** Lemmas *)

Lemma b64_char_val v : 0 ≤ v < 64 → b64_val (b64_char v) = Some v ∧ byte_of (b64_char v) ≠ 10 ∧ byte_of (b64_char v) ≠ 13.
Proof.
  intros Hv. unfold b64_val, b64_char. rewrite byte_of_ascii by (unfold is_u8; repeat case_match; zbool; lia).
  repeat case_match; zbool; try (exfalso; lia); split_and!; try f_equal; lia.
Qed.

Lemma list_ind3 {A} (P : list A → Prop) :
  P [] → (∀ a, P [a]) → (∀ a b, P [a; b]) → (∀ a b c l, P l → P (a :: b :: c :: l)) → ∀ l, P l.
Proof. intros H0 H1 H2 H3. fix IH 1. intros [|a [|b [|c l]]]; [done|auto..|]. apply H3, IH. Qed.

Ltac b64_step :=
  match goal with
  | |- context [b64_val (b64_char ?v)] =>
      rewrite (proj1 (b64_char_val v ltac:(unfold is_u8 in *; divlia)))
  end.

Lemma strip_newlines_b64 v s :
  0 ≤ v < 64 → strip_newlines (String (b64_char v) s) = String (b64_char v) (strip_newlines s).
Proof.
  intros Hv. destruct (b64_char_val v Hv) as (_ & H10 & H13). simpl.
  by rewrite (proj2 (Z.eqb_neq _ _) H10), (proj2 (Z.eqb_neq _ _) H13).
Qed.

Lemma UnpackMsg_PackMsg raw : Forall is_u8 raw → UnpackMsg (PackMsg raw) = Ok raw.
Proof.
  unfold UnpackMsg, PackMsg, DecodeString. induction raw as [|a|a b|a b c l IH] using list_ind3; intros Hf.
  - done.
  - inversion_clear Hf. unfold is_u8 in *. cbn [EncodeToString].
    rewrite !strip_newlines_b64 by divlia. cbn [decode_quads strip_newlines]. cbn.
    do 2 b64_step. do 2 f_equal. divlia.
  - inversion_clear Hf as [|? ? Ha Hf']. inversion_clear Hf'. unfold is_u8 in *. cbn [EncodeToString].
    rewrite !strip_newlines_b64 by divlia. cbn [decode_quads strip_newlines]. cbn.
    do 3 b64_step. cbn. do 2 f_equal; [divlia|]. f_equal. divlia.
  - inversion_clear Hf as [|? ? Ha Hf']. inversion_clear Hf' as [|? ? Hb Hf'']. inversion_clear Hf'' as [|? ? Hc Hl].
    unfold is_u8 in *. cbn [EncodeToString]. rewrite !strip_newlines_b64 by divlia. cbn [decode_quads].
    do 4 b64_step. rewrite IH by done. do 2 f_equal; [divlia|]. f_equal; [divlia|]. f_equal. divlia.
Qed.

(** *** The output of [Safe] *)

Definition key_byte (b : Z) : bool := safe_rune b || (b =? 37).
Definition key_string (s : string) : bool := forallb key_byte (bytes_of s).

Lemma length_bytes_of s : length (bytes_of s) = len s.
Proof. induction s; simpl; congruence. Qed.
Lemma key_string_app s t : key_string (s +:+ t) = key_string s && key_string t.
Proof. unfold key_string. by rewrite bytes_of_app, forallb_app. Qed.

Lemma hex_digit_key u d : 0 ≤ d < 16 → key_byte (byte_of (hex_digit u d)) = true.
Proof. intros Hd. destruct u; assert (d ∈ seqZ 0 16) as Hin by (apply elem_of_seqZ; lia);
  vm_compute in Hin; repeat (apply elem_of_cons in Hin as [->|Hin]; [reflexivity|]); by inversion Hin. Qed.
Lemma hex_go_key u fuel z acc : key_string acc = true → key_string (hex_go u fuel z acc) = true.
Proof.
  revert z acc. induction fuel as [|fuel IH]; intros z acc Ha; simpl; [done|].
  assert (key_string (String (hex_digit u (z mod 16)) acc) = true) as Hk.
  { unfold key_string. simpl. rewrite hex_digit_key by (apply Z.mod_pos_bound; lia). done. }
  case_match; [done|by apply IH].
Qed.
Lemma encode_rune_safe r : safe_rune r = true → encode_rune r = String (ascii_of r) EmptyString ∧ is_u8 r.
Proof.
  intros Hr. assert (0 ≤ r < 128) as Hb.
  { unfold safe_rune in Hr. repeat (apply orb_true_iff in Hr as [Hr|Hr]); zbool; lia. }
  unfold encode_rune. rewrite (proj2 (Z.ltb_lt r 128)) by lia. split; [done|unfold is_u8; lia].
Qed.
Lemma safe_piece_key r : key_string (safe_piece r) = true.
Proof.
  unfold safe_piece. destruct (safe_rune r) eqn:Hr.
  - destruct (encode_rune_safe r Hr) as [-> Hb]. unfold key_string. simpl.
    rewrite byte_of_ascii by done. unfold key_byte. by rewrite Hr.
  - unfold key_string. simpl. by apply hex_go_key.
Qed.
Lemma Safe_loop_key rs b : key_string b = true → key_string (Safe_loop rs b) = true.
Proof.
  revert b. induction rs as [|r rs IH]; intros b Hb; cbn [Safe_loop]; [done|].
  assert (key_string (b +:+ safe_piece r) = true) as Hk by (by rewrite key_string_app, Hb, safe_piece_key).
  case_match; auto.
Qed.
Lemma Safe_key s : key_string (Safe s) = true.
Proof. unfold Safe. case_match; [done|]. by apply Safe_loop_key. Qed.
Lemma Safe_nonempty s : Safe s ≠ "".
Proof. unfold Safe. by destruct (Safe_loop (runes s) ""). Qed.

(** A rune takes at most seven characters, so the loop stops within 126. *)
Lemma hex_go_length u fuel z acc : (len (hex_go u fuel z acc) ≤ fuel + len acc)%nat.
Proof.
  revert z acc. induction fuel as [|fuel IH]; intros z acc; simpl; [done|].
  case_match; simpl; [lia|]. etrans; [apply IH|simpl; lia].
Qed.
Lemma hex_go_small u n fuel z acc :
  0 ≤ z < 16 ^ Z.of_nat n → (len (hex_go u fuel z acc) ≤ n `max` 1 + len acc)%nat.
Proof.
  revert fuel z acc. induction n as [|n IH]; intros [|fuel] z acc Hz; simpl; try lia.
  - assert (z = 0) as -> by (simpl in Hz; lia). simpl. lia.
  - case_match eqn:He; zbool; simpl; [lia|].
    destruct n as [|n]. { exfalso. apply He. simpl in Hz. apply Z.div_small. lia. }
    etrans; [apply IH|simpl; lia].
    split; [apply Z.div_pos; lia|]. apply Z.div_lt_upper_bound; [lia|].
    rewrite Nat2Z.inj_succ, Z.pow_succ_r in Hz by lia. lia.
Qed.

Lemma Z_land_ones_bound a n : 0 ≤ n → 0 ≤ Z.land a (Z.ones n) < 2 ^ n.
Proof. intros Hn. rewrite Z.land_ones by done. apply Z.mod_pos_bound. by apply Z.pow_pos_nonneg. Qed.
Lemma runes_bound s : Forall (λ r, 0 ≤ r < 16 ^ 6) (runes s).
Proof.
  assert (∀ n s, (len s ≤ n)%nat → Forall (λ r, 0 ≤ r < 16 ^ 6) (runes s)) as H; [|by eapply H].
  induction n as [|n IH]; intros [|c0 t] Hn; try (by constructor); [simpl in Hn; lia|].
  pose proof (byte_of_bound c0) as Hb. unfold is_u8 in Hb.
  assert (∀ x, 0 ≤ Z.land x 63 < 64) as H6 by (intros x; apply (Z_land_ones_bound x 6); lia).
  pose proof (Z_land_ones_bound (byte_of c0) 5 ltac:(lia)) as H5. change (Z.ones 5) with 31 in H5.
  pose proof (Z_land_ones_bound (byte_of c0) 4 ltac:(lia)) as H4. change (Z.ones 4) with 15 in H4.
  pose proof (Z_land_ones_bound (byte_of c0) 3 ltac:(lia)) as H3. change (Z.ones 3) with 7 in H3.
  change (2 ^ 5) with 32 in *. change (2 ^ 4) with 16 in *. change (2 ^ 3) with 8 in *.
  simpl in Hn. unfold runes in *. cbn [range_string]. change (16 ^ 6) with 16777216 in *.
  unfold RuneError.
  repeat case_match; subst; rewrite fmap_cons; cbn [fst]; apply Forall_cons;
    (split; [|first [by apply Forall_nil|apply IH; simpl in Hn |- *; lia]]); try lia;
    repeat match goal with
    | |- context [Z.land (byte_of ?c) 63] => pose proof (H6 (byte_of c)); generalize dependent (Z.land (byte_of c) 63); intros
    end; lia.
Qed.

Lemma safe_piece_length r : 0 ≤ r < 16 ^ 6 → (len (safe_piece r) ≤ 7)%nat.
Proof.
  intros Hr. unfold safe_piece. destruct (safe_rune r) eqn:Hs.
  - destruct (encode_rune_safe r Hs) as [-> _]. simpl. lia.
  - unfold fmt_X. simpl len. pose proof (hex_go_small true 6 16 r "" Hr). simpl in *. lia.
Qed.
Lemma Safe_loop_length rs b :
  Forall (λ r, 0 ≤ r < 16 ^ 6) rs → (len b < 120)%nat → (len (Safe_loop rs b) ≤ 126)%nat.
Proof.
  revert b. induction rs as [|r rs IH]; intros b Hf Hb; cbn [Safe_loop]; [lia|].
  inversion_clear Hf as [|? ? Hr Hrs]. pose proof (safe_piece_length r Hr).
  pose proof (length_append b (safe_piece r)).
  case_match eqn:Hl; [lia|]. apply IH; [done|]. apply Nat.leb_gt in Hl. lia.
Qed.

(** *** Separating the fields of a key *)

Lemma key_split x y u v :
  key_string x = true → key_string y = true →
  (x +:+ String ":" u = y +:+ String ":" v)%string → x = y ∧ u = v.
Proof.
  revert y. induction x as [|c x IH]; intros [|d y] Hx Hy Heq; injection Heq.
  - auto.
  - intros _ <-. vm_compute in Hy. done.
  - intros _ ->. vm_compute in Hx. done.
  - intros Heq' ->. unfold key_string in *. simpl in *. zbool. destruct (IH y) as [-> ->]; auto.
Qed.

(** *** Escaping is a prefix code on printable ASCII *)

Definition escape (rs : list Z) : string := concat_str (safe_piece <$> rs).

Lemma Safe_loop_escape rs b :
  (len (b +:+ escape rs) ≤ 120)%nat → Safe_loop rs b = (b +:+ escape rs)%string.
Proof.
  revert b. induction rs as [|r rs IH]; intros b Hl; cbn [Safe_loop].
  { unfold escape. simpl. by rewrite append_nil_r. }
  change (escape (r :: rs)) with (safe_piece r +:+ escape rs)%string in *.
  rewrite <-append_assoc_str in *. case_match eqn:He; [|by apply IH].
  apply Nat.leb_le in He. rewrite length_append in Hl.
  destruct (escape rs); simpl in Hl; [by rewrite append_nil_r|lia].
Qed.

Definition printable (s : string) : bool := forallb (λ b, (16 <=? b) && (b <? 128)) (bytes_of s).

Lemma printable_ascii s : printable s = true → is_ascii_string s = true.
Proof.
  unfold printable, is_ascii_string. rewrite !forallb_forall. intros H x Hx.
  specialize (H x Hx). apply andb_true_iff in H. apply H.
Qed.

Definition piece_table : list (Z * string) := (λ r, (r, safe_piece r)) <$> seqZ 16 112.
(** No piece of a byte in 0x10..0x7F is a prefix of another. *)
Lemma piece_table_prefix :
  forallb (λ x, forallb (λ y, (x.1 =? y.1) || negb (HasPrefix y.2 x.2)) piece_table) piece_table = true.
Proof. vm_compute. reflexivity. Qed.
Lemma piece_prefix a b u v :
  16 ≤ a < 128 → 16 ≤ b < 128 →
  (safe_piece a +:+ u = safe_piece b +:+ v)%string → a = b.
Proof.
  intros Ha Hb Heq. pose proof piece_table_prefix as Ht. rewrite forallb_forall in Ht.
  assert (∀ r, 16 ≤ r < 128 → In (r, safe_piece r) piece_table) as Hin.
  { intros r Hr. apply list_elem_of_In, list_elem_of_fmap. exists r. split; [done|]. apply elem_of_seqZ. lia. }
  assert (HasPrefix (safe_piece b) (safe_piece a) = true ∨ HasPrefix (safe_piece a) (safe_piece b) = true) as Hp.
  { revert Heq. generalize (safe_piece a) (safe_piece b). induction s as [|c s IH]; intros [|d t] Heq; simpl; auto.
    injection Heq as -> Heq. destruct (IH t Heq) as [H|H]; rewrite H, ?Ascii.eqb_refl; auto. }
  destruct Hp as [Hp|Hp].
  - specialize (Ht _ (Hin a Ha)). rewrite forallb_forall in Ht. specialize (Ht _ (Hin b Hb)). simpl in Ht.
    rewrite Hp in Ht. simpl in Ht. rewrite orb_false_r in Ht. by zbool.
  - specialize (Ht _ (Hin b Hb)). rewrite forallb_forall in Ht. specialize (Ht _ (Hin a Ha)). simpl in Ht.
    rewrite Hp in Ht. simpl in Ht. rewrite orb_false_r in Ht. by zbool.
Qed.
Lemma safe_piece_ne r : safe_piece r ≠ "".
Proof. unfold safe_piece. case_match eqn:Hr; [|done]. by destruct (encode_rune_safe r Hr) as [-> _]. Qed.

Lemma escape_inj l1 l2 :
  Forall (λ r, 16 ≤ r < 128) l1 → Forall (λ r, 16 ≤ r < 128) l2 → escape l1 = escape l2 → l1 = l2.
Proof.
  intros H1. revert l2. induction H1 as [|a l1 Ha H1 IH]; intros l2 H2 Heq.
  - destruct H2 as [|b l2]; [done|]. unfold escape in Heq. simpl in Heq.
    by destruct (safe_piece b) eqn:E; [apply safe_piece_ne in E|].
  - destruct H2 as [|b l2 Hb H2].
    { unfold escape in Heq. simpl in Heq. by destruct (safe_piece a) eqn:E; [apply safe_piece_ne in E|]. }
    change (safe_piece a +:+ escape l1 = safe_piece b +:+ escape l2)%string in Heq.
    pose proof (piece_prefix _ _ _ _ Ha Hb Heq) as ->. f_equal. apply IH; [done|].
    by eapply append_inj_l.
Qed.

Lemma Safe_escape s : s ≠ "" → (len (escape (runes s)) ≤ 120)%nat → printable s = true → Safe s = escape (bytes_of s).
Proof.
  intros Hne Hl Hp. rewrite (runes_ascii _ (printable_ascii _ Hp)) in Hl.
  unfold Safe. rewrite (runes_ascii _ (printable_ascii _ Hp)), Safe_loop_escape by done. simpl.
  destruct s as [|c s]; [done|]. unfold escape. simpl.
  by destruct (safe_piece (byte_of c)) eqn:E; [apply safe_piece_ne in E|].
Qed.
Lemma printable_Forall s : printable s = true → Forall (λ r, 16 ≤ r < 128) (bytes_of s).
Proof.
  unfold printable. rewrite forallb_forall. intros H. apply Forall_forall. intros x Hx%list_elem_of_In.
  specialize (H x Hx). simpl in H. zbool. lia.
Qed.
Lemma Safe_inj s t :
  printable s = true → printable t = true → s ≠ "" → t ≠ "" →
  (len (escape (runes s)) ≤ 120)%nat → (len (escape (runes t)) ≤ 120)%nat →
  Safe s = Safe t → s = t.
Proof.
  intros Hs Ht Hs0 Ht0 Hsl Htl. rewrite !Safe_escape by done. intros Heq%escape_inj; [|by apply printable_Forall..].
  by rewrite <-(string_of_bytes_of s), Heq, string_of_bytes_of.
Qed.

Lemma CacheKey_fields `{UnicodeCase} t e q y t' e' q' y' :
  CacheKey t e q y = CacheKey t' e' q' y' →
  Safe t = Safe t' ∧ Safe (if (e =? "")%string then "g" else e) = Safe (if (e' =? "")%string then "g" else e') ∧
  Safe (ToLower q) = Safe (ToLower q') ∧ y = y'.
Proof.
  unfold CacheKey. intros Heq%append_inj_l.
  apply key_split in Heq as [Ht Heq]; [|apply Safe_key..].
  apply key_split in Heq as [He Heq]; [|apply Safe_key..].
  apply key_split in Heq as [Hq Heq]; [|apply Safe_key..]. auto.
Qed.

(** A value that names one key field without ambiguity: printable ASCII
    whose escaped form is not truncated. *)
Definition key_field (s : string) : Prop :=
  s ≠ "" ∧ printable s = true ∧ (len (escape (runes s)) ≤ 120)%nat.

Lemma Safe_key_field s t : key_field s → key_field t → Safe s = Safe t → s = t.
Proof. intros (? & ? & ?) (? & ? & ?). by apply Safe_inj. Qed.

Lemma runes_app_ascii p s : is_ascii_string p = true → runes (p +:+ s) = bytes_of p ++ runes s.
Proof.
  induction p as [|c p IH]; [done|]. rewrite is_ascii_cons. intros [Hc Hp]%andb_true_iff.
  change (String c p +:+ s)%string with (String c (p +:+ s)). unfold runes in *. simpl.
  rewrite Hc. simpl. f_equal. by apply IH.
Qed.
Lemma Safe_loop_cut p rs rs' b :
  forallb safe_rune p = true → (len b < 120)%nat → (120 ≤ len b + length p)%nat →
  Safe_loop (p ++ rs) b = Safe_loop (p ++ rs') b.
Proof.
  revert b. induction p as [|r p IH]; intros b Hp Hb Hl; [simpl in Hl; lia|].
  simpl in Hp. apply andb_true_iff in Hp as [Hr Hp]. cbn [Safe_loop app]. case_match eqn:He; [done|].
  apply Nat.leb_gt in He. apply IH; [done..|].
  unfold safe_piece. rewrite Hr, (proj1 (encode_rune_safe r Hr)), length_append. simpl in *. lia.
Qed.

(** ** Properties *)

(** Whatever bytes a client puts into a name, [Safe] yields a
    non-empty string of at most 126 characters over [[a-zA-Z0-9._/%-]]: no
    field separator, no glob character, no line break reaches a Redis key. *)
Theorem Safe_no_injection s :
  Safe s ≠ "" ∧ key_string (Safe s) = true ∧ (len (Safe s) ≤ 126)%nat.
Proof.
  split_and!; [apply Safe_nonempty|apply Safe_key|]. unfold Safe. case_match; [simpl; lia|].
  apply Safe_loop_length; [apply runes_bound|simpl; lia].
Qed.



(** Outside that domain [Safe] is not injective: hexadecimal
    codes are not padded, and values are cut after 120 characters. *)
Theorem Safe_collisions :
  Safe (String (ascii_of 1) "2") = Safe (String (ascii_of 18) "") ∧
  Safe "" = Safe "_" ∧
  ∀ p s t, (120 ≤ len p)%nat → forallb safe_rune (bytes_of p) = true → Safe (p +:+ s) = Safe (p +:+ t).
Proof.
  split_and!; [by vm_compute..|]. intros p s t Hl Hp.
  assert (is_ascii_string p = true) as Ha.
  { unfold is_ascii_string. rewrite forallb_forall in *. intros x Hx. specialize (Hp x Hx).
    unfold safe_rune in Hp. apply Z.ltb_lt. repeat (apply orb_true_iff in Hp as [Hp|Hp]); zbool; lia. }
  unfold Safe. rewrite !runes_app_ascii by done. rewrite (Safe_loop_cut _ _ (runes t)); [done|done|simpl; lia|].
  simpl. by rewrite length_bytes_of.
Qed.

Lemma Safe_collisions_witness :
  let p := string_of_bytes (replicate 120 97) in
  Safe (p +:+ ".a.example.") = Safe (p +:+ ".b.example.").
Proof. apply Safe_collisions; [apply Nat.leb_le|]; vm_compute; reflexivity. Defined.
