(* ===== verification/AnswerCache.v ===== *)
(** * The answer cache (src/internal/dnsx/cache.go)

    DNS semantics over the [Cache] interface: the TTL an answer is stored
    with, the TTL adjustment on read, and [SingleFlight] as a step relation
    over its callers. Time is the wall clock in nanoseconds. *)

From S2P Require Import Prelude GoStrings GoNet Config Model DnsMsg Ecs StoreCache.

Record RespMeta := {
  CacheHit : bool; UpstreamGroup_ : string; Upstream_ : string; RTTMS : Z;
  DNSSECOK : bool; RuleMatched : string; FromCache : bool; RCode : string
}.
(** [&RespMeta{}] *)
Definition noMeta : RespMeta :=
  {| CacheHit := false; UpstreamGroup_ := ""; Upstream_ := ""; RTTMS := 0; DNSSECOK := false;
     RuleMatched := ""; FromCache := false; RCode := "" |}.

(** [t.Unix()] *)
Definition Unix (now : Time) : Z := now / second.

Definition set_Ttl (r : RR) (ttl : Z) : RR :=
  {| Hdr := {| Name := Name (Hdr r); Rrtype := Rrtype (Hdr r); Class_ := Class_ (Hdr r); Ttl := ttl |};
     Data := Data r |}.
Definition adjustTTLs (m : Msg) (ttl : Z) : Msg :=
  set_Ns (set_Answer m ((λ r, set_Ttl r ttl) <$> m_Answer m)) ((λ r, set_Ttl r ttl) <$> m_Ns m).

Definition min_ttl (rs : list RR) (init : Z) : Z :=
  foldl (λ mn r, if Ttl (Hdr r) <? mn then Ttl (Hdr r) else mn) init rs.
Definition soa_min (r : RR) : option Z := match Data r with RD_SOA mn _ => Some mn | _ => None end.
Definition msgTTL (m : Msg) : Z :=
  match m_Answer m with
  | _ :: _ => min_ttl (m_Answer m) (2 ^ 31 - 1)
  | [] =>
      if m_Rcode m =? RcodeSuccess then
        default 0 (first_match (λ r, bool_decide (is_Some (soa_min r))) (m_Ns m) ≫= soa_min)
      else 0
  end.
Definition isNegative (m : Msg) : bool :=
  (m_Rcode m =? RcodeNameError) || (m_Rcode m =? RcodeSuccess) && (length (m_Answer m) =? 0)%nat.

(** The TTL [Put] stores: [0] for "do not cache". *)
Definition effective_ttl (cfg : Config) (m : Msg) : Z :=
  let ttl := msgTTL m in
  if ttl <=? 0 then 0 else
  let maxTTL := int_seconds (CacheMaxTTL cfg) in
  let ttl := if isNegative m && (0 <? NegCacheTTL cfg) && (int_seconds (NegCacheTTL cfg) <? ttl)
             then int_seconds (NegCacheTTL cfg) else ttl in
  let ttl := if maxTTL <? ttl then maxTTL else ttl in
  if ttl <? 1 then 1 else ttl.

Module AnswerCache.
Section cache.
Context {S : Type} `{Cache S} `{DnsLib}.

Definition Get (c : S) (now : Time) (key : string) (msgID : Z) : option Msg :=
  match StoreCache.Get c now key with
  | Ok (Some ent) =>
      match UnpackMsg (MsgB64 ent) with
      | Ok raw =>
          match Unpack raw with
          | Some m =>
              let elapsed := Unix now - Stored ent in
              let ttlLeft := TTL ent - elapsed in
              if ttlLeft <=? 0 then None
              else Some (set_Id (adjustTTLs m (u32 ttlLeft)) msgID)
          | None => None
          end
      | _ => None
      end
  | _ => None
  end.

(** The error of the store's [Set] is dropped. *)
Definition Put (cfg : Config) (c : S) (now : Time) (key : string) (m : Msg) : S * Z :=
  let ttl := effective_ttl cfg m in
  if ttl <=? 0 then (c, 0) else
  match Pack m with
  | None => (c, 0)
  | Some raw =>
      ((Set_ c now key {| MsgB64 := PackMsg raw; Stored := Unix now; TTL := ttl |}).1, ttl)
  end.
End cache.

(** Whether the warm hook (when one is installed) is called. *)
Definition ObserveAdaptiveWarm (cfg : Config) (hooked : bool) (ttlLeft : Z) : bool :=
  hooked && negb (WarmThreshold cfg <? ttlLeft).
End AnswerCache.

(** ** Lemmas *)

Lemma min_ttl_spec rs init :
  min_ttl rs init ≤ init ∧ Forall (λ r, min_ttl rs init ≤ Ttl (Hdr r)) rs.
Proof.
  revert init. induction rs as [|r rs IH]; intros init; [by split; [|constructor]|].
  change (min_ttl (r :: rs) init) with (min_ttl rs (if Ttl (Hdr r) <? init then Ttl (Hdr r) else init)).
  destruct (Ttl (Hdr r) <? init) eqn:E; zbool.
  - destruct (IH (Ttl (Hdr r))) as [H1 H2]. split; [lia|]. by constructor.
  - destruct (IH init) as [H1 H2]. split; [done|]. constructor; [lia|done].
Qed.
Lemma min_ttl_In rs init : min_ttl rs init = init ∨ ∃ r, r ∈ rs ∧ min_ttl rs init = Ttl (Hdr r).
Proof.
  revert init. induction rs as [|r rs IH]; intros init; [by left|].
  change (min_ttl (r :: rs) init) with (min_ttl rs (if Ttl (Hdr r) <? init then Ttl (Hdr r) else init)).
 
  destruct (IH (if Ttl (Hdr r) <? init then Ttl (Hdr r) else init)) as [->|(r' & ? & ->)].
  - case_match; [right; exists r; split; [left|done]|by left].
  - right. exists r'. split; [by right|done].
Qed.

Lemma effective_ttl_bounds cfg m :
  effective_ttl cfg m = 0 ∨
  1 ≤ effective_ttl cfg m ≤ 1 `max` int_seconds (CacheMaxTTL cfg) ∧ effective_ttl cfg m ≤ msgTTL m.
Proof. unfold effective_ttl. repeat case_match; zbool; lia. Qed.
Lemma msgTTL_answer m : m_Answer m ≠ [] → Forall (λ r, msgTTL m ≤ Ttl (Hdr r)) (m_Answer m).
Proof. unfold msgTTL. destruct (m_Answer m); [done|]. intros _. apply min_ttl_spec. Qed.
Lemma msgTTL_bound m : m_Answer m ≠ [] → msgTTL m ≤ 2 ^ 31 - 1.
Proof. unfold msgTTL. destruct (m_Answer m); [done|]. intros _. apply min_ttl_spec. Qed.

Lemma adjustTTLs_Answer m ttl : Forall (λ r, Ttl (Hdr r) = ttl) (m_Answer (adjustTTLs m ttl)).
Proof. destruct m; simpl. apply Forall_fmap, Forall_true. done. Qed.

Section cache_lemmas.
Context {S : Type} `{CacheLaws S} `{DnsLib}.

(** What [Get] answers from a given entry. *)
Definition served (m : Msg) (ttlLeft msgID : Z) : option Msg :=
  if ttlLeft <=? 0 then None else Some (set_Id (adjustTTLs m (u32 ttlLeft)) msgID).

Lemma Get_entry (c : S) now key id raw m st ttl :
  StoreCache.Get c now key = Ok (Some {| MsgB64 := PackMsg raw; Stored := st; TTL := ttl |}) →
  Forall is_u8 raw → Unpack raw = Some m →
  AnswerCache.Get c now key id = served m (ttl - (Unix now - st)) id.
Proof.
  intros Hg Hr Hu. unfold AnswerCache.Get. rewrite Hg. simpl. by rewrite UnpackMsg_PackMsg, Hu.
Qed.

Lemma Put_Get cfg (c : S) now now' key m raw id :
  Pack m = Some raw → Forall is_u8 raw → Unpack raw = Some m →
  0 < effective_ttl cfg m → now ≤ now' →
  (Set_ c now key {| MsgB64 := PackMsg raw; Stored := Unix now; TTL := effective_ttl cfg m |}).2 = None →
  let r := AnswerCache.Get (AnswerCache.Put cfg c now key m).1 now' key id in
  r = None ∨ r = served m (effective_ttl cfg m - (Unix now' - Unix now)) id.
Proof.
  intros Hp Hb Hu Ht Hle Hs. simpl. unfold AnswerCache.Put.
  rewrite (proj2 (Z.leb_gt _ _) Ht), Hp. simpl.
  pose proof (Get_Set c now now' key _ Hle Hs) as [Hg|Hg%list_elem_of_singleton]%elem_of_cons.
  - right. by apply (Get_entry _ _ _ _ _ _ _ _ Hg).
  - left. unfold AnswerCache.Get. by rewrite Hg.
Qed.
(** Until the entry's own lifetime is over, counted in whole seconds, the
    store has not expired it. *)
Lemma Put_Get_fresh `{!CacheKeeps S} cfg (c : S) now now' key m raw id :
  Pack m = Some raw → Forall is_u8 raw → Unpack raw = Some m →
  0 < effective_ttl cfg m ≤ 86400 → now ≤ now' →
  (Set_ c now key {| MsgB64 := PackMsg raw; Stored := Unix now; TTL := effective_ttl cfg m |}).2 = None →
  0 < effective_ttl cfg m - (Unix now' - Unix now) →
  AnswerCache.Get (AnswerCache.Put cfg c now key m).1 now' key id = served m (effective_ttl cfg m - (Unix now' - Unix now)) id.
Proof.
  intros Hp Hb Hu Ht Hle Hs Hl. unfold AnswerCache.Put. rewrite (proj2 (Z.leb_gt _ _)) by lia. rewrite Hp. cbn [fst].
  apply (Get_entry _ _ _ _ raw m (Unix now) (effective_ttl cfg m)); try done.
  apply Get_Set_fresh; cbn [TTL]; [|lia|done]. split; [done|]. unfold Unix in *. change second with 1000000000 in *. divlia.
Qed.
End cache_lemmas.

(** ** SingleFlight

    Callers are threads; a step is one critical section, one channel
    operation or the call of [fn]. A flight is identified by a number (the
    address of the [flight] struct). *)

Module SingleFlight.
Definition result : Type := option Msg * RespMeta.

Record flight := { done_ : bool; res : option result }.

Inductive pc :=
| Enter (key : string)                 (* before the first sfMu.Lock *)
| Wait (key : string) (f : nat)        (* in the select *)
| Running (key : string) (f : nat)     (* executing fn *)
| Finished (key : string) (f : nat)    (* f.msg, f.meta assigned *)
| Closing (key : string) (f : nat)     (* deleted from inflight *)
| Returned (key : string) (f : nat) (r : result)
| Cancelled (key : string).

Record state := { inflight : gmap string nat; flights : gmap nat flight; threads : gmap nat pc }.

Definition init (ts : gmap nat string) : state :=
  {| inflight := ∅; flights := ∅; threads := Enter <$> ts |}.

Definition go (s : state) (t : nat) (p : pc) : state :=
  {| inflight := inflight s; flights := flights s; threads := <[t := p]> (threads s) |}.
Definition with_inflight (s : state) (i : gmap string nat) : state :=
  {| inflight := i; flights := flights s; threads := threads s |}.
Definition with_flights (s : state) (fs : gmap nat flight) : state :=
  {| inflight := inflight s; flights := fs; threads := threads s |}.

Inductive action := Join | Lead | Fn | Delete | Close | Wake | Cancel.

(** [fn] may return any message and a nil or non-nil meta. *)
Inductive step (s : state) : action → state → Prop :=
| step_join t key f :
    threads s !! t = Some (Enter key) → inflight s !! key = Some f →
    step s Join (go s t (Wait key f))
| step_lead t key f :
    threads s !! t = Some (Enter key) → inflight s !! key = None → flights s !! f = None →
    step s Lead (go (with_flights (with_inflight s (<[key := f]> (inflight s)))
                  (<[f := {| done_ := false; res := None |}]> (flights s))) t (Running key f))
| step_fn t key f (msg : option Msg) (meta : option RespMeta) :
    threads s !! t = Some (Running key f) →
    step s Fn (go (with_flights s (<[f := {| done_ := false; res := Some (msg, default noMeta meta) |}]> (flights s)))
              t (Finished key f))
| step_delete t key f :
    threads s !! t = Some (Finished key f) →
    step s Delete (go (with_inflight s (delete key (inflight s))) t (Closing key f))
| step_close t key f r :
    threads s !! t = Some (Closing key f) → flights s !! f = Some {| done_ := false; res := Some r |} →
    step s Close (go (with_flights s (<[f := {| done_ := true; res := Some r |}]> (flights s))) t (Returned key f r))
| step_wake t key f r :
    threads s !! t = Some (Wait key f) → flights s !! f = Some {| done_ := true; res := Some r |} →
    step s Wake (go s t (Returned key f r))
| step_cancel t key f :
    threads s !! t = Some (Wait key f) → step s Cancel (go s t (Cancelled key)).

Inductive reachable (ts : gmap nat string) : state → Prop :=
| reach_init : reachable ts (init ts)
| reach_step s a s' : reachable ts s → step s a s' → reachable ts s'.

(** The flight a thread is responsible for, with its key. *)
Definition leads (p : pc) : option (string * nat) :=
  match p with
  | Running k f | Finished k f | Closing k f => Some (k, f)
  | _ => None
  end.

(** What holds of one thread. *)
Definition thread_ok (s : state) (p : pc) : Prop :=
  match p with
  | Enter _ | Cancelled _ => True
  | Wait k f => ∃ fl, flights s !! f = Some fl ∧
                ((done_ fl = true ∧ is_Some (res fl)) ∨
                 ∃ t' p', threads s !! t' = Some p' ∧ leads p' = Some (k, f))
  | Running k f => inflight s !! k = Some f ∧ flights s !! f = Some {| done_ := false; res := None |}
  | Finished k f => inflight s !! k = Some f ∧ ∃ r, flights s !! f = Some {| done_ := false; res := Some r |}
  | Closing k f => ∃ r, flights s !! f = Some {| done_ := false; res := Some r |}
  | Returned k f r => flights s !! f = Some {| done_ := true; res := Some r |}
  end.

Record inv (s : state) : Prop := {
  inv_threads : ∀ t p, threads s !! t = Some p → thread_ok s p;
  (** a flight has one leader *)
  inv_leader : ∀ t1 t2 p1 p2 k1 k2 f, threads s !! t1 = Some p1 → threads s !! t2 = Some p2 →
    leads p1 = Some (k1, f) → leads p2 = Some (k2, f) → t1 = t2;
  (** a registered flight has a leader that has not deleted it yet *)
  inv_inflight : ∀ k f, inflight s !! k = Some f →
    ∃ t, threads s !! t = Some (Running k f) ∨ threads s !! t = Some (Finished k f);
}.

Lemma leads_not_done s p k f :
  thread_ok s p → leads p = Some (k, f) → ∃ x, flights s !! f = Some {| done_ := false; res := x |}.
Proof. destruct p; simpl; intros Hok [= <- <-]; naive_solver. Qed.

(** A step of thread [t] from [p0] to [p1] that keeps the other flights and
    registrations keeps what holds of the other threads. *)
Lemma thread_ok_frame s s' t p0 p1 :
  inv s → threads s !! t = Some p0 → threads s' = <[t := p1]> (threads s) →
  (leads p1 = leads p0 ∨ leads p0 = None ∨
   ∃ k f r, leads p0 = Some (k, f) ∧ flights s' !! f = Some {| done_ := true; res := Some r |}) →
  (∀ f fl, flights s !! f = Some fl → (∀ k, leads p0 ≠ Some (k, f)) → flights s' !! f = Some fl) →
  (∀ f, is_Some (flights s !! f) → is_Some (flights s' !! f)) →
  (∀ k f, inflight s !! k = Some f → (∀ k, leads p0 ≠ Some (k, f)) → inflight s' !! k = Some f) →
  ∀ t' p, t' ≠ t → threads s !! t' = Some p → thread_ok s' p.
Proof.
  intros [Ht Hl _] Hp0 Hts Hlead Hfl Hdom Hinf t' p Hne Hp.
  assert (∀ k f, leads p = Some (k, f) → ∀ k', leads p0 ≠ Some (k', f)) as Hother.
  { intros k f Hlp k' Hlp0. apply Hne. by eapply Hl. }
  assert (∀ f x, flights s !! f = Some {| done_ := true; res := x |} → ∀ k, leads p0 ≠ Some (k, f)) as Hdone.
  { intros f x Hf k Hk. destruct (leads_not_done s p0 k f) as [y Hy]; [eauto..|]. congruence. }
  pose proof (Ht _ _ Hp) as Hok. destruct p as [k|k f|k f|k f|k f|k f r|k]; simpl in *; try done.
  - destruct Hok as (fl & Hf & [[Hd Hr]|(t2 & p2 & Ht2 & Hp2)]).
    + destruct fl as [d x]; simpl in *; subst d. exists {| done_ := true; res := x |}.
      split; [by eauto using Hfl, Hdone|by left].
    + destruct (decide (t2 = t)) as [->|Hne2].
      * rewrite Hp0 in Ht2. injection Ht2 as <-. destruct Hlead as [Hlead|[Hlead|(k' & f' & r & Hk & Hr)]].
        -- destruct (Hdom f) as [fl' Hfl']; [eauto|]. exists fl'. split; [done|]. right.
           exists t, p1. rewrite Hts, lookup_insert_eq. by rewrite Hlead.
        -- congruence.
        -- rewrite Hp2 in Hk. injection Hk as <- <-. eexists. split; [done|]. left. simpl. eauto.
      * destruct (Hdom f) as [fl' Hfl']; [eauto|]. exists fl'. split; [done|]. right.
        exists t2, p2. by rewrite Hts, lookup_insert_ne.
  - pose proof (Hother _ _ eq_refl). destruct Hok. split; auto.
  - pose proof (Hother _ _ eq_refl). destruct Hok as [? [r ?]]. split; [auto|]. exists r. auto.
  - pose proof (Hother _ _ eq_refl). destruct Hok as [r ?]. exists r. auto.
  - apply Hfl; [done|]. by eapply Hdone.
Qed.

Lemma inv_init ts : inv (init ts).
Proof.
  split; simpl.
  - intros t p (k & <- & _)%lookup_fmap_Some. done.
  - intros t1 t2 p1 p2 k1 k2 f (? & <- & _)%lookup_fmap_Some. done.
  - intros k f. by rewrite lookup_empty.
Qed.

(** Splits a lookup in the updated thread table. *)
Ltac thread_cases H :=
  apply lookup_insert_Some in H as [[<- <-]|[? H]].

Lemma inv_leader_go s t p0 p1 :
  inv s → threads s !! t = Some p0 → (leads p1 = None ∨ leads p1 = leads p0) →
  ∀ t1 t2 q1 q2 k1 k2 f, <[t := p1]> (threads s) !! t1 = Some q1 → <[t := p1]> (threads s) !! t2 = Some q2 →
    leads q1 = Some (k1, f) → leads q2 = Some (k2, f) → t1 = t2.
Proof.
  intros [_ Hl _] Hp0 Hlead t1 t2 q1 q2 k1 k2 f H1 H2 L1 L2.
  thread_cases H1; thread_cases H2; try done.
  - destruct Hlead as [Hlead|Hlead]; [congruence|]. rewrite Hlead in L1. eapply Hl; eauto.
  - destruct Hlead as [Hlead|Hlead]; [congruence|]. rewrite Hlead in L2. eapply Hl; eauto.
  - eapply Hl; eauto.
Qed.
Lemma inv_inflight_go s t p0 p1 :
  inv s → threads s !! t = Some p0 →
  (∀ k f, p0 ≠ Running k f) → (∀ k f, p0 ≠ Finished k f) →
  ∀ k f, inflight s !! k = Some f →
    ∃ t', <[t := p1]> (threads s) !! t' = Some (Running k f) ∨ <[t := p1]> (threads s) !! t' = Some (Finished k f).
Proof.
  intros [_ _ Hi] Hp0 HR HF k f Hk. destruct (Hi k f Hk) as [t' Ht']. exists t'.
  destruct (decide (t' = t)) as [->|]; [naive_solver|]. by rewrite lookup_insert_ne.
Qed.

Lemma inv_step_join s t key f :
  inv s → threads s !! t = Some (Enter key) → inflight s !! key = Some f → inv (go s t (Wait key f)).
Proof.
  intros Hinv Hp Hk. pose proof Hinv as [Ht _ Hi]. split.
  - intros t' p Hp'. simpl in Hp'. thread_cases Hp'.
    + destruct (Hi _ _ Hk) as [t2 Ht2]. assert (t2 ≠ t) by naive_solver.
      destruct Ht2 as [Ht2|Ht2]; pose proof (Ht _ _ Ht2) as Hok; simpl in Hok;
        destruct Hok as [_ Hok]; [|destruct Hok as [r Hok]];
        (eexists; split; [exact Hok|right]; eexists t2, _; simpl; rewrite lookup_insert_ne by done; eauto).
    + eapply (thread_ok_frame s _ t); eauto.
  - by apply (inv_leader_go s t (Enter key)); [| |left].
  - by apply (inv_inflight_go s t (Enter key)).
Qed.

Lemma inv_step_lead s t key f :
  inv s → threads s !! t = Some (Enter key) → inflight s !! key = None → flights s !! f = None →
  inv (go (with_flights (with_inflight s (<[key := f]> (inflight s)))
             (<[f := {| done_ := false; res := None |}]> (flights s))) t (Running key f)).
Proof.
  intros Hinv Hp Hk Hf. pose proof Hinv as [Ht Hl Hi].
  assert (∀ t' p k, threads s !! t' = Some p → leads p ≠ Some (k, f)) as Hfresh.
  { intros t' p k Hp' Hlp. destruct (leads_not_done s p k f) as [x Hx]; [eauto..|]. congruence. }
  split; simpl.
  - intros t' p Hp'. thread_cases Hp'; simpl.
    + by rewrite !lookup_insert_eq.
    + eapply (thread_ok_frame s _ t); eauto; simpl.
      * intros f' fl Hf' _. rewrite lookup_insert_ne; congruence.
      * intros f' Hf'. apply lookup_insert_is_Some'. by right.
      * intros k f' Hk' _. rewrite lookup_insert_ne; congruence.
  - intros t1 t2 q1 q2 k1 k2 f' H1 H2 L1 L2. thread_cases H1; thread_cases H2; try done; simplify_eq/=.
    + exfalso. by eapply Hfresh.
    + exfalso. by eapply Hfresh.
    + eapply Hl; eauto.
  - intros k f' Hk'. apply lookup_insert_Some in Hk' as [[<- <-]|[Hne Hk']].
    + exists t. left. by rewrite lookup_insert_eq.
    + destruct (Hi _ _ Hk') as [t' Ht']. exists t'. rewrite lookup_insert_ne; [done|]. naive_solver.
Qed.

Lemma inv_step_fn s t key f r :
  inv s → threads s !! t = Some (Running key f) →
  inv (go (with_flights s (<[f := {| done_ := false; res := Some r |}]> (flights s))) t (Finished key f)).
Proof.
  intros Hinv Hp. pose proof Hinv as [Ht _ Hi]. split.
  - intros t' p Hp'. simpl in Hp'. thread_cases Hp'; simpl.
    + pose proof (Ht _ _ Hp) as [Hk _]. rewrite lookup_insert_eq. eauto.
    + eapply (thread_ok_frame s _ t); eauto; simpl.
      * intros f' fl Hf' Hn. rewrite lookup_insert_ne; [done|]. intros <-. by eapply Hn.
      * intros f' Hf'. apply lookup_insert_is_Some'. by right.
  - by apply (inv_leader_go s t (Running key f)); [| |right].
  - simpl. intros k f' Hk. destruct (Hi _ _ Hk) as [t' Ht']. exists t'.
    destruct (decide (t' = t)) as [->|]; [|by rewrite lookup_insert_ne]. rewrite lookup_insert_eq. naive_solver.
Qed.

Lemma inv_step_delete s t key f :
  inv s → threads s !! t = Some (Finished key f) →
  inv (go (with_inflight s (delete key (inflight s))) t (Closing key f)).
Proof.
  intros Hinv Hp. pose proof Hinv as [Ht _ Hi]. pose proof (Ht _ _ Hp) as [Hk [r Hr]]. split.
  - intros t' p Hp'. simpl in Hp'. thread_cases Hp'; simpl; [by eauto|].
    eapply (thread_ok_frame s _ t); eauto; simpl.
    intros k f' Hk' Hn. rewrite lookup_delete_ne; [done|]. intros <-.
    assert (f' = f) as -> by congruence. by eapply Hn.
  - by apply (inv_leader_go s t (Finished key f)); [| |right].
  - simpl. intros k f' [Hne Hk']%lookup_delete_Some. destruct (Hi _ _ Hk') as [t' Ht']. exists t'.
    rewrite lookup_insert_ne; [done|]. intros <-. rewrite Hp in Ht'. naive_solver.
Qed.

Lemma inv_step_close s t key f r :
  inv s → threads s !! t = Some (Closing key f) →
  inv (go (with_flights s (<[f := {| done_ := true; res := Some r |}]> (flights s))) t (Returned key f r)).
Proof.
  intros Hinv Hp. pose proof Hinv as [Ht _ Hi]. split.
  - intros t' p Hp'. simpl in Hp'. thread_cases Hp'; simpl; [by rewrite lookup_insert_eq|].
    eapply (thread_ok_frame s _ t); eauto; simpl.
    + right; right. exists key, f, r. by rewrite lookup_insert_eq.
    + intros f' fl Hf' Hn. rewrite lookup_insert_ne; [done|]. intros <-. by eapply Hn.
    + intros f' Hf'. apply lookup_insert_is_Some'. by right.
  - by apply (inv_leader_go s t (Closing key f)); [| |left].
  - by apply (inv_inflight_go s t (Closing key f)).
Qed.

Lemma inv_step_leave s t key f p1 :
  inv s → threads s !! t = Some (Wait key f) → leads p1 = None → thread_ok s p1 →
  (∀ k f, p1 ≠ Wait k f) → inv (go s t p1).
Proof.
  intros Hinv Hp Hl Hok HW. split.
  - intros t' p Hp'. simpl in Hp'. thread_cases Hp'.
    + destruct p1; try done. by edestruct HW.
    + eapply (thread_ok_frame s _ t); eauto.
  - by apply (inv_leader_go s t (Wait key f)); [| |left].
  - by apply (inv_inflight_go s t (Wait key f)).
Qed.

Lemma inv_step s a s' : inv s → step s a s' → inv s'.
Proof.
  intros Hinv [].
  - by apply inv_step_join.
  - by apply inv_step_lead.
  - by apply inv_step_fn.
  - by apply inv_step_delete.
  - by apply inv_step_close.
  - by eapply inv_step_leave.
  - by eapply inv_step_leave.
Qed.

Lemma reachable_inv ts s : reachable ts s → inv s.
Proof. induction 1; eauto using inv_init, inv_step. Qed.

(** A thread that is neither returned nor cancelled. *)
Definition active (p : pc) : bool :=
  match p with Returned _ _ _ | Cancelled _ => false | _ => true end.

(** The leader of a flight can always move. *)
Lemma leader_moves s t p k f :
  inv s → threads s !! t = Some p → leads p = Some (k, f) → ∃ a s', a ≠ Cancel ∧ step s a s'.
Proof.
  intros [Ht _ _] Hp Hl. pose proof (Ht _ _ Hp) as Hok. destruct p; simplify_eq/=.
  - exists Fn. eexists. split; [done|]. by apply (step_fn s t k f None None).
  - exists Delete. eexists. split; [done|]. by eapply step_delete.
  - destruct Hok as [r Hr]. exists Close. eexists. split; [done|]. by eapply step_close.
Qed.
End SingleFlight.

(** ** Properties *)

(** Two callers on one key: the first leads, the second joins; both return. *)
Module FlightDemo.
Import SingleFlight.
Definition ts : gmap nat string := {[1%nat := "k"; 2%nat := "k"]}.
Definition reply : result := (Some newMsg, noMeta).
Definition s1 : state := go (with_flights (with_inflight (init ts) (<["k" := 0%nat]> ∅))
                               (<[0%nat := {| done_ := false; res := None |}]> ∅)) 1 (Running "k" 0).
Definition s2 : state := go s1 2 (Wait "k" 0).
Definition s3 : state :=
  go (with_flights s2 (<[0%nat := {| done_ := false; res := Some reply |}]> (flights s2))) 1 (Finished "k" 0).
Definition s4 : state := go (with_inflight s3 (delete "k" (inflight s3))) 1 (Closing "k" 0).
Definition s5 : state :=
  go (with_flights s4 (<[0%nat := {| done_ := true; res := Some reply |}]> (flights s4))) 1 (Returned "k" 0 reply).
Definition s6 : state := go s5 2 (Returned "k" 0 reply).

Lemma reach2 : reachable ts s2.
Proof.
  eapply reach_step; [eapply reach_step; [apply reach_init|]|].
  - by apply (step_lead (init ts) 1 "k" 0).
  - by apply (step_join s1 2 "k" 0).
Defined.
Lemma reach6 : reachable ts s6.
Proof.
  eapply reach_step; [eapply reach_step; [eapply reach_step; [eapply reach_step; [apply reach2|]|]|]|].
  - by apply (step_fn s2 1 "k" 0 (Some newMsg) None).
  - by apply (step_delete s3 1 "k" 0).
  - by apply (step_close s4 1 "k" 0 reply).
  - by apply (step_wake s5 2 "k" 0 reply).
Defined.
End FlightDemo.

(** C7: in every reachable state of [SingleFlight] at most one caller
    executes [fn] for a key, and every caller that returned without being
    cancelled returns the result of the same flight, so two of them on one
    flight return the same answer. *)
Theorem SingleFlight_exclusive ts s :
  SingleFlight.reachable ts s →
  (∀ t1 t2 key f1 f2,
     SingleFlight.threads s !! t1 = Some (SingleFlight.Running key f1) →
     SingleFlight.threads s !! t2 = Some (SingleFlight.Running key f2) → t1 = t2) ∧
  (∀ t1 t2 k1 k2 f r1 r2,
     SingleFlight.threads s !! t1 = Some (SingleFlight.Returned k1 f r1) →
     SingleFlight.threads s !! t2 = Some (SingleFlight.Returned k2 f r2) → r1 = r2).
Proof.
  intros Hinv%SingleFlight.reachable_inv. pose proof Hinv as [Ht Hl _]. split.
  - intros t1 t2 key f1 f2 H1 H2.
    destruct (Ht _ _ H1) as [K1 _], (Ht _ _ H2) as [K2 _]. assert (f1 = f2) as -> by congruence.
    by eapply Hl.
  - intros t1 t2 k1 k2 f r1 r2 H1 H2. pose proof (Ht _ _ H1) as R1. pose proof (Ht _ _ H2) as R2.
    simpl in *. congruence.
Qed.

Lemma SingleFlight_exclusive_witness :
  SingleFlight.reachable FlightDemo.ts FlightDemo.s6 ∧
  (∀ r1 r2, SingleFlight.threads FlightDemo.s6 !! 1%nat = Some (SingleFlight.Returned "k" 0 r1) →
            SingleFlight.threads FlightDemo.s6 !! 2%nat = Some (SingleFlight.Returned "k" 0 r2) → r1 = r2).
Proof.
  split; [apply FlightDemo.reach6|]. intros r1 r2 H1 H2.
  exact (proj2 (SingleFlight_exclusive _ _ FlightDemo.reach6) _ _ _ _ _ _ _ H1 H2).
Defined.

(** Callers never deadlock: while some caller has neither
    returned nor been cancelled, some caller can take a step, even when no
    context is ever cancelled. *)
Theorem SingleFlight_progress ts s t p :
  SingleFlight.reachable ts s → SingleFlight.threads s !! t = Some p → SingleFlight.active p = true →
  ∃ a s', a ≠ SingleFlight.Cancel ∧ SingleFlight.step s a s'.
Proof.
  intros Hinv%SingleFlight.reachable_inv Hp Ha. pose proof Hinv as [Ht _ _].
  destruct (SingleFlight.leads p) as [[k f]|] eqn:Hl; [by eapply SingleFlight.leader_moves|].
  destruct p as [key|key f| | | | |]; try done.
  - destruct (SingleFlight.inflight s !! key) as [f|] eqn:Hk.
    + exists SingleFlight.Join. eexists. split; [done|]. by econstructor.
    + exists SingleFlight.Lead. eexists. split; [done|].
      eapply (SingleFlight.step_lead _ _ _ (fresh (dom (SingleFlight.flights s)))); [done..|].
      apply not_elem_of_dom, is_fresh.
  - destruct (Ht _ _ Hp) as ([d x] & Hf & [[Hd [r Hr]]|(t' & p' & Ht' & Hp')]); simplify_eq/=.
    + exists SingleFlight.Wake. eexists. split; [done|]. by econstructor.
    + by eapply SingleFlight.leader_moves.
Qed.

Lemma SingleFlight_progress_witness :
  ∃ a s', a ≠ SingleFlight.Cancel ∧ SingleFlight.step FlightDemo.s2 a s'.
Proof.
  apply (SingleFlight_progress FlightDemo.ts FlightDemo.s2 2 (SingleFlight.Wait "k" 0)).
  - apply FlightDemo.reach2.
  - reflexivity.
  - reflexivity.
Defined.

(** C22: an answer stored with [Put] in a store that keeps its entries is
    read back by [Get], for as long as its TTL lasts, as the same message
    under the reader's id, with every answer and authority record's TTL set
    to the remaining lifetime; from then on the lookup is a miss. *)
Theorem Put_then_Get {S} `{Cache S} `{!CacheLaws S, !CacheKeeps S} `{DnsLib} cfg (c : S) now now' key m raw id :
  Pack m = Some raw → Forall is_u8 raw → Unpack raw = Some m →
  0 < effective_ttl cfg m ≤ 86400 → now ≤ now' →
  (Set_ c now key {| MsgB64 := PackMsg raw; Stored := Unix now; TTL := effective_ttl cfg m |}).2 = None →
  let left := effective_ttl cfg m - (Unix now' - Unix now) in
  AnswerCache.Get (AnswerCache.Put cfg c now key m).1 now' key id =
  if 0 <? left then Some (set_Id (adjustTTLs m (u32 left)) id) else None.
Proof.
  intros Hp Hb Hu Ht Hle Hs left.
  destruct (Z.ltb_spec 0 left) as [Hl|Hl].
  - rewrite (Put_Get_fresh cfg c now now' key m raw id) by done. unfold served. by rewrite (proj2 (Z.leb_gt _ _)).
  - destruct (Put_Get cfg c now now' key m raw id) as [->| ->]; try done; [lia|].
    unfold served. by rewrite (proj2 (Z.leb_le _ _)).
Qed.

Definition demo_answer : Msg :=
  set_Answer newMsg
    [{| Hdr := {| Name := "www.example.com."; Rrtype := TypeA; Class_ := ClassINET; Ttl := 300 |};
        Data := RD_A (IPv4 192 0 2 10) |};
     {| Hdr := {| Name := "www.example.com."; Rrtype := TypeA; Class_ := ClassINET; Ttl := 120 |};
        Data := RD_A (IPv4 192 0 2 11) |}].
Definition demo_dns : DnsLib := demo_lib [([1; 2; 3; 250], demo_answer)].

Lemma Put_then_Get_witness :
  let c := (@AnswerCache.Put _ _ demo_dns demo_config MemoryCache.NewMemoryCache 0 "k" demo_answer).1 in
  @AnswerCache.Get _ _ demo_dns c (20 * second) "k" 7 = Some (set_Id (adjustTTLs demo_answer 100) 7).
Proof.
  intros c. unfold c.
  rewrite (@Put_then_Get _ _ memory_cache_laws memory_cache_keeps demo_dns demo_config MemoryCache.NewMemoryCache 0 (20 * second)
           "k" demo_answer [1; 2; 3; 250] 7).
  - vm_compute. reflexivity.
  - vm_compute. reflexivity.
  - repeat (constructor; [unfold is_u8; lia|]); constructor.
  - vm_compute. reflexivity.
  - vm_compute. split; [reflexivity|discriminate].
  - vm_compute. discriminate.
  - reflexivity.
Defined.

(** [Put] either leaves the store alone and reports [0], or
    stores with a TTL between one second and the configured maximum that
    exceeds no answer record's own TTL. *)
Theorem Put_ttl_bounds {S} `{Cache S} `{DnsLib} cfg (c : S) now key m :
  let '(c', ttl) := AnswerCache.Put cfg c now key m in
  (ttl = 0 ∧ c' = c) ∨
  (1 ≤ ttl ≤ 1 `max` int_seconds (CacheMaxTTL cfg) ∧ Forall (λ r, ttl ≤ Ttl (Hdr r)) (m_Answer m) ∧
   ∃ raw, Pack m = Some raw ∧ c' = (Set_ c now key {| MsgB64 := PackMsg raw; Stored := Unix now; TTL := ttl |}).1).
Proof.
  unfold AnswerCache.Put. destruct (effective_ttl_bounds cfg m) as [->|[Hb Hm]]; [by left|].
  rewrite (proj2 (Z.leb_gt _ _)) by lia. destruct (Pack m) as [raw|]; [|by left]. right.
  split; [lia|]. split; [|by eauto]. destruct (decide (m_Answer m = [])) as [->|Hne]; [constructor|].
  eapply Forall_impl; [by apply msgTTL_answer|]. simpl. intros. lia.
Qed.

(** An answer without records is stored only when it is NOERROR
    with an SOA in its authority section; an NXDOMAIN or SERVFAIL response
    without answer records is never stored. *)
Theorem Put_negative {S} `{Cache S} `{DnsLib} cfg (c : S) now key m :
  m_Answer m = [] →
  (m_Rcode m ≠ RcodeSuccess → AnswerCache.Put cfg c now key m = (c, 0)) ∧
  (Forall (λ r, soa_min r = None) (m_Ns m) → AnswerCache.Put cfg c now key m = (c, 0)).
Proof.
  intros Ha. assert (msgTTL m = 0 → AnswerCache.Put cfg c now key m = (c, 0)) as Hz.
  { intros Hm. unfold AnswerCache.Put, effective_ttl. by rewrite Hm. }
  unfold msgTTL in Hz. rewrite Ha in Hz. split.
  - intros Hr%Z.eqb_neq. rewrite Hr in Hz. auto.
  - intros Hns. apply Hz. case_match; [|done].
    destruct (first_match _ _) as [r|] eqn:Hf; [|done]. simpl.
    apply first_match_Some in Hf as (l1 & l2 & Hl & _ & _). rewrite Hl, Forall_app, Forall_cons in Hns.
    destruct Hns as (_ & -> & _). done.
Qed.
Definition demo_nxdomain : Msg :=
  Build_Msg 9 true 0 false false true true false false RcodeNameError false []
    [] [{| Hdr := {| Name := "example.com."; Rrtype := 6; Class_ := ClassINET; Ttl := 600 |}; Data := RD_SOA 300 [] |}] [].
Lemma Put_negative_witness :
  @AnswerCache.Put _ _ demo_dns demo_config MemoryCache.NewMemoryCache 0 "k" demo_nxdomain
  = (MemoryCache.NewMemoryCache, 0).
Proof.
  apply (proj1 (@Put_negative _ _ demo_dns demo_config MemoryCache.NewMemoryCache 0 "k" demo_nxdomain eq_refl)).
  discriminate.
Defined.
