(* ===== verification/L1Cache.v ===== *)
(** * The in-process cache (src/internal/dnsx/l1cache.go)

    Sixty-four shards selected by an FNV-1a hash of the key, each a map with
    a bounded number of entries. A critical section of a shard's mutex is
    one step; [Put] reads the clock twice, so it takes two instants. The
    order in which Go ranges over a map is unspecified: the key an overflow
    evicts is chosen by the class [MapOrder]. *)

From S2P Require Import Prelude GoStrings GoNet Config Model DnsMsg Ecs StoreCache AnswerCache.

Definition l1Shards : nat := 64.
Definition l1DefaultMax : Z := 131072.
Definition l1DefaultTTL : Z := 60.

Record l1Entry := { raw : list Z; stored : Z; ttl : Z }.
Abbreviation l1Shard := (gmap string l1Entry).
Record L1Cache := { shards : list l1Shard; maxPerShard : Z; maxTTL : Z }.

(** The first key of a [range] over a non-empty map. *)
Class MapOrder := { first_key : ∀ {A}, gmap string A → option string }.
Class MapOrderLaws `{MapOrder} : Prop := {
  first_key_elem : ∀ A (m : gmap string A) k, first_key m = Some k → is_Some (m !! k);
  first_key_some : ∀ A (m : gmap string A), m ≠ ∅ → is_Some (first_key m);
}.
Definition list_order : MapOrder := {| first_key A m := fst <$> head (map_to_list m) |}.
#[global] Instance list_order_laws : @MapOrderLaws list_order.
Proof.
  split; simpl; intros A m.
  - intros k Hk. destruct (map_to_list m) as [|[k' v] l] eqn:E; simplify_eq/=.
    exists v. apply elem_of_map_to_list. rewrite E. left.
  - intros Hm. destruct (map_to_list m) as [|[k v] l] eqn:E; [|by eexists].
    by apply map_to_list_empty_iff in E.
Qed.

Definition fnv32 (s : string) : Z :=
  foldl (λ h b, u32 (Z.lxor h b * 16777619)) 2166136261 (bytes_of s).
Example fnv32_ex : fnv32 "" = 2166136261 ∧ fnv32 "a" = 0xE40C292C ∧ fnv32 "foobar" = 0xBF9CF968.
Proof. by vm_compute. Qed.

Definition NewL1Cache (maxEntries maxTTLSeconds : Z) : L1Cache :=
  let maxEntries := if maxEntries <=? 0 then l1DefaultMax else maxEntries in
  let maxTTLSeconds := if maxTTLSeconds <=? 0 then l1DefaultTTL else maxTTLSeconds in
  {| shards := replicate l1Shards ∅; maxPerShard := Z.quot maxEntries (Z.of_nat l1Shards);
     maxTTL := maxTTLSeconds |}.

Definition shard_index (key : string) : nat := Z.to_nat (fnv32 key mod Z.of_nat l1Shards).
Definition shard (c : L1Cache) (key : string) : l1Shard := shards c !!! shard_index key.
Definition with_shard (c : L1Cache) (key : string) (f : l1Shard → l1Shard) : L1Cache :=
  {| shards := alter f (shard_index key) (shards c); maxPerShard := maxPerShard c; maxTTL := maxTTL c |}.

(** [now-e.stored >= e.ttl || now-e.stored >= c.maxTTL] *)
Definition l1_expired (mx now : Z) (e : l1Entry) : bool :=
  (ttl e <=? now - stored e) || (mx <=? now - stored e).

Definition L1_Get (c : L1Cache) (key : string) (now : Z) : option l1Entry :=
  match shard c key !! key with
  | None => None
  | Some e => if l1_expired (maxTTL c) now e then None else Some e
  end.

Section put.
Context `{MapOrder}.

(** Making room in a full shard. *)
Definition l1_evict (mps mx now : Z) (m : l1Shard) : l1Shard :=
  let m := filter (λ kv, l1_expired mx now kv.2 = false) m in
  if mps <=? Z.of_nat (size m) then
    match first_key m with Some k => delete k m | None => m end
  else m.

Definition L1_Put (c : L1Cache) (key : string) (r : list Z) (t now now' : Z) : L1Cache :=
  if t <=? 0 then c else
  let t := if maxTTL c <? t then maxTTL c else t in
  with_shard c key (λ m,
    let m := match m !! key with
             | Some _ => m
             | None => if maxPerShard c <=? Z.of_nat (size m)
                       then l1_evict (maxPerShard c) (maxTTL c) now m else m
             end in
    <[key := {| raw := r; stored := now'; ttl := t |}]> m).
End put.

Definition L1_Del (c : L1Cache) (key : string) : L1Cache := with_shard c key (delete key).

Definition L1_Len (c : L1Cache) : Z := foldl (λ n m, n + Z.of_nat (size m)) 0 (shards c).

Definition L1_PurgePrefix (c : L1Cache) (prefix : string) : L1Cache * Z :=
  let keep (m : l1Shard) : l1Shard := filter (λ kv, HasPrefix kv.1 prefix = false) m in
  let c' := {| shards := keep <$> shards c; maxPerShard := maxPerShard c; maxTTL := maxTTL c |} in
  (c', foldl (λ n m, n + (Z.of_nat (size m) - Z.of_nat (size (keep m)))) 0 (shards c)).

(** A copy of the stored message with its TTLs and id set; [now] is the
    clock at this point, after the lookup. *)
Definition unpackL1 `{DnsLib} (e : l1Entry) (msgID now : Z) : option Msg :=
  match Unpack (raw e) with
  | None => None
  | Some m =>
      let ttlLeft := u32 (stored e + ttl e - now) in
      let ttlLeft := if ttlLeft <? 1 then 1 else ttlLeft in
      Some (set_Id (adjustTTLs m ttlLeft) msgID)
  end.

(** ** Invariant *)

(** Every key is in the shard its hash selects, and a shard holds at most
    [maxPerShard] entries (one when that is zero). *)
Record l1_inv (c : L1Cache) : Prop := {
  l1_shards : length (shards c) = l1Shards;
  l1_max : 0 ≤ maxPerShard c ∧ 0 < maxTTL c;
  l1_home : ∀ i m k, shards c !! i = Some m → is_Some (m !! k) → shard_index k = i;
  l1_size : ∀ i m, shards c !! i = Some m → Z.of_nat (size m) ≤ 1 `max` maxPerShard c;
}.

Lemma fnv32_bound s : is_u32 (fnv32 s).
Proof.
  unfold fnv32. assert (is_u32 2166136261) as H0 by (unfold is_u32; lia). revert H0.
  generalize 2166136261. induction (bytes_of s) as [|b l IH]; intros h Hh; simpl; [done|].
  apply IH, u32_bound.
Qed.
Lemma shard_index_lt key : (shard_index key < l1Shards)%nat.
Proof.
  unfold shard_index. pose proof (Z.mod_pos_bound (fnv32 key) (Z.of_nat l1Shards)).
  change (Z.of_nat l1Shards) with 64 in *. unfold l1Shards. lia.
Qed.

Lemma shard_lookup c key : l1_inv c → shards c !! shard_index key = Some (shard c key).
Proof.
  intros Hc. apply list_lookup_lookup_total_lt. rewrite (l1_shards _ Hc). apply shard_index_lt.
Qed.
Lemma shard_with_same c key f :
  l1_inv c → shard (with_shard c key f) key = f (shard c key).
Proof.
  intros Hc. unfold shard at 1, with_shard. simpl.
  apply list_lookup_total_correct. rewrite list_lookup_alter, decide_True by done. by rewrite shard_lookup.
Qed.
Lemma shard_with_other c key key' f :
  shard_index key ≠ shard_index key' → shard (with_shard c key f) key' = shard c key'.
Proof.
  intros Hne. unfold shard, with_shard. simpl. rewrite list_lookup_total_alt, list_lookup_alter, decide_False by done.
  by rewrite <-list_lookup_total_alt.
Qed.

Lemma with_shard_inv c key f :
  l1_inv c →
  (∀ k, is_Some (f (shard c key) !! k) → k = key ∨ is_Some (shard c key !! k)) →
  Z.of_nat (size (f (shard c key))) ≤ 1 `max` maxPerShard c →
  l1_inv (with_shard c key f).
Proof.
  intros Hc Hdom Hsize. pose proof Hc as [Hlen Hmax Hhome Hsz].
  assert (∀ i m, shards (with_shard c key f) !! i = Some m →
            (i = shard_index key ∧ m = f (shard c key)) ∨ shards c !! i = Some m) as Hcase.
  { intros i m. simpl. rewrite list_lookup_alter. case_decide as Hi; [subst i|by right].
    rewrite shard_lookup by done. simpl. intros [= <-]. by left. }
  split; simpl.
  - by rewrite length_alter.
  - done.
  - intros i m k [[-> ->]|Hm]%Hcase Hk; [|by eapply Hhome].
    destruct (Hdom k Hk) as [->|Hk']; [done|]. eapply Hhome; [by apply shard_lookup|done].
  - intros i m [[-> ->]|Hm]%Hcase; [done|by eapply Hsz].
Qed.

Section evict.
Context `{MapOrderLaws}.

Lemma l1_evict_sub mps mx now (m : l1Shard) : l1_evict mps mx now m ⊆ m.
Proof.
  unfold l1_evict. case_match; [|apply map_filter_subseteq].
  case_match; [|apply map_filter_subseteq].
  etrans; [apply delete_subseteq|apply map_filter_subseteq].
Qed.
Lemma l1_evict_size mps mx now (m : l1Shard) :
  Z.of_nat (size m) ≤ 1 `max` mps → Z.of_nat (size (l1_evict mps mx now m)) ≤ 0 `max` (mps - 1).
Proof.
  intros Hm. unfold l1_evict. set (m' := filter _ m).
  assert (size m' ≤ size m)%nat as Hle by apply map_subseteq_size, map_filter_subseteq.
  case_match eqn:Hs; zbool; [|lia]. destruct (first_key m') as [k|] eqn:Hk.
  - destruct (first_key_elem _ _ _ Hk) as [e He]. rewrite map_size_delete_Some by eauto. lia.
  - destruct (decide (m' = ∅)) as [->|Hne]; [rewrite map_size_empty; lia|].
    destruct (first_key_some _ _ Hne). congruence.
Qed.

Lemma L1_Put_inv c key r t now now' : l1_inv c → l1_inv (L1_Put c key r t now now').
Proof.
  intros Hc. unfold L1_Put. case_match; [done|]. cbv zeta. apply with_shard_inv; [done|..].
  - intros k Hk. apply lookup_insert_is_Some' in Hk as [->|Hk]; [by left|right].
    destruct (shard c key !! key); [done|]. destruct (maxPerShard c <=? _); [|done].
    eapply lookup_weaken_is_Some; [exact Hk|apply l1_evict_sub].
  - assert (Z.of_nat (size (shard c key)) ≤ 1 `max` maxPerShard c) as Hs.
    { eapply l1_size; [done|by apply shard_lookup]. }
    destruct (shard c key !! key) as [e|] eqn:Hk.
    + rewrite map_size_insert_Some by eauto. done.
    + assert (∀ m : l1Shard, m ⊆ shard c key → m !! key = None) as Hn.
      { intros m Hm. eapply lookup_weaken_None; [exact Hk|exact Hm]. }
      destruct (maxPerShard c <=? _) eqn:Hf; zbool.
      * rewrite map_size_insert_None by (apply Hn, l1_evict_sub).
        pose proof (l1_evict_size (maxPerShard c) (maxTTL c) now _ Hs). pose proof (l1_max _ Hc). lia.
      * rewrite map_size_insert_None by done. lia.
Qed.
End evict.

Lemma L1_Del_inv c key : l1_inv c → l1_inv (L1_Del c key).
Proof.
  intros Hc. apply with_shard_inv; [done|..].
  - intros k [e He]. apply lookup_delete_Some in He as [_ He]. eauto.
  - etrans; [|eapply l1_size; [done|by apply (shard_lookup c key)]].
    apply inj_le, map_subseteq_size, delete_subseteq.
Qed.
Lemma L1_Purge_inv c p : l1_inv c → l1_inv (L1_PurgePrefix c p).1.
Proof.
  intros [Hlen Hmax Hhome Hsz]. split; simpl.
  - by rewrite length_fmap.
  - done.
  - intros i m k [m0 [-> Hm0]]%list_lookup_fmap_Some Hk.
    eapply Hhome; [done|]. eapply lookup_weaken_is_Some; [exact Hk|apply map_filter_subseteq].
  - intros i m [m0 [-> Hm0]]%list_lookup_fmap_Some.
    etrans; [|by eapply Hsz]. apply inj_le, map_subseteq_size, map_filter_subseteq.
Qed.
Lemma NewL1Cache_inv n t : l1_inv (NewL1Cache n t).
Proof.
  unfold NewL1Cache. split; cbn [shards maxPerShard maxTTL].
  - done.
  - split; [apply Z.quot_pos; repeat case_match; zbool; unfold l1DefaultMax, l1Shards; lia|].
    unfold l1DefaultTTL. case_match; zbool; lia.
  - intros i m k [-> _]%lookup_replicate [e He]. by rewrite lookup_empty in He.
  - intros i m [-> _]%lookup_replicate. rewrite map_size_empty. lia.
Qed.

(** ** Histories *)

Inductive l1_op :=
| OpPut (key : string) (r : list Z) (t now now' : Z)
| OpDel (key : string)
| OpPurge (prefix : string).
Definition l1_apply `{MapOrder} (c : L1Cache) (o : l1_op) : L1Cache :=
  match o with
  | OpPut k r t now now' => L1_Put c k r t now now'
  | OpDel k => L1_Del c k
  | OpPurge p => (L1_PurgePrefix c p).1
  end.
Definition l1_run `{MapOrder} (c : L1Cache) (ops : list l1_op) : L1Cache := foldl l1_apply c ops.

Lemma l1_run_inv `{MapOrderLaws} c ops : l1_inv c → l1_inv (l1_run c ops).
Proof.
  revert c. induction ops as [|o ops IH]; intros c Hc; simpl; [done|]. apply IH.
  destruct o; [by apply L1_Put_inv|by apply L1_Del_inv|by apply L1_Purge_inv].
Qed.
Lemma l1_run_maxPerShard `{MapOrder} c ops : maxPerShard (l1_run c ops) = maxPerShard c.
Proof.
  revert c. induction ops as [|o ops IH]; intros c; simpl; [done|]. rewrite IH.
  destruct o; simpl; unfold L1_Put; repeat case_match; done.
Qed.
Lemma sum_bound (l : list l1Shard) b n :
  Forall (λ m, Z.of_nat (size m) ≤ b) l →
  foldl (λ n m, n + Z.of_nat (size m)) n l ≤ n + Z.of_nat (length l) * b.
Proof. revert n. induction l as [|m l IH]; intros n Hl; simpl; [lia|]. inversion_clear Hl. etrans; [by apply IH|lia]. Qed.

Lemma L1_Len_bound c : l1_inv c → L1_Len c ≤ 64 * (1 `max` maxPerShard c).
Proof.
  intros Hc. unfold L1_Len. etrans; [apply (sum_bound _ (1 `max` maxPerShard c))|].
  - apply Forall_lookup. intros i m Hm. by eapply l1_size.
  - rewrite (l1_shards _ Hc). unfold l1Shards. lia.
Qed.

Lemma L1_Get_put_same `{MapOrder} c key r t now now' u :
  l1_inv c → 0 < t →
  L1_Get (L1_Put c key r t now now') key u =
  if u - now' <? t `min` maxTTL c then Some {| raw := r; stored := now'; ttl := t `min` maxTTL c |} else None.
Proof.
  intros Hc Ht. unfold L1_Get, L1_Put. rewrite (proj2 (Z.leb_gt _ _) Ht). cbv zeta.
  rewrite shard_with_same, lookup_insert_eq by done. simpl.
  assert ((if maxTTL c <? t then maxTTL c else t) = t `min` maxTTL c) as -> by (case_match; zbool; lia).
  unfold l1_expired. simpl. repeat case_match; try done; exfalso;
    rewrite ?orb_true_iff, ?orb_false_iff, ?Z.leb_le, ?Z.leb_gt in *; zbool; lia.
Qed.

Lemma L1_Put_sub `{MapOrderLaws} c key r t now now' k e :
  l1_inv c → k ≠ key → shard (L1_Put c key r t now now') k !! k = Some e → shard c k !! k = Some e.
Proof.
  intros Hc Hne. unfold L1_Put. case_match; [done|]. cbv zeta.
  destruct (decide (shard_index key = shard_index k)) as [Heq|Hdiff]; [|by rewrite shard_with_other].
  assert (∀ c', shard c' k = shard c' key) as Hk by (intros c'; unfold shard; by rewrite Heq).
  rewrite !Hk, shard_with_same, lookup_insert_ne by done. destruct (shard c key !! key); [done|].
  destruct (maxPerShard c <=? _); [|done]. intros He. eapply lookup_weaken; [done|apply l1_evict_sub].
Qed.

Lemma foldl_sub (f : l1Shard → l1Shard) (l : list l1Shard) a b :
  foldl (λ n m, n + (Z.of_nat (size m) - Z.of_nat (size (f m)))) (a - b) l =
  foldl (λ n m, n + Z.of_nat (size m)) a l - foldl (λ n m, n + Z.of_nat (size m)) b (f <$> l).
Proof.
  revert a b. induction l as [|m l IH]; intros a b; simpl; [done|]. rewrite <-IH. f_equal. lia.
Qed.
Lemma set_Id_Answer m i : m_Answer (set_Id m i) = m_Answer m.
Proof. by destruct m. Qed.

(** ** Properties *)

(** Whatever sequence of puts, deletions and purges runs on a
    new cache, it never holds more than [max(64, maxEntries)] entries. *)
Theorem L1_capacity `{MapOrderLaws} maxEntries maxTTLSeconds ops :
  0 < maxEntries → L1_Len (l1_run (NewL1Cache maxEntries maxTTLSeconds) ops) ≤ 64 `max` maxEntries.
Proof.
  intros Hm. etrans; [apply L1_Len_bound, l1_run_inv, NewL1Cache_inv|].
  rewrite l1_run_maxPerShard. simpl. rewrite (proj2 (Z.leb_gt _ _) Hm).
  rewrite Z.quot_div_nonneg by (unfold l1Shards; lia). unfold l1Shards. divlia.
Qed.
Lemma L1_capacity_witness :
  L1_Len (@l1_run list_order (NewL1Cache 1 60) [OpPut "a" [1] 30 0 0; OpPut "b" [2] 30 1 1; OpDel "a"]) ≤ 64.
Proof. apply (@L1_capacity list_order _ 1 60). reflexivity. Defined.

(** After a put, a lookup of the key answers exactly until the
    shorter of the given and the maximum TTL has passed, whatever the cache
    held before; a lookup of another key answers as before or misses. *)
Theorem L1_Put_Get `{MapOrderLaws} c key r t now now' u :
  l1_inv c → 0 < t →
  L1_Get (L1_Put c key r t now now') key u =
    (if u - now' <? t `min` maxTTL c then Some {| raw := r; stored := now'; ttl := t `min` maxTTL c |} else None) ∧
  ∀ k, k ≠ key → L1_Get (L1_Put c key r t now now') k u ∈ [L1_Get c k u; None].
Proof.
  intros Hc Ht. split; [by apply L1_Get_put_same|]. intros k Hk.
  assert (maxTTL (L1_Put c key r t now now') = maxTTL c) as Hmx by (unfold L1_Put; by case_match).
  unfold L1_Get. destruct (shard (L1_Put c key r t now now') k !! k) as [e|] eqn:He; [|set_solver].
  rewrite (L1_Put_sub _ _ _ _ _ _ _ _ Hc Hk He), Hmx. set_solver.
Qed.
Lemma L1_Put_Get_witness :
  (raw <$> L1_Get (@L1_Put list_order (NewL1Cache 100 60) "k" [1; 2] 300 5 5) "k" 64) = Some [1; 2] ∧
  L1_Get (@L1_Put list_order (NewL1Cache 100 60) "k" [1; 2] 300 5 5) "k" 65 = None.
Proof.
  split.
  - rewrite (proj1 (@L1_Put_Get list_order _ (NewL1Cache 100 60) "k" [1; 2] 300 5 5 64
                     (NewL1Cache_inv 100 60) eq_refl)). reflexivity.
  - vm_compute. reflexivity.
Defined.

(** A purge removes every key under the prefix and no other, and
    reports the number of entries removed. *)
Theorem L1_Purge_exact c p :
  l1_inv c →
  let '(c', n) := L1_PurgePrefix c p in
  n = L1_Len c - L1_Len c' ∧
  ∀ k u, L1_Get c' k u = if HasPrefix k p then None else L1_Get c k u.
Proof.
  intros Hc. simpl. split.
  - unfold L1_Len. simpl. by rewrite <-(foldl_sub _ _ 0 0).
  - intros k u. unfold L1_Get, shard. simpl.
    assert (∀ f, (f <$> shards c) !!! shard_index k = f (shard c k)) as ->.
    { intros f. apply list_lookup_total_correct. rewrite list_lookup_fmap, shard_lookup by done. done. }
    rewrite map_lookup_filter. fold (shard c k). destruct (shard c k !! k) as [e|]; simpl.
    + destruct (HasPrefix k p) eqn:Hp; [rewrite option_guard_False by done|rewrite option_guard_True by done]; done.
    + by destruct (HasPrefix k p).
Qed.
Lemma L1_Purge_exact_witness :
  let c := @l1_run list_order (NewL1Cache 100 60) [OpPut "dns:cache:t1:g:a" [1] 30 0 0; OpPut "dns:cache:t2:g:a" [2] 30 1 1] in
  (L1_PurgePrefix c "dns:cache:t1").2 = 1 ∧ L1_Get (L1_PurgePrefix c "dns:cache:t1").1 "dns:cache:t1:g:a" 3 = None.
Proof.
  set (c := l1_run _ _).
  assert (l1_inv c) as Hc by apply l1_run_inv, NewL1Cache_inv.
  destruct (L1_Purge_exact c "dns:cache:t1" Hc) as [_ Hg].
  split; [vm_compute; reflexivity|]. rewrite Hg. reflexivity.
Defined.

(** A hit served within its lifetime carries a TTL between one
    second and the stored TTL; when the clock has passed the expiry between
    the lookup and the unpacking, the unsigned subtraction wraps and the
    answer carries a TTL above four billion seconds. *)
Theorem unpackL1_ttl `{DnsLib} e id now m :
  0 < ttl e < 4294967296 → unpackL1 e id now = Some m →
  (stored e ≤ now ≤ stored e + ttl e →
   m_Id m = id ∧ Forall (λ r, 1 ≤ Ttl (Hdr r) ≤ ttl e) (m_Answer m)) ∧
  (now = stored e + ttl e + 1 → Forall (λ r, Ttl (Hdr r) = 4294967295) (m_Answer m)).
Proof.
  unfold unpackL1. intros Ht Hu. destruct (Unpack (raw e)) as [m0|]; [|done]. injection Hu as <-.
  split.
  - intros Hn. rewrite u32_small by (unfold is_u32; lia). split; [by destruct m0|].
    rewrite set_Id_Answer. eapply Forall_impl; [apply adjustTTLs_Answer|]. simpl. intros r ->.
    case_match; zbool; lia.
  - intros ->. replace (stored e + ttl e - (stored e + ttl e + 1)) with (-1) by lia.
    rewrite set_Id_Answer. apply (adjustTTLs_Answer m0 4294967295).
Qed.
Lemma unpackL1_ttl_witness :
  let e := {| raw := [1; 2; 3; 250]; stored := 100; ttl := 30 |} in
  (λ m, Ttl ∘ Hdr <$> m_Answer m) <$> @unpackL1 demo_dns e 7 110 = Some [20; 20] ∧
  ∃ m, @unpackL1 demo_dns e 7 131 = Some m ∧ Forall (λ r, Ttl (Hdr r) = 4294967295) (m_Answer m).
Proof.
  split; [vm_compute; reflexivity|].
  destruct (@unpackL1 demo_dns {| raw := [1; 2; 3; 250]; stored := 100; ttl := 30 |} 7 131) as [m|] eqn:Hm;
    [|vm_compute in Hm; discriminate].
  exists m. split; [reflexivity|].
  apply (@unpackL1_ttl demo_dns {| raw := [1; 2; 3; 250]; stored := 100; ttl := 30 |} 7 131 m);
    [split; reflexivity|exact Hm|reflexivity].
Defined.
