(* ===== verification/Dnssec.v ===== *)
(** * DNSSEC policy (src/internal/dnsx/dnssec.go)

    The three modes of [Validator.Validate] and the RRSIG check of the
    "verify" mode. Cryptographic verification and key tags are the DNS
    library's; the logging of a failed set is not modelled. *)

From S2P Require Import Prelude GoStrings GoNet Model DnsMsg.

(** [ok] and [fail] are the two counters behind [Stats]. *)
Record Validator := { mode : string; ok : Z; fail : Z }.
Definition NewValidator (md : string) : Validator := {| mode := md; ok := 0; fail := 0 |}.
Definition Stats (v : Validator) : Z * Z := (ok v, fail v).

Definition checkSigTime (sig : RRSIG) (nowUnix : Z) : bool :=
  (Inception sig <=? u32 nowUnix) && (u32 nowUnix <=? Expiration sig).

Definition as_rrsig (r : RR) : option RRSIG := match Data r with RD_RRSIG s => Some s | _ => None end.
Definition is_dnskey (r : RR) : bool := match Data r with RD_DNSKEY _ => true | _ => false end.

Lemma imp_iff_compat_l (P Q R : Prop) : (Q ↔ R) → (P → Q) ↔ (P → R).
Proof. tauto. Qed.

Section dnssec.
Context `{UnicodeCase} `{DnsLib}.

(** [keys[k.KeyTag()] = k] for every DNSKEY, in order. *)
Definition add_keys (keys : gmap Z RR) (l : list RR) : gmap Z RR :=
  foldl (λ ks r, if is_dnskey r then <[DNSKEY_KeyTag r := r]> ks else ks) keys l.

Abbreviation setKey := (string * Z)%type.
Definition name_of (r : RR) : string := ToLower (Name (Hdr r)).
Definition append_at {A} (m : gmap setKey (list A)) (k : setKey) (x : A) : gmap setKey (list A) :=
  <[k := default [] (m !! k) ++ [x]]> m.

(** One iteration of the grouping loop. *)
Definition group_step (st : gmap setKey (list RR) * gmap setKey (list RRSIG)) (r : RR) :=
  let '(sets, sigs) := st in
  match as_rrsig r with
  | Some sig => (sets, append_at sigs (name_of r, TypeCovered sig) sig)
  | None => (append_at sets (name_of r, Rrtype (Hdr r)) r, sigs)
  end.
Definition group (l : list RR) := foldl group_step (∅, ∅) l.

(** One signature: in its validity period, key present, verifies. *)
Definition sig_ok (keys : gmap Z RR) (rrset : list RR) (nowUnix : Z) (sig : RRSIG) : bool :=
  checkSigTime sig nowUnix &&
  match keys !! KeyTag sig with
  | None => false
  | Some key => SigVerify sig key rrset
  end.

(** The loop over the signed sets, from the flags
    [(verifiedAny, failedAny)]. *)
Definition check_set (keys : gmap Z RR) (sets : gmap setKey (list RR)) (nowUnix : Z)
    (st : bool * bool) (ks : setKey * list RRSIG) : bool * bool :=
  let '(verifiedAny, failedAny) := st in
  let rrset := default [] (sets !! ks.1) in
  match rrset with
  | [] => st
  | _ => if existsb (sig_ok keys rrset nowUnix) ks.2 then (true, failedAny) else (verifiedAny, true)
  end.
Definition verifyRRSets (m : Msg) (nowUnix : Z) : bool :=
  let keys := add_keys (add_keys ∅ (m_Answer m)) (m_Ns m) in
  let '(sets, sigs) := group (m_Answer m) in
  let '(verifiedAny, failedAny) := foldl (check_set keys sets nowUnix) (false, false) (map_to_list sigs) in
  verifiedAny && negb failedAny.

(** The verified flag and the message with its AD bit set. *)
Definition Validate (v : Validator) (m : Msg) (nowUnix : Z) : Msg * bool :=
  let adUpstream := m_AuthenticatedData m in
  if (mode v =? "passthrough")%string then (m, adUpstream)
  else if (mode v =? "ad-only")%string then (set_AuthenticatedData m adUpstream, adUpstream)
  else if (mode v =? "verify")%string then
    let verified := verifyRRSets m nowUnix in
    (set_AuthenticatedData m verified, verified)
  else (m, adUpstream).

(** ** Specification: RRsets as filters of the answer section *)

Definition rrset_of (l : list RR) (k : setKey) : list RR :=
  filter (λ r, as_rrsig r = None ∧ (name_of r, Rrtype (Hdr r)) = k) l.
Definition covers (k : setKey) (r : RR) : Prop :=
  ∃ sig, as_rrsig r = Some sig ∧ (name_of r, TypeCovered sig) = k.
Fixpoint sigs_of (l : list RR) (k : setKey) : list RRSIG :=
  match l with
  | [] => []
  | r :: l =>
      match as_rrsig r with
      | Some sig => if decide ((name_of r, TypeCovered sig) = k) then sig :: sigs_of l k else sigs_of l k
      | None => sigs_of l k
      end
  end.

Lemma append_at_lookup {A} (m : gmap setKey (list A)) k x k' :
  default [] (append_at m k x !! k') = default [] (m !! k') ++ (if decide (k = k') then [x] else []).
Proof.
  unfold append_at. case_decide; subst; [by rewrite lookup_insert_eq|].
  rewrite lookup_insert_ne by done. by rewrite app_nil_r.
Qed.

Lemma group_spec l st k :
  default [] ((foldl group_step st l).1 !! k) = default [] (st.1 !! k) ++ rrset_of l k ∧
  default [] ((foldl group_step st l).2 !! k) = default [] (st.2 !! k) ++ sigs_of l k.
Proof.
  revert st. induction l as [|r l IH]; intros st; [by rewrite !app_nil_r|].
  simpl. destruct (IH (group_step st r)) as [-> ->]. destruct st as [sets sigs].
  unfold group_step, rrset_of. cbn [sigs_of].
  destruct (as_rrsig r) as [sig|] eqn:Hr; cbn [fst snd]; rewrite append_at_lookup.
  - rewrite filter_cons_False by naive_solver. split; [done|].
    case_decide; [by rewrite <-app_assoc|by rewrite app_nil_r].
  - split; [|done]. case_decide.
    + rewrite filter_cons_True by done. by rewrite <-app_assoc.
    + rewrite filter_cons_False by naive_solver. by rewrite app_nil_r.
Qed.

(** Every entry of the signature table is a non-empty list. *)
Lemma group_sigs_lookup l k ss :
  (group l).2 !! k = Some ss → ss = sigs_of l k ∧ ss ≠ [].
Proof.
  intros Hk. split.
  - pose proof (proj2 (group_spec l (∅, ∅) k)) as Hs. unfold group in Hk. rewrite Hk in Hs.
    simpl in Hs. by rewrite lookup_empty in Hs.
  - revert ss Hk. unfold group.
    assert (∀ st, (∀ ss, st.2 !! k = Some ss → ss ≠ []) →
              ∀ ss, (foldl group_step st l).2 !! k = Some ss → ss ≠ []) as Hgen.
    { induction l as [|r l IH]; intros st Hst; [done|]. simpl. apply IH.
      destruct st as [sets sigs]. unfold group_step. destruct (as_rrsig r) as [sig|]; [|done].
      simpl. unfold append_at. intros ss [[_ <-]|[_ ?]]%lookup_insert_Some; [by destruct (default [] _)|by apply Hst]. }
    apply Hgen. simpl. intros ss. by rewrite lookup_empty.
Qed.

Lemma check_sets_spec keys sets now l st :
  let r := foldl (check_set keys sets now) st l in
  let bad (ks : setKey * list RRSIG) :=
    default [] (sets !! ks.1) ≠ [] ∧ existsb (sig_ok keys (default [] (sets !! ks.1)) now) ks.2 = false in
  let good (ks : setKey * list RRSIG) :=
    default [] (sets !! ks.1) ≠ [] ∧ existsb (sig_ok keys (default [] (sets !! ks.1)) now) ks.2 = true in
  (r.1 = true ↔ st.1 = true ∨ Exists good l) ∧ (r.2 = true ↔ st.2 = true ∨ Exists bad l).
Proof.
  revert st. induction l as [|ks l IH]; intros st; simpl.
  { rewrite !Exists_nil. tauto. }
  destruct (IH (check_set keys sets now st ks)) as [-> ->]. rewrite !Exists_cons.
  destruct st as [v f]. unfold check_set. destruct (default [] (sets !! ks.1)) eqn:Hr; simpl; [tauto|].
  destruct (existsb _ _) eqn:He; simpl; intuition congruence.
Qed.

Lemma verify_spec m now :
  let keys := add_keys (add_keys ∅ (m_Answer m)) (m_Ns m) in
  let l := m_Answer m in
  let valid k := ∃ sig, sig ∈ sigs_of l k ∧ sig_ok keys (rrset_of l k) now sig = true in
  let signed k := sigs_of l k ≠ [] ∧ rrset_of l k ≠ [] in
  verifyRRSets m now = true ↔ (∃ k, signed k) ∧ ∀ k, signed k → valid k.
Proof.
  intros keys l valid signed. unfold verifyRRSets. fold keys l.
  pose proof (group_spec l (∅, ∅)) as Hg. fold (group l) in Hg.
  pose proof (group_sigs_lookup l) as Hs.
  destruct (group l) as [sets sigs]. simpl in *.
  assert (∀ k, default [] (sets !! k) = rrset_of l k) as Hsets.
  { intros k. rewrite (proj1 (Hg k)). by rewrite lookup_empty. }
  assert (∀ k, default [] (sigs !! k) = sigs_of l k) as Hsigs.
  { intros k. rewrite (proj2 (Hg k)). by rewrite lookup_empty. }
  assert (∀ k, sigs_of l k ≠ [] → (k, sigs_of l k) ∈ map_to_list sigs) as Hin.
  { intros k Hk. apply elem_of_map_to_list. rewrite <-Hsigs in Hk |- *. by destruct (sigs !! k). }
  assert (∀ k, existsb (sig_ok keys (rrset_of l k) now) (sigs_of l k) = true ↔ valid k) as Hv.
  { intros k. rewrite existsb_exists. unfold valid. by setoid_rewrite list_elem_of_In. }
  pose proof (check_sets_spec keys sets now (map_to_list sigs) (false, false)) as [H1 H2].
  destruct (foldl _ _ _) as [v f]. simpl in *. rewrite andb_true_iff, negb_true_iff, H1.
  setoid_rewrite Exists_exists in H1. setoid_rewrite Exists_exists in H2. setoid_rewrite Exists_exists.
  split.
  - intros [[?|([k ss] & Hk & Hne & _)] Hf]; [done|]. simpl in *. rewrite Hsets in Hne.
    apply elem_of_map_to_list in Hk. destruct (Hs _ _ Hk) as [-> Hss]. split; [by exists k|].
    intros k' [Hk1 Hk2]. apply Hv. destruct (existsb _ _) eqn:He; [done|]. exfalso.
    assert (f = true); [|congruence]. apply H2. right. exists (k', sigs_of l k'). simpl. rewrite Hsets. auto.
  - intros [[k [Hk1 Hk2]] Hall]. split.
    + right. exists (k, sigs_of l k). simpl. rewrite Hsets. split; [auto|]. split; [done|]. by apply Hv, Hall.
    + destruct f; [|done]. exfalso. destruct (proj1 H2 eq_refl) as [?|([k' ss] & Hk' & Hne & Hb)]; [done|].
      simpl in *. rewrite Hsets in *. apply elem_of_map_to_list in Hk'. destruct (Hs _ _ Hk') as [-> Hss].
      rewrite (proj2 (Hv k')) in Hb; [done|]. by apply Hall.
Qed.
End dnssec.

(** ** Properties *)

(** In "verify" mode a response is marked authenticated, and
    reported as verified, exactly when its answer section holds at least one
    signed RRset and every signed RRset has an RRSIG that is within its
    validity period and verifies the whole RRset under a DNSKEY of the
    response with the signature's key tag. In every other mode the AD bit is
    the upstream's. *)
Theorem Validate_verify `{UnicodeCase} `{DnsLib} v m now :
  let '(m', verified) := Validate v m now in
  m_AuthenticatedData m' = verified ∧
  (mode v ≠ "verify" → verified = m_AuthenticatedData m) ∧
  (mode v = "verify" →
   let l := m_Answer m in
   let keys := add_keys (add_keys ∅ l) (m_Ns m) in
   verified = true ↔
   (∃ k, sigs_of l k ≠ [] ∧ rrset_of l k ≠ []) ∧
   ∀ k, sigs_of l k ≠ [] ∧ rrset_of l k ≠ [] →
     ∃ sig key, sig ∈ sigs_of l k ∧ checkSigTime sig now = true ∧ keys !! KeyTag sig = Some key ∧
       SigVerify sig key (rrset_of l k) = true).
Proof.
  unfold Validate.
  destruct (String.eqb_spec (mode v) "passthrough"); [by split_and!; [| |congruence]|].
  destruct (String.eqb_spec (mode v) "ad-only"); [by destruct m; split_and!; [| |congruence]|].
  destruct (String.eqb_spec (mode v) "verify"); [|by split_and!; [| |congruence]].
  split_and!; [by destruct m|congruence|]. intros _.
  rewrite verify_spec. apply and_iff_compat_l, forall_proper. intros k.
  apply imp_iff_compat_l. f_equiv. intros sig. unfold sig_ok. split.
  - intros [Hin Hs]. apply andb_true_iff in Hs as [Ht Hs].
    destruct (_ !! KeyTag sig) as [key|] eqn:Hk; [|done]. exists key. auto.
  - intros (key & Hin & Ht & Hk & Hs). split; [done|]. by rewrite Ht, Hk, Hs.
Qed.

Definition demo_sig (tag : Z) (key : list Z) : RR :=
  {| Hdr := {| Name := "Example.com."; Rrtype := 46; Class_ := ClassINET; Ttl := 60 |};
     Data := RD_RRSIG {| TypeCovered := TypeA; KeyTag := tag; Inception := 100; Expiration := 200; sig_rest := key |} |}.
Definition demo_signed : Msg :=
  set_Answer newMsg
    [{| Hdr := {| Name := "example.com."; Rrtype := TypeA; Class_ := ClassINET; Ttl := 60 |}; Data := RD_A (IPv4 1 2 3 4) |};
     demo_sig 7 [1; 2];
     {| Hdr := {| Name := "example.com."; Rrtype := 48; Class_ := ClassINET; Ttl := 60 |}; Data := RD_DNSKEY [7; 1; 2] |}].
Lemma Validate_verify_witness :
  (@Validate ascii_case (demo_lib []) (NewValidator "verify") demo_signed 150).2 = true ∧
  (@Validate ascii_case (demo_lib []) (NewValidator "verify") demo_signed 250).2 = false ∧
  ∃ k, @sigs_of ascii_case (m_Answer demo_signed) k ≠ [] ∧ @rrset_of ascii_case (m_Answer demo_signed) k ≠ [].
Proof.
  split; [vm_compute; reflexivity|split; [vm_compute; reflexivity|]].
  pose proof (@Validate_verify ascii_case (demo_lib []) (NewValidator "verify") demo_signed 150) as H.
  destruct (Validate _ _ _) as [m' b] eqn:E. destruct H as (_ & _ & H).
  apply (proj1 (H eq_refl)). vm_compute in E. congruence.
Defined.
