(* ===== verification/RateLimit.v ===== *)
(** * Rate limiting (src/internal/dnsx/ratelimit.go)

    Fixed-window counters in Redis with an in-process fallback. The Redis
    commands INCR and EXPIRE are parameters; [now] is the wall clock in
    nanoseconds. *)

From S2P Require Import Prelude GoStrings Config Model StoreCache AnswerCache.

Class RedisCount (R : Type) := {
  rdb_incr : R → Time → string → R * outcome Z;
  rdb_expire : R → Time → string → Z → R;
}.

Record memCounter := { count : Z; at_ : Time }.
Record Limiter (R : Type) := {
  l_rdb : option R; l_qps : Z; l_vipMul : Z; mem2 : gmap string memCounter
}.
Arguments l_rdb {R}. Arguments l_qps {R}. Arguments l_vipMul {R}. Arguments mem2 {R}.

Section limiter.
Context {R : Type} `{Redis R} `{RedisCount R}.

Definition NewLimiter (rdb : option R) (qps vipMul : Z) : Limiter R :=
  {| l_rdb := rdb; l_qps := qps; l_vipMul := vipMul; mem2 := ∅ |}.
Definition with_rdb (l : Limiter R) (r : R) : Limiter R :=
  {| l_rdb := Some r; l_qps := l_qps l; l_vipMul := l_vipMul l; mem2 := mem2 l |}.
Definition with_mem2 (l : Limiter R) (m : gmap string memCounter) : Limiter R :=
  {| l_rdb := l_rdb l; l_qps := l_qps l; l_vipMul := l_vipMul l; mem2 := m |}.

Definition memAllow (l : Limiter R) (now : Time) (key : string) (limit : Z) : Limiter R * bool :=
  let fresh (_ : unit) :=
    let m := <[key := {| count := 1; at_ := now |}]> (mem2 l) in
    let m := if 100000 <? Z.of_nat (size m) then ∅ else m in
    (with_mem2 l m, 1 <=? limit) in
  match mem2 l !! key with
  | None => fresh tt
  | Some c =>
      if 2 * second <? now - at_ c then fresh tt
      else
        let n := i64 (count c + 1) in
        (with_mem2 l (<[key := {| count := n; at_ := at_ c |}]> (mem2 l)), n <=? limit)
  end.

(** The Redis branch shared by both planes; [None] when it falls through
    to memory. *)
Definition redisAllow (l : Limiter R) (now : Time) (key : string) (limit expire : Z) : Limiter R * option bool :=
  match l_rdb l with
  | None => (l, None)
  | Some r =>
      match rdb_incr r now key with
      | (r, Ok n) =>
          let r := if n =? 1 then rdb_expire r now key expire else r in
          (with_rdb l r, Some (n <=? limit))
      | (r, _) => (with_rdb l r, None)
      end
  end.

Definition dns_limit (l : Limiter R) (vip : bool) : Z :=
  if vip && (0 <? l_vipMul l) then i64 (l_qps l * l_vipMul l) else l_qps l.
Definition dns_key (tenantID clientIP : string) (now : Time) : string :=
  ("dns:rate:" +:+ Safe tenantID +:+ ":" +:+ Safe clientIP +:+ ":" +:+ fmt_d (Unix now))%string.
Definition AllowDNS (l : Limiter R) (now : Time) (tenantID clientIP : string) (vip : bool) : Limiter R * bool :=
  let limit := dns_limit l vip in
  let key := dns_key tenantID clientIP now in
  match redisAllow l now key limit (2 * second) with
  | (l, Some b) => (l, b)
  | (l, None) => memAllow l now key limit
  end.

Definition login_key (clientIP : string) (now window : Z) : string :=
  ("dns:rate:login:" +:+ Safe clientIP +:+ ":" +:+ fmt_d (Z.quot (Unix now) (int_seconds window)))%string.
(** A window under one second divides by zero. *)
Definition AllowLogin (l : Limiter R) (now : Time) (clientIP : string) (limit window : Z)
    : outcome (Limiter R * bool) :=
  if int_seconds window =? 0 then Panic else
  let key := login_key clientIP now window in
  match redisAllow l now key limit (i64 (window + 5 * second)) with
  | (l, Some b) => Ok (l, b)
  | (l, None) => Ok (memAllow l now key limit)
  end.

Definition ResetLogin (l : Limiter R) (now : Time) (clientIP : string) : Limiter R :=
  match l_rdb l with
  | None => l
  | Some r =>
      let keys := (rdb_scan r now ("dns:rate:login:" +:+ Safe clientIP +:+ ":*")).1 in
      with_rdb l (foldl (λ r k, (rdb_del r now [k]).1) r keys)
  end.

(** ** Histories of memory-mode queries *)

(** Calls by any clients, each with its instant, and the decisions. *)
Fixpoint run_dns (l : Limiter R) (vip : bool) (calls : list (string * string * Time)) : list bool :=
  match calls with
  | [] => []
  | (tid, ip, now) :: calls =>
      let '(l, b) := AllowDNS l now tid ip vip in b :: run_dns l vip calls
  end.
(** Decisions on one key: calls and allowed calls. *)
Fixpoint tally (key : string) (calls : list (string * string * Time)) (bs : list bool) : Z * Z :=
  match calls, bs with
  | (tid, ip, now) :: calls, b :: bs =>
      let '(n, a) := tally key calls bs in
      if (dns_key tid ip now =? key)%string then (n + 1, if b : bool then a + 1 else a) else (n, a)
  | _, _ => (0, 0)
  end.

Lemma memAllow_other l now key limit k :
  key ≠ k → Z.of_nat (size (mem2 l)) < 100000 →
  mem2 (memAllow l now key limit).1 !! k = mem2 l !! k ∧
  Z.of_nat (size (mem2 (memAllow l now key limit).1)) ≤ Z.of_nat (size (mem2 l)) + 1.
Proof.
  intros Hne Hs. unfold memAllow.
  assert (size (<[key := {| count := 1; at_ := now |}]> (mem2 l)) ≤ size (mem2 l) + 1)%nat as Hi.
  { rewrite map_size_insert. case_match; simpl; lia. }
  destruct (mem2 l !! key) as [c|] eqn:Hk; [destruct (2 * second <? now - at_ c)|]; simpl.
  - rewrite (proj2 (Z.ltb_ge _ _)) by lia. rewrite lookup_insert_ne by done. split; [done|lia].
  - rewrite lookup_insert_ne by done. split; [done|]. rewrite map_size_insert_Some by eauto. lia.
  - rewrite (proj2 (Z.ltb_ge _ _)) by lia. rewrite lookup_insert_ne by done. split; [done|lia].
Qed.

(** The counter of a key after [c] calls: absent before the first, then
    [c] and the instant of the first call. *)
Definition counter_is (l : Limiter R) (key : string) (c : Z) (lo hi : Time) : Prop :=
  (c = 0 ∧ mem2 l !! key = None) ∨
  (0 < c ∧ ∃ t, lo ≤ t < hi ∧ mem2 l !! key = Some {| count := c; at_ := t |}).

Lemma memAllow_same l now key limit c lo :
  lo ≤ now < lo + second → 0 ≤ c < 2 ^ 62 → Z.of_nat (size (mem2 l)) < 100000 →
  counter_is l key c lo (lo + second) →
  counter_is (memAllow l now key limit).1 key (c + 1) lo (lo + second) ∧
  (memAllow l now key limit).2 = (c + 1 <=? limit) ∧
  Z.of_nat (size (mem2 (memAllow l now key limit).1)) ≤ Z.of_nat (size (mem2 l)) + 1.
Proof.
  intros Hn Hc Hs [[-> Hk]|[Hp (t & Ht & Hk)]]; unfold memAllow; rewrite Hk.
  - assert ((100000 <? Z.of_nat (size (<[key := {| count := 1; at_ := now |}]> (mem2 l)))) = false) as ->.
    { rewrite map_size_insert_None by done. apply Z.ltb_ge. lia. }
    simpl. split_and!; [|done|rewrite map_size_insert_None by done; lia].
    right. split; [lia|]. exists now. split; [done|]. simpl. by rewrite lookup_insert_eq.
  - simpl. change second with 1000000000 in *. rewrite (proj2 (Z.ltb_ge _ _)) by lia. simpl.
    assert (i64 (c + 1) = c + 1) as -> by (unfold i64; rewrite Z.mod_small; lia).
    split_and!; [|done|rewrite map_size_insert_Some by eauto; lia].
    right. split; [lia|]. exists t. split; [done|]. simpl. by rewrite lookup_insert_eq.
Qed.

Lemma AllowDNS_memory l now tid ip vip :
  l_rdb l = None → AllowDNS l now tid ip vip = memAllow l now (dns_key tid ip now) (dns_limit l vip).
Proof. intros Hr. unfold AllowDNS, redisAllow. by rewrite Hr. Qed.
Lemma memAllow_config l now key limit :
  l_rdb (memAllow l now key limit).1 = l_rdb l ∧
  ∀ vip, dns_limit (memAllow l now key limit).1 vip = dns_limit l vip.
Proof. unfold memAllow. repeat case_match; done. Qed.

Lemma dns_key_second tid ip now tid' ip' now' :
  dns_key tid ip now = dns_key tid' ip' now' → Unix now = Unix now'.
Proof.
  unfold dns_key. intros Heq%append_inj_l.
  apply key_split in Heq as [_ Heq]; [|apply Safe_key..].
  apply key_split in Heq as [_ Heq]; [|apply Safe_key..].
  by apply (inj pretty) in Heq.
Qed.

Lemma run_dns_tally vip key tid0 ip0 t0 calls l c :
  key = dns_key tid0 ip0 t0 → l_rdb l = None → 0 ≤ c →
  c + Z.of_nat (length calls) ≤ 100000 → Z.of_nat (size (mem2 l)) + Z.of_nat (length calls) ≤ 100000 →
  counter_is l key c (Unix t0 * second) (Unix t0 * second + second) →
  let '(n, a) := tally key calls (run_dns l vip calls) in
  0 ≤ n ∧ a = 0 `max` ((c + n) `min` dns_limit l vip - c).
Proof.
  intros Hkey. revert l c. induction calls as [|[[tid ip] now] calls IH]; intros l c Hr Hc Hcl Hsl Hcnt.
  { simpl. lia. }
  cbn [length] in Hcl, Hsl. cbn [run_dns]. rewrite AllowDNS_memory by done.
  set (k := dns_key tid ip now) in *. pose proof (memAllow_config l now k (dns_limit l vip)) as [Hr' Hlim].
  destruct (String.eqb_spec k key) as [Heq|Hne].
  - assert (Unix now = Unix t0) as Hsec by (eapply dns_key_second; unfold k in Heq; by rewrite Heq, Hkey).
    assert (Unix t0 * second ≤ now < Unix t0 * second + second) as Hwin.
    { rewrite <-Hsec. unfold Unix. change second with 1000000000. divlia. }
    destruct (memAllow_same l now k (dns_limit l vip) c (Unix t0 * second)) as (Hcnt' & Hb & Hsz);
      [done|lia|lia|by rewrite Heq|].
    destruct (memAllow l now k (dns_limit l vip)) as [l' b]. simpl in Hcnt', Hb, Hsz, Hr', Hlim.
    cbn [tally]. fold k. rewrite Heq in *. rewrite String.eqb_refl.
    specialize (IH l' (c + 1)). rewrite Hlim in IH. destruct (tally _ _ _) as [n a].
    destruct IH as [Hn ->]; [congruence|lia|lia|lia|done|]. split; [lia|].
    rewrite Hb. case_match; zbool; lia.
  - destruct (memAllow_other l now k (dns_limit l vip) key Hne) as [Hk Hsz]; [lia|].
    destruct (memAllow l now k (dns_limit l vip)) as [l' b]. simpl in Hk, Hsz, Hr', Hlim.
    cbn [tally]. fold k. rewrite (proj2 (String.eqb_neq _ _) Hne).
    specialize (IH l' c). rewrite Hlim in IH. destruct (tally _ _ _) as [n a].
    apply IH; [congruence|done|lia|lia|]. unfold counter_is. rewrite Hk. done.
Qed.
End limiter.

(** ** Properties *)

(** Without Redis, of the [n] queries one client of a tenant sends
    within one wall-clock second, exactly [min(n, limit)] are allowed, with
    any queries of other clients in between ([limit] is the QPS cap, times
    the multiplier for a VIP tenant). *)
Theorem AllowDNS_cap {R} `{Redis R} `{RedisCount R} (l : Limiter R) vip tid ip t0 calls :
  l_rdb l = None → mem2 l !! dns_key tid ip t0 = None →
  Z.of_nat (size (mem2 l)) + Z.of_nat (length calls) ≤ 100000 →
  let '(n, allowed) := tally (dns_key tid ip t0) calls (run_dns l vip calls) in
  allowed = 0 `max` (n `min` dns_limit l vip).
Proof.
  intros Hr Hk Hs. pose proof (run_dns_tally vip _ tid ip t0 calls l 0 eq_refl Hr) as Ht.
  destruct (tally _ _ _) as [n a]. destruct Ht as [_ ->]; [lia..|by left|lia].
Qed.

(** A Redis that is never consulted, for the memory mode. *)
#[local] Instance no_redis : Redis unit := {
  rdb_get _ _ _ := Ok None; rdb_set r _ _ _ _ := (r, None); rdb_del r _ _ := (r, None);
  rdb_scan _ _ _ := ([], None)
}.
#[local] Instance no_redis_count : RedisCount unit := {
  rdb_incr r _ _ := (r, Err "closed"); rdb_expire r _ _ _ := r
}.
Definition demo_limiter : Limiter unit := NewLimiter None 2 3.
Lemma AllowDNS_cap_witness :
  let calls := [("t1", "1.1.1.1", 5 * second); ("t2", "1.1.1.1", 5 * second + 1); ("t1", "1.1.1.1", 5 * second + 2);
                ("t1", "1.1.1.1", 5 * second + 3)] in
  run_dns demo_limiter false calls = [true; true; true; false] ∧
  (let '(n, allowed) := tally (dns_key "t1" "1.1.1.1" (5 * second)) calls (run_dns demo_limiter false calls) in
   allowed = 0 `max` (n `min` dns_limit demo_limiter false)).
Proof.
  split; [vm_compute; reflexivity|].
  apply (AllowDNS_cap demo_limiter false "t1" "1.1.1.1" (5 * second)).
  - reflexivity.
  - reflexivity.
  - vm_compute. discriminate.
Defined.

(** Login attempts of one address in the memory mode. *)
Fixpoint run_login {R} `{Redis R} `{RedisCount R} (l : Limiter R) (ip : string) (limit window : Z)
    (times : list Time) : list (outcome bool) :=
  match times with
  | [] => []
  | now :: times =>
      match AllowLogin l now ip limit window with
      | Ok (l, b) => Ok b :: run_login l ip limit window times
      | Err e => [Err e]
      | Panic => [Panic]
      end
  end.
(** Consecutive instants more than two seconds apart. *)
Fixpoint spaced (prev : Time) (times : list Time) : Prop :=
  match times with
  | [] => True
  | t :: times => 2 * second < t - prev ∧ spaced t times
  end.

(** The counter of every key is at least as old as the last call. *)
Lemma run_login_spaced {R} `{Redis R} `{RedisCount R} (l : Limiter R) ip limit window prev times :
  l_rdb l = None → 1 ≤ limit → int_seconds window ≠ 0 → spaced prev times →
  (∀ k c, mem2 l !! k = Some c → at_ c ≤ prev) →
  run_login l ip limit window times = replicate (length times) (Ok true).
Proof.
  intros Hr Hlim Hw%Z.eqb_neq. revert l prev Hr. induction times as [|t times IH]; intros l prev Hr Hsp0 Hold; [done|].
  destruct Hsp0 as [Hsp Htl].
  simpl. unfold AllowLogin, redisAllow. rewrite Hw, Hr. set (key := login_key ip t window).
  assert (memAllow l t key limit = (with_mem2 l (let m := <[key := {| count := 1; at_ := t |}]> (mem2 l) in
            if 100000 <? Z.of_nat (size m) then ∅ else m), true)) as ->.
  { unfold memAllow. rewrite (proj2 (Z.leb_le _ _) Hlim). destruct (mem2 l !! key) as [c|] eqn:Hk; [|done].
    pose proof (Hold _ _ Hk). by rewrite (proj2 (Z.ltb_lt _ _)) by lia. }
  f_equal. apply (IH _ t); [done..|]. simpl. intros k c. case_match; [by rewrite lookup_empty|].
  intros [[_ <-]|[_ Hk]]%lookup_insert_Some; [done|]. pose proof (Hold _ _ Hk).
  change second with 1000000000 in *. lia.
Qed.

(** Without Redis the login limiter keeps its counters for two
    seconds only, whatever the configured window: an address that waits a
    little over two seconds between attempts is never limited. *)
Theorem AllowLogin_memory_window {R} `{Redis R} `{RedisCount R} (l : Limiter R) ip limit window t0 times :
  l_rdb l = None → mem2 l = ∅ → 1 ≤ limit → int_seconds window ≠ 0 → spaced t0 times →
  run_login l ip limit window times = replicate (length times) (Ok true).
Proof.
  intros Hr Hm Hlim Hw Hsp. eapply run_login_spaced; try done. rewrite Hm. intros k c. by rewrite lookup_empty.
Qed.
Lemma AllowLogin_memory_window_witness :
  run_login demo_limiter "1.1.1.1" 1 (15 * minute) [3 * second; 6 * second; 9 * second] = [Ok true; Ok true; Ok true].
Proof.
  apply (AllowLogin_memory_window demo_limiter "1.1.1.1" 1 (15 * minute) 0); try reflexivity.
  - vm_compute. discriminate.
  - repeat split; reflexivity.
Defined.
