(* ===== verification/Metrics.v ===== *)
(** * Statistics (src/internal/dnsx/metrics.go)

    The rolling one-minute window of one-second buckets, the cumulative
    totals, and the keyed counters. [sec] is [now.Second()], the second of
    the minute; the rates of [Snapshot] are exact rationals where the code
    has [float64]. *)

From Stdlib Require Import QArith.
From S2P Require Import Prelude.
#[local] Open Scope Z_scope.

Record bucket := { b_q : Z; b_hit : Z; b_miss : Z; b_err : Z; b_threat : Z; b_block : Z }.
Definition no_bucket : bucket :=
  {| b_q := 0; b_hit := 0; b_miss := 0; b_err := 0; b_threat := 0; b_block := 0 |}.
#[global] Instance bucket_inhabited : Inhabited bucket := populate no_bucket.

Record Stats := {
  window : list bucket; cur : nat;
  totalQ : Z; totalHit : Z; totalErr : Z; totalThreat : Z; totalBlock : Z
}.
Definition NewStats : Stats :=
  {| window := replicate 60 no_bucket; cur := 0; totalQ := 0; totalHit := 0; totalErr := 0;
     totalThreat := 0; totalBlock := 0 |}.

(** The counters, one per [Inc] method. *)
Inductive counter := CQuery | CHit | CMiss | CError | CThreat | CBlock.
Definition bump_bucket (k : counter) (b : bucket) : bucket :=
  let '{| b_q := q; b_hit := h; b_miss := m; b_err := e; b_threat := t; b_block := bl |} := b in
  match k with
  | CQuery => Build_bucket (u64 (q + 1)) h m e t bl
  | CHit => Build_bucket q (u64 (h + 1)) m e t bl
  | CMiss => Build_bucket q h (u64 (m + 1)) e t bl
  | CError => Build_bucket q h m (u64 (e + 1)) t bl
  | CThreat => Build_bucket q h m e (u64 (t + 1)) bl
  | CBlock => Build_bucket q h m e t (u64 (bl + 1))
  end.

Definition bump (s : Stats) (sec : nat) (f : bucket → bucket) : Stats :=
  let idx := (sec mod 60)%nat in
  let '(c, w) := if (idx =? cur s)%nat then (cur s, window s)
                 else (idx, <[idx := no_bucket]> (window s)) in
  {| window := alter f idx w; cur := c; totalQ := totalQ s; totalHit := totalHit s;
     totalErr := totalErr s; totalThreat := totalThreat s; totalBlock := totalBlock s |}.

(** [IncQuery], [IncHit], [IncMiss], [IncError], [IncThreat], [IncBlock] *)
Definition Inc (s : Stats) (sec : nat) (k : counter) : Stats :=
  let s := bump s sec (bump_bucket k) in
  let one k' := match k, k' with
                | CQuery, CQuery | CHit, CHit | CError, CError | CThreat, CThreat | CBlock, CBlock => 1
                | _, _ => 0
                end in
  {| window := window s; cur := cur s;
     totalQ := u64 (totalQ s + one CQuery); totalHit := u64 (totalHit s + one CHit);
     totalErr := u64 (totalErr s + one CError); totalThreat := u64 (totalThreat s + one CThreat);
     totalBlock := u64 (totalBlock s + one CBlock) |}.

Definition sum_window (f : bucket → Z) (s : Stats) : Z := foldl (λ n b, u64 (n + f b)) 0 (window s).

(** [float64(q) / 60.0] and the two percentages. *)
Definition Snapshot (s : Stats) : Q * Q * Q :=
  let q := sum_window b_q s in
  let hit := sum_window b_hit s in
  let err := sum_window b_err s in
  let pct n := if 0 <? q then (inject_Z n / inject_Z q * 100)%Q else 0%Q in
  ((inject_Z q / 60)%Q, pct hit, pct err).

Definition Totals (s : Stats) : Z * Z * Z := (totalQ s, totalHit s, totalErr s).
Definition TotalThreats (s : Stats) : Z := totalThreat s.
Definition TotalBlocks (s : Stats) : Z := totalBlock s.

(** ** Keyed counters *)

Module CounterSet.
Abbreviation t := (gmap string Z).
Definition NewCounterSet : t := ∅.
Definition Inc (c : t) (key : string) : t := <[key := u64 (default 0 (c !! key) + 1)]> c.
Definition Get (c : t) (key : string) : Z := default 0 (c !! key).
Definition Snapshot (c : t) : gmap string Z := c.
End CounterSet.

(** ** Histories *)

(** An event is an [Inc] at an absolute second of the clock. *)
Definition event : Type := nat * counter.
Definition run_stats (es : list event) : Stats := foldl (λ s e, Inc s (e.1 mod 60) e.2) NewStats es.

Definition is_counter (k k' : counter) : bool :=
  match k, k' with
  | CQuery, CQuery | CHit, CHit | CMiss, CMiss | CError, CError | CThreat, CThreat | CBlock, CBlock => true
  | _, _ => false
  end.
(** Queries recorded in an absolute second. *)
Definition queries_at (es : list event) (sec : nat) : Z :=
  Z.of_nat (length (filter (λ e, is_counter e.2 CQuery = true ∧ e.1 = sec) es)).
Definition queries (es : list event) : Z :=
  Z.of_nat (length (filter (λ e, is_counter e.2 CQuery = true) es)).
(** Queries of the 60 seconds up to and including [last]. *)
Definition zsum (l : list Z) : Z := foldr Z.add 0 l.
Definition queries_last_minute (es : list event) (last : nat) : Z :=
  zsum ((λ d, queries_at es (last - d)%nat) <$> seq 0 60).

(** A history in which every second from the first event on has an event. *)
Fixpoint contiguous (last : nat) (es : list event) : Prop :=
  match es with
  | [] => True
  | e :: es => (e.1 = last ∨ e.1 = S last) ∧ contiguous e.1 es
  end.
Definition last_second (start : nat) (es : list event) : nat := foldl (λ _ e, e.1) start es.

Definition bq (s : Stats) (j : nat) : Z := b_q (window s !!! j).

Lemma bump_window s sec f j :
  length (window s) = 60%nat → (j < 60)%nat →
  window (bump s sec f) !!! j =
  if (j =? sec mod 60)%nat then f (if (j =? cur s)%nat then window s !!! j else no_bucket) else window s !!! j.
Proof.
  intros Hl Hj. unfold bump. destruct (Nat.eqb_spec (sec mod 60) (cur s)) as [Hc|Hc]; cbn [window].
  - rewrite !list_lookup_total_alt, list_lookup_alter.
    destruct (Nat.eqb_spec j (sec mod 60)) as [->|Hne]; [rewrite decide_True by done|by rewrite decide_False by congruence].
    rewrite (proj2 (Nat.eqb_eq _ _) Hc).
    destruct (window s !! (sec mod 60)%nat) eqn:E; [done|]. apply lookup_ge_None in E. lia.
  - rewrite !list_lookup_total_alt, list_lookup_alter.
    destruct (Nat.eqb_spec j (sec mod 60)) as [->|Hne].
    + rewrite decide_True by done. rewrite list_lookup_insert_eq by (pose proof (Nat.mod_upper_bound sec 60); lia). cbn [fmap option_fmap option_map default].
      by rewrite (proj2 (Nat.eqb_neq _ _) Hc).
    + rewrite decide_False by congruence. by rewrite list_lookup_insert_ne by congruence.
Qed.
Lemma bump_length s sec f : length (window (bump s sec f)) = length (window s).
Proof. unfold bump. destruct (_ =? _)%nat; cbn [window]; by rewrite length_alter, ?length_insert. Qed.
Lemma bump_cur s sec f : cur (bump s sec f) = (sec mod 60)%nat.
Proof. unfold bump. destruct (Nat.eqb_spec (sec mod 60) (cur s)); cbn [cur]; congruence. Qed.

Lemma u64_add_l a b : u64 (u64 a + b) = u64 (a + b).
Proof. unfold u64. by rewrite Zplus_mod_idemp_l. Qed.
Lemma u64_add_r a b : u64 (a + u64 b) = u64 (a + b).
Proof. unfold u64. by rewrite Zplus_mod_idemp_r. Qed.

Lemma sum_window_zsum f s : sum_window f s = u64 (zsum (f <$> window s)).
Proof.
  unfold sum_window. assert (∀ l a, foldl (λ n b, u64 (n + f b)) (u64 a) l = u64 (a + zsum (f <$> l))) as H.
  { induction l as [|b l IH]; intros a; [by rewrite Z.add_0_r|].
    change (zsum (f <$> b :: l)) with (f b + zsum (f <$> l)). cbn [foldl]. rewrite u64_add_l, IH. f_equal. lia. }
  by rewrite <-(Z.add_0_l (zsum _)), <-H.
Qed.
#[global] Instance zsum_perm : Proper ((≡ₚ) ==> (=)) zsum.
Proof. induction 1; simpl; lia. Qed.
Lemma zsum_u64 l l' : Forall2 (λ a b, u64 a = u64 b) l l' → u64 (zsum l) = u64 (zsum l').
Proof.
  induction 1 as [|a b l l' Hab _ IH]; simpl; [done|].
  by rewrite <-u64_add_l, Hab, u64_add_l, <-u64_add_r, IH, u64_add_r.
Qed.

(** The sixty most recent seconds visit every bucket once. *)
Lemma recent_buckets last :
  (60 ≤ last)%nat → (λ d, ((last - d) mod 60)%nat) <$> seq 0 60 ≡ₚ seq 0 60.
Proof.
  intros Hl. apply submseteq_length_Permutation; [|by rewrite length_fmap].
  apply NoDup_submseteq.
  - apply NoDup_fmap_2_strong; [|apply NoDup_seq].
    intros x y Hx%elem_of_seq Hy%elem_of_seq Heq. cbv beta in Heq.
    apply (f_equal Z.of_nat) in Heq. rewrite !Nat2Z.inj_mod, !Nat2Z.inj_sub in Heq by lia. divlia.
  - intros x (d & -> & Hd%elem_of_seq)%list_elem_of_fmap. apply elem_of_seq.
    pose proof (Nat.mod_upper_bound (last - d) 60). lia.
Qed.

Record stats_inv (s : Stats) (es : list event) (last : nat) : Prop := {
  si_len : length (window s) = 60%nat;
  si_cur : es = [] ∨ cur s = (last mod 60)%nat;
  si_past : Forall (λ e, (e.1 ≤ last)%nat) es;
  si_last : (60 ≤ last)%nat;
  si_q : ∀ d, (d < 60)%nat → u64 (bq s ((last - d) mod 60)) = u64 (queries_at es (last - d));
}.

Lemma queries_at_snoc es e sec :
  queries_at (es ++ [e]) sec = queries_at es sec + (if decide (is_counter e.2 CQuery = true ∧ e.1 = sec) then 1 else 0).
Proof.
  unfold queries_at. rewrite filter_app, length_app.
  case_decide; [rewrite filter_cons_True by done|rewrite filter_cons_False by done]; rewrite filter_nil; cbn [length]; by rewrite Nat2Z.inj_add.
Qed.
Lemma queries_at_future es last sec :
  Forall (λ e : event, (e.1 ≤ last)%nat) es → (last < sec)%nat → queries_at es sec = 0.
Proof.
  intros Hf Hs. unfold queries_at. induction Hf as [|e es He _ IH]; [done|].
  rewrite filter_cons_False by (intros [_ ?]; lia). done.
Qed.
Lemma bump_bucket_q k b : u64 (b_q (bump_bucket k b)) = u64 (b_q b + (if decide (is_counter k CQuery = true) then 1 else 0)).
Proof.
  destruct b, k; simpl; rewrite ?Z.add_0_r; try done. unfold u64. by rewrite Zmod_mod.
Qed.

Lemma Inc_bq s sec k j :
  length (window s) = 60%nat → (j < 60)%nat →
  bq (Inc s sec k) j =
  if (j =? sec mod 60)%nat then b_q (bump_bucket k (if (j =? cur s)%nat then window s !!! j else no_bucket))
  else bq s j.
Proof. intros Hl Hj. unfold bq, Inc. cbn [window]. rewrite bump_window by done. by case_match. Qed.

Lemma mod60_mod n : ((n mod 60) mod 60 = n mod 60)%nat.
Proof. apply Nat.Div0.mod_mod. Qed.
(** Among the sixty seconds up to [last], only [last - d] has its bucket. *)
Lemma mod60_inj last d d' :
  (60 ≤ last)%nat → (d < 60)%nat → (d' < 60)%nat → ((last - d) mod 60 = (last - d') mod 60)%nat → d = d'.
Proof.
  intros Hl Hd Hd' Heq. apply (f_equal Z.of_nat) in Heq. rewrite !Nat2Z.inj_mod, !Nat2Z.inj_sub in Heq by lia. divlia.
Qed.

Lemma bucket_before s es last sec :
  stats_inv s es last → sec = last ∨ sec = S last →
  let j := (sec mod 60)%nat in
  u64 (b_q (if (j =? cur s)%nat then window s !!! j else no_bucket)) = u64 (queries_at es sec).
Proof.
  intros [Hlen Hcur Hpast Hlast Hq] Hsec j. destruct (Nat.eqb_spec j (cur s)) as [Hj|Hj].
  - destruct Hsec as [->| ->].
    + pose proof (Hq 0%nat ltac:(lia)) as H0. rewrite Nat.sub_0_r in H0. exact H0.
    + destruct Hcur as [->|Hc].
      * pose proof (Hq 59%nat ltac:(lia)) as H59. unfold bq in H59.
        replace ((last - 59) mod 60)%nat with j in H59; [exact H59|].
        unfold j. replace (S last) with ((last - 59) + 1 * 60)%nat by lia. by rewrite Nat.Div0.mod_add.
      * exfalso. unfold j in Hj. assert ((S last - 0) mod 60 = (S last - 1) mod 60)%nat as Heq
          by (replace (S last - 0)%nat with (S last) by lia; replace (S last - 1)%nat with last by lia; congruence).
        apply mod60_inj in Heq; lia.
  - destruct Hsec as [->| ->].
    + destruct Hcur as [->|Hc]; [done|]. unfold j in Hj. congruence.
    + by rewrite (queries_at_future es last) by (done || lia).
Qed.

Lemma stats_inv_step s es last e :
  stats_inv s es last → e.1 = last ∨ e.1 = S last →
  stats_inv (Inc s (e.1 mod 60) e.2) (es ++ [e]) e.1.
Proof.
  intros Hinv Hsec. pose proof Hinv as [Hlen Hcur Hpast Hlast Hq]. split.
  - unfold Inc. cbn [window]. by rewrite bump_length.
  - right. unfold Inc. cbn [cur]. by rewrite bump_cur, mod60_mod.
  - apply Forall_app. split; [|by constructor]. eapply Forall_impl; [exact Hpast|]. simpl. lia.
  - lia.
  - intros d Hd. pose proof (Nat.mod_upper_bound (e.1 - d) 60 ltac:(lia)) as Hj.
    rewrite Inc_bq, mod60_mod, queries_at_snoc by done.
    destruct (Nat.eqb_spec ((e.1 - d) mod 60) (e.1 mod 60)) as [Heq|Hne].
    + assert (d = 0%nat) as ->.
      { apply (mod60_inj e.1); [lia..|]. by rewrite Nat.sub_0_r. }
      rewrite Nat.sub_0_r, bump_bucket_q, <-u64_add_l, (bucket_before s es last) by done. rewrite u64_add_l. f_equal. f_equal.
      destruct (decide (is_counter e.2 CQuery = true)); [rewrite decide_True by done|rewrite decide_False by tauto]; done.
    + rewrite decide_False by (intros [_ ?]; apply Hne; f_equal; lia). rewrite Z.add_0_r.
      destruct Hsec as [->| ->]; [by apply Hq|]. destruct d as [|d]; [by rewrite Nat.sub_0_r in Hne|].
      replace (S last - S d)%nat with (last - d)%nat by lia. apply Hq. lia.
Qed.

Lemma run_stats_inv es : ∀ s pre last,
  stats_inv s pre last → contiguous last es →
  stats_inv (foldl (λ s e, Inc s (e.1 mod 60) e.2) s es) (pre ++ es) (last_second last es).
Proof.
  induction es as [|e es IH]; intros s pre last Hinv Hc; [by rewrite app_nil_r|].
  destruct Hc as [He Hc]. simpl. rewrite cons_middle, app_assoc. apply IH; [|done].
  by apply (stats_inv_step s pre last).
Qed.

Lemma stats_inv_init start : (60 ≤ start)%nat → stats_inv NewStats [] start.
Proof.
  intros Hs. split; try done; [by left|]. intros d Hd. unfold bq, NewStats. cbn [window].
  rewrite lookup_total_replicate_2; [done|]. pose proof (Nat.mod_upper_bound (start - d) 60). lia.
Qed.

(** ** Properties *)

(** When every second since the start saw at least one event, the
    query count behind [Snapshot] is the number of queries of the last sixty
    seconds (modulo 2^64). *)
Theorem Snapshot_last_minute start es :
  (60 ≤ start)%nat → contiguous start es →
  sum_window b_q (run_stats es) = u64 (queries_last_minute es (last_second start es)).
Proof.
  intros Hs Hc. pose proof (run_stats_inv es _ [] start (stats_inv_init start Hs) Hc) as [Hlen _ _ Hlast Hq].
  rewrite sum_window_zsum. fold (run_stats es) in *. cbn [app] in Hq.
  assert (b_q <$> window (run_stats es) = bq (run_stats es) <$> seq 0 60) as ->.
  { apply list_eq. intros i. rewrite !list_lookup_fmap. destruct (decide (i < 60)%nat) as [Hi|Hi].
    - rewrite lookup_seq_lt by done. unfold bq. simpl. by rewrite list_lookup_lookup_total_lt by lia.
    - rewrite (lookup_ge_None_2 (window _)) by lia. by rewrite lookup_seq_ge by lia. }
  rewrite <-(recent_buckets (last_second start es)) at 1 by done. rewrite <-list_fmap_compose.
  apply zsum_u64, Forall2_fmap, Forall_Forall2_diag, Forall_forall. intros d Hd%elem_of_seq. apply Hq. lia.
Qed.
Lemma Snapshot_last_minute_witness :
  sum_window b_q (run_stats [(100, CQuery); (100, CHit); (101, CQuery); (102, CMiss)]%nat) = 2.
Proof.
  rewrite (Snapshot_last_minute 100 [(100, CQuery); (100, CHit); (101, CQuery); (102, CMiss)]%nat).
  - reflexivity.
  - lia.
  - simpl. lia.
Defined.

(** Without that traffic the window is not the last minute:
    buckets are cleared only when an event falls into their second, so after
    an idle hour a query of the previous hour is still counted. *)
Theorem Snapshot_stale :
  sum_window b_q (run_stats [(100, CQuery); (3700, CQuery); (3705, CHit)]%nat) = 2 ∧
  queries_last_minute [(100, CQuery); (3700, CQuery); (3705, CHit)]%nat 3705 = 1.
Proof. split; vm_compute; reflexivity. Qed.
