(* ===== verification/Upstream.v ===== *)
(** * Upstream resolvers (src/internal/dnsx/upstream.go,
      upstream_udp_dot.go, upstream_doq.go)

    Groups of resolver endpoints, selection, failover, health checks and the
    protocol clients. A [*GroupState] is an address of [gheap]: requests in
    flight keep the group they looked up across a [Reload], and [Select] may
    sort its entries in place. An entry is identified by [e_addr]; the
    round-robin cursor an entry points to is the cell of its upstream's id
    in [rrIdx]. The network and the random source are parameters. *)

From S2P Require Import Prelude GoStrings GoNet Config Model DnsMsg.

(** ** Clients *)

Inductive Client :=
| udpClient (up : Upstream) (addr : string)
| dotClient (up : Upstream) (addr : string)
| dohClient (up : Upstream) (url : string)
| doqClient (up : Upstream) (addr : string).

Definition newDoHClient (u : Upstream) (addr : string) : Client :=
  let path := if (up_DoHPath u =? "")%string then "/dns-query" else up_DoHPath u in
  dohClient u ("https://" +:+ addr +:+ path)%string.

Definition buildClient (u : Upstream) : outcome Client :=
  let addr := (up_Address u +:+ ":" +:+ fmt_d (up_Port u))%string in
  let p := up_Protocol u in
  if (p =? ProtoUDP)%string || (p =? ProtoTCP)%string then Ok (udpClient u addr)
  else if (p =? ProtoDoT)%string then Ok (dotClient u addr)
  else if (p =? ProtoDoH)%string then Ok (newDoHClient u addr)
  else if (p =? ProtoDoQ)%string then Ok (doqClient u addr)
  else Err ("unsupported protocol " +:+ fmt_q p)%string.

Definition client_String (c : Client) : string :=
  match c with
  | udpClient _ addr => "udp/tcp://" +:+ addr
  | dotClient _ addr => "dot://" +:+ addr
  | dohClient _ url => "doh://" +:+ url
  | doqClient _ addr => "doq://" +:+ addr
  end%string.

(** The part of [tls.Config] the code decides: server name and whether
    verification is skipped. *)
Definition tlsConfigForUpstream (cfg : Config) (u : Upstream) : string * bool :=
  (up_Hostname u, up_TLSInsecure u && (Env cfg =? "dev")%string).

(** *** Message framing (RFC 9250): two bytes of length, then the message *)

Definition PutUint16 (n : Z) : list Z := [u8 (n / 256); u8 n].
Definition Uint16 (a b : Z) : Z := a * 256 + b.
Definition frame (raw : list Z) : list Z := PutUint16 (u16 (Z.of_nat (length raw))) ++ raw.
(** The bytes of a stream up to its end; [io.ReadFull] fails when there are
    not enough. *)
Definition read_frame (stream : list Z) : outcome (list Z) :=
  match stream with
  | a :: b :: rest =>
      let length := Uint16 a b in
      if length =? 0 then Err "empty DoQ response"
      else if Z.of_nat (List.length rest) <? length then Err "unexpected EOF"
      else Ok (take (Z.to_nat length) rest)
  | [] => Err "EOF"
  | _ => Err "unexpected EOF"
  end.

(** The network during one request: [dns.Client.ExchangeContext] per
    transport, an HTTP POST (status and body), and a DoQ stream (the bytes
    received for the bytes sent). *)
Class Network := {
  udp_exchange : string → Msg → outcome Msg;
  tcp_exchange : string → Msg → outcome Msg;
  tls_exchange : string → bool → string → Msg → outcome Msg;
  http_post : string → bool → string → list Z → outcome (Z * list Z);
  quic_stream : string → bool → string → list Z → outcome (list Z);
}.

Section clients.
Context `{DnsLib} `{Network} (cfg : Config).

Definition unpack_or_err (body : list Z) : outcome Msg :=
  match Unpack body with Some m => Ok m | None => Err "bad message" end.

(** [httpClient.exchange] *)
Definition http_exchange (u : Upstream) (m : Msg) (url : string) : outcome Msg :=
  match Pack m with
  | None => Err "pack"
  | Some raw =>
      let '(name, skip) := tlsConfigForUpstream cfg u in
      match http_post name skip url raw with
      | Ok (status, body) =>
          if status =? 200 then unpack_or_err (take (Z.to_nat 65535) body)
          else Err ("doh upstream status " +:+ fmt_d status)
      | Err e => Err e
      | Panic => Panic
      end
  end.
Definition doq_exchange (u : Upstream) (m : Msg) (addr : string) : outcome Msg :=
  match Pack m with
  | None => Err "pack"
  | Some raw =>
      if 65535 <? Z.of_nat (length raw) then Err "message too large for DoQ"
      else
        let '(name, skip) := tlsConfigForUpstream cfg u in
        match quic_stream name skip addr (frame raw) with
        | Ok stream => match read_frame stream with
                       | Ok body => unpack_or_err body
                       | Err e => Err e
                       | Panic => Panic
                       end
        | Err e => Err e
        | Panic => Panic
        end
  end.
Definition exchangeTCP (addr : string) (m : Msg) : outcome Msg := tcp_exchange addr m.

Definition Exchange (c : Client) (m : Msg) : outcome Msg :=
  match c with
  | udpClient u addr =>
      if (up_Protocol u =? ProtoTCP)%string then exchangeTCP addr m else udp_exchange addr m
  | dotClient u addr =>
      let '(name, skip) := tlsConfigForUpstream cfg u in tls_exchange name skip addr m
  | dohClient u url => http_exchange u m url
  | doqClient u addr => doq_exchange u m addr
  end.

(** [None] for a healthy endpoint, otherwise the error. A TCP-only
    upstream is probed over UDP. *)
Definition HealthProbe (c : Client) : option string :=
  let q := SetQuestion (Fqdn (HealthDomain cfg)) TypeA in
  let checked (addr : string) (r : outcome Msg) :=
    match r with
    | Ok r => if m_Rcode r =? RcodeServerFailure then Some ("SERVFAIL from " +:+ addr)%string else None
    | Err e => Some e
    | Panic => Some "panic"
    end in
  match c with
  | udpClient _ addr => checked addr (udp_exchange addr (SetEdns0 q 1232 false))
  | dotClient u addr =>
      let '(name, skip) := tlsConfigForUpstream cfg u in checked addr (tls_exchange name skip addr q)
  | dohClient u url => match http_exchange u q url with Ok _ => None | Err e => Some e | Panic => Some "panic" end
  | doqClient u addr => match doq_exchange u q addr with Ok _ => None | Err e => Some e | Panic => Some "panic" end
  end.
End clients.

(** Reading a query from a stream of the downstream listener. *)
Definition readDoQMsg `{DnsLib} (stream : list Z) : option Msg :=
  match read_frame stream with Ok body => Unpack body | _ => None end.
(** The bytes written back by [doqServeConn] for a response. *)
Definition doq_response `{DnsLib} (resp : option Msg) : list Z :=
  match resp with
  | None => []
  | Some m => match Pack m with
              | Some raw => if 65535 <? Z.of_nat (length raw) then [] else frame raw
              | None => []
              end
  end.

(** ** Manager state *)

Record EntryState := {
  e_up : Upstream; e_client : option Client; e_addr : nat;
  healthy : bool; consecFail : Z; lastDown : Z
}.
Record GroupState := { gs_group : UpstreamGroup; Entries : list EntryState }.
Record Manager := {
  gheap : gmap nat GroupState; groups : gmap string nat; byName : gmap string string;
  byTenant : gmap string string; rrIdx : gmap string Z; next : nat
}.
Definition NewManager : Manager :=
  {| gheap := ∅; groups := ∅; byName := ∅; byTenant := ∅; rrIdx := ∅; next := 0 |}.

Definition entry_String (e : EntryState) : string :=
  match e_client e with
  | Some c => client_String c
  | None => (up_Protocol (e_up e) +:+ "://" +:+ up_Address (e_up e))%string
  end.

Definition set_health (e : EntryState) (h : bool) (f d : Z) : EntryState :=
  {| e_up := e_up e; e_client := e_client e; e_addr := e_addr e; healthy := h; consecFail := f; lastDown := d |}.
Definition set_Entries (g : GroupState) (es : list EntryState) : GroupState :=
  {| gs_group := gs_group g; Entries := es |}.
Definition with_gheap (m : Manager) (h : gmap nat GroupState) : Manager :=
  {| gheap := h; groups := groups m; byName := byName m; byTenant := byTenant m; rrIdx := rrIdx m; next := next m |}.
Definition with_rrIdx (m : Manager) (r : gmap string Z) : Manager :=
  {| gheap := gheap m; groups := groups m; byName := byName m; byTenant := byTenant m; rrIdx := r; next := next m |}.
(** A write through an [*EntryState]. *)
Definition update_entry (a : nat) (f : EntryState → EntryState) (g : GroupState) : GroupState :=
  set_Entries g ((λ e, if (e_addr e =? a)%nat then f e else e) <$> Entries g).
Definition write_entry (m : Manager) (gp a : nat) (f : EntryState → EntryState) : Manager :=
  with_gheap m (alter (update_entry a f) gp (gheap m)).

(** ** Reload *)

(** [&EntryState{Upstream: *u}] with its client; registers the cursor. *)
Definition new_entry (rr : gmap string Z) (addr : nat) (u : Upstream) : gmap string Z * EntryState :=
  let rr := match rr !! up_ID u with Some _ => rr | None => <[up_ID u := 0]> rr end in
  match buildClient u with
  | Ok c => (rr, {| e_up := u; e_client := Some c; e_addr := addr; healthy := true; consecFail := 0; lastDown := 0 |})
  | _ => (rr, {| e_up := u; e_client := None; e_addr := addr; healthy := false; consecFail := 0; lastDown := 0 |})
  end.
Fixpoint new_entries (rr : gmap string Z) (addr : nat) (us : list Upstream) : gmap string Z * nat * list EntryState :=
  match us with
  | [] => (rr, addr, [])
  | u :: us =>
      let '(rr, e) := new_entry rr addr u in
      let '(rr, addr, es) := new_entries rr (S addr) us in
      (rr, addr, e :: es)
  end.
(** [byGroup[g.ID]]: the enabled upstreams of a group, in order. *)
Definition by_group (upstreams : list Upstream) (gid : string) : list Upstream :=
  filter (λ u, up_Enabled u = true ∧ up_GroupID u = gid) upstreams.

Definition reload_group (upstreams : list Upstream) (st : Manager) (g : UpstreamGroup) : Manager :=
  let gp := next st in
  let '(rr, addr, es) := new_entries (rrIdx st) (S gp) (by_group upstreams (g_ID g)) in
  {| gheap := <[gp := {| gs_group := g; Entries := es |}]> (gheap st);
     groups := <[g_ID g := gp]> (groups st); byName := <[g_Name g := g_ID g]> (byName st);
     byTenant := byTenant st; rrIdx := rr; next := addr |}.

Definition Reload (m : Manager) (gs : list UpstreamGroup) (upstreams : list Upstream) (tenants : list Tenant) : Manager :=
  let m0 := {| gheap := gheap m; groups := ∅; byName := ∅; byTenant := byTenant m; rrIdx := rrIdx m; next := next m |} in
  let m1 := foldl (reload_group upstreams) m0 gs in
  let mt := foldl (λ mt t, if (t_UpstreamGroup t =? "")%string then mt else <[t_ID t := t_UpstreamGroup t]> mt) ∅ tenants in
  {| gheap := gheap m1; groups := groups m1; byName := byName m1; byTenant := mt; rrIdx := rrIdx m1; next := next m1 |}.

Definition GroupByName (m : Manager) (id : string) : option nat :=
  match groups m !! id with
  | Some g => Some g
  | None => match byName m !! id with
            | Some name => groups m !! name
            | None => None
            end
  end.

Definition timeoutFor (cfg : Config) (u : Upstream) : Z :=
  if 0 <? up_TimeoutMS u then i64 (up_TimeoutMS u * millisecond) else UpstreamTimeout cfg.

(** ** Selection *)

(** [rand.Intn] at the [i]-th use of a request. *)
Class Rand := { Intn : nat → Z → Z }.
Class RandLaws `{Rand} : Prop := { Intn_bound : ∀ i n, 0 < n → 0 ≤ Intn i n < n }.
Definition seeded (seed : Z) : Rand := {| Intn i n := (seed + Z.of_nat i) mod n |}.
#[global] Instance seeded_laws seed : @RandLaws (seeded seed).
Proof. split. simpl. intros. by apply Z.mod_pos_bound. Qed.

(** [sort.SliceStable] by descending weight. *)
Fixpoint insert_weight (x : EntryState) (l : list EntryState) : list EntryState :=
  match l with
  | [] => [x]
  | y :: l => if up_Weight (e_up y) <=? up_Weight (e_up x) then x :: y :: l else y :: insert_weight x l
  end.
Definition sort_weight (l : list EntryState) : list EntryState := foldr insert_weight [] l.

Definition total_weight (pool : list EntryState) : Z := foldl (λ n e, i64 (n + up_Weight (e_up e))) 0 pool.
Fixpoint pick_loop (pool : list EntryState) (r : Z) : option EntryState :=
  match pool with
  | [] => None
  | e :: pool => let r := r - up_Weight (e_up e) in if r <? 0 then Some e else pick_loop pool r
  end.
(** [None] is an out-of-range index. *)
Definition weightedPick `{Rand} (pool : list EntryState) (att : nat) : option EntryState :=
  let total := total_weight pool in
  if total <=? 0 then pool !! Z.to_nat (Intn att (Z.of_nat (length pool)))
  else match pick_loop pool (Intn att total) with
       | Some e => Some e
       | None => last pool
       end.

Definition usable (e : EntryState) : bool := healthy e && bool_decide (is_Some (e_client e)).

(** The pool, and whether it is the group's own slice. *)
Definition pool_of (g : GroupState) : list EntryState * bool :=
  match filter (λ e, usable e = true) (Entries g) with
  | [] => (Entries g, true)
  | pool => (pool, false)
  end.

(** [Ok None] is a nil result; sorting the fallback pool sorts the group. *)
Definition Select `{Rand} (m : Manager) (gp : option nat) (att : nat) : outcome (Manager * option EntryState) :=
  match gp ≫= λ p, (λ g, (p, g)) <$> gheap m !! p with
  | None => Ok (m, None)
  | Some (p, g) =>
      match Entries g with
      | [] => Ok (m, None)
      | _ =>
          let '(pool, own) := pool_of g in
          let strategy := g_Strategy (gs_group g) in
          if (strategy =? "round_robin")%string then
            match head pool with
            | None => Panic
            | Some e0 =>
                let idx := u32 (default 0 (rrIdx m !! up_ID (e_up e0)) + 1) in
                match pool !! Z.to_nat (idx mod Z.of_nat (length pool)) with
                | Some e => Ok (with_rrIdx m (<[up_ID (e_up e0) := idx]> (rrIdx m)), Some e)
                | None => Panic
                end
            end
          else if (strategy =? "failover")%string then
            let sorted := sort_weight pool in
            let m := if own then with_gheap m (<[p := set_Entries g sorted]> (gheap m)) else m in
            match head sorted with Some e => Ok (m, Some e) | None => Panic end
          else
            match weightedPick pool att with Some e => Ok (m, Some e) | None => Panic end
      end
  end.

Inductive exchange_result :=
| ExOk (resp : Msg) (es : EntryState)
| ExErr (err : string)
| ExPanic.

Section exchange.
Context `{DnsLib} `{Network} `{Rand} (cfg : Config).

(** The retry of a truncated answer over TCP. *)
Definition tcp_retry (c : Client) (msg resp : Msg) : outcome Msg :=
  if m_Truncated resp then
    match m_Question msg with
    | [] => Panic
    | q :: _ =>
        if q_Qtype q =? TypeOPT then Ok resp
        else match c with
             | udpClient _ addr => match exchangeTCP addr msg with Ok r => Ok r | _ => Ok resp end
             | _ => Ok resp
             end
    end
  else Ok resp.

(** [n] iterations are left; [att] numbers them. *)
Fixpoint exchange_loop (n att : nat) (m : Manager) (gp : nat) (msg : Msg) (attempted : gset string)
    (lastErr : option string) : Manager * exchange_result :=
  let failed m := (m, ExErr (default "no available upstream" lastErr)) in
  match n with
  | O => failed m
  | S n =>
      match Select m (Some gp) att with
      | Ok (m, Some es) =>
          if bool_decide (up_ID (e_up es) ∈ attempted) then exchange_loop n (S att) m gp msg attempted lastErr
          else
            let attempted := {[ up_ID (e_up es) ]} ∪ attempted in
            match e_client es with
            | None => (m, ExPanic)
            | Some c =>
                match Exchange cfg c msg with
                | Err e =>
                    let m := write_entry m gp (e_addr es) (λ e, set_health e (healthy e) (i32 (consecFail e + 1)) (lastDown e)) in
                    exchange_loop n (S att) m gp msg attempted (Some e)
                | Panic => (m, ExPanic)
                | Ok resp =>
                    match tcp_retry c msg resp with
                    | Ok resp =>
                        (write_entry m gp (e_addr es) (λ e, set_health e true 0 (lastDown e)), ExOk resp es)
                    | _ => (m, ExPanic)
                    end
                end
            end
      | Ok (m, None) => failed m
      | _ => (m, ExPanic)
      end
  end.

Definition ExchangeWithFailover (m : Manager) (gp : option nat) (msg : Msg) : Manager * exchange_result :=
  match gp ≫= λ p, (λ g, (p, g)) <$> gheap m !! p with
  | None => (m, ExErr "no upstream group")
  | Some (p, g) => exchange_loop (length (Entries g)) 0 m p msg ∅ None
  end.

(** ** Health checks *)

(** The outcome of one probe of an entry at [nowUnix]. *)
Definition probe_entry (e : EntryState) (err : option string) (nowUnix : Z) : EntryState :=
  match err with
  | Some _ =>
      let fails := i32 (consecFail e + 1) in
      if HealthFailsToDown cfg <=? fails then set_health e false fails nowUnix
      else set_health e (healthy e) fails (lastDown e)
  | None => set_health e true 0 (lastDown e)
  end.
Definition probe_group (nowUnix : Z) (g : GroupState) : GroupState :=
  set_Entries g ((λ e, match e_client e with
                       | None => e
                       | Some c => probe_entry e (HealthProbe cfg c) nowUnix
                       end) <$> Entries g).
(** The groups of the current view, not those only in-flight requests hold. *)
Definition probeAll (m : Manager) (nowUnix : Z) : Manager :=
  with_gheap m (map_imap (λ p g, Some (if bool_decide (p ∈ (map_to_list (groups m)).*2)
                                       then probe_group nowUnix g else g)) (gheap m)).
End exchange.

Definition HealthSnapshot (m : Manager) : gmap string bool :=
  foldl (λ out kp,
    match gheap m !! kp.2 with
    | Some g => foldl (λ out e, <[up_ID (e_up e) := healthy e]> out) out (Entries g)
    | None => out
    end) ∅ (map_to_list (groups m)).

(** ** Lemmas *)

Lemma read_frame_frame raw rest :
  (1 ≤ length raw ≤ Z.to_nat 65535)%nat → read_frame (frame raw ++ rest) = Ok raw.
Proof.
  intros Hl. unfold frame, PutUint16, read_frame, Uint16. cbn [app].
  rewrite (u16_small (Z.of_nat (length raw))) by (unfold is_u16; lia).
  assert (u8 (Z.of_nat (length raw) / 256) * 256 + u8 (Z.of_nat (length raw)) = Z.of_nat (length raw)) as ->.
  { unfold u8. divlia. }
  rewrite (proj2 (Z.eqb_neq _ _)) by lia. rewrite length_app, (proj2 (Z.ltb_ge _ _)) by lia.
  by rewrite Nat2Z.id, take_app_length.
Qed.

(** *** Weighted choice *)

Definition weights (pool : list EntryState) : list Z := (λ e, up_Weight (e_up e)) <$> pool.
Definition wsum (l : list Z) : Z := foldr Z.add 0 l.

Lemma pick_loop_spec l1 e l2 r :
  Forall (λ w, 0 ≤ w) (weights l1) →
  wsum (weights l1) ≤ r < wsum (weights l1) + up_Weight (e_up e) →
  pick_loop (l1 ++ e :: l2) r = Some e.
Proof.
  revert r. induction l1 as [|x l1 IH]; intros r Hw Hr; cbn [app pick_loop]; simpl in Hr.
  - by rewrite (proj2 (Z.ltb_lt _ _)) by lia.
  - inversion_clear Hw as [|? ? Hx Hw']. change (foldr Z.add 0 (weights l1)) with (wsum (weights l1)) in *.
    assert (0 ≤ wsum (weights l1)) as Hs.
    { clear -Hw'. induction Hw'; simpl; [done|]. change (foldr Z.add 0 l) with (wsum l) in *. lia. }
    rewrite (proj2 (Z.ltb_ge _ _)) by lia. apply IH; [done|lia].
Qed.
Lemma pick_loop_elem pool r e : pick_loop pool r = Some e → e ∈ pool.
Proof.
  revert r. induction pool as [|x pool IH]; intros r; simpl; [done|]. case_match; [|set_solver].
  intros [= ->]. set_solver.
Qed.
Lemma i64_small z : - 2 ^ 63 ≤ z < 2 ^ 63 → i64 z = z.
Proof. intros Hz. unfold i64. rewrite Z.mod_small; lia. Qed.
Lemma total_weight_sum pool :
  Forall (λ w, 0 ≤ w) (weights pool) → wsum (weights pool) < 2 ^ 63 → total_weight pool = wsum (weights pool).
Proof.
  intros Hw Hs. unfold total_weight.
  assert (∀ a, 0 ≤ a → a + wsum (weights pool) < 2 ^ 63 →
            foldl (λ n e, i64 (n + up_Weight (e_up e))) a pool = a + wsum (weights pool)) as H; [|apply H; lia].
  clear Hs. induction pool as [|e pool IH]; intros a Ha Hs; simpl; [lia|].
  inversion_clear Hw as [|? ? He Hw']. simpl in Hs. change (foldr Z.add 0 (weights pool)) with (wsum (weights pool)) in *.
  assert (0 ≤ wsum (weights pool)) as Hp.
  { clear -Hw'. induction Hw'; simpl; [done|]. change (foldr Z.add 0 l) with (wsum l) in *. lia. }
  rewrite i64_small by lia. rewrite IH by (done || lia). lia.
Qed.

Lemma weightedPick_elem `{RandLaws} pool att :
  pool ≠ [] → ∃ e, weightedPick pool att = Some e ∧ e ∈ pool.
Proof.
  intros Hne. unfold weightedPick. case_match.
  - pose proof (Intn_bound att (Z.of_nat (length pool))) as Hb.
    destruct pool as [|x pool]; [done|]. simpl length in *.
    destruct (lookup_lt_is_Some_2 (x :: pool) (Z.to_nat (Intn att (Z.of_nat (S (length pool)))))) as [e He];
      [simpl; lia|]. exists e. split; [done|]. by eapply list_elem_of_lookup_2.
  - destruct (pick_loop _ _) as [e|] eqn:Hp; [eauto using pick_loop_elem|].
    destruct (last pool) as [e|] eqn:Hl; [|by apply last_None in Hl].
    exists e. split; [done|]. apply last_Some in Hl as [l ->]. set_solver.
Qed.

(** *** Sorting and pools *)

Lemma insert_weight_perm x l : insert_weight x l ≡ₚ x :: l.
Proof.
  induction l as [|y l IH]; simpl; [done|]. case_match; [done|]. rewrite IH. apply perm_swap.
Qed.
Lemma sort_weight_perm l : sort_weight l ≡ₚ l.
Proof. induction l as [|x l IH]; simpl; [done|]. by rewrite insert_weight_perm, IH. Qed.

Lemma pool_of_spec g :
  Entries g ≠ [] →
  ∃ pool own, pool_of g = (pool, own) ∧ pool ≠ [] ∧ (∀ e, e ∈ pool → e ∈ Entries g) ∧
    ((own = false ∧ ∀ e, e ∈ pool → usable e = true) ∨
     (own = true ∧ pool = Entries g ∧ ∀ e, e ∈ Entries g → usable e = false)).
Proof.
  intros Hne. unfold pool_of. destruct (filter _ (Entries g)) as [|x pool] eqn:Hf.
  - exists (Entries g), true. split_and!; try done. right. split_and!; try done. intros e He.
    destruct (usable e) eqn:Hu; [|done]. assert (e ∈ filter (λ e, usable e = true) (Entries g)) as Hin
      by (by apply list_elem_of_filter). rewrite Hf in Hin. by apply not_elem_of_nil in Hin.
  - exists (x :: pool), false.
    assert (∀ e, e ∈ x :: pool → usable e = true ∧ e ∈ Entries g) as Hin.
    { intros e He. rewrite <-Hf in He. by apply list_elem_of_filter in He. }
    split_and!; try done; [naive_solver|]. left. naive_solver.
Qed.

Lemma Select_spec `{RandLaws} m p g att :
  gheap m !! p = Some g → Entries g ≠ [] →
  ∃ m' e es', Select m (Some p) att = Ok (m', Some e) ∧ e ∈ Entries g ∧
    gheap m' = <[p := set_Entries g es']> (gheap m) ∧ es' ≡ₚ Entries g ∧
    ((∃ e', e' ∈ Entries g ∧ usable e' = true) → usable e = true ∧ es' = Entries g).
Proof.
  intros Hg Hne. unfold Select. simpl. rewrite Hg. simpl.
  destruct (Entries g) as [|e0 es] eqn:Hes; [done|]. rewrite <-Hes in *. clear e0 es Hes.
  destruct (pool_of_spec g Hne) as (pool & own & -> & Hp & Hsub & Hcase).
  assert (gheap m = <[p := set_Entries g (Entries g)]> (gheap m)) as Hid.
  { rewrite insert_id; [done|]. rewrite Hg. by destruct g. }
  assert (∀ e, e ∈ pool → (∃ e', e' ∈ Entries g ∧ usable e' = true) → usable e = true) as Huse.
  { intros e He (e' & He' & Hu). destruct Hcase as [[_ Hall]|(_ & _ & Hnone)]; [auto|].
    rewrite Hnone in Hu by done. done. }
  assert (∀ m' e, e ∈ pool → gheap m' = gheap m →
            ∃ m'' e' es', Ok (m', Some e) = Ok (m'', Some e') ∧ e' ∈ Entries g ∧
              gheap m'' = <[p := set_Entries g es']> (gheap m) ∧ es' ≡ₚ Entries g ∧
              ((∃ e', e' ∈ Entries g ∧ usable e' = true) → usable e' = true ∧ es' = Entries g)) as Hret.
  { intros m' e He Hm. exists m', e, (Entries g). split_and!; try done; [by apply Hsub|congruence|].
    intros Hex. split; [by apply Huse|done]. }
  destruct (String.eqb_spec (g_Strategy (gs_group g)) "round_robin") as [_|_];
    [|destruct (String.eqb_spec (g_Strategy (gs_group g)) "failover") as [_|_]].
  - destruct pool as [|e0 pool]; [done|]. change (head (e0 :: pool)) with (Some e0). cbv iota beta zeta.
    set (idx := u32 (default 0 (rrIdx m !! up_ID (e_up e0)) + 1)). destruct ((e0 :: pool) !! Z.to_nat (idx mod Z.of_nat (length (e0 :: pool)))) as [e|] eqn:He.
    + apply list_elem_of_lookup_2 in He. by apply Hret.
    + exfalso. apply lookup_ge_None in He.
      pose proof (Z.mod_pos_bound idx (Z.of_nat (length (e0 :: pool)))). simpl length in *. lia.
  - cbv zeta. destruct (sort_weight pool) as [|e sorted] eqn:Hs.
    { exfalso. pose proof (sort_weight_perm pool) as Hperm. rewrite Hs in Hperm.
      by apply Permutation_nil_l in Hperm. }
    assert (e ∈ pool) as He by (rewrite <-(sort_weight_perm pool), Hs; set_solver).
    destruct Hcase as [[-> Hall]|(-> & -> & Hnone)].
    + by apply Hret.
    + eexists _, e, (e :: sorted). split_and!; [done|done|done| |].
      * rewrite <-Hs. apply sort_weight_perm.
      * intros (e' & He' & Hu). rewrite Hnone in Hu by done. done.
  - destruct (weightedPick_elem pool att Hp) as (e & -> & He).
    by apply Hret.
Qed.

(** *** The exchange loop *)

(** What [Select] and the loop never change of an entry. *)
Definition static (e : EntryState) : Upstream * option Client * nat := (e_up e, e_client e, e_addr e).

Lemma update_entry_static a f g :
  (∀ e, static (f e) = static e) → static <$> Entries (update_entry a f g) = static <$> Entries g.
Proof.
  intros Hf. simpl. rewrite <-list_fmap_compose. apply list_fmap_ext. intros i e _. simpl. by case_match.
Qed.
Lemma write_entry_lookup m gp a f g :
  gheap m !! gp = Some g → gheap (write_entry m gp a f) !! gp = Some (update_entry a f g).
Proof. intros Hg. simpl. by rewrite lookup_alter_eq, Hg. Qed.

Lemma tcp_retry_Ok `{Network} c msg r : m_Question msg ≠ [] → ∃ r', tcp_retry c msg r = Ok r'.
Proof.
  intros Hq. unfold tcp_retry. destruct (m_Truncated r); [|eauto]. destruct (m_Question msg); [done|].
  repeat case_match; eauto.
Qed.

Section loop.
Context `{DnsLib} `{Network} `{RandLaws} (cfg : Config).

(** Panic freedom, and what a successful exchange returned. *)
Lemma exchange_loop_safe msg n : ∀ att m gp g S0 attempted lastErr,
  gheap m !! gp = Some g → static <$> Entries g ≡ₚ S0 → Forall (λ s, is_Some s.1.2) S0 →
  (∀ c, Exchange cfg c msg ≠ Panic) → m_Question msg ≠ [] → Entries g ≠ [] →
  match (exchange_loop cfg n att m gp msg attempted lastErr).2 with
  | ExPanic => False
  | ExErr _ => True
  | ExOk resp es => ∃ c r, static es ∈ S0 ∧ e_client es = Some c ∧ Exchange cfg c msg = Ok r ∧
                    tcp_retry c msg r = Ok resp
  end.
Proof.
  induction n as [|n IH]; intros att m gp g S0 attempted lastErr Hg HS Hcl Hnp Hq Hne; cbn [exchange_loop]; [done|].
  destruct (Select_spec m gp g att Hg Hne) as (m' & e & es' & Hsel & He & Hheap & Hperm & _).
  assert (gheap m' !! gp = Some (set_Entries g es')) as Hg' by (rewrite Hheap; apply lookup_insert_eq).
  assert (es' ≠ []) as Hne' by (intros ->; by apply Permutation_nil_l in Hperm).
  assert (static e ∈ S0) as HeS by (rewrite <-HS; by apply list_elem_of_fmap_2).
  assert (static <$> es' ≡ₚ S0) as HS' by (by rewrite Hperm).
  rewrite Hsel. case_bool_decide; [by eapply IH|].
  assert (is_Some (e_client e)) as [c Hc].
  { rewrite Forall_forall in Hcl. specialize (Hcl _ HeS). done. }
  rewrite Hc. destruct (Exchange cfg c msg) as [r|err|] eqn:Hx; [| |by edestruct Hnp].
  - destruct (tcp_retry_Ok c msg r Hq) as [r' Hr']. rewrite Hr'. simpl. eauto 8.
  - eapply IH; [by apply write_entry_lookup|by rewrite update_entry_static|done..|].
    simpl. intros Hnil. by apply fmap_nil_inv in Hnil.
Qed.
End loop.

(** *** Round robin *)

Lemma pool_all_usable g :
  Entries g ≠ [] → Forall (λ e, usable e = true) (Entries g) → pool_of g = (Entries g, false).
Proof.
  intros Hne Hall. unfold pool_of.
  assert (filter (λ e, usable e = true) (Entries g) = Entries g) as ->; [|by destruct (Entries g)].
  induction Hall as [|e es He _ IH]; [done|]. rewrite filter_cons_True by done. f_equal.
  destruct es; [done|]. by apply IH.
Qed.

Lemma Select_round_robin `{Rand} m gp g att e0 c :
  gheap m !! gp = Some g → g_Strategy (gs_group g) = "round_robin" →
  Forall (λ e, usable e = true) (Entries g) → Entries g !! 0%nat = Some e0 →
  rrIdx m !! up_ID (e_up e0) = Some c → 0 ≤ c → c + 1 < 4294967296 →
  ∃ e, Entries g !! Z.to_nat ((c + 1) mod Z.of_nat (length (Entries g))) = Some e ∧
    Select m (Some gp) att = Ok (with_rrIdx m (<[up_ID (e_up e0) := c + 1]> (rrIdx m)), Some e).
Proof.
  intros Hg Hst Hall He0 Hc Hc0 Hc1. unfold Select. simpl. rewrite Hg. simpl.
  destruct (Entries g) as [|x es] eqn:Hes; [done|]. rewrite <-Hes in *.
  rewrite pool_all_usable by (done || by rewrite Hes). rewrite Hst.
  assert (head (Entries g) = Some e0) as Hhd by (rewrite Hes in *; simpl in *; congruence).
  cbn -[Z.modulo Z.of_nat u32]. rewrite Hhd, Hc. change (default 0 (Some c)) with c.
  rewrite (u32_small (c + 1)) by (unfold is_u32; lia).
  destruct (lookup_lt_is_Some_2 (Entries g) (Z.to_nat ((c + 1) mod Z.of_nat (length (Entries g))))) as [e He].
  { assert (0 < Z.of_nat (length (Entries g))) as Hl by (rewrite Hes; simpl; lia).
    pose proof (Z.mod_pos_bound (c + 1) _ Hl). lia. }
  exists e. by rewrite He.
Qed.

Lemma usable_write a g :
  Forall (λ e, usable e = true) (Entries g) →
  Forall (λ e, usable e = true)
    (Entries (update_entry a (λ e, set_health e (healthy e) (i32 (consecFail e + 1)) (lastDown e)) g)).
Proof. intros Hall. simpl. apply Forall_fmap. eapply Forall_impl; [exact Hall|]. intros e He. simpl. by case_match. Qed.
Lemma static_lookup f g i e :
  (∀ e, static (f e) = static e) → ∀ a, Entries g !! i = Some e →
  ∃ e', Entries (update_entry a f g) !! i = Some e' ∧ static e' = static e.
Proof.
  intros Hf a He. simpl. rewrite list_lookup_fmap, He. simpl. eexists. split; [done|]. by case_match.
Qed.

Lemma ids_static (l : list EntryState) :
  (λ e, up_ID (e_up e)) <$> l = (λ s, up_ID s.1.1) <$> (static <$> l).
Proof. by rewrite <-list_fmap_compose. Qed.

Section round_robin.
Context `{DnsLib} `{Network} `{Rand} (cfg : Config).

Lemma exchange_loop_round_robin msg up ck r k N n : ∀ att m gp g e0 c attempted lastErr ek j,
  gheap m !! gp = Some g → g_Strategy (gs_group g) = "round_robin" →
  Forall (λ e, usable e = true) (Entries g) → length (Entries g) = N →
  NoDup ((λ e, up_ID (e_up e)) <$> Entries g) →
  Entries g !! 0%nat = Some e0 → rrIdx m !! up_ID (e_up e0) = Some c → 0 ≤ c → c + Z.of_nat n < 4294967296 →
  Entries g !! k = Some ek → e_up ek = up → e_client ek = Some ck → Exchange cfg ck msg = Ok r →
  up_ID up ∉ attempted → (∀ c, Exchange cfg c msg ≠ Panic) → m_Question msg ≠ [] →
  1 ≤ j ≤ Z.of_nat n → (c + j) mod Z.of_nat N = Z.of_nat k →
  ∃ resp es, (exchange_loop cfg n att m gp msg attempted lastErr).2 = ExOk resp es.
Proof.
  induction n as [|n IH];
    intros att m gp g e0 c attempted lastErr ek j Hg Hst Hall HN Hnd He0 Hc Hc0 Hcn Hk Hup Hck Hx Hnot Hnp Hq Hj Hmod;
    [lia|].
  cbn [exchange_loop].
  destruct (Select_round_robin m gp g att e0 c Hg Hst Hall He0 Hc Hc0) as (e & He & ->); [lia|].
  rewrite HN in He. set (m1 := with_rrIdx m _).
  assert (gheap m1 !! gp = Some g) as Hg1 by done.
  assert (rrIdx m1 !! up_ID (e_up e0) = Some (c + 1)) as Hc1 by (simpl; apply lookup_insert_eq).
  destruct (decide (Z.to_nat ((c + 1) mod Z.of_nat N) = k)) as [Hidx|Hidx].
  - rewrite Hidx in He. assert (e = ek) as -> by congruence.
    rewrite Hup, bool_decide_eq_false_2, Hck, Hx by done.
    destruct (tcp_retry_Ok ck msg r Hq) as [r' ->]. simpl. by eauto.
  - assert (j ≠ 1) as Hj1 by (intros ->; apply Hidx; rewrite Hmod; apply Nat2Z.id).
    assert (up_ID (e_up e) ≠ up_ID up) as Hid.
    { rewrite <-Hup. intros Heq. apply Hidx.
      eapply (NoDup_lookup _ _ _ _ Hnd); rewrite list_lookup_fmap, ?He, ?Hk; simpl; by rewrite ?Heq. }
    assert (1 ≤ j - 1 ≤ Z.of_nat n) as Hj' by lia.
    assert ((c + 1 + (j - 1)) mod Z.of_nat N = Z.of_nat k) as Hmod' by (by replace (c + 1 + (j - 1)) with (c + j) by lia).
    case_bool_decide as Hatt.
    + eapply (IH (S att) m1 gp g e0 (c + 1) attempted lastErr ek (j - 1)); try done; lia.
    + destruct (e_client e) as [ce|] eqn:Hce.
      2:{ rewrite Forall_lookup in Hall. specialize (Hall _ _ He). simpl in Hall. unfold usable in Hall.
          rewrite Hce in Hall. rewrite bool_decide_eq_false_2 in Hall by (by intros [? ?]). by rewrite andb_false_r in Hall. }
      destruct (Exchange cfg ce msg) as [re|err|] eqn:Hxe; [| |by edestruct Hnp].
      * destruct (tcp_retry_Ok ce msg re Hq) as [r' ->]. simpl. by eauto.
      * set (f := λ e, set_health e (healthy e) (i32 (consecFail e + 1)) (lastDown e)).
        destruct (static_lookup f g 0 e0 (λ _, eq_refl) (e_addr e) He0) as (e0' & He0' & [= Hu0 _ _]).
        destruct (static_lookup f g k ek (λ _, eq_refl) (e_addr e) Hk) as (ek' & Hk' & [= Hu Hcl _]).
        eapply (IH (S att) (write_entry m1 gp (e_addr e) f) gp (update_entry (e_addr e) f g) e0' (c + 1) _ _ ek' (j - 1));
          try done; try lia; try congruence.
        -- by apply write_entry_lookup.
        -- by apply usable_write.
        -- simpl. by rewrite length_fmap.
        -- by rewrite ids_static, update_entry_static, <-ids_static.
        -- simpl in Hc1 |- *. by rewrite Hu0.
        -- set_solver.
Qed.
End round_robin.

(** *** The failover strategy *)

(** The entry the strategy prefers: the first of the usable entries with the
    greatest weight. *)
Definition preferred (g : GroupState) : option EntryState :=
  head (sort_weight (filter (λ e, usable e = true) (Entries g))).

Lemma Select_failover `{Rand} m gp g att e :
  gheap m !! gp = Some g → g_Strategy (gs_group g) = "failover" → preferred g = Some e →
  Select m (Some gp) att = Ok (m, Some e).
Proof.
  intros Hg Hst Hp. unfold Select. simpl. rewrite Hg. simpl. rewrite Hst.
  unfold preferred in Hp. unfold pool_of. destruct (filter _ (Entries g)) as [|x pool] eqn:Hf; [done|].
  destruct (Entries g) as [|y es] eqn:He; [done|]. cbn -[sort_weight]. by rewrite Hp.
Qed.

Lemma insert_weight_fmap f x l :
  (∀ e, e_up (f e) = e_up e) → insert_weight (f x) (f <$> l) = f <$> insert_weight x l.
Proof.
  intros Hf. induction l as [|y l IH]; [done|]. cbn [insert_weight fmap list_fmap]. rewrite !Hf.
  case_match; [done|]. by rewrite IH.
Qed.
Lemma preferred_update a f g e :
  (∀ e, e_up (f e) = e_up e) → (∀ e, usable (f e) = usable e) →
  preferred g = Some e → ∃ e', preferred (update_entry a f g) = Some e' ∧ e_up e' = e_up e.
Proof.
  intros Hup Hus. unfold preferred. simpl. set (h := λ e, if (e_addr e =? a)%nat then f e else e).
  assert (∀ e, e_up (h e) = e_up e) as Hup' by (intros x; unfold h; by case_match).
  assert (∀ e, usable (h e) = usable e) as Hus' by (intros x; unfold h; by case_match).
  assert (∀ l : list EntryState, filter (λ e, usable e = true) (h <$> l) = h <$> filter (λ e, usable e = true) l) as Hfil.
  { induction l as [|x l IH]; [done|]. rewrite fmap_cons. destruct (usable x) eqn:Hx.
    - rewrite !filter_cons_True by (by rewrite ?Hus'). by rewrite IH.
    - rewrite !filter_cons_False by (by rewrite ?Hus', Hx). done. }
  rewrite Hfil. assert (∀ l : list EntryState, sort_weight (h <$> l) = h <$> sort_weight l) as Hsort.
  { induction l as [|x l IH]; [done|]. change (insert_weight (h x) (sort_weight (h <$> l)) = h <$> insert_weight x (sort_weight l)).
    rewrite IH. by apply insert_weight_fmap. }
  rewrite Hsort. destruct (sort_weight _) as [|x l]; [done|]. intros [= <-]. exists (h x). by rewrite Hup'.
Qed.

Lemma exchange_loop_stuck `{DnsLib} `{Network} `{Rand} cfg msg n : ∀ att m gp g e attempted err,
  gheap m !! gp = Some g → g_Strategy (gs_group g) = "failover" → preferred g = Some e →
  up_ID (e_up e) ∈ attempted → (exchange_loop cfg n att m gp msg attempted (Some err)).2 = ExErr err.
Proof.
  induction n as [|n IH]; intros att m gp g e attempted err Hg Hst Hp Hin; cbn [exchange_loop]; [done|].
  rewrite (Select_failover m gp g att e) by done. rewrite bool_decide_eq_true_2 by done. by eapply IH.
Qed.

(** *** Reload *)

Lemma new_entries_spec us : ∀ rr addr rr' addr' es,
  new_entries rr addr us = (rr', addr', es) →
  e_up <$> es = us ∧ (addr ≤ addr')%nat ∧
  Forall (λ e, (∃ c, buildClient (e_up e) = Ok c ∧ e_client e = Some c ∧ healthy e = true) ∨
               ((∀ c, buildClient (e_up e) ≠ Ok c) ∧ e_client e = None ∧ healthy e = false)) es ∧
  Forall (λ e, is_Some (rr' !! up_ID (e_up e))) es ∧ (∀ id c, rr !! id = Some c → rr' !! id = Some c).
Proof.
  induction us as [|u us IH]; intros rr addr rr' addr' es Hn; cbn [new_entries] in Hn.
  { injection Hn as <- <- <-. split_and!; try done; constructor. }
  destruct (new_entry rr addr u) as [rr1 e] eqn:He.
  destruct (new_entries rr1 (S addr) us) as [[rr2 a2] es2] eqn:Hes. injection Hn as <- <- <-.
  destruct (IH _ _ _ _ _ Hes) as (Hup & Ha & Hall & Hrr & Hkeep).
  assert (e_up e = u ∧ is_Some (rr1 !! up_ID u) ∧ (∀ id c, rr !! id = Some c → rr1 !! id = Some c)) as (Hu & Hr1 & Hk1).
  { unfold new_entry in He.
    assert (∀ rr0, rr0 = match rr !! up_ID u with Some _ => rr | None => <[up_ID u := 0]> rr end →
              is_Some (rr0 !! up_ID u) ∧ ∀ id c, rr !! id = Some c → rr0 !! id = Some c) as Hrr0.
    { intros rr0 ->. destruct (rr !! up_ID u) eqn:E; [eauto|]. split; [by rewrite lookup_insert_eq|].
      intros id c Hid. rewrite lookup_insert_ne; [done|]. congruence. }
    destruct (buildClient u); injection He as <- <-; (split; [done|by apply Hrr0]). }
  split_and!.
  - rewrite fmap_cons. by rewrite Hu, Hup.
  - lia.
  - constructor; [|done]. rewrite Hu. unfold new_entry in He.
    destruct (buildClient u) as [c| |] eqn:Hb; injection He as <- <-; [left; eauto|right..]; by split_and!.
  - constructor; [|done]. rewrite Hu. destruct Hr1 as [c Hc]. eauto.
  - eauto.
Qed.

(** What [Reload] has established for a group already processed. *)
Definition group_ok (upstreams : list Upstream) (st : Manager) (g : UpstreamGroup) : Prop :=
  ∃ p es, groups st !! g_ID g = Some p ∧ (p < next st)%nat ∧
    gheap st !! p = Some {| gs_group := g; Entries := es |} ∧ e_up <$> es = by_group upstreams (g_ID g) ∧
    Forall (λ e, (∃ c, buildClient (e_up e) = Ok c ∧ e_client e = Some c ∧ healthy e = true) ∨
                 ((∀ c, buildClient (e_up e) ≠ Ok c) ∧ e_client e = None ∧ healthy e = false)) es ∧
    Forall (λ e, is_Some (rrIdx st !! up_ID (e_up e))) es.

Lemma reload_group_spec upstreams st g :
  let st' := reload_group upstreams st g in
  group_ok upstreams st' g ∧ (next st < next st')%nat ∧
  (∀ p, (p < next st)%nat → gheap st' !! p = gheap st !! p) ∧
  (∀ id c, rrIdx st !! id = Some c → rrIdx st' !! id = Some c) ∧
  (∀ id, id ≠ g_ID g → groups st' !! id = groups st !! id).
Proof.
  unfold reload_group.
  destruct (new_entries (rrIdx st) (S (next st)) (by_group upstreams (g_ID g))) as [[rr addr] es] eqn:Hn.
  destruct (new_entries_spec _ _ _ _ _ _ Hn) as (Hup & Ha & Hall & Hrr & Hkeep). cbn. split_and!.
  - exists (next st), es. cbn. rewrite !lookup_insert_eq. split_and!; try done; lia.
  - lia.
  - intros p Hp. rewrite lookup_insert_ne by lia. done.
  - done.
  - intros id Hid. by rewrite lookup_insert_ne by congruence.
Qed.

Lemma group_ok_step upstreams st g g' :
  group_ok upstreams st g → g_ID g ≠ g_ID g' → group_ok upstreams (reload_group upstreams st g') g.
Proof.
  intros (p & es & Hp & Hlt & Hg & Hup & Hall & Hrr) Hne.
  destruct (reload_group_spec upstreams st g') as (_ & Hnext & Hheap & Hkeep & Hgrp).
  exists p, es. rewrite Hgrp, Hheap by done. split_and!; try done; [lia|].
  eapply Forall_impl; [exact Hrr|]. intros e [c Hc]. simpl. eauto.
Qed.

Lemma reload_groups_spec upstreams gs : ∀ st done_gs,
  NoDup (g_ID <$> (done_gs ++ gs)) → Forall (group_ok upstreams st) done_gs →
  let st' := foldl (reload_group upstreams) st gs in
  Forall (group_ok upstreams st') (done_gs ++ gs) ∧
  (∀ p, (p < next st)%nat → gheap st' !! p = gheap st !! p) ∧
  (∀ id c, rrIdx st !! id = Some c → rrIdx st' !! id = Some c).
Proof.
  induction gs as [|g gs IH]; intros st dg Hnd Hall; [by rewrite app_nil_r|]. cbn [foldl].
  destruct (reload_group_spec upstreams st g) as (Hg & Hnext & Hheap & Hkeep & Hgrp).
  rewrite cons_middle, app_assoc in Hnd |- *.
  destruct (IH (reload_group upstreams st g) (dg ++ [g]) Hnd) as (H1 & H2 & H3).
  - apply Forall_app. split; [|by constructor]. apply Forall_forall. intros g' Hg'. apply group_ok_step.
    + rewrite Forall_forall in Hall. auto.
    + intros Heq. rewrite !fmap_app, NoDup_app in Hnd. destruct Hnd as [Hnd _]. rewrite NoDup_app in Hnd.
      destruct Hnd as (_ & Hd & _). eapply (Hd (g_ID g')); [by apply list_elem_of_fmap_2|]. rewrite Heq. set_solver.
  - split_and!; [done| |eauto]. intros p Hp. rewrite H2 by lia. by apply Hheap.
Qed.

(** [ExchangeWithFailover] on any group reference does not crash. *)
Lemma ExchangeWithFailover_no_panic `{DnsLib} `{Network} `{RandLaws} cfg m gp msg :
  (∀ p g, gheap m !! p = Some g → Forall (λ e, is_Some (e_client e)) (Entries g)) →
  (∀ c, Exchange cfg c msg ≠ Panic) → m_Question msg ≠ [] →
  (ExchangeWithFailover cfg m gp msg).2 ≠ ExPanic.
Proof.
  intros Hcl Hnp Hq. unfold ExchangeWithFailover. destruct (gp ≫= _) as [[p g]|] eqn:Hp; [|done].
  assert (gheap m !! p = Some g) as Hg.
  { destruct gp as [p'|]; [|done]. cbn in Hp. destruct (gheap m !! p') as [g'|] eqn:E; [|done]. cbn in Hp. by simplify_eq. }
  destruct (decide (Entries g = [])) as [->|Hne]; [done|].
  pose proof (exchange_loop_safe cfg msg (length (Entries g)) 0 m p g (static <$> Entries g) ∅ None Hg) as Hsafe.
  destruct (exchange_loop _ _ _ _ _ _ _ _) as [m' [resp es|err|]]; [done..|]. cbn [snd] in *. intros _.
  apply Hsafe; try done. apply Forall_fmap. by apply Hcl in Hg.
Qed.

(** ** Properties *)

(** What the DoQ client and the DoQ listener write is read back
    by the other side: a message of one to 65535 bytes survives the framing,
    whatever follows it on the stream. *)
Theorem doq_frame_roundtrip `{DnsLib} m raw rest :
  Pack m = Some raw → Unpack raw = Some m → (1 ≤ length raw ≤ Z.to_nat 65535)%nat →
  readDoQMsg (doq_response (Some m) ++ rest) = Some m.
Proof.
  intros Hp Hu Hl. unfold doq_response, readDoQMsg. rewrite Hp, (proj2 (Z.ltb_ge _ _)) by lia.
  by rewrite read_frame_frame.
Qed.
Definition demo_query : Msg := set_Id newMsg 77.
Lemma doq_frame_roundtrip_witness :
  let lib := demo_lib [([7; 7; 7], demo_query)] in
  @readDoQMsg lib (@doq_response lib (Some demo_query)) = Some demo_query.
Proof.
  intros lib. rewrite <-(app_nil_r (doq_response (Some demo_query))).
  apply (@doq_frame_roundtrip lib demo_query [7; 7; 7] []).
  - vm_compute. reflexivity.
  - vm_compute. reflexivity.
  - simpl. lia.
Defined.

(** With non-negative weights whose sum is positive, the entry
    at a position is picked exactly when the random number falls into its
    share of [0, total): an entry of weight [w] is chosen for [w] of the
    [total] values. *)
Theorem weightedPick_share `{RandLaws} l1 e l2 att :
  let pool := l1 ++ e :: l2 in
  Forall (λ w, 0 ≤ w) (weights pool) → 0 < wsum (weights pool) < 2 ^ 63 →
  wsum (weights l1) ≤ Intn att (wsum (weights pool)) < wsum (weights l1) + up_Weight (e_up e) →
  weightedPick pool att = Some e.
Proof.
  intros pool Hw Hs Hr. unfold weightedPick.
  rewrite total_weight_sum by (done || lia). rewrite (proj2 (Z.leb_gt _ _)) by lia.
  unfold pool in *. rewrite pick_loop_spec; [done| |done].
  unfold weights in Hw. rewrite fmap_app, Forall_app in Hw. apply Hw.
Qed.

Definition demo_upstream (id proto : string) (w : Z) : Upstream :=
  {| up_ID := id; up_GroupID := "g1"; up_Name := id; up_Protocol := proto; up_Address := id; up_Port := 53;
     up_Hostname := ""; up_DoHPath := ""; up_Weight := w; up_TimeoutMS := 0; up_TLSInsecure := false;
     up_Enabled := true; up_Healthy := true; up_ConsecFails := 0; up_CreatedAt := 0 |}.
Definition demo_group (strategy : string) : UpstreamGroup :=
  {| g_ID := "g1"; g_TenantID := ""; g_Name := "default"; g_Strategy := strategy; g_HealthDomain := "";
     g_CreatedAt := 0; g_Upstreams := [] |}.
Definition demo_entry (id : string) (w : Z) : EntryState :=
  {| e_up := demo_upstream id "udp" w; e_client := None; e_addr := 0; healthy := true; consecFail := 0; lastDown := 0 |}.
Lemma weightedPick_share_witness :
  up_ID ∘ e_up <$> @weightedPick (seeded 12) ([demo_entry "a" 10] ++ demo_entry "b" 5 :: [demo_entry "c" 1]) 0 = Some "b".
Proof.
  rewrite (@weightedPick_share (seeded 12) _ [demo_entry "a" 10] (demo_entry "b" 5) [demo_entry "c" 1] 0).
  - reflexivity.
  - repeat (constructor; [vm_compute; discriminate|]). constructor.
  - split; reflexivity.
  - split; [vm_compute; discriminate|reflexivity].
Defined.

(** C25: after a [Reload] from groups with distinct ids, every group is
    found by its id; its entries are the enabled upstreams of that group in
    order, each healthy and with a client exactly when its protocol is
    supported; a group that requests in flight hold is not touched; and the
    round-robin cursors survive. *)
Theorem Reload_view m gs upstreams tenants :
  NoDup (g_ID <$> gs) →
  let m' := Reload m gs upstreams tenants in
  (∀ g, g ∈ gs → ∃ p es, GroupByName m' (g_ID g) = Some p ∧
     gheap m' !! p = Some {| gs_group := g; Entries := es |} ∧ e_up <$> es = by_group upstreams (g_ID g) ∧
     Forall (λ e, (∃ c, buildClient (e_up e) = Ok c ∧ e_client e = Some c ∧ healthy e = true) ∨
                  ((∀ c, buildClient (e_up e) ≠ Ok c) ∧ e_client e = None ∧ healthy e = false)) es) ∧
  (∀ p, (p < next m)%nat → gheap m' !! p = gheap m !! p) ∧
  (∀ id c, rrIdx m !! id = Some c → rrIdx m' !! id = Some c).
Proof.
  intros Hnd. unfold Reload. 
  set (m0 := {| gheap := gheap m; groups := ∅; byName := ∅; byTenant := byTenant m; rrIdx := rrIdx m; next := next m |}).
  destruct (reload_groups_spec upstreams gs m0 [] Hnd) as (Hall & Hheap & Hrr); [constructor|].
  split_and!; [|exact Hheap|exact Hrr]. intros g Hg. rewrite Forall_forall in Hall.
  destruct (Hall g Hg) as (p & es & Hp & _ & Hes & Hup & Hcl & _). exists p, es.
  unfold GroupByName. simpl. by rewrite Hp.
Qed.
Definition demo_ups : list Upstream := [demo_upstream "a" "udp" 1; demo_upstream "b" "udp" 1].
Definition demo_manager (strategy : string) : Manager := Reload NewManager [demo_group strategy] demo_ups [].
Lemma Reload_view_witness :
  GroupByName (demo_manager "round_robin") "default" = Some 0%nat ∧
  ∃ p es, GroupByName (demo_manager "round_robin") "g1" = Some p ∧
    gheap (demo_manager "round_robin") !! p = Some {| gs_group := demo_group "round_robin"; Entries := es |} ∧
    e_up <$> es = demo_ups.
Proof.
  split; [vm_compute; reflexivity|].
  destruct (proj1 (Reload_view NewManager [demo_group "round_robin"] demo_ups [] ltac:(repeat constructor; set_solver))
              (demo_group "round_robin") ltac:(set_solver)) as (p & es & Hp & Hg & Hup & _).
  exists p, es. split; [exact Hp|split; [exact Hg|]]. rewrite Hup. reflexivity.
Defined.

(** C23: when every upstream of the group has a client and the
    query has a question, [ExchangeWithFailover] does not crash; a
    successful exchange names an entry of the group whose client answered. *)
Theorem ExchangeWithFailover_safe `{DnsLib} `{Network} `{RandLaws} cfg m gp g msg :
  gheap m !! gp = Some g → Forall (λ e, is_Some (e_client e)) (Entries g) →
  (∀ c, Exchange cfg c msg ≠ Panic) → m_Question msg ≠ [] →
  match (ExchangeWithFailover cfg m (Some gp) msg).2 with
  | ExPanic => False
  | ExErr _ => True
  | ExOk resp es => ∃ e c r, e ∈ Entries g ∧ e_up e = e_up es ∧ e_client es = Some c ∧
                    Exchange cfg c msg = Ok r ∧ tcp_retry c msg r = Ok resp
  end.
Proof.
  intros Hg Hcl Hnp Hq. unfold ExchangeWithFailover. simpl. rewrite Hg. simpl.
  destruct (decide (Entries g = [])) as [->|Hne]; [done|].
  pose proof (exchange_loop_safe cfg msg (length (Entries g)) 0 m gp g (static <$> Entries g) ∅ None Hg) as Hsafe.
  destruct (exchange_loop _ _ _ _ _ _ _ _) as [m' [resp es|err|]]; simpl in *.
  - destruct Hsafe as (c & r & Hin & Hc & Hx & Ht); try done; [by apply Forall_fmap|].
    apply list_elem_of_fmap in Hin as (e & Heq & He). exists e, c, r. injection Heq as -> _ _. done.
  - done.
  - apply Hsafe; try done. by apply Forall_fmap.
Qed.

(** A network on which upstream [b] answers and every other endpoint times
    out. *)
Definition demo_reply_msg : Msg := set_Id newMsg 9.
Definition demo_question : Msg :=
  Build_Msg 9 false 0 false false true false false false 0 false
    [{| q_Name := "www.example.com."; q_Qtype := TypeA; q_Qclass := ClassINET |}] [] [] [].
Definition demo_network : Network := {|
  udp_exchange addr m := if (addr =? "b:53")%string then Ok demo_reply_msg else Err "i/o timeout";
  tcp_exchange _ _ := Err "i/o timeout";
  tls_exchange _ _ _ _ := Err "i/o timeout";
  http_post _ _ _ _ := Err "i/o timeout";
  quic_stream _ _ _ _ := Err "i/o timeout";
|}.
Lemma demo_no_panic c m : @Exchange (demo_lib []) demo_network demo_config c m ≠ Panic.
Proof. destruct c as [u a|u a|u a|u a]; simpl; repeat case_match; discriminate. Qed.
Lemma ExchangeWithFailover_safe_witness :
  let r := (@ExchangeWithFailover (demo_lib []) demo_network (seeded 0) demo_config (demo_manager "weighted") (Some 0%nat) demo_question).2 in
  match r with
  | ExPanic => False
  | ExErr _ => True
  | ExOk resp es => ∃ e c r, e ∈ default [] (Entries <$> gheap (demo_manager "weighted") !! 0%nat) ∧ e_up e = e_up es ∧ e_client es = Some c ∧
                    @Exchange (demo_lib []) demo_network demo_config c demo_question = Ok r ∧ @tcp_retry demo_network c demo_question r = Ok resp
  end.
Proof.
  destruct (gheap (demo_manager "weighted") !! 0%nat) as [g|] eqn:Hg; [|vm_compute in Hg; discriminate].
  apply (@ExchangeWithFailover_safe (demo_lib []) demo_network (seeded 0) _ demo_config (demo_manager "weighted") 0 g demo_question Hg).
  - vm_compute in Hg. injection Hg as <-. repeat constructor; eexists; reflexivity.
  - intros c; apply demo_no_panic.
  - discriminate.
Defined.


(** With the failover strategy a request never reaches a second
    upstream: when the preferred usable upstream fails, the request fails
    with its error, however many other upstreams would answer. *)
Theorem failover_tries_one `{DnsLib} `{Network} `{Rand} cfg m gp g e c msg err :
  gheap m !! gp = Some g → g_Strategy (gs_group g) = "failover" → preferred g = Some e →
  e_client e = Some c → Exchange cfg c msg = Err err →
  (ExchangeWithFailover cfg m (Some gp) msg).2 = ExErr err.
Proof.
  intros Hg Hst Hp Hc Hx. unfold ExchangeWithFailover. simpl. rewrite Hg. simpl.
  destruct (Entries g) as [|x es] eqn:Hes; [unfold preferred in Hp; by rewrite Hes in Hp|]. cbn [length exchange_loop].
  rewrite (Select_failover m gp g 0 e) by done. rewrite bool_decide_eq_false_2 by set_solver. rewrite Hc, Hx.
  set (f := λ e, set_health e (healthy e) (i32 (consecFail e + 1)) (lastDown e)).
  destruct (preferred_update (e_addr e) f g e) as (e' & Hp' & Hup); [done|done|done|].
  eapply (exchange_loop_stuck _ _ _ _ _ _ (update_entry (e_addr e) f g) e'); [by apply write_entry_lookup|done|done|].
  rewrite Hup. set_solver.
Qed.
Lemma failover_tries_one_witness :
  (@ExchangeWithFailover (demo_lib []) demo_network (seeded 0) demo_config (demo_manager "failover") (Some 0%nat) demo_question).2
  = ExErr "i/o timeout" ∧
  ∃ e c, e ∈ default [] (Entries <$> gheap (demo_manager "failover") !! 0%nat) ∧ e_client e = Some c ∧
    @Exchange (demo_lib []) demo_network demo_config c demo_question = Ok demo_reply_msg.
Proof.
  destruct (gheap (demo_manager "failover") !! 0%nat) as [g|] eqn:Hg; [|vm_compute in Hg; discriminate].
  pose proof Hg as Hg'. vm_compute in Hg'. injection Hg' as <-. split.
  - eapply (@failover_tries_one (demo_lib []) demo_network (seeded 0) demo_config (demo_manager "failover") 0 _ _ _ demo_question _ Hg); reflexivity.
  - eexists _, _. split; [right; left|]. split; reflexivity.
Defined.

(** Probes of one entry in order: each with its error (or none) and time. *)
Definition run_probes (cfg : Config) (e : EntryState) (rs : list (option string * Z)) : EntryState :=
  foldl (λ e r, probe_entry cfg e r.1 r.2) e rs.
(** Failed probes since the last successful one. *)
Definition failing (rs : list (option string * Z)) : Z :=
  foldl (λ k r, match r.1 with Some _ => k + 1 | None => 0 end) 0 rs.

Lemma run_probes_spec cfg rs : ∀ e k,
  consecFail e = k → healthy e = (k <? HealthFailsToDown cfg) → 0 ≤ k → k + Z.of_nat (length rs) < 2 ^ 31 →
  1 ≤ HealthFailsToDown cfg →
  let k' := foldl (λ k r, match r.1 with Some _ => k + 1 | None => 0 end) k rs in
  consecFail (run_probes cfg e rs) = k' ∧ healthy (run_probes cfg e rs) = (k' <? HealthFailsToDown cfg).
Proof.
  induction rs as [|[[err|] t] rs IH]; intros e k Hc Hh Hk Hlen Hthr; [done| |]; cbn [length] in Hlen; simpl.
  - apply IH; try lia; unfold probe_entry; simpl;
      (assert (i32 (consecFail e + 1) = k + 1) as Hi by (unfold i32; rewrite Z.mod_small; lia)); rewrite Hi.
    + by case_match.
    + case_match; simpl; zbool; [symmetry; apply Z.ltb_ge; lia|]. rewrite Hh.
      rewrite (proj2 (Z.ltb_lt k _)) by lia. symmetry. apply Z.ltb_lt. lia.
  - apply IH; try lia; [done|]. simpl. symmetry. apply Z.ltb_lt. lia.
Qed.

(** Starting from a healthy entry without failures, after any
    sequence of health probes the entry is down exactly when the last
    [HEALTH_FAILS_TO_DOWN] probes (or more) all failed; one success brings
    it back. *)
Theorem probe_threshold cfg e rs :
  consecFail e = 0 → healthy e = true → 1 ≤ HealthFailsToDown cfg → Z.of_nat (length rs) < 2 ^ 31 →
  healthy (run_probes cfg e rs) = (failing rs <? HealthFailsToDown cfg).
Proof.
  intros Hc Hh Hthr Hlen. apply (run_probes_spec cfg rs e 0); try done; try lia.
  rewrite Hh. symmetry. apply Z.ltb_lt. lia.
Qed.
Lemma probe_threshold_witness :
  HealthFailsToDown demo_config = 3 ∧
  healthy (run_probes demo_config (demo_entry "a" 1) [(Some "t", 1); (Some "t", 2); (Some "t", 3)]) = false ∧
  healthy (run_probes demo_config (demo_entry "a" 1) [(Some "t", 1); (Some "t", 2); (Some "t", 3); (None, 4)]) = true.
Proof.
  split; [vm_compute; reflexivity|].
  split; (rewrite probe_threshold; [vm_compute; reflexivity|reflexivity|reflexivity|vm_compute; discriminate|reflexivity]).
Defined.
