(* ===== verification/DoqConn.v ===== *)
(** * The connection of a DoQ upstream client (src/internal/dnsx/upstream_doq.go)

    A client keeps its QUIC connection for a minute and opens one stream per
    query on it. [Upstream] treats the exchange as one function of the
    server; here the client has its state, and the two are shown to answer
    alike. *)

From S2P Require Import Prelude GoStrings GoNet Config Model DnsMsg Upstream.

(** The quic package: dialling a server under a name, with or without
    verification; [Context().Err() == nil]; opening a stream ([None] when it
    opens); the bytes received on a stream for the bytes sent. *)
Class QUIC (Q : Type) := {
  quic_DialAddr : string → bool → string → Time → outcome Q;
  conn_alive : Q → Time → bool;
  OpenStreamSync : Q → Time → option string;
  stream_exchange : Q → Time → list Z → outcome (list Z);
}.

Record doqConn (Q : Type) := { dq_conn : option Q; dq_connAt : Time }.
Arguments dq_conn {Q}. Arguments dq_connAt {Q}. Arguments Build_doqConn {Q}.

Section client.
Context {Q : Type} `{DnsLib} `{QUIC Q} (cfg : Config) (u : Upstream) (addr : string).

Definition newDoQClient : doqConn Q := {| dq_conn := None; dq_connAt := zeroTime |}.
(** [now] is the time of the check, [after] that of the new connection. *)
Definition getConn (c : doqConn Q) (now after : Time) : doqConn Q * outcome Q :=
  let dial :=
    let '(name, skip) := tlsConfigForUpstream cfg u in
    match quic_DialAddr name skip addr now with
    | Ok q => ({| dq_conn := Some q; dq_connAt := after |}, Ok q)
    | Err e => (c, Err e)
    | Panic => (c, Panic)
    end in
  match dq_conn c with
  | Some q => if (now - dq_connAt c <? 60 * second) && conn_alive q now then (c, Ok q) else dial
  | None => dial
  end.
(** The part of [Exchange] that follows [getConn]. *)
Definition stream_query (q : Q) (m : Msg) (t : Time) : outcome Msg :=
  match OpenStreamSync q t with
  | Some e => Err e
  | None =>
      match Pack m with
      | None => Err "pack"
      | Some raw =>
          if 65535 <? Z.of_nat (length raw) then Err "message too large for DoQ"
          else match stream_exchange q t (frame raw) with
               | Ok stream => match read_frame stream with
                              | Ok body => unpack_or_err body
                              | Err e => Err e
                              | Panic => Panic
                              end
               | Err e => Err e
               | Panic => Panic
               end
      end
  end.
Definition conn_exchange (c : doqConn Q) (m : Msg) (now after : Time) : doqConn Q * outcome Msg :=
  let '(c, conn) := getConn c now after in
  (c, match conn with Ok q => stream_query q m after | Err e => Err e | Panic => Panic end).
(** A history of exchanges, each with the two times it reads. *)
Definition exchanges (h : list (Msg * Time * Time)) : doqConn Q :=
  foldl (λ c x, (conn_exchange c x.1.1 x.1.2 x.2).1) newDoQClient h.
End client.

(** What the quic package promises: a connection has the peer it was dialled
    to, and what a stream delivers is what that peer sends for the bytes
    written, unless the stream fails. *)
Class QuicLaws (Q : Type) `{QUIC Q} `{Network} := {
  peer : Q → string * bool * string;
  dial_peer : ∀ name skip addr t q, quic_DialAddr name skip addr t = Ok q → peer q = (name, skip, addr);
  stream_peer : ∀ q t bytes got, stream_exchange q t bytes = Ok got →
    let '(name, skip, addr) := peer q in quic_stream name skip addr bytes = Ok got;
}.
(** The server is up: it can be dialled, and a connection to it that is
    alive, or new, carries streams. *)
Record server_up (Q : Type) `{QUIC Q} `{Network} (name : string) (skip : bool) (addr : string) : Prop := {
  up_dial : ∀ t, ∃ q, quic_DialAddr name skip addr t = Ok q;
  up_stream : ∀ q now after, conn_alive q now = true ∨ quic_DialAddr name skip addr now = Ok q →
    OpenStreamSync q after = None ∧ ∀ bytes, stream_exchange q after bytes = quic_stream name skip addr bytes;
}.

Section facts.
Context {Q : Type} `{DnsLib} `{QUIC Q} `{Network} `{!QuicLaws Q} (cfg : Config) (u : Upstream) (addr : string).
Definition endpoint : string * bool * string := ((tlsConfigForUpstream cfg u).1, (tlsConfigForUpstream cfg u).2, addr).
(** A kept connection goes to the client's server. *)
Definition conn_ok (c : doqConn Q) : Prop := ∀ q, dq_conn c = Some q → peer q = endpoint.

(** The connection a query uses: the kept one, young and alive, or a new
    one, which is kept. *)
Lemma getConn_spec c now after c' q :
  getConn cfg u addr c now after = (c', Ok q) →
  (c' = c ∧ dq_conn c = Some q ∧ now - dq_connAt c < 60 * second ∧ conn_alive q now = true) ∨
  (c' = {| dq_conn := Some q; dq_connAt := after |} ∧
   quic_DialAddr (tlsConfigForUpstream cfg u).1 (tlsConfigForUpstream cfg u).2 addr now = Ok q).
Proof.
  unfold getConn. simpl. intros Hc.
  destruct (dq_conn c) as [q0|] eqn:Hq; [destruct ((_ <? _) && _) eqn:Hb|].
  - left. simplify_eq. apply andb_true_iff in Hb as [?%Z.ltb_lt ?]. auto.
  - right. case_match; simplify_eq. auto.
  - right. case_match; simplify_eq. auto.
Qed.
Lemma getConn_ok c now after : conn_ok c → conn_ok (getConn cfg u addr c now after).1.
Proof.
  intros Hc. destruct (getConn cfg u addr c now after) as [c' r] eqn:E. simpl. destruct r as [q|e|].
  - apply getConn_spec in E as [(-> & _)|(-> & Hd)]; [done|]. intros q' [= <-]. by apply dial_peer in Hd.
  - revert E. unfold getConn. repeat case_match; intros; simplify_eq; done.
  - revert E. unfold getConn. repeat case_match; intros; simplify_eq; done.
Qed.
Lemma getConn_peer c now after c' q : conn_ok c → getConn cfg u addr c now after = (c', Ok q) → peer q = endpoint.
Proof. intros Hc [(-> & Hq & _)|(_ & Hd)]%getConn_spec; [by apply Hc|by apply dial_peer in Hd]. Qed.
Lemma exchanges_ok h : conn_ok (exchanges cfg u addr h).
Proof.
  unfold exchanges. assert (conn_ok newDoQClient) as Hnew by (intros q [=]).
  revert Hnew. generalize (newDoQClient (Q := Q)) as c. induction h as [|x h IH]; intros c Hc; simpl; [done|].
  apply IH. unfold conn_exchange. pose proof (getConn_ok c x.1.2 x.2 Hc) as Hok.
  by destruct (getConn cfg u addr c x.1.2 x.2) as [c' r].
Qed.
Lemma stream_query_sound q m t r :
  peer q = endpoint → stream_query q m t = Ok r → doq_exchange cfg u m addr = Ok r.
Proof.
  unfold stream_query, doq_exchange, endpoint. intros Hp. destruct (OpenStreamSync q t); [done|].
  destruct (Pack m) as [raw|]; [|done]. destruct (65535 <? _); [done|].
  destruct (stream_exchange q t (frame raw)) as [got|e|] eqn:Hs; [|done..].
  apply stream_peer in Hs. rewrite Hp in Hs. simpl in Hs |- *. by rewrite Hs.
Qed.
Lemma stream_query_up q m t :
  OpenStreamSync q t = None →
  (∀ bytes, stream_exchange q t bytes = quic_stream (tlsConfigForUpstream cfg u).1 (tlsConfigForUpstream cfg u).2 addr bytes) →
  stream_query q m t = doq_exchange cfg u m addr.
Proof.
  unfold stream_query, doq_exchange. intros -> Hs. destruct (Pack m) as [raw|]; [|done].
  destruct (65535 <? _); [done|]. simpl. by rewrite Hs.
Qed.
Lemma getConn_up c now after :
  server_up Q (tlsConfigForUpstream cfg u).1 (tlsConfigForUpstream cfg u).2 addr →
  ∃ q, (getConn cfg u addr c now after).2 = Ok q ∧ (conn_alive q now = true ∨
    quic_DialAddr (tlsConfigForUpstream cfg u).1 (tlsConfigForUpstream cfg u).2 addr now = Ok q).
Proof.
  intros [Hd _]. destruct (Hd now) as [q Hq]. unfold getConn. simpl in *.
  destruct (dq_conn c) as [q0|]; [destruct ((_ <? _) && _) eqn:Hb|].
  - apply andb_true_iff in Hb as [_ ?]. exists q0. simpl. split; [done|left; done].
  - rewrite Hq. exists q. simpl. auto.
  - rewrite Hq. exists q. simpl. auto.
Qed.
End facts.


(** A server that answers every query with the same message; connections to
    it die 100 s after they were dialled. *)
Definition demo_conn : Type := string * bool * string * Time.
Definition quic_network (answer : list Z) : Network := {|
  udp_exchange _ _ := Err "i/o timeout"; tcp_exchange _ _ := Err "i/o timeout"; tls_exchange _ _ _ _ := Err "i/o timeout";
  http_post _ _ _ _ := Err "i/o timeout"; quic_stream _ _ _ _ := Ok (frame answer);
|}.
Definition demo_quic (answer : list Z) : QUIC demo_conn := {|
  quic_DialAddr name skip addr t := Ok (name, skip, addr, t);
  conn_alive q t := t <? q.2 + 100 * second;
  OpenStreamSync _ _ := None;
  stream_exchange _ _ _ := Ok (frame answer);
|}.
Definition demo_quic_laws (answer : list Z) : @QuicLaws demo_conn (demo_quic answer) (quic_network answer).
Proof.
  refine {| peer := fst : demo_conn → string * bool * string |}.
  - intros name skip addr t q [= <-]. done.
  - intros [[[? ?] ?] ?] t bytes got [= <-]. done.
Defined.
Definition doq_codec : list (list Z * Msg) := [([1; 2; 3], demo_question); ([9; 9], demo_reply_msg)].
(** Three queries: at the start, half a minute and two minutes later. *)
Definition doq_history : list (Msg * Time * Time) :=
  [(demo_question, 0, 1); (demo_question, 30 * second, 30 * second + 1); (demo_question, 120 * second, 120 * second + 1)].
Example doq_redials :
  dq_connAt (@exchanges demo_conn (demo_lib doq_codec) (demo_quic [9; 9]) demo_config (demo_upstream "q" "doq" 1) "q:853" (take 2 doq_history)) = 1 ∧
  dq_connAt (@exchanges demo_conn (demo_lib doq_codec) (demo_quic [9; 9]) demo_config (demo_upstream "q" "doq" 1) "q:853" doq_history) = 120 * second + 1.
Proof. by vm_compute. Qed.
Lemma demo_server_up answer name skip addr : @server_up demo_conn (demo_quic answer) (quic_network answer) name skip addr.
Proof. constructor; [eexists; reflexivity|done]. Qed.
