(* ===== verification/Ipdb.v ===== *)
(** * Address databases (src/internal/dnsx/ipdb.go)

    The binary IPv4 database (qqwry.dat), the IPv6 CSV database and the
    consistency check between the two. Reading a file is a parameter (its
    contents); the GBK decoder is third-party. Slicing out of range is
    [Panic], as in Go. *)

From S2P Require Import Prelude GoStrings GoNet.

Record GeoISP := { Location : string; Province : string; City : string; ISP : string }.

(** The interface: [Ok None] is "not found". *)
Definition IPDB : Type := IP → outcome (option GeoISP).

Class GBK := { gbk_decode : list Z → option string }.
Definition ascii_gbk : GBK := {| gbk_decode b := Some (string_of_bytes b) |}.

(** ** Normalisation *)

Section normalise.
Context `{UnicodeCase}.

Definition normalizeISP (s : string) : string :=
  let s := TrimSpace (ToLower s) in
  let s := TrimPrefix s "中国" in
  let s := TrimPrefix s "china" in
  TrimSpace s.
Definition normalizeLoc (s : string) : string := ToLower (TrimSpace s).
Definition provinceKey (s : string) : string := normalizeLoc s.
End normalise.

Definition municipalities : list string := ["北京市"; "上海市"; "天津市"; "重庆市"].
Definition extractProvince (loc : string) : string :=
  let loc := TrimSpace loc in
  if (loc =? "")%string then ""
  else match first_match (λ m, HasPrefix loc m) municipalities with
       | Some m => m
       | None =>
           match Index loc "自治区" with
           | Some i => take_str (i + len "自治区") loc
           | None =>
               match Index loc "省" with
               | Some i => take_str (i + len "省") loc
               | None => loc
               end
           end
       end.
Example extractProvince_ex :
  extractProvince "浙江省杭州市" = "浙江省" ∧ extractProvince "北京市朝阳区" = "北京市" ∧
  extractProvince "内蒙古自治区包头市" = "内蒙古自治区".
Proof. by vm_compute. Qed.

(** ** qqwry.dat *)

Record qqwryDB := { data : list Z; firstIdx : Z; lastIdx : Z; indexN : Z }.

(** [data[a:b]] *)
Definition slice (d : list Z) (a b : Z) : outcome (list Z) :=
  if (0 <=? a) && (a <=? b) && (b <=? Z.of_nat (length d))
  then Ok (take (Z.to_nat (b - a)) (drop (Z.to_nat a) d)) else Panic.
Definition byte_at (d : list Z) (i : Z) : outcome Z :=
  match d !! Z.to_nat i with Some b => Ok b | None => Panic end.
Definition LEUint32 (b : list Z) : Z :=
  match b with [a; b; c; d] => a + b * 256 + c * 65536 + d * 16777216 | _ => 0 end.
Definition BEUint32 (b : list Z) : Z :=
  match b with [a; b; c; d] => a * 16777216 + b * 65536 + c * 256 + d | _ => 0 end.
Definition le24 (b : list Z) : Z :=
  match b with
  | b0 :: b1 :: b2 :: _ => Z.lor (Z.lor b0 (Z.shiftl b1 8)) (Z.shiftl b2 16)
  | _ => 0
  end.

Definition errShortQQwry : string := "qqwry.dat too short or corrupt".
Definition NewQQwry (file : outcome (list Z)) : outcome qqwryDB :=
  match file with
  | Ok d =>
      if Z.of_nat (length d) <? 8 then Err errShortQQwry
      else
        let first := LEUint32 (take 4 d) in
        let lst := LEUint32 (take 4 (drop 4 d)) in
        if (lst <? first) || (Z.of_nat (length d) <=? lst) then Err errShortQQwry
        else Ok {| data := d; firstIdx := first; lastIdx := lst; indexN := (lst - first) / 7 + 1 |}
  | Err e => Err e
  | Panic => Panic
  end.

Section qqwry.
Context `{UnicodeCase} `{GBK} (q : qqwryDB).
Local Open Scope go_scope.

Definition indexStart (i : Z) : outcome Z :=
  let p := firstIdx q + i * 7 in
  let! s := slice (data q) p (p + 4) in Ok (LEUint32 s).
Definition indexOffset (i : Z) : outcome Z :=
  let p := firstIdx q + i * 7 in
  let! s := slice (data q) (p + 4) (p + 7) in Ok (le24 s).

(** [bytes.IndexByte(d, 0)] as the bytes before the first zero. *)
Fixpoint until_nul (d : list Z) : list Z :=
  match d with
  | [] => []
  | b :: d => if b =? 0 then [] else b :: until_nul d
  end.
Definition readCString (offset : Z) : list Z :=
  if Z.of_nat (length (data q)) <=? offset then []
  else until_nul (drop (Z.to_nat offset) (data q)).

Definition is_redirect (b : Z) : bool := (b =? 1) || (b =? 2).
Definition readArea (offset : Z) : outcome (list Z) :=
  if Z.of_nat (length (data q)) <=? offset then Ok []
  else
    let! b := byte_at (data q) offset in
    if is_redirect b then
      let! s := slice (data q) (u32 (offset + 1)) (u32 (offset + 4)) in
      if le24 s =? 0 then Ok [] else Ok (readCString (le24 s))
    else Ok (readCString offset).
Definition readRecord (offset : Z) : outcome (list Z * list Z) :=
  if Z.of_nat (length (data q)) <=? offset then Ok ([], [])
  else
    let! b := byte_at (data q) offset in
    if is_redirect b then
      let! s := slice (data q) (u32 (offset + 1)) (u32 (offset + 4)) in
      let country := readCString (le24 s) in
      let! area := readArea (u32 (offset + 4)) in
      Ok (country, area)
    else
      let country := readCString offset in
      let! area := readArea (u32 (offset + Z.of_nat (length country) + 1)) in
      Ok (country, area).

Definition gbkToUTF8 (b : list Z) : string :=
  match b with
  | [] => ""
  | _ => match gbk_decode b with Some s => s | None => string_of_bytes b end
  end.

(** The binary search: the last index entry that starts at or below
    [target], [-1] when there is none. *)
Fixpoint search (fuel : nat) (target lo hi pos : Z) : outcome Z :=
  match fuel with
  | O => Ok pos
  | S fuel =>
      if lo <=? hi then
        let mid := (lo + hi) / 2 in
        let! start := indexStart mid in
        if start <=? target then search fuel target (mid + 1) hi mid
        else search fuel target lo (mid - 1) pos
      else Ok pos
  end.
(** The interval shrinks in every round, so one round more than entries
    is enough ([search_spec]). *)
Definition search_all (target : Z) : outcome Z :=
  search (S (Z.to_nat (indexN q))) target 0 (indexN q - 1) (-1).

Definition qqwry_Lookup : IPDB := λ ip,
  let ip4 := To4 ip in
  if is_nil ip4 then Ok None
  else
    let! pos := search_all (BEUint32 ip4) in
    if pos <? 0 then Ok None
    else
      let! off := indexOffset pos in
      let! r := readRecord off in
      let loc := gbkToUTF8 r.1 in
      let isp := gbkToUTF8 r.2 in
      Ok (Some {| Location := loc; Province := extractProvince loc; City := ""; ISP := normalizeISP isp |}).
End qqwry.

(** ** IPv6 CSV *)

Record ipv6GeoEntry := { ge_net : IPNet; ge_geo : GeoISP }.
Definition ipv6CSVDB : Type := list ipv6GeoEntry.

Section csv.
Context `{UnicodeCase}.

Definition csv_line (line : string) : option ipv6GeoEntry :=
  let line := TrimSpace line in
  if (line =? "")%string || HasPrefix line "#" then None
  else
    let parts := Split line "," in
    if (length parts <? 2)%nat then None
    else match ParseCIDR (TrimSpace (default "" (parts !! 0%nat))) with
         | None => None
         | Some ipnet =>
             let get idx := match parts !! idx with Some p => TrimSpace p | None => "" end in
             let loc := get 1%nat in
             let prov := get 2%nat in
             Some {| ge_net := ipnet;
                     ge_geo := {| Location := loc;
                                  Province := if (prov =? "")%string then extractProvince loc else prov;
                                  City := get 3%nat; ISP := normalizeISP (get 4%nat) |} |}
         end.
Definition NewIPv6CSV (file : outcome string) : outcome ipv6CSVDB :=
  match file with
  | Ok text => Ok (omap csv_line (Split text (ascii_of 10)))
  | Err e => Err e
  | Panic => Panic
  end.
End csv.

(** The length of the prefix when the subnet contains the address. *)
Definition prefix_score (n : IPNet) (ip : IP) : option Z :=
  if NetContains n ip then Some (Size (net_mask n)).1 else None.
Definition csv_Lookup (d : ipv6CSVDB) : IPDB := λ ip,
  if is_nil ip then Ok None
  else Ok (ge_geo <$> best_match (λ e, prefix_score (ge_net e) ip) d None (-1)).

(** ** Verifier *)

Record Verifier := { v_v4 : option IPDB; v_v6 : option IPDB; strict : bool }.
Definition NewVerifier (v4 v6 : option IPDB) (s : bool) : Verifier :=
  {| v_v4 := v4; v_v6 := v6; strict := s |}.

Section verify.
Context `{UnicodeCase}.
Local Open Scope go_scope.

(** The comparison of two lookup results. *)
Definition same_place (strict : bool) (g6 g4 : GeoISP) : bool * string :=
  if (ISP g6 =? "")%string || (ISP g4 =? "")%string then (false, "isp missing")
  else if negb (ISP g6 =? ISP g4)%string then (false, "isp mismatch")
  else
    let p6 := provinceKey (Province g6) in
    let p4 := provinceKey (Province g4) in
    if (p6 =? "")%string || (p4 =? "")%string || negb (p6 =? p4)%string then (false, "province mismatch")
    else
      let c6 := normalizeLoc (City g6) in
      let c4 := normalizeLoc (City g4) in
      if strict && negb (c6 =? "")%string && negb (c4 =? "")%string && negb (c6 =? c4)%string
      then (false, "city mismatch") else (true, "").

(** [None] is a nil verifier. *)
Definition Verify (v : option Verifier) (ip6 ip4 : IP) : outcome (bool * string) :=
  match v with
  | Some {| v_v4 := Some v4; v_v6 := Some v6; strict := st |} =>
      let! r6 := v6 ip6 in
      let! r4 := v4 ip4 in
      match r6, r4 with
      | Some g6, Some g4 => Ok (same_place st g6 g4)
      | _, _ => Ok (false, "geo lookup missing")
      end
  | _ => Ok (false, "geo db not configured")
  end.
End verify.

(** ** Lemmas *)

(** The index area lies inside the file. *)
Definition index_in_file (q : qqwryDB) : Prop :=
  0 ≤ firstIdx q ∧ 0 ≤ indexN q ∧ firstIdx q + 7 * indexN q ≤ Z.of_nat (length (data q)).
(** The start addresses ascend. *)
Definition index_sorted (q : qqwryDB) : Prop :=
  ∀ i j s t, 0 ≤ i → i ≤ j → j < indexN q → indexStart q i = Ok s → indexStart q j = Ok t → s ≤ t.

Lemma slice_Ok d a b : 0 ≤ a → a ≤ b → b ≤ Z.of_nat (length d) → ∃ s, slice d a b = Ok s.
Proof.
  intros H1 H2 H3. unfold slice. rewrite !(proj2 (Z.leb_le _ _)) by done. simpl. eauto.
Qed.
Lemma indexStart_Ok q i : index_in_file q → 0 ≤ i < indexN q → ∃ s, indexStart q i = Ok s.
Proof.
  intros (H1 & H2 & H3) Hi. unfold indexStart.
  destruct (slice_Ok (data q) (firstIdx q + i * 7) (firstIdx q + i * 7 + 4)) as [s ->]; [lia..|]. simpl. eauto.
Qed.

Lemma search_spec q t fuel : index_in_file q → index_sorted q → ∀ lo hi,
  0 ≤ lo → hi < indexN q → lo ≤ hi + 1 → hi - lo + 1 < Z.of_nat fuel →
  (∀ i s, 0 ≤ i < lo → indexStart q i = Ok s → s ≤ t) →
  (∀ i s, hi < i < indexN q → indexStart q i = Ok s → t < s) →
  ∃ p, search q fuel t lo hi (lo - 1) = Ok p ∧ -1 ≤ p < indexN q ∧
    (∀ i s, 0 ≤ i ≤ p → indexStart q i = Ok s → s ≤ t) ∧
    (∀ i s, p < i < indexN q → indexStart q i = Ok s → t < s).
Proof.
  intros Hin Hsort. induction fuel as [|fuel IH]; intros lo hi Hlo Hhi Hle Hfuel Hbelow Habove; [lia|].
  cbn [search]. destruct (lo <=? hi) eqn:Hc; zbool.
  - assert (lo ≤ (lo + hi) / 2 ≤ hi) as Hmid by divlia. set (mid := (lo + hi) / 2) in *.
    destruct (indexStart_Ok q mid Hin) as [s Hs]; [lia|]. rewrite Hs. cbn [outcome_bind].
    destruct (s <=? t) eqn:Hst; zbool.
    + destruct (IH (mid + 1) hi) as (p & Hp & Hrest); try lia.
      * intros i s' Hi Hs'. transitivity s; [|done]. apply (Hsort i mid s' s); try done; lia.
      * done.
      * exists p. replace (mid + 1 - 1) with mid in Hp by lia. done.
    + destruct (IH lo (mid - 1)) as (p & Hp & Hrest); try lia; [done| |exists p; done].
      intros i s' Hi Hs'. apply Z.lt_le_trans with s; [done|]. apply (Hsort mid i s s'); try done; lia.
  - exists (lo - 1). split; [done|]. split; [lia|]. split; intros i s Hi; [apply Hbelow|apply Habove]; lia.
Qed.

Lemma Size_nonneg m : 0 ≤ (Size m).1.
Proof.
  unfold Size. destruct (simpleMaskLength m) as [n|] eqn:Hm; [|done]. simpl. revert n Hm.
  induction m as [|b m IH]; simpl; intros n; [by intros [= <-]|].
  destruct (b =? 255).
  - destruct (simpleMaskLength m) as [k|]; [|done]. simpl. intros [= <-]. specialize (IH _ eq_refl). lia.
  - destruct (forallb _ m); [|done]. unfold byte_ones. repeat case_match; intros; simplify_eq; lia.
Qed.
Lemma prefix_score_nonneg n ip k : prefix_score n ip = Some k → 0 ≤ k.
Proof. unfold prefix_score. case_match; [|done]. intros [= <-]. apply Size_nonneg. Qed.
Lemma prefix_score_None n ip : prefix_score n ip = None ↔ NetContains n ip = false.
Proof. unfold prefix_score. by destruct (NetContains n ip). Qed.

(** The longest matching subnet of a table. *)
Lemma longest_prefix {A} (net : A → IPNet) (l : list A) ip :
  match best_match (λ e, prefix_score (net e) ip) l None (-1) with
  | Some e => e ∈ l ∧ NetContains (net e) ip = true ∧
              ∀ e', e' ∈ l → NetContains (net e') ip = true → (Size (net_mask (net e'))).1 ≤ (Size (net_mask (net e))).1
  | None => ∀ e, e ∈ l → NetContains (net e) ip = false
  end.
Proof.
  pose proof (best_match_start (λ e, prefix_score (net e) ip) l) as Hb.
  destruct (best_match _ _ _ _) as [e|].
  - destruct Hb as (He & n & Hn & Hmax); [intros; by eapply prefix_score_nonneg|].
    unfold prefix_score in *. split; [done|]. destruct (NetContains (net e) ip); [|done]. split; [done|].
    intros e' He' Hc. injection Hn as <-. apply (Hmax e'); [done|]. by rewrite Hc.
  - intros e He. apply prefix_score_None, Hb; [intros; by eapply prefix_score_nonneg|done].
Qed.

(** ** Properties *)

(** On a database whose index lies in the file and ascends, the
    binary search ends, without reading outside the file, at the last entry
    that starts at or below the address (or at -1 when every entry starts
    above it). *)
Theorem search_floor q target :
  index_in_file q → index_sorted q →
  ∃ p, search_all q target = Ok p ∧ -1 ≤ p < indexN q ∧
    (∀ i s, 0 ≤ i ≤ p → indexStart q i = Ok s → s ≤ target) ∧
    (∀ i s, p < i < indexN q → indexStart q i = Ok s → target < s).
Proof.
  intros Hin Hs. pose proof Hin as (_ & Hn & _). unfold search_all.
  apply (search_spec q target _ Hin Hs 0); lia.
Qed.
Definition demo_qqwry : qqwryDB :=
  {| data := [8; 0; 0; 0; 22; 0; 0; 0; 0; 0; 0; 0; 29; 0; 0; 0; 0; 0; 10; 29; 0; 0; 0; 0; 0; 20; 29; 0; 0; 65; 0; 66; 0];
     firstIdx := 8; lastIdx := 22; indexN := 3 |}.
Lemma demo_qqwry_ok : index_in_file demo_qqwry ∧ index_sorted demo_qqwry.
Proof.
  split; [split_and!; vm_compute; discriminate|].
  intros i j s t Hi Hij Hj. simpl in Hj.
  assert (i = 0 ∨ i = 1 ∨ i = 2) as Hci by lia. assert (j = 0 ∨ j = 1 ∨ j = 2) as Hcj by lia.
  destruct Hci as [->|[->| ->]], Hcj as [->|[->| ->]]; try lia;
    vm_compute; intros [= <-] [= <-]; discriminate.
Qed.
Lemma search_floor_witness :
  NewQQwry (Ok (data demo_qqwry)) = Ok demo_qqwry ∧
  ∃ p, search_all demo_qqwry (BEUint32 [15; 0; 0; 0]) = Ok p ∧ -1 ≤ p < indexN demo_qqwry ∧
    (∀ i s, 0 ≤ i ≤ p → indexStart demo_qqwry i = Ok s → s ≤ BEUint32 [15; 0; 0; 0]) ∧
    (∀ i s, p < i < indexN demo_qqwry → indexStart demo_qqwry i = Ok s → BEUint32 [15; 0; 0; 0] < s).
Proof.
  split; [vm_compute; reflexivity|].
  exact (search_floor demo_qqwry (BEUint32 [15; 0; 0; 0]) (proj1 demo_qqwry_ok) (proj2 demo_qqwry_ok)).
Defined.

(** The loader checks only that the last index position is
    inside the file, not that its seven bytes are: a truncated file is
    accepted and every lookup of an IPv4 address then crashes. *)
Theorem NewQQwry_truncated `{UnicodeCase} `{GBK} a b c d :
  ∃ file q, NewQQwry (Ok file) = Ok q ∧ qqwry_Lookup q [a; b; c; d] = Panic.
Proof. exists [8; 0; 0; 0; 8; 0; 0; 0; 1]. eexists. split; [vm_compute; reflexivity|]. reflexivity. Qed.

(** The IPv6 database answers with an entry whose subnet contains
    the address and is the longest such subnet, and finds nothing only when
    no subnet contains it. *)
Theorem csv_Lookup_longest d ip :
  ip ≠ [] →
  (∃ e, csv_Lookup d ip = Ok (Some (ge_geo e)) ∧ e ∈ d ∧ NetContains (ge_net e) ip = true ∧
        ∀ e', e' ∈ d → NetContains (ge_net e') ip = true →
              (Size (net_mask (ge_net e'))).1 ≤ (Size (net_mask (ge_net e))).1) ∨
  (csv_Lookup d ip = Ok None ∧ ∀ e, e ∈ d → NetContains (ge_net e) ip = false).
Proof.
  intros Hip. unfold csv_Lookup. pose proof (longest_prefix ge_net d ip) as Hl.
  destruct (is_nil ip) eqn:Hn; [by apply is_nil_spec in Hn|].
  destruct (best_match _ _ _ _) as [e|]; [left; exists e; naive_solver|right; done].
Qed.
Definition demo_csv : outcome ipv6CSVDB :=
  @NewIPv6CSV ascii_case (Ok ("# subnet,country,province,city,isp" +:+ String (ascii_of 10)
    "2001:db8::/32, CN, Zhejiang, , ChinaTelecom" +:+ String (ascii_of 10) "2001:db8:1::/48,CN,Beijing,,Unicom"))%string.
Lemma csv_Lookup_longest_witness :
  ∃ d, demo_csv = Ok d ∧ (∃ g, csv_Lookup d (ParseIP "2001:db8:1::9") = Ok (Some g) ∧ ISP g = "unicom") ∧
  ((∃ e, csv_Lookup d (ParseIP "2001:db8:1::9") = Ok (Some (ge_geo e)) ∧ e ∈ d ∧ NetContains (ge_net e) (ParseIP "2001:db8:1::9") = true ∧
        ∀ e', e' ∈ d → NetContains (ge_net e') (ParseIP "2001:db8:1::9") = true →
              (Size (net_mask (ge_net e'))).1 ≤ (Size (net_mask (ge_net e))).1) ∨
  (csv_Lookup d (ParseIP "2001:db8:1::9") = Ok None ∧ ∀ e, e ∈ d → NetContains (ge_net e) (ParseIP "2001:db8:1::9") = false)).
Proof.
  destruct demo_csv as [d| |] eqn:Hd; [|vm_compute in Hd; discriminate..].
  exists d. split; [reflexivity|]. split; [vm_compute in Hd; injection Hd as <-; eexists; split; vm_compute; reflexivity|].
  apply csv_Lookup_longest. vm_compute. discriminate.
Defined.

(** The verifier accepts a pair of addresses exactly when both
    databases know them, the operators are equal and non-empty, the
    provinces are equal and non-empty, and, in strict mode, the cities do
    not differ. *)
Theorem Verify_accepts `{UnicodeCase} v4 v6 st ip6 ip4 :
  Verify (Some (NewVerifier (Some v4) (Some v6) st)) ip6 ip4 = Ok (true, "") ↔
  ∃ g6 g4, v6 ip6 = Ok (Some g6) ∧ v4 ip4 = Ok (Some g4) ∧
    ISP g6 ≠ "" ∧ ISP g6 = ISP g4 ∧
    provinceKey (Province g6) ≠ "" ∧ provinceKey (Province g6) = provinceKey (Province g4) ∧
    (st = true → normalizeLoc (City g6) ≠ "" → normalizeLoc (City g4) ≠ "" →
     normalizeLoc (City g6) = normalizeLoc (City g4)).
Proof.
  unfold Verify, NewVerifier. split.
  - destruct (v6 ip6) as [[g6|]| |]; simpl; try done; destruct (v4 ip4) as [[g4|]| |]; simpl; try done.
    unfold same_place. intros Heq. exists g6, g4.
    destruct (String.eqb_spec (ISP g6) ""); [done|]. destruct (String.eqb_spec (ISP g4) ""); [done|].
    destruct (String.eqb_spec (ISP g6) (ISP g4)); [|done]. simpl in Heq.
    destruct (String.eqb_spec (provinceKey (Province g6)) ""); [done|].
    destruct (String.eqb_spec (provinceKey (Province g4)) ""); [done|].
    destruct (String.eqb_spec (provinceKey (Province g6)) (provinceKey (Province g4))); [|done]. simpl in Heq.
    split_and!; try done. intros -> H6 H4.
    rewrite (proj2 (String.eqb_neq _ _) H6), (proj2 (String.eqb_neq _ _) H4) in Heq. simpl in Heq.
    by destruct (String.eqb_spec (normalizeLoc (City g6)) (normalizeLoc (City g4))).
  - intros (g6 & g4 & -> & -> & HI & HIeq & HP & HPeq & Hc). simpl. unfold same_place.
    rewrite <-HIeq, <-HPeq, (proj2 (String.eqb_neq _ _) HI), (proj2 (String.eqb_neq _ _) HP), !String.eqb_refl. simpl.
    destruct st; [|done]. simpl.
    destruct (String.eqb_spec (normalizeLoc (City g6)) ""); [done|].
    destruct (String.eqb_spec (normalizeLoc (City g4)) ""); [done|]. simpl.
    by rewrite (proj2 (String.eqb_eq _ _)) by auto.
Qed.
