(* ===== verification/Dualstack.v ===== *)
(** * IPv6 to IPv4 mapping (src/internal/dnsx/dualstack.go)

    The three mapping sources (addresses embedded in a NAT64 prefix, the
    binding table, an external HTTP interface), the consistency check and
    the subnet derived from it. The HTTP exchange and [encoding/json] are
    parameters, file contents are arguments. *)

From S2P Require Import Prelude GoStrings GoNet Config Model DnsMsg Ecs Ipdb.

(** ** Embedded addresses *)

Definition extractRFC6052 (v6 : IP) (pl : Z) : option IP :=
  match v6 with
  | [b0; b1; b2; b3; b4; b5; b6; b7; b8; b9; b10; b11; b12; b13; b14; b15] =>
      if pl =? 32 then if negb (b8 =? 0) then None else Some (IPv4 b4 b5 b6 b7)
      else if pl =? 40 then if negb (b8 =? 0) then None else Some (IPv4 b5 b6 b7 b9)
      else if pl =? 48 then if negb (b8 =? 0) then None else Some (IPv4 b6 b7 b9 b10)
      else if pl =? 56 then if negb (b8 =? 0) then None else Some (IPv4 b7 b9 b10 b11)
      else if pl =? 64 then if negb (b8 =? 0) then None else Some (IPv4 b9 b10 b11 b12)
      else if pl =? 96 then Some (IPv4 b12 b13 b14 b15)
      else None
  | _ => None
  end.

(** One NAT64 prefix of the list: the address it yields, if any. *)
Definition nat64_try (v6 : IP) (p : string) : option IP :=
  match ParseCIDR (TrimSpace p) with
  | None => None
  | Some ipnet =>
      if NetContains ipnet v6 then extractRFC6052 v6 (Size (net_mask ipnet)).1 else None
  end.
Fixpoint nat64_loop (v6 : IP) (ps : list string) : option IP :=
  match ps with
  | [] => None
  | p :: ps => match nat64_try v6 p with Some v4 => Some v4 | None => nat64_loop v6 ps end
  end.
Definition embeddedIPv4 (ip : IP) (nat64Prefixes : list string) : option IP :=
  if is_nil ip then None
  else if negb (is_nil (To4 ip)) then Some (To4 ip)
  else if is_nil (To16 ip) then None
  else nat64_loop (To16 ip) nat64Prefixes.

(** ** Binding table *)

Record BindingEntry := { be_Net : IPNet; be_IPv4 : IP; be_ISP : string; be_Region : string }.
Definition BindingTable : Type := list BindingEntry.

Definition add (t : BindingTable) (cidr ipv4 isp region : string) : BindingTable :=
  let cidr := TrimSpace cidr in
  let ipv4 := TrimSpace ipv4 in
  if (cidr =? "")%string || (ipv4 =? "")%string then t
  else match ParseCIDR cidr with
       | None => t
       | Some n =>
           let ip := ParseIP ipv4 in
           if is_nil ip || is_nil (To4 ip) then t
           else t ++ [{| be_Net := n; be_IPv4 := To4 ip; be_ISP := TrimSpace isp; be_Region := TrimSpace region |}]
       end.

Definition Lookup (t : BindingTable) (ip : IP) : option IP :=
  if is_nil ip then None
  else be_IPv4 <$> best_match (λ e, prefix_score (be_Net e) ip) t None (-1).

Definition load_line (t : BindingTable) (line : string) : BindingTable :=
  let line := TrimSpace line in
  if (line =? "")%string || HasPrefix line "#" then t
  else
    match Split line "," with
    | p0 :: p1 :: rest =>
        add t p0 p1 (default "" (rest !! 0%nat)) (default "" (rest !! 1%nat))
    | _ => t
    end.
(** [None] is a file that cannot be read. *)
Definition loadFile (t : BindingTable) (file : option string) : BindingTable :=
  match file with
  | None => t
  | Some text => foldl load_line t (Split text (ascii_of 10))
  end.

(** ** Orchestration *)

Record Dualstack := { d_cfg : Config; table : BindingTable; verifier : option Verifier }.

(** [strings.ReplaceAll] for a non-empty [old]: [skip] characters of a match
    are still to be dropped. *)
Fixpoint replace_go (old new : string) (skip : nat) (s : string) : string :=
  match s with
  | EmptyString => EmptyString
  | String c s' =>
      match skip with
      | S k => replace_go old new k s'
      | O => if HasPrefix s old then (new +:+ replace_go old new (len old - 1) s')%string
             else String c (replace_go old new 0 s')
      end
  end.
Definition ReplaceAll (s old new : string) : string := replace_go old new 0 s.
Example ReplaceAll_ex : ReplaceAll "http://m/{ip}?a={ip}" "{ip}" "::1" = "http://m/::1?a=::1".
Proof. by vm_compute. Qed.

(** The mapping interface: a GET (status and body), and the ["ipv4"] field
    of a JSON body ([None] when it does not parse). *)
Class MapAPI := {
  api_get : string → outcome (Z * list Z);
  json_ipv4 : list Z → option string;
}.

Section derive.
Context `{UnicodeCase} `{MapAPI}.

(** [files] gives the contents of a path. *)
Definition Reload (files : string → option string) (d : Dualstack) (bindings : list DualstackBinding) : Dualstack :=
  let t := if (MapFile (d_cfg d) =? "")%string then [] else loadFile [] (files (MapFile (d_cfg d))) in
  let t := foldl (λ t b, if db_Enabled b then add t (db_IPv6Subnet b) (db_IPv4 b) (db_ISP b) (db_Region b) else t) t bindings in
  {| d_cfg := d_cfg d; table := t; verifier := verifier d |}.

(** [v4db] and [v6db] are the databases loaded from the two files, [None]
    when not configured or not readable. *)
Definition NewDualstack (files : string → option string) (cfg : Config) (v4db v6db : option IPDB) : Dualstack :=
  let v := match v4db, v6db with
           | Some _, Some _ => Some (NewVerifier v4db v6db (GeoStrictCity cfg))
           | _, _ => None
           end in
  Reload files {| d_cfg := cfg; table := []; verifier := v |} [].

Definition parse_v4 (s : string) : option (option IP) :=
  let ip := ParseIP (TrimSpace s) in
  if is_nil ip then None
  else Some (if is_nil (To4 ip) then None else Some (To4 ip)).
Definition mapViaAPI (d : Dualstack) (ipv6 : IP) : option IP :=
  let url := ReplaceAll (MapAPIURL (d_cfg d)) "{ip}" (IPString ipv6) in
  match api_get url with
  | Ok (status, body) =>
      if negb (status =? 200) then None
      else
        let body := take (Z.to_nat 4096) body in
        let text := parse_v4 (string_of_bytes body) in
        let plain := match text with Some r => r | None => None end in
        match json_ipv4 body with
        | Some s => if (s =? "")%string then plain
                    else match parse_v4 s with Some r => r | None => plain end
        | None => plain
        end
  | _ => None
  end.

Definition mapToIPv4 (d : Dualstack) (ipv6 : IP) : option (IP * string) :=
  match embeddedIPv4 ipv6 (NAT64Prefixes (d_cfg d)) with
  | Some v4 => Some (v4, "embedded")
  | None =>
      match Lookup (table d) ipv6 with
      | Some v4 => Some (v4, "table")
      | None =>
          if (MapAPIURL (d_cfg d) =? "")%string then None
          else match mapViaAPI d ipv6 with
               | Some v4 => Some (v4, "api")
               | None => None
               end
      end
  end.

(** [None] for a nil [Dualstack]; a panic of a database lookup is passed
    on. *)
Definition DeriveECS (d : option Dualstack) (clientIP : IP) : outcome (option ECSInfo) :=
  match d with
  | None => Ok None
  | Some d =>
      if is_nil clientIP || negb (is_nil (To4 clientIP)) then Ok None
      else match verifier d with
           | None => Ok None
           | Some v =>
               match mapToIPv4 d clientIP with
               | None => Ok None
               | Some (v4, _) =>
                   match Verify (Some v) clientIP v4 with
                   | Ok (true, _) =>
                       let mask := ECSDeriveMask (d_cfg d) in
                       let mask := if mask <=? 0 then 32 else mask in
                       let v4 := To4 v4 in
                       let v4 := if mask <? 32 then Mask v4 (CIDRMask mask 32) else v4 in
                       Ok (Some {| Family := 1; Source := u8 mask; Scope := 0; Address := v4; HasOption := true |})
                   | Ok (false, _) => Ok None
                   | Err e => Err e
                   | Panic => Panic
                   end
               end
           end
  end.
End derive.

(** ** Specification of RFC 6052, section 2.2

    The IPv4 address follows the prefix; the byte at position 8 is reserved
    and zero, and the address continues after it; the rest is a suffix. *)
Definition embedRFC6052 (prefix v4 suffix : list Z) (pl : Z) : IP :=
  if pl =? 96 then prefix ++ v4
  else let l := prefix ++ v4 ++ suffix in take 8 l ++ [0] ++ drop 8 l.

Ltac known_length l :=
  match goal with
  | H : length l = O |- _ => apply nil_length_inv in H; subst l
  | H : length l = S _ |- _ =>
      let x := fresh "x" in let l' := fresh "l" in
      destruct l as [|x l']; [discriminate H|]; simpl in H; apply Nat.succ_inj in H; known_length l'
  end.

(** ** Properties *)

(** For each prefix length the RFC defines, the address
    extracted from an IPv6 address is the one embedded into it, whatever the
    prefix and the suffix. *)
Theorem extract_embed pl prefix suffix a b c d :
  pl ∈ [32; 40; 48; 56; 64; 96] → Z.of_nat (length prefix) = pl / 8 →
  Z.of_nat (length suffix) = (if pl =? 96 then 0 else 11 - pl / 8) →
  extractRFC6052 (embedRFC6052 prefix [a; b; c; d] suffix pl) pl = Some (IPv4 a b c d).
Proof.
  intros Hpl Hp Hs.
  repeat (apply elem_of_cons in Hpl as [->|Hpl]; [vm_compute Z.div in Hp, Hs; vm_compute (if _ =? _ then _ else _) in Hs|]).
  all: [> .. | by apply not_elem_of_nil in Hpl].
  all: match type of Hp with _ = ?n => apply (f_equal Z.to_nat) in Hp; rewrite Nat2Z.id in Hp; vm_compute Z.to_nat in Hp end.
  all: apply (f_equal Z.to_nat) in Hs; rewrite Nat2Z.id in Hs; vm_compute Z.to_nat in Hs.
  all: known_length prefix; known_length suffix; reflexivity.
Qed.
Lemma extract_embed_witness :
  extractRFC6052 (embedRFC6052 [0; 100; 255; 155; 0; 0; 0; 0; 0; 0; 0; 0] [192; 0; 2; 33] [] 96) 96 = Some (IPv4 192 0 2 33).
Proof. apply (extract_embed 96); [set_solver|reflexivity|reflexivity]. Defined.

(** The binding table answers with the IPv4 address of the
    longest subnet that contains the client, and with nothing only when no
    subnet does. *)
Theorem Lookup_longest t ip :
  ip ≠ [] →
  (∃ e, Lookup t ip = Some (be_IPv4 e) ∧ e ∈ t ∧ NetContains (be_Net e) ip = true ∧
        ∀ e', e' ∈ t → NetContains (be_Net e') ip = true →
              (Size (net_mask (be_Net e'))).1 ≤ (Size (net_mask (be_Net e))).1) ∨
  (Lookup t ip = None ∧ ∀ e, e ∈ t → NetContains (be_Net e) ip = false).
Proof.
  intros Hip. unfold Lookup. pose proof (longest_prefix be_Net t ip) as Hl.
  destruct (is_nil ip) eqn:Hn; [by apply is_nil_spec in Hn|].
  destruct (best_match _ _ _ _) as [e|]; [left; exists e|right]; tauto.
Qed.
Definition demo_table : BindingTable :=
  loadFile [] (Some ("2001:db8::/32,192.0.2.1,isp" +:+ String (ascii_of 10) "2001:db8:7::/48, 192.0.2.7"))%string.
Lemma Lookup_longest_witness :
  Lookup demo_table (ParseIP "2001:db8:7::1") = Some [192; 0; 2; 7] ∧
  ((∃ e, Lookup demo_table (ParseIP "2001:db8:7::1") = Some (be_IPv4 e) ∧ e ∈ demo_table ∧ NetContains (be_Net e) (ParseIP "2001:db8:7::1") = true ∧
        ∀ e', e' ∈ demo_table → NetContains (be_Net e') (ParseIP "2001:db8:7::1") = true →
              (Size (net_mask (be_Net e'))).1 ≤ (Size (net_mask (be_Net e))).1) ∨
  (Lookup demo_table (ParseIP "2001:db8:7::1") = None ∧ ∀ e, e ∈ demo_table → NetContains (be_Net e) (ParseIP "2001:db8:7::1") = false)).
Proof. split; [vm_compute; reflexivity|]. apply Lookup_longest. vm_compute. discriminate. Defined.

(** A subnet is derived only for an IPv6 client, only when
    both databases are loaded, only from an address one of the sources maps
    the client to, and only when the verifier accepts the pair; the subnet
    is that address, masked. *)
Theorem DeriveECS_fail_closed `{UnicodeCase} `{MapAPI} d clientIP e :
  DeriveECS (Some d) clientIP = Ok (Some e) →
  To4 clientIP = [] ∧
  ∃ v v4 source reason, verifier d = Some v ∧ mapToIPv4 d clientIP = Some (v4, source) ∧
    Verify (Some v) clientIP v4 = Ok (true, reason) ∧
    Family e = 1 ∧ HasOption e = true ∧
    (Address e = To4 v4 ∨ Address e = Mask (To4 v4) (CIDRMask (ECSDeriveMask (d_cfg d)) 32)).
Proof.
  unfold DeriveECS. destruct (is_nil clientIP); [done|]. cbn [orb].
  destruct (is_nil (To4 clientIP)) eqn:H4; [|done]. cbn [negb]. apply is_nil_spec in H4.
  destruct (verifier d) as [v|]; [|done]. destruct (mapToIPv4 d clientIP) as [[v4 source]|]; [|done].
  destruct (Verify (Some v) clientIP v4) as [[ok reason]| |] eqn:Hv; try done. destruct ok; [|done].
  intros He. injection He as <-.
  split; [done|]. exists v, v4, source, reason. split_and!; try done. simpl.
  destruct (ECSDeriveMask (d_cfg d) <=? 0); simpl; [by left|]. destruct (ECSDeriveMask (d_cfg d) <? 32); auto.
Qed.
Definition demo_geo : GeoISP := {| Location := "CN"; Province := "Zhejiang"; City := ""; ISP := "telecom" |}.
Definition demo_api : MapAPI := {| api_get _ := Err "refused"; json_ipv4 _ := None |}.
Definition demo_dualstack : Dualstack :=
  {| d_cfg := demo_config; table := demo_table;
     verifier := Some (NewVerifier (Some (λ _, Ok (Some demo_geo))) (Some (λ _, Ok (Some demo_geo))) false) |}.
Lemma DeriveECS_fail_closed_witness :
  ∃ e, @DeriveECS ascii_case demo_api (Some demo_dualstack) (ParseIP "2001:db8:7::1") = Ok (Some e) ∧ Family e = 1.
Proof.
  destruct (@DeriveECS ascii_case demo_api (Some demo_dualstack) (ParseIP "2001:db8:7::1")) as [[e|]| |] eqn:E;
    [|vm_compute in E; discriminate..].
  exists e. split; [reflexivity|].
  destruct (@DeriveECS_fail_closed ascii_case demo_api demo_dualstack (ParseIP "2001:db8:7::1") e E)
    as (_ & v & v4 & source & reason & _ & _ & _ & Hf & _).
  exact Hf.
Defined.
