(* ===== verification/Files.v ===== *)
(** * Paths and files (packages path/filepath and os)

    The lexical path functions of Go on Unix and the file operations the
    certificate manager uses. The file system is a set of directories and a
    map from files to contents, both by the components of their absolute
    path; there are no symbolic links. Every operation that can fail
    consumes one entry of a fault schedule, as statements do in [World]. *)

From S2P Require Import Prelude GoStrings GoNet.

(** ** Lexical paths *)

Definition slash : ascii := "/"%char.
Definition IsAbs (p : string) : bool := HasPrefix p "/".

(** One element of a path, on the elements kept so far (last first):
    [filepath.Clean] drops empty elements and ".", and ".." removes the
    element before it; at the root of an absolute path it is dropped. *)
Definition clean_step (rooted : bool) (out : list string) (e : string) : list string :=
  if (e =? "")%string || (e =? ".")%string then out
  else if (e =? "..")%string then
    match out with
    | [] => if rooted then [] else [".."%string]
    | x :: rest => if (x =? "..")%string then e :: out else rest
    end
  else e :: out.
Definition clean_elems (rooted : bool) (out : list string) (es : list string) : list string :=
  foldl (clean_step rooted) out es.
Definition print_path (rooted : bool) (es : list string) : string :=
  if rooted then (String slash (Join es "/"))
  else match es with [] => "." | _ => Join es "/" end.
Definition Clean (p : string) : string :=
  print_path (IsAbs p) (rev (clean_elems (IsAbs p) [] (Split p slash))).
(** [filepath.Join]: leading empty arguments are skipped. *)
Fixpoint path_Join (es : list string) : string :=
  match es with
  | [] => ""
  | e :: rest => if (e =? "")%string then path_Join rest else Clean (Join es "/")
  end.

(** The components of the file a path names, for a process in the
    directory [cwd]. *)
Definition resolve (cwd : list string) (p : string) : list string :=
  rev (clean_elems true (if IsAbs p then [] else rev cwd) (Split p slash)).
(** [filepath.Rel] on two cleaned absolute paths, given by their
    components: up from what is left of the base, then down. *)
Fixpoint strip_common (base targ : list string) : list string * list string :=
  match base, targ with
  | b :: base', t :: targ' => if (b =? t)%string then strip_common base' targ' else (base, targ)
  | _, _ => (base, targ)
  end.
Definition Rel (base targ : list string) : string :=
  let '(up, down) := strip_common base targ in
  print_path false (replicate (length up) ".."%string ++ down).

(** ** File systems *)

(** A failure, and how far the operation came before it: the bytes of a
    write, the directories of a [MkdirAll]; [None] is before it started. *)
Record FileFault := { ff_err : string; ff_written : option nat }.
Record Files := {
  f_cwd : list string;
  f_getwd : option string;                 (* the error of [os.Getwd] *)
  f_dirs : gset (list string);
  f_files : gmap (list string) string;
  f_faults : list (option FileFault);
}.
Definition set_files (x : gmap (list string) string) (f : Files) : Files :=
  {| f_cwd := f_cwd f; f_getwd := f_getwd f; f_dirs := f_dirs f; f_files := x; f_faults := f_faults f |}.
Definition set_dirs (x : gset (list string)) (f : Files) : Files :=
  {| f_cwd := f_cwd f; f_getwd := f_getwd f; f_dirs := x; f_files := f_files f; f_faults := f_faults f |}.
Definition next_file_fault (f : Files) : option FileFault * Files :=
  match f_faults f with
  | [] => (None, f)
  | o :: l => (o, {| f_cwd := f_cwd f; f_getwd := f_getwd f; f_dirs := f_dirs f; f_files := f_files f; f_faults := l |})
  end.

Definition path_of (f : Files) (p : string) : list string := resolve (f_cwd f) p.
(** [filepath.Abs], by the components of its result. *)
Definition Abs (f : Files) (p : string) : outcome (list string) :=
  match IsAbs p, f_getwd f with
  | false, Some e => Err e
  | _, _ => Ok (path_of f p)
  end.
Definition ReadFile (f : Files) (p : string) : outcome string * Files :=
  let '(o, f) := next_file_fault f in
  match o with
  | Some x => (Err (ff_err x), f)
  | None => (match f_files f !! path_of f p with Some s => Ok s | None => Err "no such file or directory" end, f)
  end.
(** The directories from the root down to [q]. *)
Fixpoint inits (q : list string) : list (list string) :=
  match q with
  | [] => [[]]
  | x :: q => [] :: (cons x <$> inits q)
  end.
(** [os.MkdirAll]: fails where a file stands in the way. *)
Definition MkdirAll (f : Files) (p : string) : outcome unit * Files :=
  let '(o, f) := next_file_fault f in
  let q := path_of f p in
  if existsb (λ d, bool_decide (is_Some (f_files f !! d))) (inits q) then (Err "not a directory", f)
  else match o with
       | Some x => (Err (ff_err x), set_dirs (list_to_set (take (default O (ff_written x)) (inits q)) ∪ f_dirs f) f)
       | None => (Ok (), set_dirs (list_to_set (inits q) ∪ f_dirs f) f)
       end.
(** [os.WriteFile] needs the directory, and a name no directory has. *)
Definition WriteFile (f : Files) (p contents : string) : outcome unit * Files :=
  let '(o, f) := next_file_fault f in
  let q := path_of f p in
  if bool_decide (q ∈ f_dirs f) || negb (bool_decide (removelast q ∈ f_dirs f))
  then (Err "no such file or directory", f)
  else match o with
       | Some x =>
           (Err (ff_err x), match ff_written x with
                            | Some n => set_files (<[q := take_str n contents]> (f_files f)) f
                            | None => f
                            end)
       | None => (Ok (), set_files (<[q := contents]> (f_files f)) f)
       end.
(** [os.ReadDir]: the entries of a directory, directories marked; [None] if
    there is none. *)
Definition child_of (d q : list string) : option string :=
  match strip_common d q with ([], [x]) => Some x | _ => None end.
Definition ReadDir (f : Files) (p : string) : option (list (string * bool)) :=
  let d := path_of f p in
  if bool_decide (d ∈ f_dirs f) then
    Some (((λ x, (x, true)) <$> omap (child_of d) (elements (f_dirs f)))
          ++ ((λ x, (x, false)) <$> omap (λ kv, child_of d kv.1) (map_to_list (f_files f))))
  else None.

(** ** Examples *)

Example Clean_ex : Clean "/a//b/../c/./d/.." = "/a/c"%string ∧ Clean "../x/.." = ".."%string ∧ Clean "" = "."%string ∧ Clean "/.." = "/"%string.
Proof. done. Qed.
Example path_Join_ex : path_Join [""; "a"; "../../b"]%string = "../b"%string.
Proof. done. Qed.
Example Rel_ex : Rel ["a"; "b"] ["a"; "c"; "d"] = "../c/d"%string ∧ Rel ["a"] ["a"] = "."%string ∧ Rel [] ["a"] = "a"%string.
Proof. done. Qed.

(** ** Lemmas on paths *)

(** An element [filepath.Clean] keeps as it is, whatever comes before. *)
Definition plain (e : string) : bool :=
  negb ((e =? "")%string || (e =? ".")%string || (e =? "..")%string) && no_byte slash e.

Lemma Split_slash a b : Split (a +:+ String slash b) slash = Split a slash ++ Split b slash.
Proof.
  induction a as [|c a IH]; simpl; [done|]. rewrite IH.
  destruct (Ascii.eqb c slash); [done|]. pose proof (Split_ne a slash). by destruct (Split a slash).
Qed.
Lemma Split_no_slash s : Forall (λ e, no_byte slash e = true) (Split s slash).
Proof.
  induction s as [|c s IH]; simpl; [repeat constructor|].
  destruct (Ascii.eqb_spec c slash) as [->|Hc]; [by constructor|].
  destruct (Split s slash) as [|x l] eqn:Hs; [by apply Split_ne in Hs|]. inversion_clear IH. constructor; [|done].
  unfold no_byte. simpl. apply andb_true_iff. split; [|done]. rewrite negb_true_iff, Z.eqb_neq. by intros ?%byte_of_inj.
Qed.

Lemma clean_elems_app r out es es' : clean_elems r out (es ++ es') = clean_elems r (clean_elems r out es) es'.
Proof. apply foldl_app. Qed.

(** Elements that cleaning leaves: plain ones, and leading ".." of a
    relative path. *)
Definition kept (e : string) : Prop := plain e = true ∨ e = ".."%string.
Lemma plain_step r out e : plain e = true → clean_step r out e = e :: out.
Proof.
  unfold plain, clean_step. intros [Hn _]%andb_true_iff. apply negb_true_iff in Hn.
  apply orb_false_iff in Hn as [-> ->]. done.
Qed.
Lemma clean_step_kept r out e :
  no_byte slash e = true → Forall kept out → Forall kept (clean_step r out e).
Proof.
  intros He Hout. unfold clean_step.
  destruct ((e =? "")%string || (e =? ".")%string) eqn:H1; [done|].
  destruct (String.eqb_spec e "..") as [->|H2].
  - destruct out as [|x out]; [destruct r; [done|constructor; [by right|done]]|].
    inversion Hout; subst. case_match; [constructor; [by right|done]|done].
  - constructor; [|done]. left. unfold plain. rewrite H1, He. apply String.eqb_neq in H2. by rewrite H2.
Qed.
Lemma clean_elems_kept r out es :
  Forall (λ e, no_byte slash e = true) es → Forall kept out → Forall kept (clean_elems r out es).
Proof.
  revert out. induction es as [|e es IH]; intros out Hes Hout; [done|]. inversion_clear Hes.
  apply IH; [done|]. by apply clean_step_kept.
Qed.
Lemma clean_step_plain out e :
  no_byte slash e = true → Forall (λ x, plain x = true) out → Forall (λ x, plain x = true) (clean_step true out e).
Proof.
  intros He Hout. unfold clean_step.
  destruct ((e =? "")%string || (e =? ".")%string) eqn:H1; [done|].
  destruct (String.eqb_spec e "..") as [->|H2].
  - destruct out as [|x out]; [done|]. inversion_clear Hout as [|?? Hx ?].
    destruct (String.eqb_spec x "..") as [->|]; [done|done].
  - constructor; [|done]. unfold plain. rewrite H1, He. apply String.eqb_neq in H2. by rewrite H2.
Qed.
Lemma clean_elems_plain out es :
  Forall (λ e, no_byte slash e = true) es → Forall (λ x, plain x = true) out →
  Forall (λ x, plain x = true) (clean_elems true out es).
Proof.
  revert out. induction es as [|e es IH]; intros out Hes Hout; [done|]. inversion_clear Hes.
  apply IH; [done|]. by apply clean_step_plain.
Qed.
(** Cleaning first does not change where the elements lead. *)
Lemma clean_step_again acc out e :
  Forall kept out → clean_elems true acc (rev (clean_step false out e)) = clean_step true (clean_elems true acc (rev out)) e.
Proof.
  intros Hout. unfold clean_step at 1. unfold clean_step.
  destruct ((e =? "")%string || (e =? ".")%string) eqn:H1; [done|].
  assert (∀ x l, clean_elems true acc (rev (x :: l)) = clean_step true (clean_elems true acc (rev l)) x) as Hc.
  { intros x l. simpl. by rewrite clean_elems_app. }
  destruct (String.eqb_spec e "..") as [->|H2].
  - destruct out as [|x out]; [done|]. inversion_clear Hout as [|?? Hx ?].
    destruct (String.eqb_spec x "..") as [->|Hne]; [by rewrite Hc|].
    destruct Hx as [Hx|]; [|done]. rewrite Hc, plain_step by done.
    apply String.eqb_neq in Hne. by rewrite Hne.
  - rewrite Hc. unfold clean_step. apply String.eqb_neq in H2. by rewrite H1, H2.
Qed.
Lemma clean_elems_again acc out es :
  Forall (λ e, no_byte slash e = true) es → Forall kept out →
  clean_elems true acc (rev (clean_elems false out es)) = clean_elems true (clean_elems true acc (rev out)) es.
Proof.
  revert out. induction es as [|e es IH]; intros out Hes Hout; [done|]. inversion_clear Hes.
  change (clean_elems false out (e :: es)) with (clean_elems false (clean_step false out e) es).
  rewrite IH by eauto using clean_step_kept. by rewrite clean_step_again.
Qed.
Lemma clean_elems_all_plain r out es : Forall (λ x, plain x = true) es → clean_elems r out es = rev es ++ out.
Proof.
  revert out. induction es as [|e es IH]; intros out Hes; [done|]. inversion_clear Hes.
  change (clean_elems r out (e :: es)) with (clean_elems r (clean_step r out e) es).
  rewrite plain_step, IH by done. simpl. by rewrite <-app_assoc.
Qed.

(** ** Resolution *)

Lemma resolve_plain cwd p : Forall (λ x, plain x = true) cwd → Forall (λ x, plain x = true) (resolve cwd p).
Proof.
  intros Hc. unfold resolve. apply Forall_rev, clean_elems_plain; [apply Split_no_slash|].
  destruct (IsAbs p); [done|by apply Forall_rev].
Qed.
Lemma plain_no_byte e : plain e = true → no_byte slash e = true.
Proof. unfold plain. by intros [_ ?]%andb_true_iff. Qed.
Lemma kept_no_byte e : kept e → no_byte slash e = true.
Proof. intros [?| ->]; [by apply plain_no_byte|done]. Qed.
Lemma Forall_plain_no_byte es : Forall (λ x, plain x = true) es → Forall (λ e, no_byte slash e = true) es.
Proof. intros He. eapply Forall_impl; [exact He|]. apply plain_no_byte. Qed.
Lemma Forall_kept_no_byte es : Forall kept es → Forall (λ e, no_byte slash e = true) es.
Proof. intros He. eapply Forall_impl; [exact He|]. apply kept_no_byte. Qed.
Lemma Join_rooted es : Forall kept es → IsAbs (Join es "/") = false.
Proof.
  intros Hes. destruct es as [|e es]; [done|]. inversion_clear Hes as [|?? He _].
  assert (∃ c e', e = String c e' ∧ c ≠ slash) as (c & e' & -> & Hc).
  { destruct e as [|c e']; [by destruct He|]. exists c, e'. split; [done|]. intros ->.
    apply kept_no_byte in He. unfold no_byte in He. simpl in He. done. }
  unfold IsAbs. apply not_true_iff_false. intros [t Ht]%HasPrefix_spec. destruct es; by injection Ht.
Qed.
(** [Clean] does not change the file a path names. *)
Lemma resolve_Clean cwd p : resolve cwd (Clean p) = resolve cwd p.
Proof.
  unfold resolve, Clean. pose proof (Split_no_slash p) as Hn. destruct (IsAbs p) eqn:Ha.
  - set (es := rev (clean_elems true [] (Split p slash))).
    assert (Forall (λ x, plain x = true) es) as Hp by (by apply Forall_rev, clean_elems_plain).
    change (IsAbs (print_path true es)) with true. cbv iota. unfold print_path.
    change (Split (String slash ?s) slash) with ([""%string] ++ Split s slash). rewrite clean_elems_app. simpl.
    destruct (decide (es = [])) as [E|E].
    + rewrite E. simpl. unfold clean_elems. simpl. by rewrite <-E.
    + rewrite Split_Join by auto using Forall_plain_no_byte.
      rewrite clean_elems_all_plain, app_nil_r, rev_involutive by done. done.
  - set (out := clean_elems false [] (Split p slash)).
    assert (Forall kept out) as Hk by (by apply clean_elems_kept).
    pose proof (clean_elems_again (rev cwd) [] (Split p slash) Hn (Forall_nil_2 _)) as Hag. fold out in Hag. simpl in Hag.
    unfold print_path. destruct (rev out) as [|e es] eqn:E.
    + change (IsAbs ".") with false. cbv iota. f_equal. by rewrite <-Hag.
    + rewrite Join_rooted by (rewrite <-E; by apply Forall_rev). rewrite Split_Join; [by rewrite Hag|done|].
      rewrite <-E. by apply Forall_rev, Forall_kept_no_byte.
Qed.
(** Below a directory, plain names are appended. *)
Lemma plain_ne e : plain e = true → e ≠ ""%string.
Proof. by intros He ->. Qed.
Lemma path_Join_plain cwd p es :
  es ≠ [] → Forall (λ x, plain x = true) es → resolve cwd (path_Join (p :: es)) = resolve cwd p ++ es.
Proof.
  intros Hne Hes. cbn [path_Join]. destruct (String.eqb_spec p "") as [->|Hp].
  - destruct es as [|e es]; [done|]. inversion Hes as [|?? He Hes']; subst.
    cbn [path_Join]. apply plain_ne in He as He'. apply String.eqb_neq in He'. rewrite He', resolve_Clean.
    unfold resolve at 1. rewrite Join_rooted by (eapply Forall_impl; [exact Hes|by left]).
    rewrite Split_Join, clean_elems_all_plain by auto using Forall_plain_no_byte.
    rewrite rev_app_distr, (rev_involutive (e :: es)). done.
  - rewrite resolve_Clean, Join_cons by done. change (p +:+ "/" +:+ ?s)%string with (p +:+ String slash s)%string.
    unfold resolve. assert (∀ t, IsAbs (p +:+ String slash t) = IsAbs p) as -> by (by destruct p).
    rewrite Split_slash, clean_elems_app, Split_Join by auto using Forall_plain_no_byte.
    by rewrite clean_elems_all_plain, rev_app_distr, rev_involutive.
Qed.

(** ** Containment *)

Lemma strip_common_spec b t :
  let '(up, down) := strip_common b t in
  ∃ l, b = l ++ up ∧ t = l ++ down ∧ (up = [] ∨ down = [] ∨ head up ≠ head down).
Proof.
  revert t. induction b as [|x b IH]; intros [|y t]; simpl; try (exists []; naive_solver).
  destruct (String.eqb_spec x y) as [->|Hne].
  - specialize (IH t). destruct (strip_common b t) as [up down]. destruct IH as (l & -> & -> & H). by exists (y :: l).
  - exists []. split_and!; [done..|]. right. right. simpl. congruence.
Qed.
Lemma strip_common_app l t : strip_common l (l ++ t) = ([], t).
Proof. induction l as [|x l IH]; [by destruct t|]. simpl. by rewrite String.eqb_refl. Qed.

(** A relative path stays below its base. *)
Definition stays (rel : string) : bool := negb (rel =? "..")%string && negb (HasPrefix rel "../").
Lemma stays_down down : Forall (λ x, plain x = true) down → stays (print_path false down) = true.
Proof.
  intros Hd. destruct down as [|e down]; [done|]. inversion_clear Hd as [|?? He _].
  assert (e ≠ ".."%string ∧ ∀ t, e ≠ ("../" +:+ t)%string ∧ (e +:+ "/" +:+ t ≠ "..")%string) as (H1 & H2).
  { unfold plain in He. apply andb_true_iff in He as [Hn Hb]. apply negb_true_iff in Hn.
    split; [by intros ->|]. intros t. split; [by intros ->|].
    intros Heq. destruct e as [|c1 [|c2 [|]]]; simplify_eq/=. }
  unfold stays, print_path. apply andb_true_iff. rewrite !negb_true_iff, String.eqb_neq. split.
  - destruct down; [done|]. by apply H2.
  - apply not_true_iff_false. intros [t Ht]%HasPrefix_spec. destruct down as [|d down]; [by destruct (H2 t) as [[] _]|].
    rewrite Join_cons in Ht by done. unfold plain in He. apply andb_true_iff in He as [Hn Hb]. apply negb_true_iff in Hn.
    destruct e as [|c1 [|c2 [|c3 e]]]; simplify_eq/=.
Qed.
Lemma stays_up n down : stays (print_path false (replicate (Datatypes.S n) ".."%string ++ down)) = false.
Proof.
  unfold stays. apply andb_false_iff. change (replicate (S n) ".."%string ++ down) with (".."%string :: (replicate n ".."%string ++ down)).
  destruct (replicate n ".."%string ++ down) as [|e l]; [by left|right].
  unfold print_path. rewrite Join_cons by done. apply negb_false_iff, HasPrefix_spec. by eexists.
Qed.
(** The test on the relative path is the prefix test on components. *)
Lemma stays_prefix base targ :
  Forall (λ x, plain x = true) targ → stays (Rel base targ) = true ↔ base `prefix_of` targ.
Proof.
  intros Ht. unfold Rel. pose proof (strip_common_spec base targ) as Hs.
  destruct (strip_common base targ) as [up down] eqn:E. destruct Hs as (l & -> & -> & Hc). split.
  - destruct up as [|u up]; [|pose proof (stays_up (length up) down); simpl in *; congruence]. intros _. rewrite app_nil_r. by exists down.
  - intros [k Hk]. rewrite Hk, strip_common_app in E. injection E as <- <-.
    simpl. apply stays_down. rewrite Hk in Ht. by apply Forall_app in Ht as [_ ?].
Qed.
