(* ===== verification/CertStore.v ===== *)
(** * Certificates per server name (src/internal/dnsx/certstore.go)

    The store of customer certificates and the choice of one for a TLS
    server name. Reading the directory and parsing certificates are
    parameters; a certificate is the file pair it was loaded from and the
    names of its leaf. *)

From S2P Require Import Prelude GoStrings.

(** [tls.LoadX509KeyPair] and [x509.ParseCertificate] on a directory:
    the certificate, the leaf's DNS names and its common name. *)
Record Loaded (C : Type) := { l_cert : C; DNSNames : list string; CommonName : string }.
Arguments l_cert {C}. Arguments DNSNames {C}. Arguments CommonName {C}.

Record certEntry (C : Type) := { cert : C; covered : list string }.
Arguments cert {C}. Arguments covered {C}. Arguments Build_certEntry {C}.
Definition CertStore (C : Type) : Type := gmap string (certEntry C).

Definition covers_name (host n : string) : bool :=
  (n =? host)%string
  || (HasPrefix n "*." && HasSuffix host (drop_str 1 n) && negb (host =? drop_str 2 n)%string).
Definition covers {C} (e : certEntry C) (host : string) : bool :=
  existsb (covers_name host) (covered e).

Section store.
Context `{UnicodeCase} {C : Type}.

Definition norm_name (n : string) : string := ToLower (TrimSuffix n ".").

(** The names of a loaded certificate. *)
Definition entry_of (l : Loaded C) : certEntry C :=
  let cov := norm_name <$> DNSNames l in
  let cov := if (CommonName l =? "")%string then cov else cov ++ [norm_name (CommonName l)] in
  {| cert := l_cert l; covered := cov |}.
(** One directory entry: name and whether it is a directory. *)
Definition load_entry (load : string → option (Loaded C)) (cs : CertStore C) (ent : string * bool) : CertStore C :=
  if negb ent.2 then cs
  else
    let name := ToLower ent.1 in
    match load name with
    | None => cs
    | Some l => <[name := entry_of l]> cs
    end.
(** [None] is a directory that cannot be read: the old store stays. *)
Definition Reload (dir : option (list (string * bool))) (load : string → option (Loaded C)) (cs : CertStore C) : CertStore C :=
  match dir with
  | None => cs
  | Some ents => foldl (load_entry load) ∅ ents
  end.

Definition try (cs : CertStore C) (name host : string) : option C :=
  match cs !! name with
  | Some e => if covers e host then Some (cert e) else None
  | None => None
  end.
(** The walk over the parents: the text after each dot, left to right. *)
Fixpoint parents (cs : CertStore C) (host rest : string) : option C :=
  match rest with
  | EmptyString => None
  | String c rest =>
      if byte_of c =? 46 then
        match try cs rest host with
        | Some x => Some x
        | None => parents cs host rest
        end
      else parents cs host rest
  end.
Definition Get (cs : CertStore C) (host : string) : option C :=
  let host := norm_name host in
  match try cs host host with
  | Some x => Some x
  | None => parents cs host host
  end.

(** ** Specification *)

(** The proper parents of a name, nearest first. *)
Fixpoint ancestors (s : string) : list string :=
  match s with
  | EmptyString => []
  | String c s => if byte_of c =? 46 then s :: ancestors s else ancestors s
  end.

Lemma ancestors_spec s a : a ∈ ancestors s ↔ ∃ p, s = (p +:+ String "." a)%string.
Proof.
  induction s as [|c s IH]; simpl.
  { split; [by intros ?%not_elem_of_nil|]. intros [p Hp]. by destruct p. }
  destruct (byte_of c =? 46) eqn:Hc; zbool.
  - assert (c = "."%char) as -> by (by apply byte_of_inj). rewrite elem_of_cons, IH. split.
    + intros [->|[p ->]]; [by exists ""|by exists (String "." p)].
    + intros [p Hp]. destruct p as [|d p]; simplify_eq/=; [by left|right; by exists p].
  - rewrite IH. split.
    + intros [p ->]. by exists (String c p).
    + intros [p Hp]. destruct p as [|d p]; simplify_eq/=; by exists p.
Qed.

(** What a reload finds under a name. *)
Lemma load_entries_lookup load name ents (acc : CertStore C) :
  foldl (load_entry load) acc ents !! name =
    if existsb (λ e, e.2 && (ToLower e.1 =? name)%string) ents
    then match load name with Some l => Some (entry_of l) | None => acc !! name end
    else acc !! name.
Proof.
  revert acc. induction ents as [|e ents IH]; intros acc; [done|]. cbn [foldl existsb]. rewrite IH. unfold load_entry. cbv zeta.
  destruct e.2; cbn [negb andb orb]; [|done]. destruct (String.eqb_spec (ToLower e.1) name) as [Hn|Hne]; cbn [orb].
  - rewrite Hn. destruct (load name) as [l|], (existsb _ ents); try done. apply (lookup_insert_eq (M := gmap string)).
  - destruct (load (ToLower e.1)) as [l|]; [|done].
    assert ((<[ToLower e.1 := entry_of l]> acc : CertStore C) !! name = acc !! name) as ->; [|done].
    by apply (lookup_insert_ne (M := gmap string)).
Qed.
Lemma Reload_lookup ents load cs name :
  (name, true) ∈ ents → ToLower name = name → Reload (Some ents) load cs !! name = entry_of <$> load name.
Proof.
  intros Hin Hl. simpl. rewrite load_entries_lookup.
  assert (existsb (λ e, e.2 && (ToLower e.1 =? name)%string) ents = true) as ->.
  { apply existsb_exists. exists (name, true). split; [by apply list_elem_of_In|]. simpl. rewrite Hl. apply String.eqb_refl. }
  by destruct (load name).
Qed.
Lemma Get_first cs host :
  Get cs host = first_match (λ o, bool_decide (is_Some o)) ((λ n, try cs n (norm_name host)) <$> (norm_name host :: ancestors (norm_name host))) ≫= id.
Proof.
  unfold Get. set (h := norm_name host). simpl. destruct (try cs h h) as [x|]; simpl; [done|].
  assert (∀ r, parents cs h r = first_match (λ o, bool_decide (is_Some o)) ((λ n, try cs n h) <$> ancestors r) ≫= id) as ->; [|done].
  induction r as [|c r IH]; [done|]. cbn [parents ancestors]. destruct (byte_of c =? 46); [|done].
  rewrite fmap_cons. destruct (try cs r h) as [x|]; simpl; [done|]. exact IH.
Qed.
End store.

Lemma covers_name_spec host n :
  covers_name host n = true ↔ n = host ∨ ∃ apex label, n = ("*." +:+ apex)%string ∧ host = (label +:+ "." +:+ apex)%string.
Proof.
  unfold covers_name. rewrite orb_true_iff, String.eqb_eq. f_equiv. rewrite !andb_true_iff, negb_true_iff, String.eqb_neq.
  rewrite HasPrefix_spec, HasSuffix_spec. split.
  - intros [[[apex ->] [label Hl]] _]. exists apex, label. split; [done|]. exact Hl.
  - intros (apex & label & -> & ->). split; [split|].
    + by exists apex.
    + by exists label.
    + simpl. intros Heq. apply (f_equal len) in Heq. rewrite !length_append in Heq. simpl in Heq. lia.
Qed.

(** ** Properties *)

(** The certificate chosen for a server name is stored under the
    name itself or one of its parents, the nearest whose certificate covers
    the name, either literally or by a wildcard of a parent domain; no
    certificate is chosen only when none of them covers it. *)
Theorem Get_covers `{UnicodeCase} {C} (cs : CertStore C) host :
  let h := norm_name host in
  match Get cs host with
  | Some x =>
      ∃ name e, (name = h ∨ ∃ p, h = (p +:+ String "." name)%string) ∧ cs !! name = Some e ∧ cert e = x ∧
        (h ∈ covered e ∨ ∃ apex label, ("*." +:+ apex)%string ∈ covered e ∧ h = (label +:+ "." +:+ apex)%string)
  | None => ∀ name e, (name = h ∨ ∃ p, h = (p +:+ String "." name)%string) → cs !! name = Some e → covers e h = false
  end.
Proof.
  intros h. rewrite Get_first. fold h.
  assert (∀ name, name ∈ h :: ancestors h ↔ name = h ∨ ∃ p, h = (p +:+ String "." name)%string) as Hcand.
  { intros name. rewrite elem_of_cons. f_equiv. apply ancestors_spec. }
  destruct (first_match _ _) as [o|] eqn:Hf; simpl.
  - apply first_match_Some in Hf as (l1 & l2 & Hl & Ho & _). zbool. destruct Ho as [x ->]. simpl.
    assert (Some x ∈ (λ n, try cs n h) <$> (h :: ancestors h)) as Hin by (rewrite Hl; set_solver).
    apply list_elem_of_fmap in Hin as (name & Hx & Hn). unfold try in Hx. destruct (cs !! name) as [e|] eqn:He; [|done].
    destruct (covers e h) eqn:Hc; [|done]. injection Hx as ->. exists name, e. split_and!; try done; [by apply Hcand|].
    unfold covers in Hc. rewrite existsb_exists in Hc. destruct Hc as (n & Hn' & Hcn). apply list_elem_of_In in Hn'.
    apply covers_name_spec in Hcn as [Heq|(apex & label & Heq & Hh)]; [left; by rewrite <-Heq|right].
    exists apex, label. split; [rewrite Heq in Hn'; exact Hn'|done].
  - intros name e Hn He. apply first_match_None in Hf. rewrite Forall_fmap, Forall_forall in Hf.
    specialize (Hf name (proj2 (Hcand name) Hn)). simpl in Hf. unfold try in Hf. rewrite He in Hf.
    destruct (covers e h); [|done]. zbool. exfalso. apply Hf. eauto.
Qed.
