(* ===== verification/Threat.v ===== *)
(** * Threat intelligence (src/internal/threatintel/threatintel.go, broadcast.go)

    Domain reputation from a blacklist file and an HTTP service, its cache,
    and the table of domains to block. The HTTP exchange and the decoding of
    its answer are parameters. An alert is the datagram handed to the
    socket; its JSON encoding and its delivery are I/O. *)

From S2P Require Import Prelude GoStrings GoNet Config Model.

Record ThreatInfo := {
  ti_Domain : string; ti_Source : string; ti_Category : string; ti_Severity : string; ti_DetectedAt : Time
}.

(** POST of the domain with the token: status and body; and the decoded
    body (malicious, category, severity), [None] when it does not decode. *)
Class IntelAPI := {
  intel_post : string → string → string → outcome (Z * list Z);
  intel_decode : list Z → option (bool * string * string);
}.

(** ** Blacklist *)

Record blacklist := { exact : gset string; wildcard : list string }.

Section threat.
Context `{UnicodeCase}.

Definition normalize (domain : string) : string := ToLower (TrimSuffix (TrimSpace domain) ".").

Definition blacklist_line (b : blacklist) (line : string) : blacklist :=
  let line := TrimSpace line in
  if (line =? "")%string || HasPrefix line "#" then b
  else
    let d := ToLower (TrimSuffix line ".") in
    if HasPrefix d "*." then {| exact := exact b; wildcard := wildcard b ++ ["." +:+ TrimPrefix d "*."]%string |}
    else {| exact := {[ d ]} ∪ exact b; wildcard := wildcard b |}.
(** The scanner stops at a line that does not fit its buffer. *)
Fixpoint scan_lines (lines : list string) : list string :=
  match lines with
  | [] => []
  | l :: lines => if Z.of_nat (len l) <? 1048576 then l :: scan_lines lines else []
  end.
(** [None] is a file that cannot be opened. *)
Definition loadBlacklist (file : option string) : option blacklist :=
  match file with
  | None => None
  | Some text => Some (foldl blacklist_line {| exact := ∅; wildcard := [] |} (scan_lines (Split text (ascii_of 10))))
  end.
Definition matches (b : option blacklist) (domain : string) : bool :=
  match b with
  | None => false
  | Some b => bool_decide (domain ∈ exact b) || existsb (λ suf, HasSuffix domain suf) (wildcard b)
  end.

(** ** Client *)

Record Client := {
  apiURL : string; token : string; c_blacklist : option blacklist; cacheTTL : Z;
  blockMode : string; blockPool : list IP;
  blocked : gmap string Time; cache : gmap string (option ThreatInfo * Time)
}.
Definition NewClient (cfg : Config) (files : string → option string) : Client :=
  {| apiURL := ThreatIntelURL cfg; token := ThreatIntelToken cfg;
     c_blacklist := if (ThreatIntelBlacklistFile cfg =? "")%string then None
                    else loadBlacklist (files (ThreatIntelBlacklistFile cfg));
     cacheTTL := ThreatIntelCacheTTL cfg; blockMode := ToLower (ThreatBlockMode cfg);
     blockPool := filter (λ ip, is_nil ip = false) ((λ s, ParseIP (TrimSpace s)) <$> Split (ThreatBlockPool cfg) ",");
     blocked := ∅; cache := ∅ |}.
Definition with_cache (c : Client) (m : gmap string (option ThreatInfo * Time)) : Client :=
  {| apiURL := apiURL c; token := token c; c_blacklist := c_blacklist c; cacheTTL := cacheTTL c;
     blockMode := blockMode c; blockPool := blockPool c; blocked := blocked c; cache := m |}.
Definition with_blocked (c : Client) (m : gmap string Time) : Client :=
  {| apiURL := apiURL c; token := token c; c_blacklist := c_blacklist c; cacheTTL := cacheTTL c;
     blockMode := blockMode c; blockPool := blockPool c; blocked := m; cache := cache c |}.

Definition block_off (c : Client) : bool := (blockMode c =? "")%string || (blockMode c =? "off")%string.

Definition rememberBlocked (c : Client) (domain : string) (now : Time) : Client :=
  if block_off c then c else with_blocked c (<[domain := now]> (blocked c)).

(** [rnd] is [rand.Intn]. *)
Definition sinkholeIP (rnd : Z → Z) (c : Client) : IP :=
  let n := Z.of_nat (length (blockPool c)) in
  if (blockMode c =? "random")%string && (0 <? n)
  then default (IPv4 127 0 0 1) (blockPool c !! Z.to_nat (rnd n))
  else IPv4 127 0 0 1.

Definition threat (domain source : string) (now : Time) : ThreatInfo :=
  {| ti_Domain := domain; ti_Source := source; ti_Category := "blocked"; ti_Severity := "high"; ti_DetectedAt := now |}.

Definition Block (rnd : Z → Z) (c : Client) (domain : string) (now : Time) : option (ThreatInfo * IP) :=
  if block_off c then None
  else
    let domain := normalize domain in
    if (domain =? "")%string then None
    else if matches (c_blacklist c) domain then Some (threat domain "blacklist" now, sinkholeIP rnd c)
    else match blocked c !! domain with
         | Some _ => Some (threat domain "api" now, sinkholeIP rnd c)
         | None => None
         end.

Context `{IntelAPI}.

Definition lookupAPI (c : Client) (domain : string) (now : Time) : option ThreatInfo :=
  match intel_post (apiURL c) (token c) domain with
  | Ok (status, body) =>
      if negb (status =? 200) then None
      else match intel_decode body with
           | Some (true, category, severity) =>
               Some {| ti_Domain := domain; ti_Source := "api";
                       ti_Category := if (category =? "")%string then "malicious" else category;
                       ti_Severity := if (severity =? "")%string then "medium" else severity;
                       ti_DetectedAt := now |}
           | _ => None
           end
  | _ => None
  end.

(** The result when the cache does not answer. *)
Definition check_sources (c : Client) (domain : string) (now : Time) : option ThreatInfo :=
  if matches (c_blacklist c) domain
  then Some {| ti_Domain := domain; ti_Source := "blacklist"; ti_Category := "blocked"; ti_Severity := "high"; ti_DetectedAt := now |}
  else if (apiURL c =? "")%string then None else lookupAPI c domain now.
Definition cached (c : Client) (domain : string) (now : Time) : option (option ThreatInfo) :=
  match cache c !! domain with
  | Some (hit, seen) => if now - seen <? cacheTTL c then Some hit else None
  | None => None
  end.
Definition Check_ (c : Client) (domain : string) (now : Time) : Client * option ThreatInfo :=
  let domain := normalize domain in
  if (domain =? "")%string then (c, None)
  else match cached c domain now with
       | Some hit => (c, hit)
       | None =>
           let hit := check_sources c domain now in
           let c := with_cache c (<[domain := (hit, now)]> (cache c)) in
           (match hit with Some _ => rememberBlocked c domain now | None => c end, hit)
       end.
End threat.

(** ** Broadcast *)

Record Alert := {
  al_Type : string; al_Domain : string; al_ClientIP : string; al_Category : string; al_Severity : string;
  al_Source : string; al_Timestamp : string
}.
(** The destination; the socket is open while the value exists. *)
Record Broadcaster := { b_IP : IP; b_Port : Z }.
(** [listen] is the result of opening the socket. *)
Definition NewBroadcaster (listen : outcome unit) (addr : string) (port : Z) : outcome Broadcaster :=
  match listen with
  | Ok _ => Ok {| b_IP := ParseIP addr; b_Port := port |}
  | Err e => Err e
  | Panic => Panic
  end.
(** The datagram sent and its destination; [rfc3339] is [time.Format]. *)
Definition Broadcast (rfc3339 : Time → string) (b : option Broadcaster) (hit : option ThreatInfo) (clientIP : string)
    (now : Time) : option (IP * Z * Alert) :=
  match b, hit with
  | Some b, Some hit =>
      Some (b_IP b, b_Port b,
            {| al_Type := "dns_threat_alert"; al_Domain := ti_Domain hit; al_ClientIP := clientIP;
               al_Category := ti_Category hit; al_Severity := ti_Severity hit; al_Source := ti_Source hit;
               al_Timestamp := rfc3339 now |})
  | _, _ => None
  end.

(** ** Lemmas *)

Section lemmas.
Context `{UnicodeCase} `{IntelAPI}.

(** What one line of the file lists. *)
Definition lists (line domain : string) : Prop :=
  let l := TrimSpace line in
  l ≠ "" ∧ HasPrefix l "#" = false ∧
  let d := ToLower (TrimSuffix l ".") in
  if HasPrefix d "*." then ∃ label, domain = (label +:+ "." +:+ TrimPrefix d "*.")%string else domain = d.

Lemma blacklist_line_spec b line domain :
  matches (Some (blacklist_line b line)) domain = true ↔ matches (Some b) domain = true ∨ lists line domain.
Proof.
  unfold blacklist_line, lists. set (l := TrimSpace line).
  destruct (String.eqb_spec l "") as [Hl|Hl]; [simpl; naive_solver|]. destruct (HasPrefix l "#") eqn:Hh; [simpl; naive_solver|].
  cbn [orb]. set (d := ToLower (TrimSuffix l ".")). destruct (HasPrefix d "*."); unfold matches; cbn [exact wildcard].
  - rewrite existsb_app, !orb_true_iff. cbn [existsb]. rewrite orb_false_r, HasSuffix_spec. naive_solver.
  - rewrite !orb_true_iff, !bool_decide_eq_true. set_solver.
Qed.
Lemma blacklist_lines_spec lines b domain :
  matches (Some (foldl blacklist_line b lines)) domain = true ↔
  matches (Some b) domain = true ∨ ∃ line, line ∈ lines ∧ lists line domain.
Proof.
  revert b. induction lines as [|l lines IH]; intros b; cbn [foldl]; [set_solver|].
  rewrite IH, blacklist_line_spec. set_solver.
Qed.

Definition run_checks (c : Client) (h : list (string * Time)) : Client :=
  foldl (λ c x, (Check_ c x.1 x.2).1) c h.

(** Every cached hit is in the blocking table. *)
Definition hits_blocked (c : Client) : Prop :=
  block_off c = false → ∀ d hit seen, cache c !! d = Some (Some hit, seen) → is_Some (blocked c !! d).

Lemma Check_fields c d now :
  let c' := (Check_ c d now).1 in
  block_off c' = block_off c ∧ c_blacklist c' = c_blacklist c ∧
  (∀ k, is_Some (blocked c !! k) → is_Some (blocked c' !! k)).
Proof.
  unfold Check_. destruct (_ =? "")%string; [done|]. destruct (cached _ _ _); [done|].
  destruct (check_sources _ _ _); [|done]. cbn [fst]. unfold rememberBlocked.
  case_match; [done|]. split_and!; [done..|]. intros k Hk. simpl. apply lookup_insert_is_Some'. by right.
Qed.
Lemma Check_hits_blocked c d now : hits_blocked c → hits_blocked (Check_ c d now).1.
Proof.
  intros Hc. pose proof (Check_fields c d now) as (Hoff & _ & Hmono). intros Hon. rewrite Hoff in Hon.
  specialize (Hc Hon). unfold Check_ in *. destruct (_ =? "")%string; [done|].
  destruct (cached _ _ _); [done|]. cbn [fst] in *.
  intros k hit seen Hk. destruct (decide (k = normalize d)) as [->|Hne].
  - destruct (check_sources c (normalize d) now) as [h|] eqn:Hs.
    + unfold rememberBlocked. change (block_off (with_cache _ _)) with (block_off c). rewrite Hon. simpl.
      by rewrite lookup_insert_eq.
    + simpl in Hk. rewrite lookup_insert_eq in Hk. done.
  - apply Hmono. apply (Hc k hit seen). destruct (check_sources c (normalize d) now).
    + unfold rememberBlocked in Hk. change (block_off (with_cache _ _)) with (block_off c) in Hk. rewrite Hon in Hk.
      simpl in Hk. by rewrite lookup_insert_ne in Hk by done.
    + simpl in Hk. by rewrite lookup_insert_ne in Hk by done.
Qed.
Lemma run_checks_inv h c :
  hits_blocked c →
  hits_blocked (run_checks c h) ∧ block_off (run_checks c h) = block_off c ∧ c_blacklist (run_checks c h) = c_blacklist c ∧
  (∀ k, is_Some (blocked c !! k) → is_Some (blocked (run_checks c h) !! k)).
Proof.
  revert c. induction h as [|[d now] h IH]; intros c Hc; [done|]. cbn [run_checks foldl fst snd].
  destruct (IH _ (Check_hits_blocked c d now Hc)) as (H1 & H2 & H3 & H4).
  destruct (Check_fields c d now) as (F1 & F2 & F3). unfold run_checks in *. cbn [foldl fst snd].
  split_and!; [done|congruence|congruence|auto].
Qed.

(** A hit of [Check_] is blacklisted or in the table afterwards. *)
Lemma Check_hit c d now c' hit :
  hits_blocked c → block_off c = false → Check_ c d now = (c', Some hit) →
  normalize d ≠ "" ∧ is_Some (blocked c' !! normalize d).
Proof.
  intros Hc Hon. unfold Check_. destruct (String.eqb_spec (normalize d) "") as [|Hne]; [done|].
  unfold cached. destruct (cache c !! normalize d) as [[h seen]|] eqn:Hk; [destruct (now - seen <? cacheTTL c)|].
  - intros [= <- ->]. eauto.
  - intros [= <- Hs]. rewrite Hs. unfold rememberBlocked. change (block_off (with_cache _ _)) with (block_off c).
    rewrite Hon. simpl. rewrite lookup_insert_eq. eauto.
  - intros [= <- Hs]. rewrite Hs. unfold rememberBlocked. change (block_off (with_cache _ _)) with (block_off c).
    rewrite Hon. simpl. rewrite lookup_insert_eq. eauto.
Qed.

(** Whether the sources list a domain does not depend on the time, and the
    cache agrees with them. *)
Definition malicious (c : Client) (domain : string) : bool :=
  match check_sources c domain 0 with Some _ => true | None => false end.
Definition found (hit : option ThreatInfo) : bool := match hit with Some _ => true | None => false end.
Definition cache_sound (c : Client) : Prop :=
  ∀ d hit seen, cache c !! d = Some (hit, seen) → found hit = malicious c d.
Lemma malicious_at c d now : found (check_sources c d now) = malicious c d.
Proof. unfold malicious, check_sources, lookupAPI. by repeat case_match. Qed.
Lemma check_sources_domain c d now hit : check_sources c d now = Some hit → ti_Domain hit = d.
Proof. unfold check_sources, lookupAPI. by repeat case_match; intros; simplify_eq/=. Qed.
Lemma remembered_malicious c d now k : malicious (rememberBlocked c d now) k = malicious c k.
Proof. unfold rememberBlocked. by destruct (block_off c). Qed.
Lemma remembered_cache c d now : cache (rememberBlocked c d now) = cache c.
Proof. unfold rememberBlocked. by destruct (block_off c). Qed.
Lemma Check_malicious c d now k : malicious (Check_ c d now).1 k = malicious c k.
Proof.
  unfold Check_. destruct (_ =? "")%string; [done|]. destruct (cached _ _ _); [done|].
  destruct (check_sources _ _ _); cbn [fst]; [by rewrite remembered_malicious|done].
Qed.
Lemma Check_cache_sound c d now : cache_sound c → cache_sound (Check_ c d now).1.
Proof.
  intros Hc k hit seen. rewrite Check_malicious. unfold Check_. destruct (_ =? "")%string; [apply Hc|].
  destruct (cached _ _ _); [apply Hc|]. cbn [fst].
  assert (∀ c', cache c' = <[normalize d := (check_sources c (normalize d) now, now)]> (cache c) →
    cache c' !! k = Some (hit, seen) → found hit = malicious c k) as Hnew.
  { intros c' ->. destruct (decide (k = normalize d)) as [->|Hne].
    - rewrite lookup_insert_eq. intros [= <- _]. apply malicious_at.
    - rewrite lookup_insert_ne by done. apply Hc. }
  apply Hnew. destruct (check_sources _ _ _) eqn:Hs; [by rewrite remembered_cache|done].
Qed.
(** A check finds exactly the domains the sources list. *)
Lemma Check_found c d now : cache_sound c → normalize d ≠ "" → found (Check_ c d now).2 = malicious c (normalize d).
Proof.
  intros Hc Hne. unfold Check_. rewrite (proj2 (String.eqb_neq _ _) Hne).
  unfold cached. destruct (cache c !! normalize d) as [[h seen]|] eqn:Hk; [|apply malicious_at].
  destruct (now - seen <? cacheTTL c); [by apply Hc in Hk|apply malicious_at].
Qed.
(** A domain in the table is blocked. *)
Lemma Block_known c d rnd now :
  block_off c = false → normalize d ≠ "" → is_Some (blocked c !! normalize d) →
  ∃ ti, Block rnd c d now = Some (ti, sinkholeIP rnd c) ∧ ti_Domain ti = normalize d.
Proof.
  intros Hon Hne [t Ht]. unfold Block. rewrite Hon, (proj2 (String.eqb_neq _ _) Hne), Ht. case_match; eauto.
Qed.
End lemmas.

(** ** Properties *)

(** A domain matches the blacklist loaded from a file exactly
    when some line lists it: literally, or as a proper subdomain of a
    wildcard entry. *)
Theorem blacklist_spec `{UnicodeCase} text domain :
  matches (loadBlacklist (Some text)) domain = true ↔
  ∃ line, line ∈ scan_lines (Split text (ascii_of 10)) ∧ lists line domain.
Proof.
  unfold loadBlacklist. rewrite blacklist_lines_spec. split; [|by right].
  intros [Hm|Hm]; [|done]. simpl in Hm. rewrite bool_decide_eq_false_2 in Hm by set_solver. done.
Qed.

(** With blocking on, a domain the intelligence lookup has flagged
    once is blocked by every later synchronous check in the life of the
    process, whatever lookups run in between. *)
Theorem threat_stays_blocked `{UnicodeCase} `{IntelAPI} cfg files before d now after rnd now' hit c' :
  let c := run_checks (NewClient cfg files) before in
  block_off (NewClient cfg files) = false → Check_ c d now = (c', Some hit) →
  ∃ ti ip, Block rnd (run_checks c' after) d now' = Some (ti, ip) ∧ ti_Domain ti = normalize d.
Proof.
  intros c Hon Hc.
  assert (hits_blocked (NewClient cfg files)) as Hinit by (intros _ k h s; simpl; by rewrite lookup_empty).
  destruct (run_checks_inv before _ Hinit) as (Hinv & Hoff & _ & _). fold c in Hinv, Hoff. rewrite Hon in Hoff.
  destruct (Check_hit c d now c' hit Hinv Hoff Hc) as [Hne Hb].
  pose proof (Check_hits_blocked c d now Hinv) as Hinv'. pose proof (Check_fields c d now) as (Hoff' & _ & _).
  rewrite Hc in Hinv', Hoff'. cbn [fst] in *.
  destruct (run_checks_inv after c' Hinv') as (_ & Hoff'' & _ & Hmono).
  destruct (Block_known (run_checks c' after) d rnd now') as (ti & ? & ?); [congruence|done|auto|eauto].
Qed.
Definition demo_intel : IntelAPI := {|
  intel_post _ _ d := if (d =? "evil.example")%string then Ok (200, [1]) else Ok (200, [0]);
  intel_decode b := if bool_decide (b = [1]) then Some (true, "c2", "") else Some (false, "", "");
|}.
Definition threat_config : Config :=
  @config_of_env (λ _, None) "h1" (<["THREAT_INTEL_URL" := "http://intel/"]> (<["THREAT_BLOCK_MODE" := "127.0.0.1"]> demo_env)).
Lemma threat_stays_blocked_witness :
  ∃ ti ip, @Block ascii_case (λ n, 0)
     (@run_checks ascii_case demo_intel
        (@Check_ ascii_case demo_intel (@NewClient ascii_case threat_config (λ _, None)) "Evil.example." 5).1
        [("www.example", 6)]) "evil.EXAMPLE" 7 = Some (ti, ip) ∧ ti_Domain ti = "evil.example".
Proof.
  destruct (@Check_ ascii_case demo_intel (@NewClient ascii_case threat_config (λ _, None)) "evil.EXAMPLE" 5) as [c' [hit|]] eqn:E;
    [|vm_compute in E; discriminate].
  destruct (@threat_stays_blocked ascii_case demo_intel threat_config (λ _, None) [] "evil.EXAMPLE" 5 [("www.example", 6)] (λ n, 0) 7 hit c')
    as (ti & ip & Hb & Hd).
  - vm_compute. reflexivity.
  - exact E.
  - exists ti, ip. split; [|rewrite Hd; vm_compute; reflexivity].
    rewrite <-Hb. vm_compute in E. injection E as <- _. vm_compute. reflexivity.
Defined.
