(* ===== verification/Warmup.v ===== *)
(** * Hot domains and active subnets (src/internal/dnsx/warmup.go,
      handler.go [reloadHotSet])

    The Redis sets that steer pre-warming: the subnets seen per tenant and
    the hot domains. The jobs themselves run the pipeline and are modelled
    with it, in [Handler]. *)

From S2P Require Import Prelude GoStrings GoNet Config Model DnsMsg Ecs StoreCache AnswerCache RateLimit.

(** SADD, SISMEMBER and SMEMBERS. *)
Class RedisSets (R : Type) := {
  rdb_sadd : R → Time → string → list string → R * option string;
  rdb_sismember : R → Time → string → string → outcome bool;
  rdb_smembers : R → Time → string → outcome (list string);
}.
(** Documented behaviour: SADD makes exactly the given values members of the
    set, in addition to the present ones, and changes no other key; DEL
    empties the sets of its keys and changes no other key. *)
Class RedisSetsLaws (R : Type) `{Redis R} `{RedisSets R} : Prop := {
  sismember_sadd : ∀ r now now' k vs k' v,
    (rdb_sadd r now k vs).2 = None →
    rdb_sismember (rdb_sadd r now k vs).1 now' k' v =
    if bool_decide (k = k' ∧ v ∈ vs) then Ok true else rdb_sismember r now' k' v;
  sismember_del : ∀ r now now' k k' v,
    (rdb_del r now [k]).2 = None →
    rdb_sismember (rdb_del r now [k]).1 now' k' v =
    if bool_decide (k = k') then Ok false else rdb_sismember r now' k' v;
}.

Fixpoint insert_string (x : string) (l : list string) : list string :=
  match l with
  | [] => [x]
  | y :: l => if String.leb x y then x :: y :: l else y :: insert_string x l
  end.
(** [sort.Strings] *)
Definition sort_strings (l : list string) : list string := foldr insert_string [] l.

Section warmup.
Context `{UnicodeCase} {R : Type} `{Redis R} `{RedisCount R} `{RedisSets R}.

Definition TrackActiveECS (rdb : option R) (now : Time) (tenantID ecs : string) : option R :=
  match rdb with
  | None => None
  | Some r =>
      if (tenantID =? "")%string || (ecs =? "")%string then Some r
      else
        let r := (rdb_sadd r now (ECSActiveSetKey tenantID) [ecs]).1 in
        Some (rdb_expire r now (ECSActiveSetKey tenantID) (7 * 24 * hour))
  end.
Definition ActiveECS (rdb : option R) (now : Time) (tenantID : string) : list string :=
  match rdb with
  | None => []
  | Some r => match rdb_smembers r now (ECSActiveSetKey tenantID) with
              | Ok ms => sort_strings ms
              | _ => []
              end
  end.

Definition hot_key (tenantID : string) : string := ("dns:hot:" +:+ Safe tenantID)%string.
Definition is_member (r : R) (now : Time) (key v : string) : bool :=
  match rdb_sismember r now key v with Ok b => b | _ => false end.
(** The names tried: the name itself, then its parents down to two labels. *)
Definition hot_candidates (qname : string) : list string :=
  let q := ToLower (TrimSuffix qname ".") in
  let parts := Split q "." in
  q :: ((λ i, Join (drop i parts) ".") <$> seq 1 (length parts - 2)).
Definition isHotDomain (rdb : option R) (now : Time) (tenantID qname : string) : bool :=
  match rdb with
  | None => false
  | Some r => existsb (is_member r now (hot_key tenantID)) (hot_candidates qname)
  end.

(** [byTenant]: the enabled hot domains by tenant, ["*"] for global ones. *)
Definition hot_step (m : gmap string (list string)) (h : HotDomain) : gmap string (list string) :=
  if h_Enabled h then
    let tid := if (h_TenantID h =? "")%string then "*" else h_TenantID h in
    <[tid := default [] (m !! tid) ++ [ToLower (h_Domain h)]]> m
  else m.
Definition hot_by_tenant (hots : list HotDomain) : gmap string (list string) := foldl hot_step ∅ hots.
Definition reload_hot_tenant (now : Time) (r : R) (td : string * list string) : R :=
  let key := hot_key td.1 in
  let r := (rdb_del r now [key]).1 in
  match td.2 with
  | [] => r
  | _ => (rdb_sadd r now key td.2).1
  end.
Definition reloadHotSet (rdb : option R) (now : Time) (hots : list HotDomain) : option R :=
  match rdb with
  | None => None
  | Some r => Some (foldl (reload_hot_tenant now) r (map_to_list (hot_by_tenant hots)))
  end.
End warmup.

(** ** An executable Redis

    Strings, counters and sets in one record, for evaluation; nothing
    expires. *)

Record DemoRedis := { dr_str : gmap string string; dr_set : gmap string (gset string) }.
#[global] Instance demo_redis : Redis DemoRedis := {
  rdb_get r _ k := Ok (dr_str r !! k);
  rdb_set r _ k v _ := ({| dr_str := <[k := v]> (dr_str r); dr_set := dr_set r |}, None);
  rdb_del r _ ks := ({| dr_str := foldl (λ m k, delete k m) (dr_str r) ks;
                        dr_set := foldl (λ m k, delete k m) (dr_set r) ks |}, None);
  rdb_scan r _ pat := (filter (λ k, HasPrefix k (TrimSuffix pat "*") = true) (map_to_list (dr_str r)).*1, None);
}.
#[global] Instance demo_redis_count : RedisCount DemoRedis := {
  (* a counter is a string of digits *)
  rdb_incr r _ k :=
    match match dr_str r !! k with Some v => Atoi v | None => Some 0 end with
    | Some n =>
        if n <? 9223372036854775807 then ({| dr_str := <[k := fmt_d (n + 1)]> (dr_str r); dr_set := dr_set r |}, Ok (n + 1))
        else (r, Err "ERR increment or decrement would overflow")
    | None => (r, Err "ERR value is not an integer or out of range")
    end;
  rdb_expire r _ _ _ := r;
}.
#[global] Instance demo_redis_sets : RedisSets DemoRedis := {
  rdb_sadd r _ k vs := ({| dr_str := dr_str r;
                           dr_set := <[k := list_to_set vs ∪ default ∅ (dr_set r !! k)]> (dr_set r) |}, None);
  rdb_sismember r _ k v := Ok (bool_decide (v ∈ (default ∅ (dr_set r !! k) : gset string)));
  rdb_smembers r _ k := Ok (elements (default ∅ (dr_set r !! k)));
}.
Definition empty_redis : DemoRedis := {| dr_str := ∅; dr_set := ∅ |}.
#[global] Instance demo_redis_laws : RedisSetsLaws DemoRedis.
Proof.
  split.
  - intros r now now' k vs k' v _. simpl. destruct (decide (k = k' ∧ v ∈ vs)) as [Hc|Hc].
    + rewrite (bool_decide_eq_true_2 (k = k' ∧ v ∈ vs)) by done. destruct Hc as [-> Hv].
      rewrite lookup_insert_eq. simpl. f_equal. apply bool_decide_eq_true. set_solver.
    + rewrite (bool_decide_eq_false_2 (k = k' ∧ v ∈ vs)) by done. f_equal. apply bool_decide_ext.
      destruct (decide (k = k')) as [->|Hne].
      * rewrite lookup_insert_eq. simpl. set_solver.
      * by rewrite lookup_insert_ne.
  - intros r now now' k k' v _. simpl. destruct (decide (k = k')) as [->|Hc].
    + rewrite (bool_decide_eq_true_2 (k' = k')) by done. f_equal.
      rewrite lookup_delete_eq. simpl. apply bool_decide_eq_false. set_solver.
    + rewrite (bool_decide_eq_false_2 (k = k')) by done. by rewrite lookup_delete_ne.
Qed.
#[global] Instance demo_redis_str_laws : RedisLaws DemoRedis.
Proof.
  split; simpl.
  - intros. rewrite lookup_insert_eq. set_solver.
  - intros. by rewrite lookup_insert_ne.
Qed.

(** ** Properties *)

Section hot_lemmas.
Context `{UnicodeCase} {R : Type} `{Redis R} `{RedisCount R} `{RedisSets R} `{!RedisSetsLaws R}.

(** A reload changes only the sets of the tenants it has domains for. *)
Lemma reload_hot_other now l : ∀ r now' key v,
  (∀ r k, (rdb_del r now [k]).2 = None) → (∀ r k vs, (rdb_sadd r now k vs).2 = None) →
  (∀ td, td ∈ l → hot_key td.1 ≠ key) →
  rdb_sismember (foldl (reload_hot_tenant now) r l) now' key v = rdb_sismember r now' key v.
Proof.
  induction l as [|td l IH]; intros r now' key v Hd Hs Hk; [done|]. cbn [foldl].
  rewrite IH; [|done|done|set_solver]. assert (hot_key td.1 ≠ key) as Hne by (apply Hk; left).
  unfold reload_hot_tenant.
  assert (∀ r, rdb_sismember (rdb_del r now [hot_key td.1]).1 now' key v = rdb_sismember r now' key v) as Hdel.
  { intros r0. rewrite sismember_del by done. by rewrite bool_decide_eq_false_2. }
  destruct td.2 as [|d ds]; [apply Hdel|].
  rewrite sismember_sadd by done. rewrite bool_decide_eq_false_2 by (by intros [? _]). apply Hdel.
Qed.
Lemma hot_by_tenant_global hots td :
  Forall (λ h, h_TenantID h = "") hots → td ∈ map_to_list (hot_by_tenant hots) → td.1 = "*".
Proof.
  intros Hg. unfold hot_by_tenant. destruct td as [tid ds]. rewrite elem_of_map_to_list. simpl.
  assert (∀ m : gmap string (list string), (∀ k x, m !! k = Some x → k = "*") →
            ∀ k x, foldl hot_step m hots !! k = Some x → k = "*") as Hgen.
  { induction Hg as [|h hots Hh _ IH]; intros m Hm; [done|]. cbn [foldl]. apply IH. unfold hot_step.
    destruct (h_Enabled h); [|done]. rewrite Hh. simpl. intros k x [[<- _]|[_ ?]]%lookup_insert_Some; [done|eauto]. }
  apply Hgen. intros k x. by rewrite lookup_empty.
Qed.
End hot_lemmas.

(** Hot domains configured for all tenants are stored under the key
    of the pseudo-tenant "*", which the check of a tenant's name never
    reads: reloading any list of global hot domains changes the verdict for
    no tenant, so adaptive warming never applies to them. *)
Theorem global_hot_ignored `{UnicodeCase} {R} `{Redis R} `{RedisCount R} `{RedisSets R} `{!RedisSetsLaws R} (r : R) now now' hots tenantID qname :
  Forall (λ h, h_TenantID h = "") hots → Safe tenantID ≠ Safe "*" →
  (∀ r k, (rdb_del r now [k]).2 = None) → (∀ r k vs, (rdb_sadd r now k vs).2 = None) →
  isHotDomain (reloadHotSet (Some r) now hots) now' tenantID qname = isHotDomain (Some r) now' tenantID qname.
Proof.
  intros Hg Ht Hd Hs. unfold reloadHotSet, isHotDomain.
  assert (∀ v, rdb_sismember (foldl (reload_hot_tenant now) r (map_to_list (hot_by_tenant hots))) now' (hot_key tenantID) v
           = rdb_sismember r now' (hot_key tenantID) v) as Heq.
  { intros v. apply reload_hot_other; [done..|]. intros td Htd. rewrite (hot_by_tenant_global hots td) by done.
    unfold hot_key. intros Hk%append_inj_l. congruence. }
  induction (hot_candidates qname) as [|c cs IH]; [done|]. cbn [existsb]. rewrite IH. f_equal.
  unfold is_member. by rewrite Heq.
Qed.
Definition demo_hot (tid d : string) : HotDomain :=
  {| h_ID := d; h_TenantID := tid; h_Domain := d; h_Weight := 1; h_Enabled := true |}.
Lemma global_hot_ignored_witness :
  @isHotDomain ascii_case _ _ (@reloadHotSet ascii_case _ _ _ (Some empty_redis) 0 [demo_hot "" "example.com"]) 1 "t1" "www.example.com." = false ∧
  @isHotDomain ascii_case _ _ (@reloadHotSet ascii_case _ _ _ (Some empty_redis) 0 [demo_hot "t1" "example.com"]) 1 "t1" "www.example.com." = true.
Proof.
  split; [|vm_compute; reflexivity].
  rewrite (@global_hot_ignored ascii_case _ _ _ _ _ empty_redis 0 1 [demo_hot "" "example.com"] "t1" "www.example.com.").
  - vm_compute. reflexivity.
  - repeat constructor.
  - vm_compute. discriminate.
  - reflexivity.
  - reflexivity.
Defined.
