(* ===== verification/Handler.v ===== *)
(** * The request pipeline (src/internal/dnsx/handler.go, warmup.go)

    [Process] composes the components: validation, tenant, rate limit,
    client subnet, blocking, cache, split rules, upstream exchange, DNSSEC
    policy, cache write, logging and counters. The state every request
    shares is [Core]; a request is one call with the instants it reads the
    clock at. Repository lookups, the network and the stores are parameters.
    The Redis client the limiter and the warm-up share is the limiter's. *)

From S2P Require Import Prelude GoStrings GoNet Config Model DnsMsg Ecs Split StoreCache.
From S2P Require Import AnswerCache Dnssec RateLimit Metrics Upstream Ipdb Dualstack Threat Warmup.

(** ** State *)

Record RequestMeta := {
  Via : string; SNI : string; Prefix : string; MTenant : option Tenant; ClientIP : IP;
  Internal : bool; SimulateECS : option ECSInfo; SkipRateLimit : bool
}.

(** A refresh the adaptive-warm hook has started. *)
Record WarmReq := { w_tenant : string; w_qname : string; w_qtype : string; w_ecs : option ECSInfo }.

(** [logger] is [None] without a query log, otherwise the rows handed to
    it; [threatq] is the channel [threatCh]; [refresh] the background
    refreshes started so far. *)
Record Core (S R : Type) := {
  c_cfg : Config; c_store : S; c_limiter : Limiter R; c_stats : Stats; c_up : Manager;
  c_split : Splitter; c_sec : Validator; c_dualstack : Dualstack; c_threat : option Threat.Client;
  threatq : list (string * string); byUpstream : CounterSet.t; byTenantQ : CounterSet.t;
  logger : option (list QueryLogRow); refresh : list WarmReq
}.
Arguments c_cfg {S R}. Arguments c_store {S R}. Arguments c_limiter {S R}. Arguments c_stats {S R}.
Arguments c_up {S R}. Arguments c_split {S R}. Arguments c_sec {S R}. Arguments c_dualstack {S R}.
Arguments c_threat {S R}. Arguments threatq {S R}. Arguments byUpstream {S R}. Arguments byTenantQ {S R}.
Arguments logger {S R}. Arguments refresh {S R}. Arguments Build_Core {S R}.

Section setters.
Context {S R : Type}.
Definition set_store (x : S) (c : Core S R) : Core S R :=
  let 'Build_Core a b d e f g h i j k l m n o := c in Build_Core a x d e f g h i j k l m n o.
Definition set_limiter (x : Limiter R) (c : Core S R) : Core S R :=
  let 'Build_Core a b d e f g h i j k l m n o := c in Build_Core a b x e f g h i j k l m n o.
Definition set_stats (x : Stats) (c : Core S R) : Core S R :=
  let 'Build_Core a b d e f g h i j k l m n o := c in Build_Core a b d x f g h i j k l m n o.
Definition set_up (x : Manager) (c : Core S R) : Core S R :=
  let 'Build_Core a b d e f g h i j k l m n o := c in Build_Core a b d e x g h i j k l m n o.
Definition set_split (x : Splitter) (c : Core S R) : Core S R :=
  let 'Build_Core a b d e f g h i j k l m n o := c in Build_Core a b d e f x h i j k l m n o.
Definition set_dualstack (x : Dualstack) (c : Core S R) : Core S R :=
  let 'Build_Core a b d e f g h i j k l m n o := c in Build_Core a b d e f g h x j k l m n o.
Definition set_threat (x : option Threat.Client) (c : Core S R) : Core S R :=
  let 'Build_Core a b d e f g h i j k l m n o := c in Build_Core a b d e f g h i x k l m n o.
Definition set_threatq (x : list (string * string)) (c : Core S R) : Core S R :=
  let 'Build_Core a b d e f g h i j k l m n o := c in Build_Core a b d e f g h i j x l m n o.
Definition set_byUpstream (x : CounterSet.t) (c : Core S R) : Core S R :=
  let 'Build_Core a b d e f g h i j k l m n o := c in Build_Core a b d e f g h i j k x m n o.
Definition set_byTenantQ (x : CounterSet.t) (c : Core S R) : Core S R :=
  let 'Build_Core a b d e f g h i j k l m n o := c in Build_Core a b d e f g h i j k l x n o.
Definition set_logger (x : option (list QueryLogRow)) (c : Core S R) : Core S R :=
  let 'Build_Core a b d e f g h i j k l m n o := c in Build_Core a b d e f g h i j k l m x o.
Definition set_refresh (x : list WarmReq) (c : Core S R) : Core S R :=
  let 'Build_Core a b d e f g h i j k l m n o := c in Build_Core a b d e f g h i j k l m n x.
(** The shared Redis client. *)
Definition c_rdb (c : Core S R) : option R := l_rdb (c_limiter c).
Definition set_rdb (x : option R) (c : Core S R) : Core S R :=
  let l := c_limiter c in
  set_limiter {| l_rdb := x; l_qps := l_qps l; l_vipMul := l_vipMul l; mem2 := mem2 l |} c.
(** [now.Second()] *)
Definition inc (k : counter) (now : Time) (c : Core S R) : Core S R :=
  set_stats (Inc (c_stats c) (Z.to_nat (Unix now mod 60)) k) c.
End setters.

(** ** Replies built by the pipeline *)

Definition tenantIDOr (id def : string) : string := if (id =? "")%string then def else id.

Section replies.
Context `{DnsLib}.

Definition refuse (req : option Msg) : Msg := SetRcode req RcodeRefused.
Definition rateLimited (req : Msg) : Msg :=
  let m := SetRcode (Some req) RcodeRefused in
  let opt := set_Option newOPT [EDE 11 "rate limited"] in
  set_Extra m (m_Extra m ++ [opt_rr opt]).
Definition qtypeFromString (s : string) : Z := default TypeA (StringToType s).

Definition block_rr (q : Question) (t : Z) (d : RData) : RR :=
  {| Hdr := {| Name := q_Name q; Rrtype := t; Class_ := ClassINET; Ttl := 60 |}; Data := d |}.
Definition blockResponse (req : Msg) (q : Question) (ip : IP) : Msg :=
  let m := set_Authoritative (SetReply req) false in
  let m :=
    if q_Qtype q =? TypeA then
      if is_nil (To4 ip) then m else set_Answer m (m_Answer m ++ [block_rr q TypeA (RD_A (To4 ip))])
    else if q_Qtype q =? TypeAAAA then
      set_Answer m (m_Answer m ++ [block_rr q TypeAAAA (RD_AAAA (ParseIP "::1"))])
    else m in
  set_Compress m true.
End replies.

(** ** Process *)

Section process.
Context {S R : Type} `{UnicodeCase} `{Cache S} `{Redis R} `{RedisCount R} `{RedisSets R}
  `{DnsLib} `{Network} `{Rand} `{MapAPI}.
(** [repos.TenantByPrefix] and [repos.GetTenant]. *)
Context (TenantByPrefix : string → outcome (option Tenant)) (GetTenant : string → outcome (option Tenant)).

(** Malformed queries: the reply sent without further processing. *)
Definition validate_query (req : option Msg) : option Msg + Question :=
  match req with
  | None => inl (Some (refuse None))
  | Some m =>
      match m_Question m with
      | [] => inl (Some (refuse req))
      | q :: _ =>
          if (253 <? Z.of_nat (len (q_Name q))) || (127 <? CountByte (q_Name q) ".") then inl (Some (refuse req))
          else match IsEdns0 m with
               | Some opt => if negb (o_Version opt =? 0) then inl (Some (SetRcode req RcodeBadVers)) else inr q
               | None => inr q
               end
      end
  end.

Definition request_tenant (meta : RequestMeta) : option Tenant :=
  match MTenant meta with
  | Some t => Some t
  | None => if (Prefix meta =? "")%string then None
            else match TenantByPrefix (Prefix meta) with Ok t => t | _ => None end
  end.

Definition has_ecs (e : option ECSInfo) : bool := match e with Some e => HasOption e | None => false end.

(** The query and the client subnet after the ECS section: simulated,
    forbidden, derived and default subnets. *)
Definition request_ecs (c : Core S R) (meta : RequestMeta) (tenant : option Tenant) (req : Msg)
    : outcome (Msg * option ECSInfo) :=
  let max := ECSScopeMax (c_cfg c) in
  let ecs := Some (clampScope (ecsFromMsg req) max) in
  let '(req, ecs) := match SimulateECS meta with
                     | Some sim => let e := Some (clampScope sim max) in (attachECS req e, e)
                     | None => (req, ecs)
                     end in
  let '(req, ecs) := match tenant with
                     | Some t => if has_ecs ecs && negb (t_AllowECS t) then (stripECS req, None) else (req, ecs)
                     | None => (req, ecs)
                     end in
  let derived :=
    if DualstackEnabled (c_cfg c) && Internal meta && negb (is_nil (ClientIP meta)) && is_nil (To4 (ClientIP meta))
       && negb (has_ecs ecs)
    then DeriveECS (Some (c_dualstack c)) (ClientIP meta) else Ok None in
  match derived with
  | Err e => Err e
  | Panic => Panic
  | Ok d =>
      let '(req, ecs) := match d with Some _ => (attachECS req d, d) | None => (req, ecs) end in
      match tenant with
      | Some t =>
          if negb (has_ecs ecs) && negb (t_DefaultECS t =? "")%string then
            match parseECSFromString (t_DefaultECS t) with
            | Ok def => Ok (attachECS req def, def)
            | _ => Ok (req, ecs)
            end
          else Ok (req, ecs)
      | None => Ok (req, ecs)
      end
  end.

Definition logQuery (c : Core S R) (req : Msg) (meta : option RequestMeta) (tid ecsKey qname : string)
    (rm : RespMeta) (vip : bool) (now : Time) : Core S R :=
  match logger c, m_Question req with
  | Some rows, q :: _ =>
      let ip := match meta with Some m => if is_nil (ClientIP m) then "" else IPString (ClientIP m) | None => "" end in
      let via := match meta with Some m => if (Via m =? "")%string then "udp" else Via m | None => "udp" end in
      set_logger (Some (rows ++ [{|
        ql_TS := now; ql_TenantID := tid; ql_ClientIP := ip; ql_ECS := ecsKey; ql_QName := qname;
        ql_QType := TypeToString (q_Qtype q); ql_RCode := RCode rm; ql_CacheHit := CacheHit rm;
        ql_UpstreamGrp := UpstreamGroup_ rm; ql_Upstream := Upstream_ rm; ql_RTTMS := RTTMS rm;
        ql_DNSSECOK := DNSSECOK rm; ql_VIP := vip; ql_Via := via |}])) c
  | _, _ => c
  end.

Definition ms_since (start now : Time) : Z := Z.quot (now - start) millisecond.

(** The adaptive-warm hook on a cache hit. *)
Definition observe_hit (c : Core S R) (now : Time) (key tid qname qtype : string) (ecs : option ECSInfo) : Core S R :=
  match StoreCache.Get (c_store c) now key with
  | Ok (Some ent) =>
      let ttlLeft := i64 ((TTL ent - (Unix now - Stored ent)) * second) in
      if AnswerCache.ObserveAdaptiveWarm (c_cfg c) true ttlLeft && isHotDomain (c_rdb c) now tid qname
      then set_refresh (refresh c ++ [{| w_tenant := tid; w_qname := qname; w_qtype := qtype; w_ecs := ecs |}]) c
      else c
  | _ => c
  end.

(** The group for a name: the split rules, else the default group. *)
Definition query_group (c : Core S R) (tenant : option Tenant) (qname : string) : string * string * option nat :=
  let '(gid, rule) := GroupForQuery (c_split c) tenant qname in
  let gid := if (gid =? "")%string then DefaultGroup (c_cfg c) else gid in
  (gid, rule, GroupByName (c_up c) gid).

Definition do_bit (req : Msg) : bool := match IsEdns0 req with Some o => o_Do o | None => false end.

Definition with_RCode (rm : RespMeta) (s : string) : RespMeta :=
  {| CacheHit := CacheHit rm; UpstreamGroup_ := UpstreamGroup_ rm; Upstream_ := Upstream_ rm; RTTMS := RTTMS rm;
     DNSSECOK := DNSSECOK rm; RuleMatched := RuleMatched rm; FromCache := FromCache rm; RCode := s |}.

(** The function [SingleFlight] runs: exchange, policy, rewriting, cache
    write. [start] is the request's start, [now] the time of the answer. *)
Definition resolve (c : Core S R) (req : Msg) (ecs : option ECSInfo) (key gid : string) (gp : option nat)
    (start now : Time) : outcome (Core S R * SingleFlight.result) :=
  let rm2 := {| CacheHit := false; UpstreamGroup_ := gid; Upstream_ := ""; RTTMS := 0; DNSSECOK := false;
                RuleMatched := ""; FromCache := false; RCode := "" |} in
  match ExchangeWithFailover (c_cfg c) (c_up c) gp req with
  | (_, ExPanic) => Panic
  | (up, ExErr _) =>
      let c := inc CError now (set_up up c) in
      Ok (c, (Some (SetRcode (Some req) RcodeServerFailure), with_RCode rm2 "SERVFAIL"))
  | (up, ExOk resp es) =>
      let c := set_up up c in
      let c := set_byUpstream (CounterSet.Inc (byUpstream c) (entry_String es)) c in
      let '(resp, verified) := if do_bit req then Validate (c_sec c) resp (Unix now) else (resp, false) in
      let resp := stripECS resp in
      let resp := echoECS resp ecs in
      let resp := set_Id resp (m_Id req) in
      let resp := set_Compress resp true in
      let '(st, _) := AnswerCache.Put (c_cfg c) (c_store c) now key resp in
      Ok (set_store st c,
          (Some resp, {| CacheHit := false; UpstreamGroup_ := gid; Upstream_ := entry_String es;
                         RTTMS := ms_since start now; DNSSECOK := verified; RuleMatched := "";
                         FromCache := false; RCode := RcodeToString (m_Rcode resp) |}))
  end.

(** A cache miss. [flight] is the result of another request's flight when
    this one joined it ([None]: this request leads). *)
Definition process_miss (c : Core S R) (meta : RequestMeta) (tenant : option Tenant) (req : Msg)
    (ecs : option ECSInfo) (ecsKey qname key : string) (vip : bool)
    (flight : option SingleFlight.result) (start now : Time) : outcome (Core S R * Msg * RespMeta) :=
  let c := inc CMiss start c in
  let '(gid, rule, gp) := query_group c tenant qname in
  let r := match flight with
           | Some r => Ok (c, r)
           | None => resolve c req ecs key gid gp start now
           end in
  match r with
  | Ok (c, (m, fmeta)) =>
      let rm := {| CacheHit := false; UpstreamGroup_ := UpstreamGroup_ fmeta; Upstream_ := Upstream_ fmeta;
                   RTTMS := RTTMS fmeta; DNSSECOK := DNSSECOK fmeta; RuleMatched := rule;
                   FromCache := false; RCode := RCode fmeta |} in
      let m := match m with Some m => m | None => refuse (Some req) end in
      Ok (logQuery c req (Some meta) (tenantID tenant) ecsKey qname rm vip now, m, rm)
  | Err e => Err e
  | Panic => Panic
  end.

(** From the block check on: blocking, the asynchronous check, the cache. *)
Definition process_query (c : Core S R) (meta : RequestMeta) (tenant : option Tenant) (req : Msg) (q : Question)
    (ecs : option ECSInfo) (vip : bool) (flight : option SingleFlight.result) (start now : Time)
    : outcome (Core S R * Msg * RespMeta) :=
  let tid := tenantID tenant in
  let ecsKey := ecsToCacheString ecs in
  let c := if (ecsKey =? "")%string then c else set_rdb (TrackActiveECS (c_rdb c) start tid ecsKey) c in
  let qname := ToLower (q_Name q) in
  let ipStr := if is_nil (ClientIP meta) then "" else IPString (ClientIP meta) in
  match c_threat c ≫= λ t, Block (Intn 0) t qname start with
  | Some (_, ip) =>
      let c := inc CBlock start c in
      let rm := with_RCode noMeta "NOERROR" in
      Ok (logQuery c req (Some meta) tid ecsKey qname rm vip start, blockResponse req q ip, rm)
  | None =>
      let c := match c_threat c with
               | Some _ => if Z.of_nat (length (threatq c)) <? ThreatQueueSize (c_cfg c)
                           then set_threatq (threatq c ++ [(qname, ipStr)]) c else c
               | None => c
               end in
      let qtype := TypeToString (q_Qtype q) in
      let key := CacheKey tid ecsKey qname qtype in
      match AnswerCache.Get (c_store c) start key (m_Id req) with
      | Some m =>
          let c := inc CHit start c in
          let c := observe_hit c start key tid qname qtype ecs in
          let rm := {| CacheHit := true; UpstreamGroup_ := ""; Upstream_ := ""; RTTMS := ms_since start now;
                       DNSSECOK := false; RuleMatched := ""; FromCache := true; RCode := RcodeToString (m_Rcode m) |} in
          Ok (logQuery c req (Some meta) tid ecsKey qname rm vip now, m, rm)
      | None => process_miss c meta tenant req ecs ecsKey qname key vip flight start now
      end
  end.

Definition Process (c : Core S R) (req : option Msg) (meta : RequestMeta)
    (flight : option SingleFlight.result) (start now : Time) : outcome (Core S R * Msg * RespMeta) :=
  let c := inc CQuery start c in
  match validate_query req, req with
  | inl (Some m), _ => Ok (c, m, noMeta)
  | inr q, Some req =>
      let tenant := request_tenant meta in
      let tid := tenantID tenant in
      let vip := match tenant with Some t => t_VIP t | None => false end in
      let c := set_byTenantQ (CounterSet.Inc (byTenantQ c) (tenantIDOr tid "default")) c in
      let ipStr := if is_nil (ClientIP meta) then "" else IPString (ClientIP meta) in
      let '(lim, allowed) := if SkipRateLimit meta then (c_limiter c, true)
                             else AllowDNS (c_limiter c) start tid ipStr vip in
      let c := set_limiter lim c in
      if negb allowed then Ok (inc CError start c, rateLimited req, noMeta)
      else match request_ecs c meta tenant req with
           | Ok (req, ecs) => process_query c meta tenant req q ecs vip flight start now
           | Err e => Err e
           | Panic => Panic
           end
  | _, _ => Panic
  end.

(** ** The cache-bypass path of warming *)

Definition fetchAndCache (c : Core S R) (tenant : option Tenant) (req : Msg) (ecs : option ECSInfo) (now : Time)
    : Core S R * outcome Msg :=
  let tid := tenantID tenant in
  match m_Question req with
  | [] => (c, Panic)
  | q :: _ =>
      let ecsKey := ecsToCacheString ecs in
      let key := CacheKey tid ecsKey (ToLower (q_Name q)) (TypeToString (q_Qtype q)) in
      let '(_, _, gp) := query_group c tenant (q_Name q) in
      match ExchangeWithFailover (c_cfg c) (c_up c) gp req with
      | (_, ExPanic) => (c, Panic)
      | (up, ExErr e) => (set_up up c, Err e)
      | (up, ExOk resp es) =>
          let c := set_up up c in
          let c := set_byUpstream (CounterSet.Inc (byUpstream c) (entry_String es)) c in
          let resp := if do_bit req then (Validate (c_sec c) resp (Unix now)).1 else resp in
          let resp := set_Compress (stripECS resp) true in
          let '(st, ttl) := AnswerCache.Put (c_cfg c) (c_store c) now key resp in
          let c := set_store st c in
          let c := if 0 <? ttl then set_rdb (TrackActiveECS (c_rdb c) now tid ecsKey) c else c in
          (c, Ok resp)
      end
  end.

(** The body of a background refresh. *)
Definition refresh_one (c : Core S R) (w : WarmReq) (now : Time) : Core S R * outcome unit :=
  match GetTenant (w_tenant w) with
  | Ok (Some tenant) =>
      let req := SetEdns0 (SetQuestion (Fqdn (w_qname w)) (qtypeFromString (w_qtype w))) 1232 true in
      let req := attachECS req (w_ecs w) in
      let '(c, r) := fetchAndCache c (Some tenant) req (w_ecs w) now in
      (c, match r with Panic => Panic | _ => Ok tt end)
  | _ => (c, Ok tt)
  end.

Definition warmOne (c : Core S R) (tid qname ecsStr : string) (now : Time) : Core S R * outcome unit :=
  match GetTenant tid with
  | Ok (Some tenant) =>
      match parseECSFromString ecsStr with
      | Ok ecs =>
          let req := SetEdns0 (SetQuestion (Fqdn qname) TypeA) 1232 false in
          let req := attachECS req ecs in
          let '(c, r) := fetchAndCache c (Some tenant) req ecs now in
          (c, match r with Ok _ => Ok tt | Err e => Err e | Panic => Panic end)
      | Err e => (c, Err e)
      | Panic => (c, Panic)
      end
  | _ => (c, Err "tenant lookup")
  end.

Record WarmJob := {
  j_ID : string; j_TenantID : string; j_Domains : list string; j_ECSs : list string;
  j_Total : Z; j_Done : Z; j_Failed : Z; j_StartedAt : Time; j_Finished : bool
}.
(** The job [Warm] registers; [id] is a fresh UUID. *)
Definition Warm (c : Core S R) (id tid : string) (domains ecsList : list string) (now : Time) : outcome WarmJob :=
  match domains with
  | [] => Err "domains required"
  | _ =>
      let ecsList := match ecsList with [] => ActiveECS (c_rdb c) now tid | _ => ecsList end in
      let ecsList := match ecsList with [] => [""] | _ => ecsList end in
      Ok {| j_ID := id; j_TenantID := tid; j_Domains := domains; j_ECSs := ecsList;
            j_Total := Z.of_nat (length domains) * Z.of_nat (length ecsList);
            j_Done := 0; j_Failed := 0; j_StartedAt := now; j_Finished := false |}
  end.
Definition job_progress (j : WarmJob) (failed : bool) : WarmJob :=
  {| j_ID := j_ID j; j_TenantID := j_TenantID j; j_Domains := j_Domains j; j_ECSs := j_ECSs j;
     j_Total := j_Total j; j_Done := j_Done j + 1; j_Failed := if failed then j_Failed j + 1 else j_Failed j;
     j_StartedAt := j_StartedAt j; j_Finished := j_Finished j |}.
Definition job_finish (j : WarmJob) : WarmJob :=
  {| j_ID := j_ID j; j_TenantID := j_TenantID j; j_Domains := j_Domains j; j_ECSs := j_ECSs j;
     j_Total := j_Total j; j_Done := j_Done j; j_Failed := j_Failed j;
     j_StartedAt := j_StartedAt j; j_Finished := true |}.
(** [run] with its fetches one after the other; [None] is a crash. *)
Fixpoint run_fetches (c : Core S R) (j : WarmJob) (todo : list (string * string)) (now : Time)
    : option (Core S R * WarmJob) :=
  match todo with
  | [] => Some (c, j)
  | (d, e) :: todo =>
      match warmOne c (j_TenantID j) d e now with
      | (_, Panic) => None
      | (c, Ok _) => run_fetches c (job_progress j false) todo now
      | (c, Err _) => run_fetches c (job_progress j true) todo now
      end
  end.
Definition run_job (c : Core S R) (j : WarmJob) (now : Time) : option (Core S R * WarmJob) :=
  match run_fetches c j (d ← j_Domains j; e ← j_ECSs j; mret (d, e)) now with
  | Some (c, j) => Some (c, job_finish j)
  | None => None
  end.

(** ** Other operations of the core *)

(** One request taken by a threat worker: the core and the datagram sent. *)
Definition threatWorker_step `{IntelAPI} (rfc3339 : Time → string) (b : option Broadcaster) (c : Core S R) (now : Time)
    : Core S R * option (IP * Z * Alert) :=
  match threatq c, c_threat c with
  | (domain, clientIP) :: rest, Some t =>
      let c := set_threatq rest c in
      let '(t, hit) := Check_ t domain now in
      let c := set_threat (Some t) c in
      match hit with
      | Some _ => (inc CThreat now c, Broadcast rfc3339 b hit clientIP now)
      | None => (c, None)
      end
  | _, _ => (c, None)
  end.

(** The start: [files] gives text files, [v4file] and [v6file] the location
    databases, [listen] the result of opening the broadcast socket. The
    upstream manager, the rules and the hot list are empty until the first
    reload; a channel of negative size is a crash. *)
Definition open_db {D} (path : string) (db : outcome D) (lookup : D → IPDB) : option IPDB :=
  if (path =? "")%string then None else match db with Ok d => Some (lookup d) | _ => None end.
Definition NewCore `{GBK} (files : string → option string) (v4file : outcome (list Z)) (v6file : outcome string)
    (listen : outcome unit) (cfg : Config) (cacheDrv : S) (lg : option (list QueryLogRow)) (rdb : option R)
    : outcome (Core S R * option Broadcaster) :=
  let v4db := open_db (GeoIPv4File cfg) (NewQQwry v4file) qqwry_Lookup in
  let v6db := open_db (GeoIPv6File cfg) (NewIPv6CSV v6file) csv_Lookup in
  let c := {| c_cfg := cfg; c_store := cacheDrv; c_limiter := NewLimiter rdb (RateLimitQPS cfg) (RateLimitVIPMult cfg);
              c_stats := NewStats; c_up := NewManager; c_split := NewSplitter; c_sec := NewValidator (DNSSECMode cfg);
              c_dualstack := NewDualstack files cfg v4db v6db; c_threat := None; threatq := [];
              byUpstream := CounterSet.NewCounterSet; byTenantQ := CounterSet.NewCounterSet; logger := lg; refresh := [] |} in
  if negb (ThreatIntelEnabled cfg) then Ok (c, None)
  else
    let b := if ThreatBroadcastEnabled cfg
             then match NewBroadcaster listen (ThreatBroadcastAddr cfg) (ThreatBroadcastPort cfg) with
                  | Ok b => Some b
                  | _ => None
                  end
             else None in
    if ThreatQueueSize cfg <? 0 then Panic
    else Ok (set_threat (Some (Threat.NewClient cfg files)) c, b).

(** What the repositories deliver to a reload. *)
Record RepoData := {
  rd_groups : outcome (list UpstreamGroup); rd_upstreams : outcome (list Upstream);
  rd_tenants : outcome (list Tenant); rd_rules : outcome (list SplitRule);
  rd_hots : outcome (list HotDomain); rd_bindings : outcome (list DualstackBinding)
}.
(** [Compile] of a regular expression and the contents of files. *)
Definition ReloadAll (compile : string → option Regexp) (files : string → option string)
    (c : Core S R) (d : RepoData) (now : Time) : outcome (Core S R) :=
  match rd_groups d, rd_upstreams d, rd_tenants d, rd_rules d, rd_hots d with
  | Ok gs, Ok us, Ok ts, Ok rs, Ok hs =>
      let c := set_up (Upstream.Reload (c_up c) gs us ts) c in
      let c := set_split (Split.Reload compile rs) c in
      let c := set_rdb (reloadHotSet (c_rdb c) now hs) c in
      let bs := match rd_bindings d with Ok bs => bs | _ => [] end in
      Ok (set_dualstack (Dualstack.Reload files (c_dualstack c) bs) c)
  | Ok _, Ok _, Ok _, Ok _, Err e | Ok _, Ok _, Ok _, Err e, _ | Ok _, Ok _, Err e, _, _
  | Ok _, Err e, _, _, _ | Err e, _, _, _, _ => Err e
  | _, _, _, _, _ => Panic
  end.
End process.

(** ** Lemmas *)

(** Documented behaviour of the reply constructors: they copy the id. *)
Class ReplyLaws `{DnsLib} : Prop := {
  SetRcode_Id : ∀ r rc, m_Id (SetRcode (Some r) rc) = m_Id r;
  SetReply_Id : ∀ r, m_Id (SetReply r) = m_Id r;
  SetReply_Answer : ∀ r, m_Answer (SetReply r) = [];
}.
#[global] Instance demo_reply_laws codec : @ReplyLaws (demo_lib codec).
Proof. by split. Qed.

(** What rewriting the additional section leaves alone. *)
Section extra_only.
Context `{DnsLib} {A : Type} (field : Msg → A) (field_Extra : ∀ m x, field (set_Extra m x) = field m).
Lemma update_opt_field m f : field (update_opt m f) = field m.
Proof. unfold update_opt. destruct (edns_index _); [apply field_Extra|done]. Qed.
Lemma attachECS_field m e : field (attachECS m e) = field m.
Proof.
  unfold attachECS. destruct e as [e|]; [|done]. destruct (negb _); [done|].
  rewrite update_opt_field. destruct (IsEdns0 m); [done|apply field_Extra].
Qed.
Lemma stripECS_field m : field (stripECS m) = field m.
Proof. unfold stripECS. destruct (IsEdns0 m); [apply update_opt_field|done]. Qed.
End extra_only.

Section ids.
Context `{DnsLib}.
Lemma set_Extra_Id m x : m_Id (set_Extra m x) = m_Id m.
Proof. by destruct m. Qed.
Lemma set_Extra_Question m x : m_Question (set_Extra m x) = m_Question m.
Proof. by destruct m. Qed.
Lemma update_opt_Id m f : m_Id (update_opt m f) = m_Id m.
Proof. apply update_opt_field, set_Extra_Id. Qed.
Lemma echoECS_Id m e : m_Id (echoECS m e) = m_Id m.
Proof.
  unfold echoECS. destruct e as [e|]; [|done]. destruct (negb _); [done|]. cbv zeta.
  assert (m_Id match IsEdns0 m with Some _ => m | None => set_Extra m (m_Extra m ++ [opt_rr newOPT]) end = m_Id m) as Hid.
  { destruct (IsEdns0 m); [done|apply set_Extra_Id]. }
  destruct (IsEdns0 (match IsEdns0 m with Some _ => _ | None => _ end)) as [o|]; [|exact Hid].
  destruct (existsb _ _); [exact Hid|]. by rewrite update_opt_Id.
Qed.
End ids.
Create Rewrite HintDb msg_id.
#[export] Hint Rewrite @echoECS_Id @set_Extra_Id @update_opt_Id : msg_id.

Section core_fields.
Context {S R : Type}.
Implicit Types c : Core S R.
Lemma inc_store k now c : c_store (inc k now c) = c_store c. Proof. by destruct c. Qed.
Lemma set_limiter_store l c : c_store (set_limiter l c) = c_store c. Proof. by destruct c. Qed.
Lemma set_byTenantQ_store l c : c_store (set_byTenantQ l c) = c_store c. Proof. by destruct c. Qed.
Lemma set_byUpstream_store l c : c_store (set_byUpstream l c) = c_store c. Proof. by destruct c. Qed.
Lemma set_threatq_store l c : c_store (set_threatq l c) = c_store c. Proof. by destruct c. Qed.
Lemma set_refresh_store l c : c_store (set_refresh l c) = c_store c. Proof. by destruct c. Qed.
Lemma set_logger_store l c : c_store (set_logger l c) = c_store c. Proof. by destruct c. Qed.
Lemma set_rdb_store r c : c_store (set_rdb r c) = c_store c. Proof. by destruct c. Qed.
Lemma set_up_store r c : c_store (set_up r c) = c_store c. Proof. by destruct c. Qed.
Lemma set_store_store x c : c_store (set_store x c) = x. Proof. by destruct c. Qed.
Lemma inc_up k now c : c_up (inc k now c) = c_up c. Proof. by destruct c. Qed.
Lemma set_logger_up l c : c_up (set_logger l c) = c_up c. Proof. by destruct c. Qed.
Lemma set_limiter_up l c : c_up (set_limiter l c) = c_up c. Proof. by destruct c. Qed.
Lemma set_byTenantQ_up l c : c_up (set_byTenantQ l c) = c_up c. Proof. by destruct c. Qed.
Lemma set_rdb_up l c : c_up (set_rdb l c) = c_up c. Proof. by destruct c. Qed.
Lemma inc_limiter k now c : c_limiter (inc k now c) = c_limiter c. Proof. by destruct c. Qed.
Lemma set_byTenantQ_limiter l c : c_limiter (set_byTenantQ l c) = c_limiter c. Proof. by destruct c. Qed.
Lemma inc_dualstack k now c : c_dualstack (inc k now c) = c_dualstack c. Proof. by destruct c. Qed.
Lemma set_limiter_dualstack l c : c_dualstack (set_limiter l c) = c_dualstack c. Proof. by destruct c. Qed.
Lemma set_byTenantQ_dualstack l c : c_dualstack (set_byTenantQ l c) = c_dualstack c. Proof. by destruct c. Qed.
Lemma set_rdb_cfg l c : c_cfg (set_rdb l c) = c_cfg c. Proof. by destruct c. Qed.
Lemma set_threatq_cfg l c : c_cfg (set_threatq l c) = c_cfg c. Proof. by destruct c. Qed.
Lemma set_threatq_up l c : c_up (set_threatq l c) = c_up c. Proof. by destruct c. Qed.
Lemma inc_cfg k now c : c_cfg (inc k now c) = c_cfg c. Proof. by destruct c. Qed.
Lemma set_limiter_cfg l c : c_cfg (set_limiter l c) = c_cfg c. Proof. by destruct c. Qed.
Lemma set_byTenantQ_cfg l c : c_cfg (set_byTenantQ l c) = c_cfg c. Proof. by destruct c. Qed.
Lemma inc_threat k now c : c_threat (inc k now c) = c_threat c. Proof. by destruct c. Qed.
Lemma set_limiter_threat l c : c_threat (set_limiter l c) = c_threat c. Proof. by destruct c. Qed.
Lemma set_byTenantQ_threat l c : c_threat (set_byTenantQ l c) = c_threat c. Proof. by destruct c. Qed.
Lemma set_rdb_threat l c : c_threat (set_rdb l c) = c_threat c. Proof. by destruct c. Qed.
End core_fields.
Create Rewrite HintDb core_fields.
#[export] Hint Rewrite @inc_dualstack @set_limiter_dualstack @set_byTenantQ_dualstack @set_rdb_cfg @set_threatq_cfg @set_threatq_up @inc_limiter @set_byTenantQ_limiter @inc_store @set_limiter_store @set_byTenantQ_store @set_byUpstream_store @set_threatq_store
  @set_refresh_store @set_logger_store @set_rdb_store @set_up_store @set_store_store
  @inc_up @set_logger_up @set_limiter_up @set_byTenantQ_up @set_rdb_up
  @inc_threat @set_limiter_threat @set_byTenantQ_threat @set_rdb_threat @inc_cfg @set_limiter_cfg @set_byTenantQ_cfg : core_fields.

Section process_lemmas.
Context {S R : Type} `{UnicodeCase} `{Cache S} `{Redis R} `{RedisCount R} `{RedisSets R}
  `{DnsLib} `{Network} `{Rand} `{MapAPI}.
Context (TenantByPrefix : string → outcome (option Tenant)).
Implicit Types c : Core S R.

Lemma logQuery_store c req meta tid e q rm vip now : c_store (logQuery c req meta tid e q rm vip now) = c_store c.
Proof. unfold logQuery. repeat case_match; by autorewrite with core_fields. Qed.
Lemma logQuery_up c req meta tid e q rm vip now : c_up (logQuery c req meta tid e q rm vip now) = c_up c.
Proof. unfold logQuery. repeat case_match; by autorewrite with core_fields. Qed.
Lemma observe_hit_store c now k tid q t e : c_store (observe_hit c now k tid q t e) = c_store c.
Proof. unfold observe_hit. repeat case_match; by autorewrite with core_fields. Qed.

Lemma Put_store cfg (st : S) now key m :
  (AnswerCache.Put cfg st now key m).1 = st ∨ ∃ e, (AnswerCache.Put cfg st now key m).1 = (Set_ st now key e).1.
Proof. unfold AnswerCache.Put. repeat case_match; simpl; eauto. Qed.

(** The only write to the store is one [Set_] under the request's key. *)
Lemma resolve_store c req ecs key gid gp start now c' r :
  resolve c req ecs key gid gp start now = Ok (c', r) →
  c_store c' = c_store c ∨ ∃ e, c_store c' = (Set_ (c_store c) now key e).1.
Proof.
  unfold resolve. destruct (ExchangeWithFailover _ _ _ _) as [up [resp es|err|]]; [| |done].
  - destruct (if do_bit req then _ else _) as [resp' verified]. cbv zeta.
    destruct (AnswerCache.Put _ _ _ _ _) as [st t] eqn:Hput. intros [= <- _].
    rewrite set_store_store. replace st with (AnswerCache.Put (c_cfg (set_byUpstream
      (CounterSet.Inc (byUpstream (set_up up c)) (entry_String es)) (set_up up c)))
      (c_store (set_byUpstream (CounterSet.Inc (byUpstream (set_up up c)) (entry_String es)) (set_up up c)))
      now key (set_Compress (set_Id (echoECS (stripECS resp') ecs) (m_Id req)) true)).1 by (by rewrite Hput).
    autorewrite with core_fields. apply Put_store.
  - intros [= <- _]. left. by autorewrite with core_fields.
Qed.
Lemma process_query_store c meta tenant req q ecs vip flight start now c' m rm :
  process_query c meta tenant req q ecs vip flight start now = Ok (c', m, rm) →
  c_store c' = c_store c ∨
  ∃ e n y t, c_store c' = (Set_ (c_store c) now (CacheKey (tenantID tenant) e n y) t).1.
Proof.
  unfold process_query. cbv zeta. destruct (c_threat _ ≫= _) as [[ti ip]|].
  { intros [= <- _ _]. left. rewrite logQuery_store. autorewrite with core_fields. by case_match; autorewrite with core_fields. }
  set (c1 := match c_threat _ with Some _ => _ | None => _ end).
  assert (c_store c1 = c_store c) as Hc1.
  { unfold c1. repeat case_match; by autorewrite with core_fields. }
  destruct (AnswerCache.Get _ _ _ _) as [m0|].
  { intros [= <- _ _]. left. rewrite logQuery_store, observe_hit_store. by autorewrite with core_fields. }
  unfold process_miss. cbv zeta. destruct (query_group _ _ _) as [[gid rule] gp].
  destruct flight as [[m0 fmeta]|].
  { intros [= <- _ _]. left. rewrite logQuery_store. by autorewrite with core_fields. }
  destruct (resolve _ _ _ _ _ _ _ _) as [[c2 [m2 fmeta]]| |] eqn:Hr; [|done..]. intros [= <- _ _].
  rewrite logQuery_store. apply resolve_store in Hr. autorewrite with core_fields in Hr. rewrite Hc1 in Hr.
  destruct Hr as [Hr|[e Hr]]; [by left|right; eauto 6].
Qed.
Lemma Process_store c req meta flight start now c' m rm :
  Process TenantByPrefix c req meta flight start now = Ok (c', m, rm) →
  c_store c' = c_store c ∨
  ∃ e n y t, c_store c' = (Set_ (c_store c) now (CacheKey (tenantID (request_tenant TenantByPrefix meta)) e n y) t).1.
Proof.
  unfold Process. cbv zeta. destruct (validate_query req) as [[r|]|q]; [| |destruct req as [req|]]; try done.
  { intros [= <- _ _]. left. by autorewrite with core_fields. }
  destruct (if SkipRateLimit meta then _ else _) as [lim allowed].
  destruct (negb allowed). { intros [= <- _ _]. left. by autorewrite with core_fields. }
  destruct (request_ecs _ _ _ _) as [[req' ecs]| |]; [|done..]. intros Hq%process_query_store.
  autorewrite with core_fields in Hq. done.
Qed.

(** The ECS section keeps the id, and fails only with the derivation. *)
Lemma request_ecs_field {A} (field : Msg → A) c meta tenant req req' ecs :
  (∀ m x, field (set_Extra m x) = field m) →
  request_ecs c meta tenant req = Ok (req', ecs) → field req' = field req.
Proof.
  intros Hf. unfold request_ecs. cbv zeta.
  destruct (match SimulateECS meta with Some _ => _ | None => _ end) as [r1 e1] eqn:Heq1.
  assert (field r1 = field req) as I1.
  { change r1 with (r1, e1).1. rewrite <-Heq1. destruct (SimulateECS meta); [by apply attachECS_field|done]. }
  destruct (match tenant with Some _ => _ | None => _ end) as [r2 e2] eqn:Heq2.
  assert (field r2 = field req) as I2.
  { rewrite <-I1. change r2 with (r2, e2).1. rewrite <-Heq2. destruct tenant as [t|]; [|done].
    destruct (has_ecs e1 && _); [by apply stripECS_field|done]. }
  match goal with |- context [if ?b then DeriveECS ?x ?ip else Ok None] =>
    destruct (if b then DeriveECS x ip else Ok None) as [d| |]; [|done..] end.
  destruct (match d with Some _ => _ | None => _ end) as [r3 e3] eqn:Heq3.
  assert (field r3 = field req) as I3.
  { rewrite <-I2. change r3 with (r3, e3).1. rewrite <-Heq3. destruct d; [by apply attachECS_field|done]. }
  rewrite <-I3. destruct tenant as [t|]; [|by intros [= <- _]].
  destruct (negb _ && _); [|by intros [= <- _]].
  destruct (parseECSFromString _) as [def| |]; intros Heq; (apply (f_equal (λ o, match o with Ok x => field x.1 | _ => field req' end)) in Heq);
    cbv beta iota in Heq; cbn [fst] in Heq; rewrite <-Heq; [by apply attachECS_field|done..].
Qed.
(** When a subnet is to be derived, the derivation does not crash. *)
Definition derivation_ok c (meta : RequestMeta) : Prop :=
  DualstackEnabled (c_cfg c) && Internal meta = true → ∃ d, DeriveECS (Some (c_dualstack c)) (ClientIP meta) = Ok d.
Lemma request_ecs_Ok c meta tenant req :
  derivation_ok c meta → ∃ req' ecs, request_ecs c meta tenant req = Ok (req', ecs).
Proof.
  intros Hd. unfold request_ecs. cbv zeta.
  destruct (match SimulateECS meta with Some _ => _ | None => _ end) as [r1 e1].
  destruct (match tenant with Some _ => _ | None => _ end) as [r2 e2].
  match goal with |- context [if ?b then DeriveECS ?x ?ip else Ok None] =>
    assert (∃ d, (if b then DeriveECS x ip else Ok None) = Ok d) as [d ->] end.
  { unfold derivation_ok in Hd. destruct (DualstackEnabled (c_cfg c) && Internal meta); [|eauto]. cbn [andb].
    destruct (negb _ && _ && _); [by apply Hd|eauto]. }
  destruct (match d with Some _ => _ | None => _ end) as [r3 e3].
  destruct tenant as [t|]; [|eauto]. destruct (negb _ && _); [|eauto]. destruct (parseECSFromString _); eauto.
Qed.

(** The rate limit lets the request through. *)
Definition admitted c (meta : RequestMeta) (start : Time) : bool :=
  let tenant := request_tenant TenantByPrefix meta in
  SkipRateLimit meta
  || (AllowDNS (c_limiter c) start (tenantID tenant) (if is_nil (ClientIP meta) then "" else IPString (ClientIP meta))
        match tenant with Some t => t_VIP t | None => false end).2.

(** A valid, admitted request reaches the block check with the components
    it uses from there on unchanged. *)
Lemma Process_admitted c req q meta flight start now :
  validate_query (Some req) = inr q → admitted c meta start = true → derivation_ok c meta →
  ∃ c1 req' ecs vip, m_Id req' = m_Id req ∧ m_Question req' = m_Question req ∧
    c_threat c1 = c_threat c ∧ c_up c1 = c_up c ∧ c_store c1 = c_store c ∧ c_cfg c1 = c_cfg c ∧
    Process TenantByPrefix c (Some req) meta flight start now =
    process_query c1 meta (request_tenant TenantByPrefix meta) req' q ecs vip flight start now.
Proof.
  intros Hv Ha Hd. unfold Process. rewrite Hv. cbv zeta. autorewrite with core_fields.
  set (p := if SkipRateLimit meta then _ else _).
  assert (p.2 = true) as Hp by (unfold p; unfold admitted in Ha; by destruct (SkipRateLimit meta)).
  destruct p as [lim allowed]. cbn [snd] in Hp. subst allowed. cbn [negb]. set (c1 := set_limiter lim _).
  destruct (request_ecs_Ok c1 meta (request_tenant TenantByPrefix meta) req) as (req' & ecs & Hecs).
  { unfold derivation_ok, c1. by autorewrite with core_fields. }
  rewrite Hecs. exists c1, req', ecs. eexists.
  split_and!; [by apply (request_ecs_field m_Id) in Hecs; [|apply set_Extra_Id]
              |by apply (request_ecs_field m_Question) in Hecs; [|apply set_Extra_Question]|..|reflexivity];
    unfold c1; by autorewrite with core_fields.
Qed.

Lemma set_Compress_Id m b : m_Id (set_Compress m b) = m_Id m. Proof. by destruct m. Qed.
Lemma set_Id_Id m i : m_Id (set_Id m i) = i. Proof. by destruct m. Qed.
Lemma blockResponse_Id `{!ReplyLaws} req q ip : m_Id (blockResponse req q ip) = m_Id req.
Proof.
  unfold blockResponse. pose proof (SetReply_Id req) as Hid. destruct (SetReply req). simpl in Hid. subst.
  repeat case_match; done.
Qed.
Lemma Get_Id (st : S) now key id m : AnswerCache.Get st now key id = Some m → m_Id m = id.
Proof. unfold AnswerCache.Get. repeat case_match; try done. intros [= <-]. apply set_Id_Id. Qed.
Lemma resolve_Id `{!ReplyLaws} c req ecs key gid gp start now c' m fmeta :
  resolve c req ecs key gid gp start now = Ok (c', (Some m, fmeta)) → m_Id m = m_Id req.
Proof.
  unfold resolve. destruct (ExchangeWithFailover _ _ _ _) as [up [resp es|err|]]; [| |done]; cbv zeta.
  - destruct (if do_bit req then _ else _) as [resp' verified]. destruct (AnswerCache.Put _ _ _ _ _) as [st t].
    intros [= _ <- _]. by rewrite set_Compress_Id, set_Id_Id.
  - intros [= _ <- _]. apply SetRcode_Id.
Qed.
Lemma blockResponse_spec `{!ReplyLaws} req q ip :
  To4 ip ≠ [] →
  m_Id (blockResponse req q ip) = m_Id req ∧
  Data <$> m_Answer (blockResponse req q ip) =
    (if q_Qtype q =? TypeA then [RD_A (To4 ip)]
     else if q_Qtype q =? TypeAAAA then [RD_AAAA (ParseIP "::1")] else []).
Proof.
  intros Hip. unfold blockResponse. pose proof (SetReply_Id req) as Hid. pose proof (SetReply_Answer req) as Ha.
  destruct (SetReply req). simpl in Hid, Ha. subst.
  destruct (q_Qtype q =? TypeA); [|by destruct (q_Qtype q =? TypeAAAA)].
  destruct (is_nil (To4 ip)) eqn:Hn; [by apply is_nil_spec in Hn|done].
Qed.
(** A blocked name: the reply is built from the sinkhole address alone. *)
Lemma Process_sinkhole c req q meta flight start now t ti ip :
  validate_query (Some req) = inr q → admitted c meta start = true → derivation_ok c meta →
  c_threat c = Some t → Block (Intn 0) t (ToLower (q_Name q)) start = Some (ti, ip) →
  ∃ c' req' rm, Process TenantByPrefix c (Some req) meta flight start now = Ok (c', blockResponse req' q ip, rm) ∧
    m_Id req' = m_Id req ∧ c_up c' = c_up c ∧ c_store c' = c_store c.
Proof.
  intros Hv Ha Hd Ht Hb.
  destruct (Process_admitted c req q meta flight start now Hv Ha Hd) as (c1 & req' & ecs & vip & Hid & _ & Ht1 & Hu1 & Hs1 & _ & ->).
  unfold process_query. cbv zeta. set (c2 := if (_ =? "")%string then _ else _).
  assert (c_threat c2 = Some t ∧ c_up c2 = c_up c ∧ c_store c2 = c_store c) as (Ht2 & Hu2 & Hs2).
  { rewrite <-Ht, <-Ht1, <-Hu1, <-Hs1. unfold c2. case_match; by autorewrite with core_fields. }
  rewrite Ht2. cbn [mbind option_bind]. rewrite Hb. eexists _, req', _. split; [reflexivity|].
  rewrite logQuery_up, logQuery_store. by autorewrite with core_fields.
Qed.
Lemma Process_limited c req q meta flight start now :
  validate_query (Some req) = inr q → admitted c meta start = false →
  Process TenantByPrefix c (Some req) meta flight start now =
  Ok (inc CError start (set_limiter
        (if SkipRateLimit meta then c_limiter c
         else (AllowDNS (c_limiter c) start (tenantID (request_tenant TenantByPrefix meta))
                 (if is_nil (ClientIP meta) then "" else IPString (ClientIP meta))
                 match request_tenant TenantByPrefix meta with Some t => t_VIP t | None => false end).1)
        (set_byTenantQ (CounterSet.Inc (byTenantQ (inc CQuery start c))
           (tenantIDOr (tenantID (request_tenant TenantByPrefix meta)) "default")) (inc CQuery start c))),
      rateLimited req, noMeta).
Proof.
  intros Hv Ha. unfold Process. rewrite Hv. cbv zeta. autorewrite with core_fields. unfold admitted in Ha.
  destruct (SkipRateLimit meta); [done|]. cbn [orb] in Ha.
  destruct (AllowDNS _ _ _ _ _) as [lim allowed]. cbn [snd fst] in *. by subst allowed.
Qed.
Lemma validate_query_Question req q : validate_query (Some req) = inr q → m_Question req ≠ [].
Proof. unfold validate_query. by destruct (m_Question req). Qed.
Lemma resolve_answers `{!RandLaws} c req ecs key gid gp start now :
  (∀ p g, gheap (c_up c) !! p = Some g → Forall (λ e, is_Some (e_client e)) (Entries g)) →
  (∀ cl m, Exchange (c_cfg c) cl m ≠ Panic) → m_Question req ≠ [] →
  ∃ c' m fmeta, resolve c req ecs key gid gp start now = Ok (c', (Some m, fmeta)).
Proof.
  intros Hcl Hnp Hq. unfold resolve. pose proof (ExchangeWithFailover_no_panic (c_cfg c) (c_up c) gp req Hcl (λ cl, Hnp cl req) Hq) as Hx.
  destruct (ExchangeWithFailover _ _ _ _) as [up [resp es|err|]]; [|by eauto|done].
  destruct (if do_bit req then _ else _) as [resp' verified]. destruct (AnswerCache.Put _ _ _ _ _) as [st t]. eauto.
Qed.
Lemma process_query_answers `{!ReplyLaws, !RandLaws} c meta tenant req q ecs vip start now :
  (∀ p g, gheap (c_up c) !! p = Some g → Forall (λ e, is_Some (e_client e)) (Entries g)) →
  (∀ cl m, Exchange (c_cfg c) cl m ≠ Panic) → m_Question req ≠ [] →
  ∃ c' m rm, process_query c meta tenant req q ecs vip None start now = Ok (c', m, rm) ∧ m_Id m = m_Id req.
Proof.
  intros Hcl Hnp Hq. unfold process_query. cbv zeta. set (c2 := if (_ =? "")%string then _ else _).
  destruct (c_threat c2 ≫= _) as [[ti ip]|]; [eexists _, _, _; split; [done|apply blockResponse_Id]|].
  set (c3 := match c_threat c2 with Some _ => _ | None => _ end).
  destruct (AnswerCache.Get _ _ _ _) as [m0|] eqn:Hg; [eexists _, _, _; split; [done|by eapply Get_Id]|].
  unfold process_miss. cbv zeta. destruct (query_group _ _ _) as [[gid rule] gp].
  assert (c_up (inc CMiss start c3) = c_up c ∧ c_cfg (inc CMiss start c3) = c_cfg c) as [Hu Hc].
  { unfold c3, c2. repeat case_match; by autorewrite with core_fields. }
  rewrite <-Hu in Hcl. rewrite <-Hc in Hnp.
  edestruct resolve_answers as (c' & m & fmeta & Hr); [exact Hcl|exact Hnp|exact Hq|]. rewrite Hr.
  eexists _, _, _. split; [done|]. by eapply resolve_Id.
Qed.
End process_lemmas.

(** ** Properties *)

(** C4: a request of one tenant changes nothing of what the
    cache answers to another: after any request, every lookup under a key of
    a tenant with a different key field answers as before. *)
Theorem Process_tenant_isolation {S R} `{UnicodeCase} `{CacheLaws S} `{RedisCount R} `{RedisSets R}
    `{DnsLib} `{Network} `{Rand} `{MapAPI} TenantByPrefix (c : Core S R) req meta flight start now c' m rm
    other e n y id now' :
  Process TenantByPrefix c req meta flight start now = Ok (c', m, rm) →
  Safe other ≠ Safe (tenantID (request_tenant TenantByPrefix meta)) →
  AnswerCache.Get (c_store c') now' (CacheKey other e n y) id = AnswerCache.Get (c_store c) now' (CacheKey other e n y) id.
Proof.
  intros Hp Hne. destruct (Process_store _ _ _ _ _ _ _ _ _ _ Hp) as [->|(e' & n' & y' & t & ->)]; [done|].
  unfold AnswerCache.Get. rewrite Get_Set_ne; [done|]. intros (Ht & _)%CacheKey_fields. congruence.
Qed.

(** A query for a blocked domain that passes validation
    and the rate limit gets the sinkhole answer: an A query the sinkhole
    address, an AAAA query ::1, any other query an empty NOERROR answer; no
    upstream is asked and the cache is neither read into the answer nor
    written. *)
Theorem Process_blocked {S R} `{UnicodeCase} `{Cache S} `{RedisCount R} `{RedisSets R}
    `{ReplyLaws} `{Network} `{Rand} `{MapAPI} TenantByPrefix (c : Core S R) req q meta flight start now t ti ip :
  validate_query (Some req) = inr q → admitted TenantByPrefix c meta start = true →
  derivation_ok c meta →
  c_threat c = Some t → Block (Intn 0) t (ToLower (q_Name q)) start = Some (ti, ip) → To4 ip ≠ [] →
  ∃ c' m rm, Process TenantByPrefix c (Some req) meta flight start now = Ok (c', m, rm) ∧
    c_up c' = c_up c ∧ c_store c' = c_store c ∧ m_Id m = m_Id req ∧
    Data <$> m_Answer m = (if q_Qtype q =? TypeA then [RD_A (To4 ip)]
                           else if q_Qtype q =? TypeAAAA then [RD_AAAA (ParseIP "::1")] else []).
Proof.
  intros Hv Ha Hd Ht Hb Hip.
  destruct (Process_sinkhole TenantByPrefix c req q meta flight start now t ti ip Hv Ha Hd Ht Hb) as (c' & req' & rm & HP & Hid & Hu & Hs).
  destruct (blockResponse_spec req' q ip Hip) as [Hbid Hba]. rewrite HP, <-Hid, <-Hbid. eauto 8.
Qed.


(** A request that misses the cache and joins another one's
    flight is answered with that request's message unchanged, so under the
    other request's id. *)
Theorem Process_joined_Id {S R} `{UnicodeCase} `{Cache S} `{RedisCount R} `{RedisSets R}
    `{DnsLib} `{Network} `{Rand} `{MapAPI} TenantByPrefix (c : Core S R) req q meta leader fmeta start now :
  validate_query (Some req) = inr q → admitted TenantByPrefix c meta start = true →
  derivation_ok c meta →
  c_threat c ≫= (λ t, Block (Intn 0) t (ToLower (q_Name q)) start) = None →
  (∀ key, AnswerCache.Get (c_store c) start key (m_Id req) = None) →
  ∃ c' rm, Process TenantByPrefix c (Some req) meta (Some (Some leader, fmeta)) start now = Ok (c', leader, rm).
Proof.
  intros Hv Ha Hd Hb Hmiss.
  destruct (Process_admitted TenantByPrefix c req q meta (Some (Some leader, fmeta)) start now Hv Ha Hd)
    as (c1 & req' & ecs & vip & Hid & _ & Ht1 & _ & Hs1 & _ & ->).
  unfold process_query. cbv zeta. set (c2 := if (_ =? "")%string then _ else _).
  assert (c_threat c2 = c_threat c ∧ c_store c2 = c_store c) as (Ht2 & Hs2).
  { rewrite <-Ht1, <-Hs1. unfold c2. case_match; by autorewrite with core_fields. }
  rewrite Ht2, Hb. set (c3 := match c_threat c with Some _ => _ | None => _ end).
  assert (c_store c3 = c_store c) as Hs3 by (rewrite <-Hs2; unfold c3; repeat case_match; by autorewrite with core_fields).
  rewrite Hs3, Hid, Hmiss. unfold process_miss. cbv zeta.
  destruct (query_group _ _ _) as [[gid rule] gp]. eauto.
Qed.

(** An option in the query is an option of [ecsFromMsg]. *)
Lemma ecsFromMsg_none `{DnsLib} m : HasOption (ecsFromMsg m) = false → subnets m = [].
Proof.
  unfold ecsFromMsg, subnets. destruct (IsEdns0 m) as [o|]; [|done].
  unfold first_subnet. destruct (first_match is_subnet (o_Option o)) as [x|] eqn:Hf.
  - apply first_match_Some in Hf as (l1 & l2 & _ & Hx & _). destruct x; try done.
    unfold Ecs.normalize. cbv zeta. repeat case_match; done.
  - intros _. apply first_match_None in Hf. induction Hf as [|x l Hx _ IH]; [done|]. destruct x; try done.
Qed.
Lemma clampScope_HasOption e mx : HasOption (clampScope e mx) = HasOption e.
Proof. unfold clampScope. repeat case_match; done. Qed.


(** Clamping the client's subnet changes the cache scope only:
    without a tenant the query forwarded to the upstream still carries the
    client's own prefix, so an answer selected for the longer prefix is
    cached for the whole clamped subnet. *)
Theorem clamp_not_forwarded {S R} `{UnicodeCase} `{DnsLib} `{MapAPI} (c : Core S R) meta req req' ecs :
  SimulateECS meta = None → DualstackEnabled (c_cfg c) && Internal meta = false →
  request_ecs c meta None req = Ok (req', ecs) →
  req' = req ∧ ecs = Some (clampScope (ecsFromMsg req) (ECSScopeMax (c_cfg c))).
Proof. intros Hsim Hd. unfold request_ecs. rewrite Hsim, Hd. cbn [andb]. intros Heq. split; congruence. Qed.

(** ** A core to evaluate: two upstreams, memory cache, no Redis *)

Definition demo_core (t : option Threat.Client) : Core MemoryCache.t DemoRedis :=
  Build_Core demo_config MemoryCache.NewMemoryCache (NewLimiter None 100 5) NewStats (demo_manager "round_robin")
    NewSplitter (NewValidator "ad-only") demo_dualstack t [] CounterSet.NewCounterSet CounterSet.NewCounterSet (Some []) [].
Definition demo_meta : RequestMeta :=
  {| Via := "udp"; SNI := ""; Prefix := ""; MTenant := Some demo_tenant; ClientIP := [192; 0; 2; 1]; Internal := false;
     SimulateECS := None; SkipRateLimit := false |}.
Definition demo_threat : Threat.Client :=
  {| apiURL := ""; token := ""; c_blacklist := Some {| exact := {["www.example.com"]}; wildcard := [] |}; cacheTTL := 0;
     blockMode := "on"; blockPool := []; blocked := ∅; cache := ∅ |}.
(** [Process] on the demo core with group "g1" configured as the default. *)
Definition demo_process (c : Core MemoryCache.t DemoRedis) (req : Msg) (flight : option SingleFlight.result) :=
  @Process _ _ ascii_case _ _ _ (demo_lib []) demo_network (seeded 0) demo_api (λ _, Ok None) c (Some req) demo_meta flight
    (5 * second) (5 * second).

Example demo_process_ok :
  match demo_process (demo_core None) demo_question None with
  | Ok (c, m, rm) => m_Id m = 9 ∧ Upstream_ rm = "udp/tcp://b:53" ∧ (length <$> logger c) = Some 1%nat
  | _ => False
  end.
Proof. vm_compute. split_and!; reflexivity. Qed.


Lemma Process_tenant_isolation_witness :
  ∃ c m rm, demo_process (demo_core None) demo_question None = Ok (c, m, rm) ∧
  @AnswerCache.Get _ _ (demo_lib []) (c_store c) 0 (@CacheKey ascii_case "t2" "" "www.example.com." "A") 1 =
  @AnswerCache.Get _ _ (demo_lib []) (c_store (demo_core None)) 0 (@CacheKey ascii_case "t2" "" "www.example.com." "A") 1.
Proof.
  destruct (demo_process (demo_core None) demo_question None) as [[[c m] rm]| |] eqn:E; [|vm_compute in E; discriminate..].
  exists c, m, rm. split; [reflexivity|].
  apply (@Process_tenant_isolation _ _ ascii_case _ memory_cache_laws _ _ (demo_lib []) demo_network (seeded 0) demo_api
           _ _ _ _ _ _ _ _ _ _ "t2" "" "www.example.com." "A" 1 0 E).
  vm_compute. discriminate.
Defined.

Lemma Process_blocked_witness :
  ∃ c m rm, demo_process (demo_core (Some demo_threat)) demo_question None = Ok (c, m, rm) ∧
    Data <$> m_Answer m = [RD_A [127; 0; 0; 1]].
Proof.
  edestruct (@Process_blocked MemoryCache.t DemoRedis ascii_case _ _ _ (demo_lib []) _ demo_network (seeded 0) demo_api (λ _, Ok None)
              (demo_core (Some demo_threat)) demo_question
              {| q_Name := "www.example.com."; q_Qtype := TypeA; q_Qclass := ClassINET |} demo_meta None (5 * second) (5 * second))
    as (c & m & rm & Hp & _ & _ & _ & Ha).
  - vm_compute. reflexivity.
  - vm_compute. reflexivity.
  - intros Hd. vm_compute in Hd. discriminate.
  - reflexivity.
  - vm_compute. reflexivity.
  - vm_compute. discriminate.
  - exists c, m, rm. split; [exact Hp|exact Ha].
Defined.

Lemma Process_joined_Id_witness :
  ∃ c rm, demo_process (demo_core None) demo_question (Some (Some (set_Id newMsg 1), noMeta)) = Ok (c, set_Id newMsg 1, rm) ∧
  m_Id (set_Id newMsg 1) ≠ m_Id demo_question.
Proof.
  edestruct (@Process_joined_Id MemoryCache.t DemoRedis ascii_case _ _ _ (demo_lib []) demo_network (seeded 0) demo_api (λ _, Ok None)
              (demo_core None) demo_question {| q_Name := "www.example.com."; q_Qtype := TypeA; q_Qclass := ClassINET |} demo_meta
              (set_Id newMsg 1) noMeta (5 * second) (5 * second)) as (c & rm & Hp).
  - vm_compute. reflexivity.
  - vm_compute. reflexivity.
  - intros Hd. vm_compute in Hd. discriminate.
  - reflexivity.
  - reflexivity.
  - exists c, rm. split; [exact Hp|]. vm_compute. discriminate.
Defined.

Definition ecs_query : Msg :=
  @attachECS (demo_lib []) demo_question
    (Some {| Family := 1; Source := 32; Scope := 0; Address := [203; 0; 113; 77]; HasOption := true |}).
Definition no_ecs_tenant : Tenant := {|
  t_ID := "t1"; t_Name := "acme"; t_Prefix := "acme-01"; t_BaseDomain := "dns.example.com";
  t_Enabled := true; t_VIP := false; t_RateLimitQPS := 100; t_CacheMaxTTL := 21600;
  t_DefaultECS := ""; t_AllowECS := false; t_DoTEnabled := true; t_DoHEnabled := true;
  t_DoQEnabled := true; t_UpstreamGroup := ""; t_CreatedAt := 0; t_UpdatedAt := 0 |}.
Lemma clamp_not_forwarded_witness :
  ∃ req' ecs, @request_ecs _ _ ascii_case (demo_lib []) demo_api (demo_core None) demo_meta None ecs_query = Ok (req', ecs) ∧
    SourceNetmask <$> @subnets req' (demo_lib []) = [32] ∧ ecsToCacheString ecs = "203.0.113.0/24".
Proof.
  destruct (@request_ecs _ _ ascii_case (demo_lib []) demo_api (demo_core None) demo_meta None ecs_query)
    as [[req' ecs]| |] eqn:E; [|vm_compute in E; discriminate..].
  exists req', ecs. split; [reflexivity|].
  destruct (@clamp_not_forwarded _ _ ascii_case (demo_lib []) demo_api (demo_core None) demo_meta ecs_query req' ecs
              eq_refl eq_refl E) as [-> ->].
  split; vm_compute; reflexivity.
Defined.
