(* ===== verification/Discovery.v ===== *)
(** * Malicious domains, from discovery to blocking (src/internal/dnsx/handler.go)

    Requests, the threat workers, background refreshes and reloads share the
    core. [cstep] interleaves them: a request that is not blocked leaves its
    name in the queue of the workers, and a worker that finds the name
    malicious enters it in the table the next request is checked against. *)

From S2P Require Import Prelude GoStrings GoNet Config Model DnsMsg Ecs Split StoreCache AnswerCache Dnssec RateLimit Metrics Upstream Ipdb Dualstack Threat Warmup Handler.

Create HintDb queues.

Section discovery.
Context {S R : Type} `{UnicodeCase} `{Cache S} `{Redis R} `{RedisCount R} `{RedisSets R}
  `{DnsLib} `{Network} `{Rand} `{MapAPI} `{IntelAPI} `{GBK}.
Context (TenantByPrefix GetTenant : string → outcome (option Tenant)) (compile : string → option Regexp)
  (files : string → option string) (rfc3339 : Time → string) (b : option Broadcaster).
Implicit Types c : Core S R.

(** The label says whether the step is a worker's. *)
Inductive cstep : bool → Core S R → Core S R → Prop :=
| cs_request c req meta flight start now c' m rm :
    Process TenantByPrefix c req meta flight start now = Ok (c', m, rm) → cstep false c c'
| cs_worker c now : cstep true c (threatWorker_step rfc3339 b c now).1
| cs_refresh c w now : cstep false c (refresh_one GetTenant c w now).1
| cs_reload c d now c' : ReloadAll compile files c d now = Ok c' → cstep false c c'.
Inductive csteps : nat → Core S R → Core S R → Prop :=
| css_nil c : csteps 0 c c
| css_cons w n c c' c'' : cstep w c c' → csteps n c' c'' → csteps (if w then Datatypes.S n else n) c c''.

(** ** What the other steps do to the client and the queue *)

(** The client is the same and names may have joined the queue. *)
Definition queues c c' : Prop := c_threat c' = c_threat c ∧ ∃ l, threatq c' = threatq c ++ l.
#[local] Instance queues_preorder : PreOrder queues.
Proof.
  split; [intros c; split; [done|by exists []; rewrite app_nil_r]|].
  intros c1 c2 c3 [E1 [l1 Q1]] [E2 [l2 Q2]]. split; [congruence|]. exists (l1 ++ l2). by rewrite Q2, Q1, app_assoc.
Qed.
Lemma queues_same c c' : c_threat c' = c_threat c → threatq c' = threatq c → queues c c'.
Proof. intros Ht Hq. split; [done|]. exists []. by rewrite app_nil_r. Qed.
(** Changes of other fields. *)
Ltac other := apply queues_same;
  match goal with c : Core _ _ |- _ => by destruct c | _ => done end.
Lemma inc_queues k now c : queues c (inc k now c). Proof. other. Qed.
Lemma set_limiter_queues l c : queues c (set_limiter l c). Proof. other. Qed.
Lemma set_rdb_queues r c : queues c (set_rdb r c). Proof. other. Qed.
Lemma set_up_queues u c : queues c (set_up u c). Proof. other. Qed.
Lemma set_split_queues u c : queues c (set_split u c). Proof. other. Qed.
Lemma set_dualstack_queues u c : queues c (set_dualstack u c). Proof. other. Qed.
Lemma set_store_queues u c : queues c (set_store u c). Proof. other. Qed.
Lemma set_byUpstream_queues u c : queues c (set_byUpstream u c). Proof. other. Qed.
Lemma set_byTenantQ_queues u c : queues c (set_byTenantQ u c). Proof. other. Qed.
Lemma set_refresh_queues u c : queues c (set_refresh u c). Proof. other. Qed.
Lemma set_logger_queues u c : queues c (set_logger u c). Proof. other. Qed.
Lemma enqueue_queues x c : queues c (set_threatq (threatq c ++ [x]) c).
Proof. destruct c. split; [done|by eexists]. Qed.
Hint Resolve inc_queues set_limiter_queues set_rdb_queues set_up_queues set_split_queues set_dualstack_queues
  set_store_queues set_byUpstream_queues set_byTenantQ_queues set_refresh_queues set_logger_queues enqueue_queues : queues.
(** Peels the outermost update. *)
Ltac peel := repeat first [reflexivity | etrans; [|solve [auto with queues]]].

Lemma logQuery_queues c req meta tid e q rm vip now : queues c (logQuery c req meta tid e q rm vip now).
Proof. unfold logQuery. repeat case_match; peel. Qed.
Lemma observe_hit_queues c now k tid q t e : queues c (observe_hit c now k tid q t e).
Proof. unfold observe_hit. repeat case_match; peel. Qed.
Hint Resolve logQuery_queues observe_hit_queues : queues.
Lemma resolve_queues c req ecs key gid gp start now c' r :
  resolve c req ecs key gid gp start now = Ok (c', r) → queues c c'.
Proof.
  unfold resolve. destruct (ExchangeWithFailover _ _ _ _) as [up [resp es|err|]]; [| |done]; cbv zeta.
  - destruct (if do_bit req then _ else _) as [resp' verified]. destruct (AnswerCache.Put _ _ _ _ _) as [st t].
    intros [= <- _]. peel.
  - intros [= <- _]. peel.
Qed.
Lemma fetchAndCache_queues c tenant req ecs now : queues c (fetchAndCache c tenant req ecs now).1.
Proof.
  unfold fetchAndCache. destruct (m_Question req) as [|q ?]; [reflexivity|]. cbv zeta.
  destruct (query_group _ _ _) as [[gid rule] gp].
  destruct (ExchangeWithFailover _ _ _ _) as [up [resp es|err|]]; [|cbn [fst]; peel..].
  destruct (AnswerCache.Put _ _ _ _ _) as [st t]. cbn [fst]. destruct (0 <? t); peel.
Qed.
Lemma refresh_one_queues c w now : queues c (refresh_one GetTenant c w now).1.
Proof.
  unfold refresh_one. destruct (GetTenant _) as [[t|]| |]; [|reflexivity..]. cbv zeta.
  pose proof (fetchAndCache_queues c (Some t)
    (attachECS (SetEdns0 (SetQuestion (Fqdn (w_qname w)) (qtypeFromString (w_qtype w))) 1232 true) (w_ecs w)) (w_ecs w) now) as Hf.
  by destruct (fetchAndCache _ _ _ _ _).
Qed.
Lemma ReloadAll_queues c d now c' : ReloadAll compile files c d now = Ok c' → queues c c'.
Proof. unfold ReloadAll. repeat case_match; try done; intros [= <-]; peel. Qed.
Lemma process_query_queues c meta tenant req q ecs vip flight start now c' m rm :
  process_query c meta tenant req q ecs vip flight start now = Ok (c', m, rm) → queues c c'.
Proof.
  unfold process_query. cbv zeta. set (c1 := if (_ =? "")%string then _ else _).
  assert (queues c c1) as Q1 by (unfold c1; case_match; peel).
  destruct (c_threat c1 ≫= _) as [[ti ip]|]. { intros [= <- _ _]. etrans; [exact Q1|peel]. }
  set (c2 := match c_threat c1 with Some _ => _ | None => _ end).
  assert (queues c c2) as Q2 by (etrans; [exact Q1|]; unfold c2; repeat case_match; peel).
  destruct (AnswerCache.Get _ _ _ _). { intros [= <- _ _]. etrans; [exact Q2|peel]. }
  unfold process_miss. cbv zeta. destruct (query_group _ _ _) as [[gid rule] gp].
  destruct flight as [[m0 fmeta]|]. { intros [= <- _ _]. etrans; [exact Q2|peel]. }
  destruct (resolve _ _ _ _ _ _ _ _) as [[c3 [m3 fmeta]]| |] eqn:Hr; [|done..]. intros [= <- _ _].
  apply resolve_queues in Hr. etrans; [exact Q2|]. etrans; [|apply logQuery_queues]. etrans; [|exact Hr]. peel.
Qed.
Lemma Process_queues c req meta flight start now c' m rm :
  Process TenantByPrefix c req meta flight start now = Ok (c', m, rm) → queues c c'.
Proof.
  unfold Process. cbv zeta. destruct (validate_query req) as [[r|]|q]; [| |destruct req as [req|]]; try done.
  { intros [= <- _ _]. peel. }
  destruct (if SkipRateLimit meta then _ else _) as [lim allowed].
  destruct (negb allowed). { intros [= <- _ _]. peel. }
  destruct (request_ecs _ _ _ _) as [[req' ecs]| |]; [|done..]. intros Hq%process_query_queues.
  etrans; [|exact Hq]. peel.
Qed.

(** ** The invariant of the client *)

(** [known] are the names a worker has found. *)
Record client_inv (t0 : Client) (known : gset string) c : Prop := {
  ci_client : ∃ t, c_threat c = Some t ∧ hits_blocked t ∧ cache_sound t ∧ block_off t = block_off t0 ∧
    (∀ k, malicious t k = malicious t0 k) ∧ (∀ k, k ∈ known → is_Some (blocked t !! k));
}.
Lemma client_inv_queues t0 known c c' : queues c c' → client_inv t0 known c → client_inv t0 known c'.
Proof. intros [Ht _] [Hc]. split. by rewrite Ht. Qed.
(** A worker's step takes the first name; a malicious one becomes known. *)
Lemma worker_spec t0 known c now d ip rest :
  block_off t0 = false → client_inv t0 known c → threatq c = (d, ip) :: rest →
  let c' := (threatWorker_step rfc3339 b c now).1 in
  threatq c' = rest ∧ client_inv t0 known c' ∧
  (normalize d ≠ "" → malicious t0 (normalize d) = true → client_inv t0 ({[normalize d]} ∪ known) c').
Proof.
  intros Hon [(t & Ht & Hb & Hs & Hoff & Hm & Hk)] Hq. unfold threatWorker_step. rewrite Hq, Ht.
  pose proof (Check_fields t d now) as (Hoff' & _ & Hmono). pose proof (Check_hits_blocked t d now Hb) as Hb'.
  pose proof (Check_cache_sound t d now Hs) as Hs'. pose proof (Check_malicious t d now) as Hm'.
  pose proof (Check_found t d now Hs) as Hf. pose proof (Check_hit t d now) as Hh.
  destruct (Check_ t d now) as [t' hit]. cbn [fst snd] in *.
  set (p := match hit with Some _ => _ | None => _ end).
  assert (threatq p.1 = rest ∧ c_threat p.1 = Some t') as [Hq' Ht'] by (unfold p; destruct hit, c; done).
  clearbody p. cbv zeta. split_and!; [done|..].
  - split. exists t'. split_and!; try done; [congruence|congruence|auto].
  - intros Hne Hmal. rewrite Hm in Hf. rewrite Hmal in Hf. destruct hit as [hit|]; [|by specialize (Hf Hne)].
    destruct (Hh t' hit Hb ltac:(congruence) eq_refl) as [_ Hin].
    split. exists t'. split_and!; try done; [congruence|congruence|]. intros k [->%elem_of_singleton|Hk']%elem_of_union; auto.
Qed.
Lemma worker_idle c now : threatq c = [] → (threatWorker_step rfc3339 b c now).1 = c.
Proof. unfold threatWorker_step. by intros ->. Qed.
Lemma cstep_inv t0 known w c c' : block_off t0 = false → cstep w c c' → client_inv t0 known c → client_inv t0 known c'.
Proof.
  intros Hon Hs Hc. destruct Hs as [c req meta flight start now c' m rm HP|c now|c w now|c d now c' HR].
  - eapply client_inv_queues; [by eapply Process_queues|done].
  - destruct (threatq c) as [|[d ip] rest] eqn:Hq; [by rewrite worker_idle|]. by eapply worker_spec.
  - eapply client_inv_queues; [apply refresh_one_queues|done].
  - eapply client_inv_queues; [by eapply ReloadAll_queues|done].
Qed.
Lemma csteps_inv t0 known n c c' : block_off t0 = false → csteps n c c' → client_inv t0 known c → client_inv t0 known c'.
Proof. intros Hon. induction 1 as [|w n c c' c'' Hs _ IH]; intros Hc; [done|]. eauto using cstep_inv. Qed.

(** A queued name is checked once the workers have taken as many names as
    stand before it, and itself. *)
Lemma csteps_checked t0 known d ip i n c c' :
  block_off t0 = false → normalize d ≠ "" → malicious t0 (normalize d) = true →
  csteps n c c' → client_inv t0 known c → threatq c !! i = Some (d, ip) → (i < n)%nat →
  client_inv t0 ({[normalize d]} ∪ known) c'.
Proof.
  intros Hon Hne Hmal Hs. revert i. induction Hs as [c|w n c c' c'' Hs Hrest IH]; intros i Hc Hq Hi; [lia|].
  assert (w = false → client_inv t0 ({[normalize d]} ∪ known) c'') as Hother.
  { intros ->. assert (queues c c') as [_ [l Hl]].
    { inversion Hs; subst; [by eapply Process_queues|apply refresh_one_queues|by eapply ReloadAll_queues]. }
    apply (IH i); [by eapply cstep_inv|rewrite Hl; by apply lookup_app_l_Some|done]. }
  destruct w; [|by apply Hother]. inversion Hs; subst.
  destruct (threatq c) as [|[d' ip'] rest] eqn:Hqc; [done|].
  destruct (worker_spec t0 known c now d' ip' rest Hon Hc Hqc) as (Hq' & Hc' & Hnew).
  destruct i as [|i]; simpl in Hq.
  - injection Hq as -> ->. eapply csteps_inv; [done..|]. by apply Hnew.
  - apply (IH i); [done|by rewrite Hq'|lia].
Qed.
End discovery.

(** ** Properties *)

(** A core that has just started knows no name. *)
Lemma NewCore_inv {S R} `{UnicodeCase} `{IntelAPI} `{GBK} files v4file v6file listen cfg (st : S) lg (rdb : option R) c b :
  NewCore files v4file v6file listen cfg st lg rdb = Ok (c, b) → ThreatIntelEnabled cfg = true →
  client_inv (NewClient cfg files) ∅ c ∧ threatq c = [].
Proof.
  unfold NewCore. intros Hn Hon. rewrite Hon in Hn. cbn [negb] in Hn. cbv zeta in Hn.
  destruct (ThreatQueueSize cfg <? 0); [done|]. injection Hn as <- _. split; [|done]. split. simpl. eexists.
  split_and!; [done|..|done|done|set_solver].
  - intros _ d hit seen. simpl. by rewrite lookup_empty.
  - intros d hit seen. simpl. by rewrite lookup_empty.
Qed.


(** The daemon started with intelligence on; a query for a malicious name,
    which is answered; a worker; the same query again. *)
Definition discover_config : Config :=
  @config_of_env (λ _, None) "h1" (<["THREAT_INTEL_ENABLED" := "true"]> (<["THREAT_BROADCAST_ENABLED" := "true"]>
    (<["THREAT_INTEL_URL" := "http://intel/"]> (<["THREAT_BLOCK_MODE" := "127.0.0.1"]> demo_env)))).
Definition discover_start : outcome (Core MemoryCache.t DemoRedis * option Broadcaster) :=
  @NewCore _ _ ascii_case ascii_gbk (λ _, None) (Err "") (Err "") (Ok ()) discover_config MemoryCache.NewMemoryCache None None.
Definition discover_core : Core MemoryCache.t DemoRedis :=
  match discover_start with Ok (c, _) => c | _ => demo_core None end.
Definition discover_lan : option Broadcaster := match discover_start with Ok (_, b) => b | _ => None end.
Definition evil_question : Question := {| q_Name := "Evil.Example."; q_Qtype := TypeA; q_Qclass := ClassINET |}.
Definition evil_query : Msg := Build_Msg 9 false 0 false false true false false false 0 false [evil_question] [] [] [].
Definition discover_asked : Core MemoryCache.t DemoRedis :=
  match demo_process discover_core evil_query None with Ok (c, _, _) => c | _ => discover_core end.
Definition discover_worked := @threatWorker_step _ _ ascii_case demo_intel fmt_d discover_lan discover_asked (6 * second).

Example discover_alert :
  discover_worked.2 = Some (ParseIP "255.255.255.255", 9999,
    {| al_Type := "dns_threat_alert"; al_Domain := "evil.example"; al_ClientIP := "192.0.2.1"; al_Category := "c2";
       al_Severity := "medium"; al_Source := "api"; al_Timestamp := fmt_d (6 * second) |}).
Proof. vm_compute. reflexivity. Qed.

