(* ===== verification/WarmRun.v ===== *)
(** * Warm jobs, interleaved (src/internal/dnsx/warmup.go, [run])

    A warm job fetches every pair of a domain and a subnet in a goroutine of
    its own, at most [WarmupConcurrency] at a time: the main goroutine sends
    on a channel of that capacity before it starts a fetch, and the fetch
    receives from it when it ends. The goroutines count in fields of the job
    without synchronisation, so an increment is a load and a store that
    others may come between. A schedule says who moves at each instant;
    [run_sched] runs it. *)

From S2P Require Import Prelude GoStrings GoNet Config Model DnsMsg Ecs Split StoreCache AnswerCache Dnssec RateLimit Metrics Upstream Dualstack Warmup Handler.

(** Where a goroutine stands. Its deferred calls run last: the receive from
    the channel, then [wg.Done]. *)
Inductive wpc := Fetch | FailLoad | FailStore (v : Z) | DoneLoad | DoneStore (v : Z) | Unsem | Unwg | Ended.
#[global] Instance wpc_eq_dec : EqDecision wpc.
Proof. solve_decision. Defined.
Notation Worker := ((string * string) * wpc)%type.

Definition set_Failed (j : WarmJob) (v : Z) : WarmJob :=
  {| j_ID := j_ID j; j_TenantID := j_TenantID j; j_Domains := j_Domains j; j_ECSs := j_ECSs j; j_Total := j_Total j;
     j_Done := j_Done j; j_Failed := v; j_StartedAt := j_StartedAt j; j_Finished := j_Finished j |}.
Definition set_Done (j : WarmJob) (v : Z) : WarmJob :=
  {| j_ID := j_ID j; j_TenantID := j_TenantID j; j_Domains := j_Domains j; j_ECSs := j_ECSs j; j_Total := j_Total j;
     j_Done := v; j_Failed := j_Failed j; j_StartedAt := j_StartedAt j; j_Finished := j_Finished j |}.

(** The job while it runs: the pairs not started yet, the elements in the
    channel, the goroutines; the fetches made so far, in order, are ghost
    state. *)
Record RunState (S R : Type) := {
  rs_core : Core S R; rs_job : WarmJob; rs_todo : list (string * string); rs_sem : nat; rs_ws : list Worker;
  rs_log : list ((string * string) * Time)
}.
Arguments rs_core {S R}. Arguments rs_job {S R}. Arguments rs_todo {S R}. Arguments rs_sem {S R}.
Arguments rs_ws {S R}. Arguments rs_log {S R}. Arguments Build_RunState {S R}.

Section run.
Context {S R : Type} `{UnicodeCase} `{Cache S} `{Redis R} `{RedisCount R} `{RedisSets R}
  `{DnsLib} `{Network} `{Rand} `{MapAPI}.
Context (GetTenant : string → outcome (option Tenant)).
Implicit Types (c : Core S R) (s : RunState S R).

(** The pairs in the order of the two loops. *)
Definition job_pairs (j : WarmJob) : list (string * string) := d ← j_Domains j; e ← j_ECSs j; mret (d, e).
Definition run_start c (j : WarmJob) : RunState S R :=
  {| rs_core := c; rs_job := j; rs_todo := job_pairs j; rs_sem := 0; rs_ws := []; rs_log := [] |}.

(** One move of a goroutine; [None] when it has ended (or the fetch crashes
    the process). *)
Definition worker_step (now : Time) c (j : WarmJob) (p : string * string) (pc : wpc) : option (Core S R * WarmJob * wpc) :=
  match pc with
  | Fetch =>
      match warmOne GetTenant c (j_TenantID j) p.1 p.2 now with
      | (c, Ok _) => Some (c, j, DoneLoad)
      | (c, Err _) => Some (c, j, FailLoad)
      | (_, Panic) => None
      end
  | FailLoad => Some (c, j, FailStore (j_Failed j))
  | FailStore v => Some (c, set_Failed j (v + 1), DoneLoad)
  | DoneLoad => Some (c, j, DoneStore (j_Done j))
  | DoneStore v => Some (c, set_Done j (v + 1), Unsem)
  | Unsem => Some (c, j, Unwg)
  | Unwg => Some (c, j, Ended)
  | Ended => None
  end.
Definition is_fetch (pc : wpc) : bool := match pc with Fetch => true | _ => false end.
Definition is_unsem (pc : wpc) : bool := match pc with Unsem => true | _ => false end.
Definition is_ended (pc : wpc) : bool := match pc with Ended => true | _ => false end.

(** One move: of the main goroutine ([None]), which starts the next fetch
    when the channel has room and finishes the job when all have ended, or
    of the goroutine with a number. *)
Definition rstep (cap : nat) (now : Time) (who : option nat) s : option (RunState S R) :=
  match who with
  | None =>
      match rs_todo s with
      | p :: rest =>
          if (rs_sem s <? cap)%nat
          then Some {| rs_core := rs_core s; rs_job := rs_job s; rs_todo := rest; rs_sem := Datatypes.S (rs_sem s);
                       rs_ws := rs_ws s ++ [(p, Fetch)]; rs_log := rs_log s |}
          else None
      | [] =>
          if forallb (λ w, is_ended w.2) (rs_ws s) && negb (j_Finished (rs_job s))
          then Some {| rs_core := rs_core s; rs_job := job_finish (rs_job s); rs_todo := []; rs_sem := rs_sem s;
                       rs_ws := rs_ws s; rs_log := rs_log s |}
          else None
      end
  | Some i =>
      match rs_ws s !! i with
      | Some (p, pc) =>
          match worker_step now (rs_core s) (rs_job s) p pc with
          | Some (c, j, pc') =>
              Some {| rs_core := c; rs_job := j; rs_todo := rs_todo s;
                      rs_sem := if is_unsem pc then pred (rs_sem s) else rs_sem s;
                      rs_ws := <[i := (p, pc')]> (rs_ws s);
                      rs_log := if is_fetch pc then rs_log s ++ [(p, now)] else rs_log s |}
          | None => None
          end
      | None => None
      end
  end.
Fixpoint run_sched (cap : nat) (l : list (option nat * Time)) s : option (RunState S R) :=
  match l with
  | [] => Some s
  | (who, now) :: l => match rstep cap now who s with Some s' => run_sched cap l s' | None => None end
  end.

(** The channel of the configuration: [make] panics on a negative size. *)
Definition run_cap (cfg : Config) : outcome nat :=
  if WarmupConcurrency cfg <? 0 then Panic else Ok (Z.to_nat (WarmupConcurrency cfg)).

(** The fetches of a list, one after the other. *)
Definition replay (tid : string) (l : list ((string * string) * Time)) c : Core S R :=
  foldl (λ c x, (warmOne GetTenant c tid x.1.1 x.1.2 x.2).1) c l.
End run.

(** ** Lemmas *)

(** An update in the middle of a list. *)
Lemma insert_middle {A} (l : list A) i x :
  l !! i = Some x → ∃ l1 l2, l = l1 ++ x :: l2 ∧ length l1 = i ∧ ∀ y, <[i := y]> l = l1 ++ y :: l2.
Proof.
  intros Hx. exists (take i l), (drop (S i) l). pose proof (lookup_lt_Some _ _ _ Hx).
  split_and!; [by rewrite take_drop_middle|rewrite length_take; lia|]. intros y. by rewrite insert_take_drop.
Qed.

(** Goroutines that hold an element of the channel, that have counted
    themselves as done, that are beyond counting a failure; the moves left. *)
Definition holds (w : Worker) : nat := match w.2 with Unwg | Ended => 0 | _ => 1 end.
Definition counted (w : Worker) : nat := match w.2 with Unsem | Unwg | Ended => 1 | _ => 0 end.
Definition fcounted (w : Worker) : nat := match w.2 with Fetch | FailLoad | FailStore _ => 0 | _ => 1 end.
Definition moves (w : Worker) : nat :=
  match w.2 with
  | Fetch => 7 | FailLoad => 6 | FailStore _ => 5 | DoneLoad => 4 | DoneStore _ => 3 | Unsem => 2 | Unwg => 1 | Ended => 0
  end.
Definition total (f : Worker → nat) (ws : list Worker) : nat := sum_list_with f ws.
Lemma total_middle f l1 w l2 : total f (l1 ++ w :: l2) = (total f l1 + f w + total f l2)%nat.
Proof. unfold total. rewrite sum_list_with_app. simpl. lia. Qed.
Lemma total_le f ws : (∀ w, f w ≤ 1)%nat → (total f ws ≤ length ws)%nat.
Proof. intros Hf. unfold total. induction ws as [|w ws IH]; simpl; [lia|]. specialize (Hf w). lia. Qed.

Section lemmas.
Context {S R : Type} `{UnicodeCase} `{Cache S} `{Redis R} `{RedisCount R} `{RedisSets R}
  `{DnsLib} `{Network} `{Rand} `{MapAPI}.
Context (GetTenant : string → outcome (option Tenant)) (cap : nat).
Implicit Types (c : Core S R) (s : RunState S R).
Notation rstep := (rstep GetTenant cap).
Notation run_sched := (run_sched GetTenant cap).

Definition moves_left s : nat :=
  8 * length (rs_todo s) + total moves (rs_ws s) + (if j_Finished (rs_job s) then 0 else 1).

Record run_inv (c0 : Core S R) (j0 : WarmJob) s : Prop := {
  ri_sem : rs_sem s = total holds (rs_ws s) ∧ (rs_sem s ≤ cap)%nat;
  ri_pairs : (rs_ws s).*1 ++ rs_todo s = job_pairs j0;
  ri_log : (rs_log s).*1 ≡ₚ (filter (λ w, is_fetch w.2 = false) (rs_ws s)).*1;
  ri_core : rs_core s = replay GetTenant (j_TenantID j0) (rs_log s) c0;
  ri_job : j_TenantID (rs_job s) = j_TenantID j0 ∧ j_Total (rs_job s) = j_Total j0;
  ri_done : 0 ≤ j_Done (rs_job s) ≤ Z.of_nat (total counted (rs_ws s));
  ri_load : ∀ i p v, rs_ws s !! i = Some (p, DoneStore v) → 0 ≤ v ≤ Z.of_nat (total counted (rs_ws s));
  ri_failed : 0 ≤ j_Failed (rs_job s) ≤ Z.of_nat (total fcounted (rs_ws s));
  ri_fload : ∀ i p v, rs_ws s !! i = Some (p, FailStore v) → 0 ≤ v ≤ Z.of_nat (total fcounted (rs_ws s));
  ri_fin : j_Finished (rs_job s) = true → rs_todo s = [] ∧ Forall (λ w, w.2 = Ended) (rs_ws s);
}.

(** What a goroutine's move does to the core, the job and its place. *)
Lemma worker_step_spec now c j p pc c' j' pc' :
  worker_step GetTenant now c j p pc = Some (c', j', pc') →
  c' = (if is_fetch pc then (warmOne GetTenant c (j_TenantID j) p.1 p.2 now).1 else c) ∧
  j_TenantID j' = j_TenantID j ∧ j_Total j' = j_Total j ∧ j_Finished j' = j_Finished j ∧ pc ≠ Ended ∧ pc' ≠ Fetch ∧
  (moves (p, pc') < moves (p, pc))%nat ∧ (counted (p, pc) ≤ counted (p, pc'))%nat ∧ (fcounted (p, pc) ≤ fcounted (p, pc'))%nat ∧
  (holds (p, pc') = holds (p, pc) - (if is_unsem pc then 1 else 0))%nat ∧
  (j_Done j' = j_Done j ∧ (∀ v, pc' = DoneStore v → v = j_Done j) ∨
   ∃ v, pc = DoneStore v ∧ pc' = Unsem ∧ j_Done j' = v + 1) ∧
  (j_Failed j' = j_Failed j ∧ (∀ v, pc' = FailStore v → v = j_Failed j) ∨
   ∃ v, pc = FailStore v ∧ pc' = DoneLoad ∧ j_Failed j' = v + 1).
Proof.
  unfold worker_step. destruct pc; [destruct (warmOne _ _ _ _ _ _) as [c1 [u|e|]] eqn:E; [..|done]|..|done];
    intros [= <- <- <-]; rewrite ?E; split_and!; try done; try (cbn; lia); eauto 6;
    left; (split; [done|]); intros v'; congruence.
Qed.

Lemma run_start_inv c0 j0 :
  j_Done j0 = 0 → j_Failed j0 = 0 → j_Finished j0 = false → run_inv c0 j0 (run_start c0 j0).
Proof. intros Hd Hf Hn. split; simpl; rewrite ?Hd, ?Hf, ?Hn; split_and?; try done; cbn; lia. Qed.

(** The moves of a run keep the invariant and use up moves. *)
Lemma rstep_main_inv c0 j0 now s s' :
  rstep now None s = Some s' → run_inv c0 j0 s → run_inv c0 j0 s' ∧ (moves_left s' < moves_left s)%nat.
Proof.
  intros Hs [[Hsem Hcap] Hp Hl Hc Hj Hd Hdl Hf Hfl Hfin]. unfold WarmRun.rstep in Hs.
  destruct (rs_todo s) as [|p rest] eqn:Ht.
  - destruct (forallb _ _ && _) eqn:Hall; simplify_eq. apply andb_prop in Hall as [Hall Hnf]. apply negb_true_iff in Hnf.
    split; [|unfold moves_left; simpl; rewrite Ht, Hnf; simpl; lia].
    split; simpl; try done. intros _. split; [done|]. apply Forall_forall. intros w Hw.
    rewrite forallb_forall in Hall. apply list_elem_of_In, Hall in Hw. by destruct (w.2).
  - destruct (Nat.ltb_spec (rs_sem s) cap) as [Hlt|]; simplify_eq.
    assert (∀ f, total f (rs_ws s ++ [(p, Fetch)]) = (total f (rs_ws s) + f (p, Fetch))%nat) as Htot.
    { intros f. rewrite total_middle. unfold total at 2. simpl. lia. }
    assert (j_Finished (rs_job s) = false) as Hnf.
    { destruct (j_Finished (rs_job s)) eqn:E; [|done]. by destruct (Hfin eq_refl). }
    split; [|unfold moves_left; simpl; rewrite Ht, Htot; cbn; lia].
    split; simpl; rewrite ?Htot.
    + cbn. lia.
    + by rewrite fmap_app, <-app_assoc.
    + rewrite filter_app, filter_cons_False by done. by rewrite filter_nil, app_nil_r.
    + done.
    + done.
    + cbn. lia.
    + intros i q v [Hi|[_ [_ [=]]%list_lookup_singleton_Some]]%lookup_app_Some. apply Hdl in Hi. cbn. lia.
    + cbn. lia.
    + intros i q v [Hi|[_ [_ [=]]%list_lookup_singleton_Some]]%lookup_app_Some. apply Hfl in Hi. cbn. lia.
    + by rewrite Hnf.
Qed.
(** A bound on every loaded value survives the update of one place, when the
    place is not a load or loads a value in bounds. *)
Lemma loads_insert (mk : Z → wpc) (b b' : nat) (ws : list Worker) (k : nat) p pc' :
  (b ≤ b')%nat → (∀ i q v, ws !! i = Some (q, mk v) → 0 ≤ v ≤ Z.of_nat b) →
  (∀ v, pc' = mk v → 0 ≤ v ≤ Z.of_nat b') →
  ∀ i q v, <[k := (p, pc')]> ws !! i = Some (q, mk v) → 0 ≤ v ≤ Z.of_nat b'.
Proof.
  intros Hb Hold Hnew i q v [(-> & [= <- Hv] & _)|[_ Hi]]%list_lookup_insert_Some; [by apply Hnew|].
  apply Hold in Hi. lia.
Qed.
Lemma rstep_worker_inv c0 j0 now k s s' :
  rstep now (Some k) s = Some s' → run_inv c0 j0 s → run_inv c0 j0 s' ∧ (moves_left s' < moves_left s)%nat.
Proof.
  intros Hs [[Hsem Hcap] Hp Hl Hc Hj Hd Hdl Hf Hfl Hfin]. unfold WarmRun.rstep in Hs.
  destruct (rs_ws s !! k) as [[p pc]|] eqn:Hk; [|done].
  destruct (worker_step _ _ _ _ _ _) as [[[c' j'] pc']|] eqn:Hw; simplify_eq.
  apply worker_step_spec in Hw as (-> & Htid & Htot & Hfn & Hne & Hnf & Hm & Hcn & Hfc & Hh & HD & HF).
  destruct (insert_middle _ _ _ Hk) as (l1 & l2 & Hws & Hlen & Hins).
  assert (∀ f, (total f (<[k:=(p, pc')]> (rs_ws s)) + f (p, pc) = total f (rs_ws s) + f (p, pc'))%nat) as Htt.
  { intros f. rewrite Hins, Hws, !total_middle. lia. }
  pose proof (Htt moves) as Tm. pose proof (Htt counted) as Tc. pose proof (Htt fcounted) as Tf. pose proof (Htt holds) as Th.
  assert (holds (p, pc) ≤ total holds (rs_ws s))%nat as Hhold by (rewrite Hws, total_middle; lia).
  split; [|unfold moves_left; simpl; rewrite Hfn; lia].
  split; simpl.
  - destruct (is_unsem pc) eqn:Hu; [|lia]. destruct pc; try done. cbn in Hh, Hhold, Th. lia.
  - by rewrite Hins, <-Hp, Hws, !fmap_app.
  - rewrite Hins, filter_app, filter_cons_True by (by destruct pc'). rewrite fmap_app. cbn [fmap list_fmap].
    rewrite Hws, filter_app, fmap_app in Hl. destruct (is_fetch pc) eqn:Hpc.
    + rewrite filter_cons_False in Hl by (cbn; congruence). rewrite fmap_app, Hl. cbn. by rewrite <-Permutation_cons_append, Permutation_middle.
    + rewrite filter_cons_True in Hl by done. exact Hl.
  - rewrite Hc. destruct (is_fetch pc); [|done]. unfold replay. rewrite foldl_snoc. cbn. by rewrite (proj1 Hj).
  - destruct Hj. split; congruence.
  - destruct HD as [[-> _]|(v & -> & -> & ->)]; [lia|]. apply Hdl in Hk. cbn in Tc. lia.
  - apply loads_insert with (b := total counted (rs_ws s)); [lia|done|]. intros v ->.
    destruct HD as [[_ Hv]|(v' & _ & [=] & _)]. pose proof (Hv v eq_refl). lia.
  - destruct HF as [[-> _]|(v & -> & -> & ->)]; [lia|]. apply Hfl in Hk. cbn in Tf. lia.
  - apply loads_insert with (b := total fcounted (rs_ws s)); [lia|done|]. intros v ->.
    destruct HF as [[_ Hv]|(v' & _ & [=] & _)]. pose proof (Hv v eq_refl). lia.
  - rewrite Hfn. intros E. destruct (Hfin E) as [_ Hall]. by apply (Forall_lookup_1 _ _ _ _ Hall) in Hk.
Qed.
Lemma rstep_inv c0 j0 now who s s' :
  rstep now who s = Some s' → run_inv c0 j0 s → run_inv c0 j0 s' ∧ (moves_left s' < moves_left s)%nat.
Proof. destruct who; [apply rstep_worker_inv|apply rstep_main_inv]. Qed.
Lemma run_sched_inv c0 j0 l s s' :
  run_sched l s = Some s' → run_inv c0 j0 s → run_inv c0 j0 s' ∧ (length l + moves_left s' ≤ moves_left s)%nat.
Proof.
  revert s. induction l as [|[who now] l IH]; intros s Hr Hi; simpl in Hr; [simplify_eq; split; [done|simpl; lia]|].
  destruct (rstep now who s) as [s1|] eqn:E; [|done]. destruct (rstep_inv _ _ _ _ _ _ E Hi) as [Hi1 Hm].
  destruct (IH s1 Hr Hi1) as [Hi' Hm']. split; [done|]. simpl. lia.
Qed.

(** Somebody can move until the job is finished. *)
Lemma run_progress c0 j0 now s :
  run_inv c0 j0 s → (0 < cap)%nat → (∀ d e, (warmOne GetTenant (rs_core s) (j_TenantID j0) d e now).2 ≠ Panic) →
  j_Finished (rs_job s) = false → ∃ who s', rstep now who s = Some s'.
Proof.
  intros [[Hsem Hcap] _ _ _ [Htid _] _ _ _ _ _] Hpos Hnp Hnf.
  destruct (decide (Exists (λ w : Worker, w.2 ≠ Ended) (rs_ws s))) as [([p pc] & Hin & Hne)%Exists_exists|Hall].
  - apply list_elem_of_lookup in Hin as [k Hk]. exists (Some k). unfold WarmRun.rstep. cbv beta iota. rewrite Hk. cbn in Hne.
    unfold worker_step. destruct pc; eauto; [|done].
    rewrite Htid. specialize (Hnp p.1 p.2).
    destruct (warmOne _ _ _ _ _ _) as [c' [u|e|]]; [eauto..|done].
  - apply not_Exists_Forall in Hall; [|intros w; apply _].
    eapply (Forall_impl _ (λ w : Worker, w.2 = Ended)) in Hall; [|intros w Hw; by apply dec_stable].
    exists None. unfold WarmRun.rstep. cbv beta iota.
    assert (total holds (rs_ws s) = 0%nat) as H0'.
    { clear -Hall. induction Hall as [|w ws Hw _ IH]; [done|]. unfold total in *. simpl. by rewrite IH; unfold holds; rewrite Hw. }
    destruct (rs_todo s) as [|p rest].
    + rewrite Hnf, (proj2 (forallb_forall _ _)); [eauto|]. intros w Hw%list_elem_of_In.
      rewrite Forall_forall in Hall. by rewrite (Hall w Hw).
    + rewrite Hsem, H0'. destruct (Nat.ltb_spec 0 cap); [eauto|lia].
Qed.

(** ** One fetch at a time *)

Lemma run_fetches_snoc c j l d e now :
  run_fetches GetTenant c j (l ++ [(d, e)]) now =
  match run_fetches GetTenant c j l now with
  | Some (c, j) => run_fetches GetTenant c j [(d, e)] now
  | None => None
  end.
Proof.
  revert c j. induction l as [|[d' e'] l IH]; intros c j; [done|]. cbn [app run_fetches].
  destruct (warmOne _ _ _ _ _ _) as [c1 [u|m|]]; [apply IH..|done].
Qed.
Lemma run_fetches_tid c j l now c' j' : run_fetches GetTenant c j l now = Some (c', j') → j_TenantID j' = j_TenantID j.
Proof.
  revert c j. induction l as [|[d e] l IH]; intros c j; cbn [run_fetches]; [by intros [= _ <-]|].
  destruct (warmOne _ _ _ _ _ _) as [c1 [u|m|]]; [by intros ->%IH..|done].
Qed.

(** The goroutine on its way, after the sequential run up to its pair. *)
Definition fetched c1 (j1 : WarmJob) (p : string * string) now c' (j' : WarmJob) : Prop :=
  run_fetches GetTenant c1 j1 [p] now = Some (c', set_Done j' (j_Done j1 + 1)) ∧ j_Done j' = j_Done j1.
Definition on_way c1 (j1 : WarmJob) now (p : string * string) (pc : wpc) c' (j' : WarmJob) : Prop :=
  match pc with
  | Fetch => c' = c1 ∧ j' = j1
  | FailLoad => (∃ e, warmOne GetTenant c1 (j_TenantID j1) p.1 p.2 now = (c', Err e)) ∧ j' = j1
  | FailStore v => (∃ e, warmOne GetTenant c1 (j_TenantID j1) p.1 p.2 now = (c', Err e)) ∧ j' = j1 ∧ v = j_Failed j1
  | DoneLoad => fetched c1 j1 p now c' j'
  | DoneStore v => fetched c1 j1 p now c' j' ∧ v = j_Done j1
  | _ => False
  end.
Lemma on_way_step c1 j1 now p pc c j c' j' pc' :
  on_way c1 j1 now p pc c j → worker_step GetTenant now c j p pc = Some (c', j', pc') →
  on_way c1 j1 now p pc' c' j' ∨ pc' = Unsem ∧ run_fetches GetTenant c1 j1 [p] now = Some (c', j').
Proof.
  destruct p as [d e]. destruct pc; cbn [on_way worker_step]; try done.
  - intros [-> ->]. cbn [fst snd]. destruct (warmOne _ _ _ _ _ _) as [c2 [u|m|]] eqn:E; intros [= <- <- <-]; left; cbn.
    + by split; [cbn [run_fetches]; rewrite E|].
    + by rewrite E; eauto.
  - intros [He ->] [= <- <- <-]. by left.
  - intros ([m He] & -> & ->) [= <- <- <-]. left. split; [|done]. cbn [run_fetches]. cbn in He. by rewrite He.
  - intros Hf [= <- <- <-]. left. split; [done|]. by destruct Hf.
  - intros [[Hf _] ->] [= <- <- <-]. by right.
Qed.

Definition seq_inv c0 (j0 : WarmJob) now s : Prop :=
  ∃ ws cur c1 j1, rs_ws s = ws ++ cur ∧ run_fetches GetTenant c0 j0 (ws.*1) now = Some (c1, j1) ∧
    Forall (λ w, counted w = 1%nat) ws ∧
    match cur with
    | [] => rs_core s = c1 ∧ (rs_job s = j1 ∨ rs_job s = job_finish j1)
    | [(p, pc)] => on_way c1 j1 now p pc (rs_core s) (rs_job s)
    | _ => False
    end.
Lemma on_way_holds c1 j1 now p pc c j : on_way c1 j1 now p pc c j → holds (p, pc) = 1%nat ∧ counted (p, pc) = 0%nat.
Proof. by destruct pc. Qed.
Lemma counted_step now c j p pc c' j' pc' :
  counted (p, pc) = 1%nat → worker_step GetTenant now c j p pc = Some (c', j', pc') →
  c' = c ∧ j' = j ∧ counted (p, pc') = 1%nat.
Proof. destruct pc; intros Hc; try discriminate Hc; cbn; intros Hw; by simplify_eq. Qed.
Lemma seq_step c0 j0 now who s s' :
  (cap ≤ 1)%nat → rstep now who s = Some s' → run_inv c0 j0 s → seq_inv c0 j0 now s → seq_inv c0 j0 now s'.
Proof.
  intros Hcap Hs Hinv (ws & cur & c1 & j1 & Hws & Hrun & Hcnt & Hcur). unfold WarmRun.rstep in Hs. destruct who as [k|].
  - destruct (rs_ws s !! k) as [[p pc]|] eqn:Hk; [|done].
    destruct (worker_step _ _ _ _ _ _) as [[[c' j'] pc']|] eqn:Hw; simplify_eq. rewrite Hws in Hk.
    apply lookup_app_Some in Hk as [Hk|[Hlen Hk]].
    + pose proof (Forall_lookup_1 _ _ _ _ Hcnt Hk) as Hc. destruct (counted_step _ _ _ _ _ _ _ _ Hc Hw) as (-> & -> & Hc').
      exists (<[k:=(p, pc')]> ws), cur, c1, j1. cbn. split_and!; [|..|by apply Forall_insert|done].
      * rewrite Hws, insert_app_l; [done|by eapply lookup_lt_Some].
      * rewrite list_fmap_insert. cbn. rewrite list_insert_id; [done|]. by rewrite list_lookup_fmap, Hk.
    + destruct cur as [|[q qc] [|]]; [done| |done].
      destruct (k - length ws)%nat as [|x] eqn:Hx; [|done]. injection Hk as -> ->.
      assert (<[k:=(p, pc')]> (rs_ws s) = ws ++ [(p, pc')]) as Hins.
      { rewrite Hws, insert_app_r_alt by done. by rewrite Hx. }
      destruct (on_way_step _ _ _ _ _ _ _ _ _ _ Hcur Hw) as [Hon|[-> Hdone]].
      * exists ws, [(p, pc')], c1, j1. by split_and!.
      * exists (ws ++ [(p, Unsem)]), [], c', j'. split_and!; cbn; [by rewrite app_nil_r| |apply Forall_app_2; [done|by apply Forall_singleton]|done|by left].
        rewrite fmap_app. cbn. destruct p as [d e]. by rewrite run_fetches_snoc, Hrun.
  - destruct Hinv as [[Hsem _] _ _ _ _ _ _ _ _ Hfin]. destruct (rs_todo s) as [|p rest] eqn:Ht.
    + destruct (forallb _ _ && _) eqn:Hall; simplify_eq. apply andb_prop in Hall as [Hall Hnf]. apply negb_true_iff in Hnf.
      exists ws, cur, c1, j1. split_and!; [done..|]. cbn. destruct cur as [|[q qc] [|]]; [|exfalso|done].
      * destruct Hcur as [-> [->|E]]; [eauto|]. by rewrite E in Hnf.
      * rewrite forallb_forall in Hall. rewrite Hws in Hall.
        assert (is_ended qc = true) by (apply (Hall (q, qc)), in_or_app; right; by left). by destruct qc.
    + destruct (Nat.ltb_spec (rs_sem s) cap); simplify_eq. exists ws. cbn. destruct cur as [|[q qc] [|]]; [|exfalso|done].
      * exists [(p, Fetch)], c1, j1. rewrite Hws, app_nil_r. split_and!; [done..|]. destruct Hcur as [-> [->|E]]; [done|].
        destruct Hfin as [[=] _]. by rewrite E.
      * apply on_way_holds in Hcur as [Hh _]. rewrite Hws, total_middle, Hh in Hsem. lia.
Qed.
Lemma run_sched_seq c0 j0 now l s s' :
  (cap ≤ 1)%nat → Forall (λ x, x.2 = now) l → run_sched l s = Some s' → run_inv c0 j0 s → seq_inv c0 j0 now s → seq_inv c0 j0 now s'.
Proof.
  intros Hcap. revert s. induction l as [|[who t] l IH]; intros s Hl Hr Hi Hq; simpl in Hr; [by simplify_eq|].
  inversion_clear Hl as [|?? Ht Hl']. cbn in Ht. subst t. destruct (rstep now who s) as [s1|] eqn:E; [|done].
  apply (IH s1); [done|done|by eapply rstep_inv|by eapply seq_step].
Qed.
Lemma job_pairs_length j : length (job_pairs j) = (length (j_Domains j) * length (j_ECSs j))%nat.
Proof.
  unfold job_pairs. induction (j_Domains j) as [|d ds IH]; [done|]. cbn. rewrite length_app, IH. f_equal.
  clear. induction (j_ECSs j) as [|e es IH]; [done|]. cbn. by rewrite IH.
Qed.
(** What is left of the invariant when the job has finished. *)
Lemma run_finished c0 j0 s :
  run_inv c0 j0 s → j_Finished (rs_job s) = true →
  (rs_log s).*1 ≡ₚ job_pairs j0 ∧ 0 ≤ j_Done (rs_job s) ≤ Z.of_nat (length (job_pairs j0)) ∧
  0 ≤ j_Failed (rs_job s) ≤ Z.of_nat (length (job_pairs j0)) ∧ rs_todo s = [] ∧ Forall (λ w, w.2 = Ended) (rs_ws s).
Proof.
  intros [_ Hp Hl _ _ Hd _ Hf _ Hfin] Hf1. destruct (Hfin Hf1) as [Ht Hall]. rewrite Ht, app_nil_r in Hp.
  assert (length (rs_ws s) = length (job_pairs j0)) as Hlen by (by rewrite <-Hp, length_fmap).
  pose proof (total_le counted (rs_ws s) ltac:(intros [? []]; cbn; lia)).
  pose proof (total_le fcounted (rs_ws s) ltac:(intros [? []]; cbn; lia)).
  split_and!; [|lia|lia|lia|lia|done|done]. rewrite Hl, <-Hp. f_equiv.
  clear -Hall. induction Hall as [|w ws Hw _ IH]; [done|]. by rewrite filter_cons_True, IH by (by rewrite Hw).
Qed.
End lemmas.

(** ** Properties *)

(** What a new job starts with. *)
Lemma Warm_fresh {S R} `{RedisSets R} (c : Core S R) id tid ds es now j :
  Warm c id tid ds es now = Ok j →
  j_Done j = 0 ∧ j_Failed j = 0 ∧ j_Finished j = false ∧ j_Total j = Z.of_nat (length (job_pairs j)).
Proof.
  unfold Warm. destruct ds as [|d ds]; [done|]. intros [= <-]. rewrite job_pairs_length. cbn [j_Done j_Failed j_Finished j_Total j_Domains j_ECSs].
  split_and!; [done..|]. by rewrite Nat2Z.inj_mul.
Qed.

(** C32: a warm job ends: whatever the schedule, its goroutines make at
    most eight moves per pair of domain and subnet and one more, and as long
    as the job is not finished somebody can move, if the configured
    concurrency is positive and the fetches do not crash; meanwhile no more
    goroutines than the configured concurrency are between their start and
    their end. *)
Theorem warm_run_terminates {S R} `{UnicodeCase} `{Cache S} `{Redis R} `{RedisCount R} `{RedisSets R} `{DnsLib} `{Network}
    `{Rand} `{MapAPI} GetTenant cfg cap (c c0 : Core S R) id tid ds es now0 j l s :
  Warm c id tid ds es now0 = Ok j → run_cap cfg = Ok cap → run_sched GetTenant cap l (run_start c0 j) = Some s →
  (length l ≤ 8 * length (job_pairs j) + 1)%nat ∧ (total holds (rs_ws s) ≤ cap)%nat ∧
  (0 < WarmupConcurrency cfg → j_Finished (rs_job s) = false →
   ∀ now, (∀ d e, (warmOne GetTenant (rs_core s) (j_TenantID j) d e now).2 ≠ Panic) →
   ∃ who s', rstep GetTenant cap now who s = Some s').
Proof.
  intros (Hd & Hf & Hn & _)%Warm_fresh Hcap Hr. unfold run_cap in Hcap.
  destruct (Z.ltb_spec (WarmupConcurrency cfg) 0); simplify_eq.
  pose proof (run_start_inv GetTenant (Z.to_nat (WarmupConcurrency cfg)) c0 j Hd Hf Hn) as Hi.
  destruct (run_sched_inv _ _ _ _ _ _ _ Hr Hi) as [Hi' Hm].
  split_and!.
  - unfold moves_left in Hm. cbn in Hm. rewrite Hn in Hm. cbn in Hm. lia.
  - destruct (ri_sem _ _ _ _ _ Hi'). lia.
  - intros Hpos Hnf now Hnp. eapply run_progress; [done|lia|done|done].
Qed.


(** A concurrency of zero: the first send blocks for ever, so the job never
    starts a fetch and never finishes. *)
Theorem warm_zero_stuck {S R} `{UnicodeCase} `{Cache S} `{Redis R} `{RedisCount R} `{RedisSets R} `{DnsLib} `{Network}
    `{Rand} `{MapAPI} GetTenant (c c0 : Core S R) id tid ds es now0 j l s :
  Warm c id tid ds es now0 = Ok j → run_sched GetTenant 0 l (run_start c0 j) = Some s → j_Finished (rs_job s) = false ∧ l = [].
Proof.
  intros Hw Hr. destruct (Warm_fresh _ _ _ _ _ _ _ Hw) as (_ & _ & Hn & _).
  assert (job_pairs j ≠ []) as Hne.
  { unfold Warm in Hw. destruct ds as [|d ds]; [done|]. injection Hw as <-. unfold job_pairs. cbn.
    destruct es as [|e es]; [|done]. by destruct (ActiveECS _ _ _). }
  destruct l as [|[[k|] now] l]; cbn in Hr; [by simplify_eq| |]; [done|]. by destruct (job_pairs j).
Qed.

(** ** Demonstration *)

Definition warm_config (n : string) : Config := @config_of_env (λ _, None) "h1" (<["WARMUP_CONCURRENCY" := n]> demo_env).
Definition warm_demo_job : WarmJob :=
  {| j_ID := "j1"; j_TenantID := "t1"; j_Domains := ["www.example.com"; "mail.example.com"]; j_ECSs := [""]; j_Total := 2;
     j_Done := 0; j_Failed := 0; j_StartedAt := 0; j_Finished := false |}.
Definition warm_demo (t : option Tenant) (cap : nat) (l : list (option nat)) : option (RunState MemoryCache.t DemoRedis) :=
  @run_sched _ _ ascii_case _ _ _ (demo_lib []) demo_network (seeded 0) (λ _, Ok t) cap
    ((λ who, (who, second)) <$> l) (run_start (demo_core None) warm_demo_job).
(** A schedule in which both goroutines load the counter before either
    stores it: the job finishes with one of its two fetches counted. *)
Definition warm_race : list (option nat) :=
  [None; None; Some 0%nat; Some 1%nat; Some 0%nat; Some 1%nat; Some 0%nat; Some 1%nat; Some 0%nat; Some 1%nat; Some 0%nat; Some 1%nat; None].
Example warm_lost_update :
  match warm_demo (Some demo_tenant) 2 warm_race with
  | Some s => j_Finished (rs_job s) = true ∧ j_Done (rs_job s) = 1 ∧ j_Total (rs_job s) = 2 ∧ length (rs_log s) = 2%nat
  | None => False
  end.
Proof. vm_compute. by split_and!. Qed.
(** One after the other. *)
Definition warm_one_by_one : list (option nat) :=
  [None; Some 0%nat; Some 0%nat; Some 0%nat; Some 0%nat; None; Some 1%nat; Some 0%nat; Some 1%nat; Some 1%nat; Some 1%nat; Some 1%nat; None].

Lemma warm_demo_Warm :
  @Warm _ DemoRedis _ (demo_core None) "j1" "t1" ["www.example.com"; "mail.example.com"] [""] 0 = Ok warm_demo_job.
Proof. vm_compute. reflexivity. Qed.
Lemma warm_run_terminates_witness :
  ∃ s, warm_demo None 2 (take 6 warm_race) = Some s ∧ (total holds (rs_ws s) ≤ 2)%nat ∧
    ∃ who s', @rstep _ _ ascii_case _ _ _ (demo_lib []) demo_network (seeded 0) (λ _, Ok None) 2 second who s = Some s'.
Proof.
  destruct (warm_demo None 2 (take 6 warm_race)) as [s|] eqn:E; [|vm_compute in E; discriminate]. exists s. split; [reflexivity|].
  edestruct (@warm_run_terminates MemoryCache.t DemoRedis ascii_case _ _ _ _ (demo_lib []) demo_network (seeded 0) demo_api
    (λ _, Ok None) (warm_config "2") 2 (demo_core None) (demo_core None)) as (_ & Hh & Hp);
    [exact warm_demo_Warm|vm_compute; reflexivity|exact E|].
  split; [exact Hh|]. apply Hp; [vm_compute; reflexivity|vm_compute in E; injection E as <-; reflexivity|].
  intros d e. cbn. discriminate.
Defined.
