(* ===== verification/Server.v ===== *)
(** * The listeners (src/internal/dnsx/server.go, upstream_doq.go, handler.go)

    Tenant routing by server name, the TLS admission rule, the framing of
    DNS over TLS, the DoH endpoint and the metadata each listener hands to
    [Process]. Sockets are modelled by what is read from them and written to
    them; the TLS, QUIC and HTTP stacks are the libraries' own. *)

From S2P Require Import Prelude GoStrings GoNet Config Model DnsMsg Ecs Split StoreCache AnswerCache.
From S2P Require Import Dnssec RateLimit Metrics Upstream Ipdb Dualstack CertStore Threat Warmup Handler.

(** ** Tenant routing *)

Section routing.
Context `{UnicodeCase}.

Definition prefixFromSNI (sni baseDomain : string) : string :=
  let sni := ToLower (TrimSuffix sni ".") in
  let base := ToLower (TrimSuffix baseDomain ".") in
  if (sni =? base)%string || negb (HasSuffix sni ("." +:+ base)%string) then ""
  else
    let prefix := TrimSuffix sni ("." +:+ base)%string in
    if Contains prefix "." then "" else prefix.

(** [repos.TenantByDomain] and [repos.TenantByPrefix]. *)
Context (TenantByDomain TenantByPrefix : string → outcome (option Tenant)).

Definition resolveTenant (cfg : Config) (host : string) : option Tenant * string :=
  let host := ToLower (TrimSuffix host ".") in
  if (host =? "")%string then (None, "")
  else match TenantByDomain host with
       | Ok (Some t) => (Some t, "domain")
       | _ =>
           let prefix := prefixFromSNI host (BaseDomain cfg) in
           if (prefix =? "")%string then (None, "")
           else match TenantByPrefix prefix with
                | Ok (Some t) => (Some t, "prefix")
                | _ => (None, "")
                end
       end.

(** The TLS configuration of a connection: the platform's certificate or
    a customer's. *)
Inductive TLSChoice (C : Type) := BaseCert | CustomCert (c : C).
Arguments BaseCert {C}. Arguments CustomCert {C}.

Definition GetConfigForClient {C} (cfg : Config) (certs : CertStore C) (ServerName : string) : outcome (TLSChoice C) :=
  let host := ToLower (TrimSuffix ServerName ".") in
  let by_prefix :=
    let base := ToLower (TrimSuffix (BaseDomain cfg) ".") in
    if (host =? base)%string then Ok BaseCert
    else
      let prefix := prefixFromSNI host (BaseDomain cfg) in
      if (prefix =? "")%string then Err "unrecognized server name"
      else match TenantByPrefix prefix with
           | Ok (Some t) => if t_DoTEnabled t then Ok BaseCert else Err "unknown or disabled DoT prefix"
           | _ => Err "unknown or disabled DoT prefix"
           end in
  match TenantByDomain host with
  | Ok (Some t) =>
      if t_DoTEnabled t then
        match CertStore.Get certs host with
        | Some c => Ok (CustomCert c)
        | None => Ok BaseCert
        end
      else by_prefix
  | _ => by_prefix
  end.
End routing.
Arguments BaseCert {C}. Arguments CustomCert {C}.

(** ** Buffered readers

    A [bufio.Reader] over a connection: the bytes it holds and what each of
    the reads to come returns, one list per read (at most its 4096-byte
    buffer), until the end of the stream or the read deadline. *)

Record Reader := { buf : list Z; conn : list (list Z) }.
Definition unread (r : Reader) : list Z := buf r ++ concat (conn r).

(** [io.ReadFull]: the bytes it delivered, fewer than [n] on an error. *)
Fixpoint fill (n : nat) (b : list Z) (c : list (list Z)) : list Z * Reader :=
  if (n <=? length b)%nat then (take n b, {| buf := drop n b; conn := c |})
  else match c with
       | [] => (b, {| buf := []; conn := [] |})
       | x :: c => let '(got, r) := fill (n - length b) x c in (b ++ got, r)
       end.
Definition ReadFull (n : nat) (r : Reader) : list Z * Reader := fill n (buf r) (conn r).
(** A read that must deliver all its bytes. *)
Definition readN (n : nat) (r : Reader) : option (list Z * Reader) :=
  let '(got, r) := ReadFull n r in
  if (length got =? n)%nat then Some (got, r) else None.

(** [binary.BigEndian.Uint16] of the bytes at [i] and [i+1]. *)
Definition u16_at (l : list Z) (i : nat) : Z := Upstream.Uint16 (default 0 (l !! i)) (default 0 (l !! S i)).

(** ** DNS over TLS framing *)

(** A step of the raw reader appends the bytes it consumes to [buf]: here it
    returns them. [None] is an error. *)
Definition andThen (p q : Reader → option (list Z * Reader)) (r : Reader) : option (list Z * Reader) :=
  '(a, r) ← p r; '(b, r) ← q r; Some (a ++ b, r).

(** One iteration consumes at least one byte, so the unread bytes bound the
    number of iterations. *)
Fixpoint skipName_loop (fuel : nat) (r : Reader) : option (list Z * Reader) :=
  match fuel with
  | O => None
  | S fuel =>
      '(h, r) ← readN 1 r;
      let b := default 0 (head h) in
      if Z.land b 192 =? 192 then '(h2, r) ← readN 1 r; Some (h ++ h2, r)
      else if b =? 0 then Some (h, r)
      else '(l, r) ← andThen (readN (Z.to_nat b)) (skipName_loop fuel) r; Some (h ++ l, r)
  end.
Definition skipName (r : Reader) : option (list Z * Reader) := skipName_loop (S (length (unread r))) r.

Fixpoint repeat_read (count : nat) (p : Reader → option (list Z * Reader)) (r : Reader) : option (list Z * Reader) :=
  match count with
  | O => Some ([], r)
  | S count => andThen p (repeat_read count p) r
  end.
Definition skipRR (r : Reader) : option (list Z * Reader) :=
  '(n, r) ← skipName r;
  '(rr, r) ← readN 10 r;
  let rdlen := u16_at rr 8 in
  '(d, r) ← readN (Z.to_nat rdlen) r;
  Some (n ++ rr ++ d, r).
Definition skipSection (count : Z) : Reader → option (list Z * Reader) := repeat_read (Z.to_nat count) skipRR.

Section dot.
Context `{DnsLib}.

Definition readRawDNSMessage (r : Reader) : option (Msg * Reader) :=
  '(hdr, r) ← readN 12 r;
  let qd := u16_at hdr 4 in
  let an := u16_at hdr 6 in
  let ns := u16_at hdr 8 in
  let ar := u16_at hdr 10 in
  '(body, r) ← andThen (repeat_read (Z.to_nat qd) (andThen skipName (readN 4)))
                 (andThen (skipSection an) (andThen (skipSection ns) (skipSection ar))) r;
  m ← Unpack (hdr ++ body);
  Some (m, r).

Definition unpack_query (raw : list Z) : option Msg :=
  m ← Unpack raw; if is_nil (m_Question m) then None else Some m.

(** The raw branch wraps the connection in a second buffered reader that
    starts with the two bytes already read; its first read of the
    connection takes what the outer reader holds, and what it has read
    beyond the message is dropped with it. *)
Definition readDNSMessageCompat (r : Reader) : option (Msg * string * Reader) :=
  '(hd, r) ← readN 2 r;
  let l := u16_at hd 0 in
  if (12 <=? l) && (l <=? 4096) then
    let '(got, r) := ReadFull (Z.to_nat l) r in
    let body := got ++ replicate (Z.to_nat l - length got) 0 in
    let as_raw := m ← unpack_query (hd ++ body); Some (m, "raw", r) in
    if (length got =? Z.to_nat l)%nat then
      match unpack_query body with
      | Some m => Some (m, "prefixed", r)
      | None => as_raw
      end
    else as_raw
  else
    let inner := {| buf := []; conn := hd :: (if is_nil (buf r) then conn r else buf r :: conn r) |} in
    '(m, inner) ← readRawDNSMessage inner;
    Some (m, "raw", {| buf := []; conn := conn inner |}).

Definition dot_reply (framing : string) (raw : list Z) : list Z :=
  if (framing =? "prefixed")%string then frame raw else raw.
End dot.

(** ** The listeners *)

(** [net.Addr]: the dynamic types [clientIP] distinguishes. *)
Inductive Addr := UDPAddr (ip : IP) | TCPAddr (ip : IP) | OtherAddr.
Definition clientIP (a : Addr) : IP :=
  match a with UDPAddr ip => ip | TCPAddr ip => ip | OtherAddr => [] end.

(** The fields of [ctxWriter] beside the wrapped writer. *)
Record ctxWriter := {
  cw_sni : string; cw_prefix : string; cw_tenant : option Tenant; cw_clientIP : IP; cw_via : string; cw_internal : bool
}.
(** The metadata [ServeDNS] builds from the writer. *)
Definition ServeDNS_meta (remote : Addr) (cw : option ctxWriter) : RequestMeta :=
  let via := match remote with TCPAddr _ => "tcp" | _ => "udp" end in
  match cw with
  | Some cw =>
      {| Via := if (cw_via cw =? "")%string then via else cw_via cw; SNI := cw_sni cw; Prefix := cw_prefix cw;
         MTenant := cw_tenant cw; ClientIP := if is_nil (cw_clientIP cw) then clientIP remote else cw_clientIP cw;
         Internal := cw_internal cw; SimulateECS := None; SkipRateLimit := false |}
  | None =>
      {| Via := via; SNI := ""; Prefix := ""; MTenant := None; ClientIP := clientIP remote;
         Internal := false; SimulateECS := None; SkipRateLimit := false |}
  end.
Definition internal_writer (remote : Addr) : ctxWriter :=
  {| cw_sni := ""; cw_prefix := ""; cw_tenant := None; cw_clientIP := clientIP remote;
     cw_via := match remote with TCPAddr _ => "int-tcp" | _ => "int-udp" end; cw_internal := true |}.

(** *** HTTP *)

(** What [serveDoH] reads of a request: [r_dns] is the decoded [dns] query
    parameter, [r_Body] the body or the error reading it. *)
Record HTTPRequest := {
  r_Method : string; r_Host : string; r_dns : string; r_ContentType : string; r_Body : outcome (list Z);
  X_Real_IP : string; r_RemoteAddr : string
}.
Inductive HTTPResponse := HTTPError (code : Z) (msg : string) | DNSMessage (raw : list Z).

Definition readBody (r : HTTPRequest) (max : Z) : outcome (list Z) :=
  match r_Body r with
  | Ok data => if max <? Z.of_nat (length data) then Err "http: request body too large" else Ok data
  | o => o
  end.

(** The URL alphabet of [base64]: ["-"] and ["_"] for ["+"] and ["/"]. *)
Fixpoint url_to_std (s : string) : option string :=
  match s with
  | EmptyString => Some EmptyString
  | String c s =>
      let b := byte_of c in
      if (b =? 43) || (b =? 47) then None
      else t ← url_to_std s; Some (String (if b =? 45 then "+"%char else if b =? 95 then "/"%char else c) t)
  end.
Definition URLEncoding_DecodeString (s : string) : outcome (list Z) :=
  match url_to_std s with Some s => DecodeString s | None => corrupt end.
(** Without padding the last group has two or three characters. *)
Definition RawURLEncoding_DecodeString (s : string) : outcome (list Z) :=
  match url_to_std (strip_newlines s) with
  | None => corrupt
  | Some s =>
      if Contains s "=" then corrupt
      else match (len s mod 4)%nat with
           | 0%nat => DecodeString s
           | 2%nat => DecodeString (s +:+ "==")
           | 3%nat => DecodeString (s +:+ "=")
           | _ => corrupt
           end
  end.
Definition decodeBase64URL (s : string) : outcome (list Z) :=
  match RawURLEncoding_DecodeString s with
  | Ok d => Ok d
  | _ => URLEncoding_DecodeString s
  end.

Definition clientIPFromRequest (cfg : Config) (r : HTTPRequest) : IP :=
  let peer := match SplitHostPort (r_RemoteAddr r) with
              | Ok (host, _) => ParseIP host
              | _ => []
              end in
  if TrustProxyHeaders cfg then
    let ip := ParseIP (X_Real_IP r) in if is_nil ip then peer else ip
  else peer.

(** The query of a DoH request. *)
Definition doh_query `{DnsLib} (r : HTTPRequest) : HTTPResponse + Msg :=
  if (r_Method r =? "GET")%string then
    if (r_dns r =? "")%string then inl (HTTPError 400 "missing dns parameter")
    else match decodeBase64URL (r_dns r) with
         | Ok data => match Unpack data with
                      | Some m => inr m
                      | None => inl (HTTPError 400 "invalid DNS message")
                      end
         | _ => inl (HTTPError 400 "invalid dns parameter")
         end
  else if (r_Method r =? "POST")%string then
    if negb (HasPrefix (r_ContentType r) "application/dns-message") then inl (HTTPError 415 "unsupported media type")
    else match readBody r 65535 with
         | Ok data => match Unpack data with
                      | Some m => inr m
                      | None => inl (HTTPError 400 "invalid DNS message")
                      end
         | _ => inl (HTTPError 413 "request too large")
         end
  else inl (HTTPError 405 "method not allowed").

(** *** Connections *)

(** What the environment contributes to one request: the flight it joins,
    the instants it reads the clock at, and whether the answer can be
    written. *)
Record ReqEnv := { en_flight : option SingleFlight.result; en_start : Time; en_now : Time; en_writes : bool }.

Section serve.
Context {St R : Type} `{UnicodeCase} `{Cache St} `{Redis R} `{RedisCount R} `{RedisSets R}
  `{DnsLib} `{Network} `{Rand} `{MapAPI}.
Context (TenantByDomain TenantByPrefix : string → outcome (option Tenant)).

Definition run_Process (c : Core St R) (req : Msg) (meta : RequestMeta) (env : ReqEnv) : outcome (Core St R * Msg * RespMeta) :=
  Process TenantByPrefix c (Some req) meta (en_flight env) (en_start env) (en_now env).

Definition ServeDNS (c : Core St R) (remote : Addr) (cw : option ctxWriter) (req : Msg) (env : ReqEnv)
    : outcome (Core St R * Msg) :=
  match run_Process c req (ServeDNS_meta remote cw) env with
  | Ok (c, resp, _) => Ok (c, resp)
  | Err e => Err e
  | Panic => Panic
  end.
Definition internalHandler (c : Core St R) (remote : Addr) (req : Msg) (env : ReqEnv) : outcome (Core St R * Msg) :=
  ServeDNS c remote (Some (internal_writer remote)) req env.

Definition routed_meta (cfg : Config) (via host : string) (ip : IP) : RequestMeta :=
  {| Via := via; SNI := host; Prefix := prefixFromSNI host (BaseDomain cfg);
     MTenant := (resolveTenant TenantByDomain TenantByPrefix cfg host).1; ClientIP := ip;
     Internal := false; SimulateECS := None; SkipRateLimit := false |}.

(** One query of a DoT connection: the bytes to write, if any. *)
Definition dot_step (c : Core St R) (meta : RequestMeta) (m : Msg) (framing : string) (env : ReqEnv)
    : outcome (Core St R * option (list Z)) :=
  match run_Process c m meta env with
  | Ok (c, resp, _) => Ok (c, dot_reply framing <$> Pack resp)
  | Err e => Err e
  | Panic => Panic
  end.
(** The loop of a connection: the writes that succeeded. It ends when a
    read or a write fails; every message read takes bytes off the stream,
    so the unread bytes bound the iterations. *)
Fixpoint dot_loop (fuel k : nat) (env : nat → ReqEnv) (meta : RequestMeta) (c : Core St R) (r : Reader)
    : outcome (Core St R * list (list Z)) :=
  match fuel with
  | O => Ok (c, [])
  | S fuel =>
      match readDNSMessageCompat r with
      | None => Ok (c, [])
      | Some (m, framing, r) =>
          match dot_step c meta m framing (env k) with
          | Ok (c, None) => dot_loop fuel (S k) env meta c r
          | Ok (c, Some raw) =>
              if en_writes (env k) then
                match dot_loop fuel (S k) env meta c r with
                | Ok (c, out) => Ok (c, raw :: out)
                | o => o
                end
              else Ok (c, [])
          | Err e => Err e
          | Panic => Panic
          end
      end
  end.
(** A connection whose handshake succeeded under the name [sni]. *)
Definition serveDoTConn (c : Core St R) (sni : string) (remote : Addr) (r : Reader) (env : nat → ReqEnv)
    : outcome (Core St R * list (list Z)) :=
  dot_loop (S (length (unread r))) 0 env (routed_meta (c_cfg c) "dot" sni (clientIP remote)) c r.

Definition serveDoH (c : Core St R) (r : HTTPRequest) (env : ReqEnv) : outcome (Core St R * HTTPResponse) :=
  let host := ToLower (r_Host r) in
  let host := match SplitHostPort host with Ok (h, _) => h | _ => host end in
  let meta := routed_meta (c_cfg c) "doh" host (clientIPFromRequest (c_cfg c) r) in
  match doh_query r with
  | inl e => Ok (c, e)
  | inr m =>
      match run_Process c m meta env with
      | Ok (c, resp, _) =>
          Ok (c, match Pack resp with Some raw => DNSMessage raw | None => HTTPError 500 "pack error" end)
      | Err e => Err e
      | Panic => Panic
      end
  end.

(** The callback of [startDoQ] for a connection with server name [sni]:
    it does not use the peer's address. *)
Definition doq_process (c : Core St R) (sni : string) (msg : Msg) (ip : IP) (meta : RequestMeta) (env : ReqEnv)
    : outcome (Core St R * Msg) :=
  let meta :=
    if (sni =? "")%string then meta
    else {| Via := Via meta; SNI := sni; Prefix := prefixFromSNI sni (BaseDomain (c_cfg c));
            MTenant := match (resolveTenant TenantByDomain TenantByPrefix (c_cfg c) sni).1 with
                       | Some t => Some t
                       | None => MTenant meta
                       end;
            ClientIP := ClientIP meta; Internal := Internal meta;
            SimulateECS := SimulateECS meta; SkipRateLimit := SkipRateLimit meta |} in
  match run_Process c msg meta env with
  | Ok (c, resp, _) => Ok (c, resp)
  | Err e => Err e
  | Panic => Panic
  end.
(** One stream of a QUIC connection: the bytes written back. *)
Definition doqServeConn (c : Core St R) (sni : string) (remote : Addr) (stream : list Z) (env : ReqEnv)
    : outcome (Core St R * list Z) :=
  match readDoQMsg stream with
  | None => Ok (c, [])
  | Some msg =>
      let meta := {| Via := "doq"; SNI := ""; Prefix := ""; MTenant := None; ClientIP := []; Internal := false;
                     SimulateECS := None; SkipRateLimit := false |} in
      match doq_process c sni msg (clientIP remote) meta env with
      | Ok (c, resp) => Ok (c, doq_response (Some resp))
      | Err e => Err e
      | Panic => Panic
      end
  end.
End serve.

(** ** The grammar of a DNS message on the wire *)

Inductive NameEnd := Root | Pointer (a b : Z).
Record WName := { labels : list (list Z); name_end : NameEnd }.
Record WRR := { rr_name : WName; rr_fixed : list Z; rr_data : list Z }.
Record WMsg := {
  w_head : list Z; w_questions : list (WName * list Z); w_answers : list WRR; w_authority : list WRR; w_extra : list WRR
}.
Definition enc_label (l : list Z) : list Z := Z.of_nat (length l) :: l.
Definition enc_name (n : WName) : list Z :=
  concat (enc_label <$> labels n) ++ match name_end n with Root => [0] | Pointer a b => [a; b] end.
Definition enc_rr (x : WRR) : list Z :=
  enc_name (rr_name x) ++ (rr_fixed x ++ PutUint16 (Z.of_nat (length (rr_data x)))) ++ rr_data x.
Definition enc_question (q : WName * list Z) : list Z := enc_name q.1 ++ q.2.
Definition enc_header (w : WMsg) : list Z :=
  w_head w ++ PutUint16 (Z.of_nat (length (w_questions w))) ++ PutUint16 (Z.of_nat (length (w_answers w)))
    ++ PutUint16 (Z.of_nat (length (w_authority w))) ++ PutUint16 (Z.of_nat (length (w_extra w))).
Definition enc_msg (w : WMsg) : list Z :=
  enc_header w ++ concat (enc_question <$> w_questions w) ++ concat (enc_rr <$> w_answers w)
    ++ concat (enc_rr <$> w_authority w) ++ concat (enc_rr <$> w_extra w).

(** Labels have 1 to 63 bytes; a pointer has its two top bits set. *)
Definition name_ok (n : WName) : Prop :=
  Forall (λ l, 1 ≤ length l ≤ 63)%nat (labels n) ∧
  match name_end n with Root => True | Pointer a _ => Z.land a 192 = 192 end.
Definition rr_ok (x : WRR) : Prop :=
  name_ok (rr_name x) ∧ length (rr_fixed x) = 8%nat ∧ Z.of_nat (length (rr_data x)) < 65536.
Definition msg_ok (w : WMsg) : Prop :=
  length (w_head w) = 4%nat ∧
  Forall (λ q, name_ok q.1 ∧ length q.2 = 4%nat) (w_questions w) ∧
  Forall rr_ok (w_answers w) ∧ Forall rr_ok (w_authority w) ∧ Forall rr_ok (w_extra w) ∧
  Z.of_nat (length (w_questions w)) < 65536 ∧ Z.of_nat (length (w_answers w)) < 65536 ∧
  Z.of_nat (length (w_authority w)) < 65536 ∧ Z.of_nat (length (w_extra w)) < 65536.

(** ** Lemmas on readers *)

Definition advance (n : nat) (r : Reader) : Reader := (ReadFull n r).2.

Lemma fill_spec c : ∀ n b,
  (fill n b c).1 = take n (b ++ concat c) ∧ unread (fill n b c).2 = drop n (b ++ concat c).
Proof.
  induction c as [|x c IH]; intros n b; cbn [fill]; destruct (Nat.leb_spec n (length b)) as [Hle|Hgt]; cbn [fst snd].
  1, 3: unfold unread; cbn [buf conn]; rewrite take_app_le, drop_app_le by lia; done.
  - unfold unread. cbn. rewrite app_nil_r, take_ge, drop_ge by lia. done.
  - destruct (IH (n - length b)%nat x) as [H1 H2]. destruct (fill (n - length b) x c) as [got r]. cbn [fst snd] in *.
    subst got. rewrite H2, (take_app b), (drop_app b), (take_ge b), (drop_ge b) by lia. done.
Qed.
Lemma ReadFull_got n r : (ReadFull n r).1 = take n (unread r).
Proof. apply fill_spec. Qed.
Lemma unread_advance n r : unread (advance n r) = drop n (unread r).
Proof. apply fill_spec. Qed.

(** Reading in two steps is reading at once. *)
Lemma fill_add c : ∀ n m b,
  (n + m ≤ length (b ++ concat c))%nat →
  (fill (n + m) b c).2 = (let r := (fill n b c).2 in fill m (buf r) (conn r)).2.
Proof.
  assert (∀ c n m b, (n ≤ length b)%nat → (n + m ≤ length (b ++ concat c))%nat →
            (fill (n + m) b c).2 = (fill m (drop n b) c).2) as Hbase.
  { clear. intros c n m b Hn Hle. destruct c as [|x c]; cbn [fill]; rewrite length_drop.
    - cbn [concat] in Hle. rewrite app_nil_r in Hle. rewrite !(proj2 (Nat.leb_le _ _)) by lia. cbn. by rewrite drop_drop.
    - destruct (Nat.leb_spec (n + m) (length b)).
      + rewrite (proj2 (Nat.leb_le _ _)) by lia. cbn. by rewrite drop_drop.
      + rewrite (proj2 (Nat.leb_gt _ _)) by lia. replace (m - (length b - n))%nat with (n + m - length b)%nat by lia.
        by destruct (fill (n + m - length b) x c). }
  induction c as [|x c IH]; intros n m b Hle.
  - pose proof Hle as Hle'. cbn [concat] in Hle'. rewrite app_nil_r in Hle'. rewrite Hbase by (done || lia). cbn [fill].
    rewrite (proj2 (Nat.leb_le n _)) by lia. done.
  - destruct (Nat.leb_spec n (length b)) as [Hn|Hn].
    + rewrite Hbase by done. cbn [fill]. rewrite (proj2 (Nat.leb_le n _)) by lia. done.
    + cbn [fill]. rewrite (proj2 (Nat.leb_gt n _)), (proj2 (Nat.leb_gt (n + m) _)) by lia.
      rewrite length_app in Hle. cbn [concat] in Hle.
      specialize (IH (n - length b)%nat m x ltac:(lia)). replace (n + m - length b)%nat with (n - length b + m)%nat by lia.
      destruct (fill (n - length b + m) x c), (fill (n - length b) x c). exact IH.
Qed.
Lemma advance_add n m r : (n + m ≤ length (unread r))%nat → advance m (advance n r) = advance (n + m) r.
Proof. intros Hle. unfold advance, ReadFull. by rewrite fill_add. Qed.
Lemma advance_0 r : advance 0 r = r.
Proof. destruct r as [b c]. unfold advance, ReadFull. by destruct c. Qed.

(** A reader step that consumes exactly the bytes [x], wherever the
    connection's reads cut them. *)
Definition reads (p : Reader → option (list Z * Reader)) (x : list Z) : Prop :=
  ∀ r rest, unread r = x ++ rest → p r = Some (x, advance (length x) r).

Lemma readN_reads x : reads (readN (length x)) x.
Proof.
  intros r rest Hr. unfold readN. pose proof (ReadFull_got (length x) r) as Hg.
  unfold advance. destruct (ReadFull (length x) r) as [got r']. cbn in Hg. subst got.
  by rewrite Hr, take_app_length, Nat.eqb_refl.
Qed.
Lemma reads_step p x r y : reads p x → unread r = x ++ y → p r = Some (x, advance (length x) r) ∧ unread (advance (length x) r) = y.
Proof. intros Hp Hr. split; [by eapply Hp|]. by rewrite unread_advance, Hr, drop_app_length. Qed.
Lemma advance_app x y r rest :
  unread r = x ++ y ++ rest → advance (length y) (advance (length x) r) = advance (length (x ++ y)) r.
Proof. intros Hr. rewrite advance_add, length_app; [done|]. rewrite Hr, !length_app. lia. Qed.
Lemma andThen_reads p q x y : reads p x → reads q y → reads (andThen p q) (x ++ y).
Proof.
  intros Hp Hq r rest Hr. rewrite <-app_assoc in Hr. destruct (reads_step _ _ _ _ Hp Hr) as [Hp' Hr'].
  unfold andThen. rewrite Hp'. cbn. rewrite (Hq _ _ Hr'). cbn. by rewrite (advance_app _ _ _ _ Hr).
Qed.
Lemma nil_reads : reads (λ r, Some ([], r)) [].
Proof. intros r rest _. by rewrite advance_0. Qed.
Lemma repeat_reads {A} p (enc : A → list Z) (l : list A) :
  Forall (λ a, reads p (enc a)) l → reads (repeat_read (length l) p) (concat (enc <$> l)).
Proof.
  induction 1 as [|a l Ha _ IH]; cbn [length repeat_read fmap list_fmap concat]; [apply nil_reads|].
  by apply andThen_reads.
Qed.

Lemma label_byte b : 1 ≤ b ≤ 63 → (Z.land b 192 =? 192) = false ∧ (b =? 0) = false.
Proof.
  intros Hb. split; [|zbool; lia]. apply Z.eqb_neq. intros Hl.
  assert (Z.log2 (Z.land b 192) < 6) as Hlog; [|by rewrite Hl in Hlog].
  pose proof (Z.log2_land b 192 ltac:(lia) ltac:(lia)). pose proof (Z.log2_lt_pow2 b 6 ltac:(lia)). lia.
Qed.
Lemma label_count ls : Forall (λ l, 1 ≤ length l ≤ 63)%nat ls → (length ls ≤ length (concat (enc_label <$> ls)))%nat.
Proof. induction 1; cbn; [lia|]. rewrite length_app. lia. Qed.

Lemma skipName_loop_reads ls e fuel :
  name_ok {| labels := ls; name_end := e |} → (length ls < fuel)%nat →
  reads (skipName_loop fuel) (enc_name {| labels := ls; name_end := e |}).
Proof.
  intros [Hls He]. cbn [labels name_end] in *. revert fuel. induction Hls as [|l ls Hl _ IH]; intros [|fuel] Hf; try lia.
  - intros r rest Hr. unfold enc_name in *. cbn [labels name_end fmap list_fmap concat app] in *. destruct e as [|a b].
    + destruct (reads_step _ [0] r rest (readN_reads [0]) Hr) as [H1 _]. cbn [skipName_loop length] in *. by rewrite H1.
    + destruct (reads_step _ [a] r (b :: rest) (readN_reads [a]) Hr) as [H1 H2]. cbn [skipName_loop length] in *.
      rewrite H1. cbn [mbind option_bind head]. unfold default. cbn [from_option id]. rewrite He, Z.eqb_refl.
      pose proof (readN_reads [b] _ rest H2) as H3. cbn [length] in H3. rewrite H3. cbn [mbind option_bind app].
      pose proof (advance_app [a] [b] _ rest Hr) as H4. cbn [length app] in H4. by rewrite H4.
  - intros r rest Hr. set (tl := enc_name {| labels := ls; name_end := e |}) in *.
    assert (enc_name {| labels := l :: ls; name_end := e |} = [Z.of_nat (length l)] ++ (l ++ tl)) as Henc.
    { unfold tl, enc_name. cbn. by rewrite <-app_assoc. }
    rewrite Henc in *. rewrite <-(app_assoc [_]) in Hr.
    destruct (reads_step _ _ _ _ (readN_reads [_]) Hr) as [H1 H2]. cbn [skipName_loop length] in *. rewrite H1.
    cbn [mbind option_bind head]. unfold default. cbn [from_option id].
    destruct (label_byte (Z.of_nat (length l)) ltac:(lia)) as [-> ->]. rewrite Nat2Z.id.
    rewrite (andThen_reads _ _ l tl (readN_reads l) (IH fuel ltac:(lia)) _ _ H2).
    cbn [mbind option_bind].
    pose proof (advance_app [Z.of_nat (length l)] (l ++ tl) _ rest Hr) as H4.
    cbn [length] in H4. by rewrite H4.
Qed.
Lemma skipName_reads n : name_ok n → reads skipName (enc_name n).
Proof.
  destruct n as [ls e]. intros Hn r rest Hr. unfold skipName. eapply skipName_loop_reads; [done| |done].
  destruct Hn as [Hls _]. pose proof (label_count ls Hls). rewrite Hr. unfold enc_name. cbn [labels]. rewrite !length_app. lia.
Qed.

Lemma u16_at_put l n rest : 0 ≤ n < 65536 → u16_at (l ++ PutUint16 n ++ rest) (length l) = n.
Proof.
  intros Hn. unfold u16_at. rewrite (lookup_app_r l _ (length l)), (lookup_app_r l _ (S (length l))) by lia. replace (S (length l) - length l)%nat with 1%nat by lia.
  rewrite Nat.sub_diag. unfold PutUint16, Uint16, u8, default. cbn [app lookup list_lookup from_option id]. divlia.
Qed.
Lemma length_PutUint16 n : length (PutUint16 n) = 2%nat.
Proof. done. Qed.

Lemma skipRR_reads x : rr_ok x → reads skipRR (enc_rr x).
Proof.
  intros (Hn & Hf & Hd) r rest Hr. unfold enc_rr in *.
  set (n := enc_name _) in *. set (f := rr_fixed x ++ _) in *. rewrite <-(app_assoc n), <-(app_assoc f) in Hr.
  destruct (reads_step _ _ _ _ (skipName_reads _ Hn) Hr) as [H1 H2].
  assert (length f = 10%nat) as Hlf by (unfold f; rewrite length_app, Hf; done).
  destruct (reads_step _ _ _ _ (readN_reads f) H2) as [H3 H4]. rewrite Hlf in H3 at 1.
  unfold skipRR. rewrite H1. cbn [mbind option_bind]. rewrite H3. cbn [mbind option_bind].
  assert (u16_at f 8 = Z.of_nat (length (rr_data x))) as ->.
  { unfold f. rewrite <-(app_nil_r (PutUint16 _)). rewrite <-Hf at 1. apply u16_at_put. lia. }
  rewrite Nat2Z.id, (readN_reads _ _ _ H4). cbn [mbind option_bind].
  rewrite (advance_app f _ _ rest H2). by rewrite (advance_app n _ _ rest) by (by rewrite <-app_assoc).
Qed.
Lemma skipSection_reads l : Forall rr_ok l → reads (skipSection (Z.of_nat (length l))) (concat (enc_rr <$> l)).
Proof.
  intros Hl. unfold skipSection. rewrite Nat2Z.id. apply repeat_reads.
  eapply Forall_impl; [done|]. apply skipRR_reads.
Qed.

(** The counts of the header. *)
Lemma enc_header_counts w : msg_ok w →
  length (enc_header w) = 12%nat ∧
  u16_at (enc_header w) 4 = Z.of_nat (length (w_questions w)) ∧ u16_at (enc_header w) 6 = Z.of_nat (length (w_answers w)) ∧
  u16_at (enc_header w) 8 = Z.of_nat (length (w_authority w)) ∧ u16_at (enc_header w) 10 = Z.of_nat (length (w_extra w)).
Proof.
  intros (Hh & _ & _ & _ & _ & Hq & Ha & Hn & Hx). unfold enc_header.
  destruct (w_head w) as [|h0 [|h1 [|h2 [|h3 [|]]]]]; try done. split; [done|]. unfold u16_at, PutUint16, Uint16, u8.
  cbn. repeat split; divlia.
Qed.

Lemma readRaw_exact `{DnsLib} w m r rest :
  msg_ok w → unread r = enc_msg w ++ rest → Unpack (enc_msg w) = Some m →
  readRawDNSMessage r = Some (m, advance (length (enc_msg w)) r).
Proof.
  intros Hw Hr Hu. destruct (enc_header_counts w Hw) as (Hl & Hqd & Han & Hns & Har).
  destruct Hw as (_ & Hq & Ha & Hn & Hx & _). unfold enc_msg in *. rewrite <-(app_assoc (enc_header w)) in Hr.
  destruct (reads_step _ _ _ _ (readN_reads (enc_header w)) Hr) as [H1 H2]. rewrite Hl in H1 at 1.
  unfold readRawDNSMessage. rewrite H1. cbn [mbind option_bind]. rewrite Hqd, Han, Hns, Har, Nat2Z.id.
  assert (Forall (λ q, reads (andThen skipName (readN 4)) (enc_question q)) (w_questions w)) as Hqs.
  { eapply Forall_impl; [done|]. intros q [Hnq Hlq]. unfold enc_question. rewrite <-Hlq.
    apply andThen_reads; [by apply skipName_reads|apply readN_reads]. }
  rewrite (andThen_reads _ _ _ _ (repeat_reads _ _ _ Hqs)
             (andThen_reads _ _ _ _ (skipSection_reads _ Ha)
               (andThen_reads _ _ _ _ (skipSection_reads _ Hn) (skipSection_reads _ Hx))) _ _ H2).
  cbn [mbind option_bind]. rewrite Hu. cbn [mbind option_bind]. by rewrite (advance_app _ _ _ rest Hr).
Qed.

(** ** Lemmas on server names *)

Lemma append_ne_self p s : (p +:+ s)%string = s → p = "".
Proof. intros H. apply (f_equal len) in H. rewrite length_append in H. destruct p; [done|]. simpl in H. lia. Qed.
Lemma TrimSuffix_none s suf : HasSuffix s suf = false → TrimSuffix s suf = s.
Proof. unfold TrimSuffix. by intros ->. Qed.
Lemma HasSuffix_dot_app x s : s ≠ "" → HasSuffix (x +:+ s) "." = HasSuffix s ".".
Proof.
  intros Hs. apply eq_bool_prop_intro. rewrite !Is_true_true, !HasSuffix_spec. split.
  - intros [t Ht]. revert t Ht. induction x as [|c x IH]; intros t Ht; [by exists t|].
    destruct t as [|d t]; simplify_eq/=.
    + exfalso. destruct x; [|done]. simpl in *. congruence.
    + by apply (IH t).
  - intros [t ->]. exists (x +:+ t)%string. by rewrite append_assoc_str.
Qed.

(** ** Lemmas on base64 *)

Fixpoint std_to_url (s : string) : string :=
  match s with
  | EmptyString => EmptyString
  | String c s => String (if byte_of c =? 43 then "-"%char else if byte_of c =? 47 then "_"%char else c) (std_to_url s)
  end.
Fixpoint unpad (s : string) : string :=
  match s with
  | EmptyString => EmptyString
  | String c s => if byte_of c =? 61 then unpad s else String c (unpad s)
  end.
(** The [dns] parameter of a message, with and without padding. *)
Definition url_padded (raw : list Z) : string := std_to_url (EncodeToString raw).
Definition url_unpadded (raw : list Z) : string := unpad (url_padded raw).

(** The characters of an encoded text. *)
Definition b64_byte (b : Z) : bool := negb ((b =? 45) || (b =? 95) || (b =? 10) || (b =? 13)).
Definition b64_text (s : string) : bool := forallb b64_byte (bytes_of s).
Lemma b64_char_byte v : 0 ≤ v < 64 → b64_byte (byte_of (b64_char v)) = true ∧ (byte_of (b64_char v) =? 61) = false.
Proof.
  intros Hv. rewrite <-negb_true_iff, <-andb_true_iff.
  apply (forall_range (λ v, b64_byte (byte_of (b64_char v)) && negb (byte_of (b64_char v) =? 61)) 0 64); [|lia].
  vm_compute. reflexivity.
Qed.

Definition pad_back (s : string) : string :=
  match (len s mod 4)%nat with 2%nat => (s +:+ "==")%string | 3%nat => (s +:+ "=")%string | _ => s end.
Lemma pad_back_4 a b c d s :
  pad_back (String a (String b (String c (String d s)))) = String a (String b (String c (String d (pad_back s)))).
Proof.
  unfold pad_back. cbn [String.length]. replace (S (S (S (S (len s))))) with (len s + 1 * 4)%nat by lia.
  rewrite Nat.Div0.mod_add. by destruct (len s mod 4)%nat as [|[|[|[|]]]].
Qed.
Lemma pad_back_mod4 a b c d s :
  (len (String a (String b (String c (String d s)))) mod 4 = len s mod 4)%nat.
Proof. cbn [String.length]. replace (S (S (S (S (len s))))) with (len s + 1 * 4)%nat by lia. apply Nat.Div0.mod_add. Qed.

Lemma Encode_text raw : Forall is_u8 raw →
  b64_text (EncodeToString raw) = true ∧ pad_back (unpad (EncodeToString raw)) = EncodeToString raw ∧
  (len (unpad (EncodeToString raw)) mod 4 ≠ 1)%nat.
Proof.
  induction raw as [|a|a b|a b c l IH] using list_ind3; intros Hf; [done|..];
    rewrite ?Forall_cons in Hf; unfold is_u8 in Hf; cbn [EncodeToString].
  - destruct (b64_char_byte (a / 4) ltac:(divlia)) as [T1 N1], (b64_char_byte (a mod 4 * 16) ltac:(divlia)) as [T2 N2].
    unfold b64_text. cbn [bytes_of forallb unpad]. rewrite T1, T2, N1, N2. done.
  - destruct (b64_char_byte (a / 4) ltac:(divlia)) as [T1 N1], (b64_char_byte (a mod 4 * 16 + b / 16) ltac:(divlia)) as [T2 N2],
      (b64_char_byte (b mod 16 * 4) ltac:(divlia)) as [T3 N3].
    unfold b64_text. cbn [bytes_of forallb unpad]. rewrite T1, T2, T3, N1, N2, N3. done.
  - destruct (b64_char_byte (a / 4) ltac:(divlia)) as [T1 N1], (b64_char_byte (a mod 4 * 16 + b / 16) ltac:(divlia)) as [T2 N2],
      (b64_char_byte (b mod 16 * 4 + c / 64) ltac:(divlia)) as [T3 N3], (b64_char_byte (c mod 64) ltac:(divlia)) as [T4 N4].
    destruct IH as (IH1 & IH2 & IH3); [tauto|]. unfold b64_text in *. cbn [bytes_of forallb unpad].
    rewrite T1, T2, T3, T4, N1, N2, N3, N4, IH1, pad_back_4, pad_back_mod4, IH2. done.
Qed.

Lemma url_to_std_url s : b64_text s = true → url_to_std (std_to_url s) = Some s.
Proof.
  induction s as [|c s IH]; [done|]. unfold b64_text, b64_byte. cbn [bytes_of forallb]. intros [Hc Hs]%andb_true_iff.
  cbn [std_to_url url_to_std]. rewrite IH by done. clear IH Hs.
  destruct (byte_of c =? 43) eqn:H43; [|destruct (byte_of c =? 47) eqn:H47].
  - zbool. cbn. by rewrite <-(byte_of_inj "+" c) by done.
  - zbool. cbn. by rewrite <-(byte_of_inj "/" c) by done.
  - rewrite H43, H47. cbn. destruct (byte_of c =? 45), (byte_of c =? 95); try done.
Qed.
Lemma strip_newlines_url s : b64_text s = true → strip_newlines (std_to_url s) = std_to_url s.
Proof.
  induction s as [|c s IH]; [done|]. unfold b64_text, b64_byte. cbn [bytes_of forallb]. intros [Hc Hs]%andb_true_iff.
  cbn [std_to_url strip_newlines]. rewrite IH by done.
  destruct (byte_of c =? 43); [done|]. destruct (byte_of c =? 47); [done|].
  destruct (byte_of c =? 10), (byte_of c =? 13); rewrite ?orb_true_r in Hc; done.
Qed.
Lemma unpad_text s : b64_text s = true → b64_text (unpad s) = true.
Proof.
  induction s as [|c s IH]; [done|]. unfold b64_text. cbn [bytes_of forallb unpad]. intros [Hc Hs]%andb_true_iff.
  destruct (byte_of c =? 61); [by apply IH|]. cbn [bytes_of forallb]. rewrite Hc. by apply IH.
Qed.
Lemma unpad_url s : unpad (std_to_url s) = std_to_url (unpad s).
Proof.
  induction s as [|c s IH]; [done|]. cbn [std_to_url unpad].
  destruct (byte_of c =? 43) eqn:H43; [|destruct (byte_of c =? 47) eqn:H47].
  - zbool. rewrite H43. cbn. by rewrite H43, IH.
  - zbool. rewrite H47. cbn. by rewrite H47, IH.
  - destruct (byte_of c =? 61); [done|]. cbn [std_to_url]. by rewrite H43, H47, IH.
Qed.
Lemma Contains_byte_cons c s d : Contains (String c s) (String d "") = (byte_of c =? byte_of d) || Contains s (String d "").
Proof.
  assert (HasPrefix (String c s) (String d "") = (byte_of c =? byte_of d)) as Hp.
  { apply eq_bool_prop_intro. rewrite !Is_true_true, HasPrefix_spec, Z.eqb_eq. split.
    - by intros [t [= -> _]].
    - intros ->%byte_of_inj. by exists s. }
  unfold Contains. cbn [Index]. rewrite Hp. destruct (byte_of c =? byte_of d); [done|].
  apply bool_decide_ext. by rewrite fmap_is_Some.
Qed.
Lemma unpad_Contains s : Contains (unpad s) "=" = false ∧ (Contains s "=" = false → unpad s = s).
Proof.
  induction s as [|c s [IH1 IH2]]; [done|]. cbn [unpad]. rewrite Contains_byte_cons. change (byte_of "=") with 61.
  destruct (byte_of c =? 61) eqn:Hc; [done|]. rewrite Contains_byte_cons. change (byte_of "=") with 61. rewrite Hc. cbn [orb].
  split; [done|]. intros H. by rewrite IH2.
Qed.

Lemma decode_unpadded raw : Forall is_u8 raw → decodeBase64URL (url_unpadded raw) = Ok raw.
Proof.
  intros Hf. destruct (Encode_text raw Hf) as (Ht & Hp & Hm). unfold url_unpadded, url_padded, decodeBase64URL, RawURLEncoding_DecodeString.
  pose proof (unpad_text _ Ht) as Ht'. rewrite unpad_url, strip_newlines_url, url_to_std_url by done.
  rewrite (proj1 (unpad_Contains _)). unfold pad_back in Hp. pose proof (UnpackMsg_PackMsg raw Hf) as Hr. unfold UnpackMsg, PackMsg in Hr.
  assert (len (unpad (EncodeToString raw)) mod 4 < 4)%nat by (by apply Nat.mod_upper_bound).
  destruct (len (unpad (EncodeToString raw)) mod 4)%nat as [|[|[|[|]]]]; try lia; by rewrite Hp, Hr.
Qed.
Lemma decode_padded raw : Forall is_u8 raw → decodeBase64URL (url_padded raw) = Ok raw.
Proof.
  intros Hf. destruct (Contains (EncodeToString raw) "=") eqn:Hc.
  - destruct (Encode_text raw Hf) as (Ht & _). unfold url_padded, decodeBase64URL, RawURLEncoding_DecodeString, URLEncoding_DecodeString.
    rewrite strip_newlines_url, url_to_std_url, Hc by done. cbn. exact (UnpackMsg_PackMsg raw Hf).
  - rewrite <-(decode_unpadded raw Hf). f_equal. unfold url_unpadded, url_padded. rewrite unpad_url. f_equal. symmetry. by apply unpad_Contains.
Qed.

(** ** Lemmas on the DoT loop *)

(** A step that never leaves more bytes than it found. *)
Definition shrinks (p : Reader → option (list Z * Reader)) : Prop :=
  ∀ r x r', p r = Some (x, r') → (length (unread r') ≤ length (unread r))%nat.
Lemma readN_unread n r x r' : readN n r = Some (x, r') → unread r = x ++ unread r' ∧ length x = n.
Proof.
  unfold readN. pose proof (ReadFull_got n r) as Hg. pose proof (unread_advance n r) as Hu. unfold advance in Hu.
  destruct (ReadFull n r) as [got r1]. cbn [fst snd] in *. destruct (Nat.eqb_spec (length got) n) as [Hl|]; [|done].
  intros [= -> ->]. split; [|done]. rewrite Hu, Hg. by rewrite take_drop.
Qed.
Lemma readN_shrinks n : shrinks (readN n).
Proof. intros r x r' [-> _]%readN_unread. rewrite length_app. lia. Qed.
Lemma andThen_shrinks p q : shrinks p → shrinks q → shrinks (andThen p q).
Proof.
  intros Hp Hq r x r' H. unfold andThen in H. destruct (p r) as [[a r1]|] eqn:E1; [|done]. cbn in H.
  destruct (q r1) as [[b r2]|] eqn:E2; [|done]. cbn in H. simplify_eq. apply Hp in E1. apply Hq in E2. lia.
Qed.
Lemma skipName_shrinks : shrinks skipName.
Proof.
  intros r x r'. unfold skipName. generalize (S (length (unread r))) as fuel. intros fuel. revert r x r'.
  induction fuel as [|fuel IH]; intros r x r' H; [done|]. cbn [skipName_loop] in H.
  destruct (readN 1 r) as [[h r1]|] eqn:E1; [|done]. cbn [mbind option_bind] in H. apply readN_shrinks in E1.
  case_match.
  - destruct (readN 1 r1) as [[h2 r2]|] eqn:E2; [|done]. cbn in H. simplify_eq. apply readN_shrinks in E2. lia.
  - case_match; [by simplify_eq|]. destruct (andThen _ _ r1) as [[l r2]|] eqn:E2; [|done]. cbn in H. simplify_eq.
    apply (andThen_shrinks _ _ (readN_shrinks _) IH) in E2. lia.
Qed.
Lemma repeat_shrinks n p : shrinks p → shrinks (repeat_read n p).
Proof. intros Hp. induction n as [|n IH]; [by intros r x r' [= _ ->]|]. by apply andThen_shrinks. Qed.
Lemma skipRR_shrinks : shrinks skipRR.
Proof.
  intros r x r' H. unfold skipRR in H. destruct (skipName r) as [[n r1]|] eqn:E1; [|done]. cbn [mbind option_bind] in H.
  destruct (readN 10 r1) as [[rr r2]|] eqn:E2; [|done]. cbn [mbind option_bind] in H.
  destruct (readN (Z.to_nat _) r2) as [[d r3]|] eqn:E3; [|done]. cbn in H. simplify_eq.
  apply skipName_shrinks in E1. apply readN_shrinks in E2. apply readN_shrinks in E3. lia.
Qed.

Section dot_lemmas.
Context `{DnsLib}.

Lemma readRaw_shrinks r m r' : readRawDNSMessage r = Some (m, r') → (length (unread r') < length (unread r))%nat.
Proof.
  unfold readRawDNSMessage. intros H0. destruct (readN 12 r) as [[hdr r1]|] eqn:E1; [|done]. cbn [mbind option_bind] in H0.
  destruct (andThen _ _ r1) as [[body r2]|] eqn:E2; [|done]. cbn [mbind option_bind] in H0.
  destruct (Unpack _); [|done]. cbn in H0. simplify_eq. apply readN_unread in E1 as [-> Hl]. rewrite length_app, Hl.
  apply andThen_shrinks in E2; [lia|apply repeat_shrinks, andThen_shrinks; [apply skipName_shrinks|apply readN_shrinks]|].
  repeat apply andThen_shrinks; apply repeat_shrinks, skipRR_shrinks.
Qed.
Lemma inner_unread hd r :
  unread {| buf := []; conn := hd :: (if is_nil (buf r) then conn r else buf r :: conn r) |} = hd ++ unread r.
Proof. unfold unread. cbn. destruct r as [[|x b] c]; done. Qed.
Lemma readCompat_shrinks r m f r' : readDNSMessageCompat r = Some (m, f, r') → (length (unread r') < length (unread r))%nat.
Proof.
  unfold readDNSMessageCompat. intros H0. destruct (readN 2 r) as [[hd r1]|] eqn:E1; [|done]. cbn [mbind option_bind] in H0.
  apply readN_unread in E1 as [Hr Hl]. rewrite Hr, length_app, Hl. case_match.
  - pose proof (unread_advance (Z.to_nat (u16_at hd 0)) r1) as Ha. unfold advance in Ha.
    destruct (ReadFull (Z.to_nat (u16_at hd 0)) r1) as [got r2]. cbn [snd] in Ha.
    assert (r' = r2) as ->.
    { destruct (length got =? _)%nat; [destruct (unpack_query (got ++ _)); [by simplify_eq|]|];
        destruct (unpack_query (hd ++ _)); cbn in H0; by simplify_eq. }
    rewrite Ha, length_drop. lia.
  - destruct (readRawDNSMessage _) as [[m' inner]|] eqn:E2; [|done]. cbn in H0. simplify_eq. apply readRaw_shrinks in E2.
    rewrite inner_unread, length_app, Hl in E2. unfold unread in *. cbn [buf conn app] in *. rewrite length_app in E2. lia.
Qed.

(** Reading one length-prefixed message. *)
Lemma readCompat_frame r raw rest m :
  (12 ≤ length raw ≤ Z.to_nat 4096)%nat → unread r = frame raw ++ rest → unpack_query raw = Some m →
  ∃ r', readDNSMessageCompat r = Some (m, "prefixed", r') ∧ unread r' = rest.
Proof.
  intros Hl Hr Hm. unfold frame in Hr. rewrite u16_small in Hr by (unfold is_u16; lia). rewrite <-app_assoc in Hr.
  destruct (reads_step _ _ _ _ (readN_reads (PutUint16 _)) Hr) as [H1 H2]. unfold readDNSMessageCompat.
  change 2%nat with (length (PutUint16 (Z.of_nat (length raw)))). rewrite H1. cbn [mbind option_bind].
  assert (u16_at (PutUint16 (Z.of_nat (length raw))) 0 = Z.of_nat (length raw)) as ->.
  { rewrite <-(app_nil_r (PutUint16 _)). apply (u16_at_put []). lia. }
  rewrite (proj2 (Z.leb_le 12 _)), (proj2 (Z.leb_le _ 4096)) by lia. cbn [andb]. rewrite Nat2Z.id.
  set (r1 := advance _ r) in *. pose proof (ReadFull_got (length raw) r1) as Hg. pose proof (unread_advance (length raw) r1) as Hu.
  unfold advance in Hu. destruct (ReadFull (length raw) r1) as [got r2]. cbn [fst snd] in *.
  rewrite H2, take_app_length in Hg. subst got. rewrite Nat.eqb_refl, Nat.sub_diag. cbn [replicate]. rewrite app_nil_r, Hm.
  exists r2. split; [done|]. by rewrite Hu, H2, drop_app_length.
Qed.
End dot_lemmas.

Section loop_lemmas.
Context {St R : Type} `{UnicodeCase} `{Cache St} `{RedisCount R} `{RedisSets R} `{DnsLib} `{Network} `{Rand} `{MapAPI}.
Context (TenantByPrefix : string → outcome (option Tenant)).

Lemma dot_loop_fuel f1 f2 k env meta (c : Core St R) r :
  (length (unread r) < f1)%nat → (length (unread r) < f2)%nat →
  dot_loop TenantByPrefix f1 k env meta c r = dot_loop TenantByPrefix f2 k env meta c r.
Proof.
  revert f2 k c r. induction f1 as [|f1 IH]; intros [|f2] k c r Hf1 Hf2; try lia. cbn [dot_loop].
  destruct (readDNSMessageCompat r) as [[[m fr] r']|] eqn:E; [|done]. apply readCompat_shrinks in E.
  destruct (dot_step _ _ _ _ _ _) as [[c' [raw|]]| |]; [|apply IH; lia|done..].
  destruct (en_writes _); [|done]. by rewrite (IH f2) by lia.
Qed.

(** What a connection should do with a sequence of queries: answer them in
    order, each in the framing of the queries, until a write fails. *)
Fixpoint answer_all (k : nat) (env : nat → ReqEnv) (meta : RequestMeta) (c : Core St R) (queries : list Msg)
    : outcome (Core St R * list (list Z)) :=
  match queries with
  | [] => Ok (c, [])
  | m :: queries =>
      match dot_step TenantByPrefix c meta m "prefixed" (env k) with
      | Ok (c, None) => answer_all (S k) env meta c queries
      | Ok (c, Some raw) =>
          if en_writes (env k) then
            match answer_all (S k) env meta c queries with
            | Ok (c, out) => Ok (c, raw :: out)
            | o => o
            end
          else Ok (c, [])
      | Err e => Err e
      | Panic => Panic
      end
  end.
Lemma readCompat_end r : unread r = [] → readDNSMessageCompat r = None.
Proof.
  intros Hr. unfold readDNSMessageCompat. destruct (readN 2 r) as [[hd r1]|] eqn:E; [|done].
  apply readN_unread in E as [E Hl]. rewrite Hr in E. destruct hd; [done|]. done.
Qed.
Lemma dot_loop_answers fuel k env meta (c : Core St R) r raws ms :
  (length (unread r) < fuel)%nat → unread r = concat (frame <$> raws) →
  Forall2 (λ raw m, (12 ≤ length raw ≤ Z.to_nat 4096)%nat ∧ unpack_query raw = Some m) raws ms →
  dot_loop TenantByPrefix fuel k env meta c r = answer_all k env meta c ms.
Proof.
  intros Hf Hr Hall. revert fuel k c r Hf Hr. induction Hall as [|raw m raws ms [Hl Hm] _ IH]; intros [|fuel] k c r Hf Hr; try lia.
  - cbn [dot_loop answer_all]. by rewrite readCompat_end.
  - cbn [fmap list_fmap concat] in Hr. destruct (readCompat_frame r raw _ m Hl Hr Hm) as (r' & E & Hr').
    pose proof (readCompat_shrinks _ _ _ _ E). cbn [dot_loop answer_all]. rewrite E.
    destruct (dot_step _ _ _ _ _ _) as [[c' [out|]]| |]; [|apply IH; [lia|done]|done..].
    destruct (en_writes _); [|done]. by rewrite (IH fuel) by (done || lia).
Qed.
End loop_lemmas.

Lemma prefixFromSNI_iff `{UnicodeCase} sni base p :
  p ≠ "" →
  prefixFromSNI sni base = p ↔ norm_name sni = (p +:+ "." +:+ norm_name base)%string ∧ Contains p "." = false.
Proof.
  intros Hp. unfold prefixFromSNI. fold (norm_name sni) (norm_name base). set (s := norm_name sni). set (b := norm_name base).
  split.
  - destruct (s =? b)%string; [by intros <-|]. destruct (HasSuffix s ("." +:+ b)) eqn:Hs; [|by intros <-].
    apply HasSuffix_spec in Hs as [t ->]. cbn [orb negb]. rewrite TrimSuffix_app.
    destruct (Contains t ".") eqn:Hc; [by intros <-|]. by intros <-.
  - intros [-> Hc]. destruct (String.eqb_spec (p +:+ "." +:+ b) b) as [Heq|_].
    + rewrite <-append_assoc_str in Heq. apply append_ne_self in Heq. by destruct p.
    + rewrite HasSuffix_app, TrimSuffix_app, Hc. done.
Qed.

(** ** Properties *)

(** A server name yields the tenant prefix [p] exactly when, in
    lower case and without its final dot, it is [p] followed by a dot and
    the base domain, with [p] a single non-empty label: deeper names and
    names of other domains never select a tenant. *)
Theorem prefixFromSNI_spec `{UnicodeCase} sni base p :
  p ≠ "" →
  prefixFromSNI sni base = p ↔ norm_name sni = (p +:+ "." +:+ norm_name base)%string ∧ Contains p "." = false.
Proof. apply prefixFromSNI_iff. Qed.
Lemma prefixFromSNI_spec_witness :
  @prefixFromSNI ascii_case "ACME-01.dns.Example.com." "dns.example.com" = "acme-01".
Proof. apply (@prefixFromSNI_spec ascii_case); [discriminate|]. split; vm_compute; reflexivity. Defined.

(** The DoT name advertised for a tenant routes back to it:
    connecting to [DotEndpoint] under the platform's base domain resolves
    the tenant whose prefix it is, unless the name is also registered as a
    customer's own domain. *)
Theorem endpoint_routes `{UnicodeCase} TenantByDomain TenantByPrefix cfg t :
  BaseDomain cfg = t_BaseDomain t → t_Prefix t ≠ "" → Contains (t_Prefix t) "." = false →
  t_BaseDomain t ≠ "" → HasSuffix (t_BaseDomain t) "." = false →
  ToLower (DotEndpoint t) = DotEndpoint t → ToLower (t_BaseDomain t) = t_BaseDomain t →
  TenantByPrefix (t_Prefix t) = Ok (Some t) → TenantByDomain (DotEndpoint t) = Ok None →
  resolveTenant TenantByDomain TenantByPrefix cfg (DotEndpoint t) = (Some t, "prefix").
Proof.
  intros Hb Hp Hc Hbn Hdot Hlow Hlowb Hpre Hdom. unfold resolveTenant.
  assert (DotEndpoint t = (t_Prefix t +:+ "." +:+ t_BaseDomain t)%string) as He.
  { unfold DotEndpoint. by rewrite (proj2 (String.eqb_neq _ _) Hp). }
  assert (norm_name (DotEndpoint t) = DotEndpoint t) as Hn.
  { unfold norm_name. rewrite TrimSuffix_none; [done|]. rewrite He, <-append_assoc_str, HasSuffix_dot_app; done. }
  assert (prefixFromSNI (DotEndpoint t) (BaseDomain cfg) = t_Prefix t) as Hpf.
  { apply prefixFromSNI_iff; [done|]. split; [|done]. rewrite Hn, He, Hb. unfold norm_name. by rewrite (TrimSuffix_none _ _ Hdot), Hlowb. }
  fold (norm_name (DotEndpoint t)). rewrite Hn, Hdom, Hpf. cbv zeta.
  rewrite (proj2 (String.eqb_neq (DotEndpoint t) "")) by (rewrite He; by destruct (t_Prefix t)).
  rewrite (proj2 (String.eqb_neq _ _) Hp), Hpre. done.
Qed.
Definition demo_lookup (key : string) : outcome (option Tenant) :=
  Ok (if (key =? "acme-01")%string then Some no_ecs_tenant else None).
Lemma endpoint_routes_witness :
  @resolveTenant ascii_case (λ _, Ok None) demo_lookup demo_config "acme-01.dns.example.com" = (Some no_ecs_tenant, "prefix").
Proof.
  apply (@endpoint_routes ascii_case (λ _, Ok None) demo_lookup demo_config no_ecs_tenant); try (vm_compute; reflexivity); vm_compute; discriminate.
Defined.


(** Reading a raw message whose identifier is not a plausible length. *)
Lemma readCompat_raw `{DnsLib} w m r rest :
  msg_ok w → unread r = enc_msg w ++ rest → Unpack (enc_msg w) = Some m → ¬ 12 ≤ u16_at (enc_msg w) 0 ≤ 4096 →
  readDNSMessageCompat r = Some (m, "raw",
    let r1 := advance 2 r in
    {| buf := [];
       conn := conn (advance (length (enc_msg w))
                 {| buf := []; conn := take 2 (enc_msg w) :: (if is_nil (buf r1) then conn r1 else buf r1 :: conn r1) |}) |}).
Proof.
  intros Hw Hr Hu Hid. destruct (enc_header_counts w Hw) as (Hl & _).
  assert (2 ≤ length (enc_msg w))%nat as Hlen by (unfold enc_msg; rewrite length_app; lia).
  set (hd := take 2 (enc_msg w)). assert (length hd = 2%nat) as Hhd by (unfold hd; rewrite length_take; lia).
  assert (unread r = hd ++ drop 2 (enc_msg w) ++ rest) as Hr2 by (unfold hd; by rewrite app_assoc, take_drop).
  destruct (reads_step _ _ _ _ (readN_reads hd) Hr2) as [H1 H2]. rewrite Hhd in H1, H2.
  unfold readDNSMessageCompat. rewrite H1. cbn [mbind option_bind].
  assert (u16_at hd 0 = u16_at (enc_msg w) 0) as ->.
  { unfold u16_at, hd. by rewrite !lookup_take_lt by lia. }
  replace ((12 <=? _) && (_ <=? 4096)) with false by (symmetry; apply andb_false_iff; rewrite !Z.leb_gt; lia).
  erewrite (readRaw_exact w m); [done|done| |done]. rewrite inner_unread, H2, app_assoc. unfold hd. by rewrite take_drop.
Qed.
Lemma advance_next n x later : (0 < n ≤ length x)%nat → advance n {| buf := []; conn := x :: later |} = {| buf := drop n x; conn := later |}.
Proof.
  intros Hn. unfold advance, ReadFull. cbn [buf conn fill length]. rewrite (proj2 (Nat.leb_gt _ _)) by lia. rewrite Nat.sub_0_r.
  assert (∀ c, fill n x c = (take n x, {| buf := drop n x; conn := c |})) as Hfill.
  { intros c. destruct c; cbn [fill]; by rewrite (proj2 (Nat.leb_le _ _)) by lia. }
  by rewrite Hfill.
Qed.

(** A well-formed DNS message sent without a length prefix, with any
    questions, compressed names and records, is read back exactly, wherever
    the connection's reads cut it, provided its identifier is not between 12
    and 4096. *)
Theorem raw_message_read `{DnsLib} w m r rest :
  msg_ok w → unread r = enc_msg w ++ rest → Unpack (enc_msg w) = Some m → ¬ 12 ≤ u16_at (enc_msg w) 0 ≤ 4096 →
  ∃ r', readDNSMessageCompat r = Some (m, "raw", r').
Proof. intros Hw Hr Hu Hid. rewrite (readCompat_raw w m r rest) by done. eauto. Qed.

(** When several raw messages arrive in one read, everything
    after the first is discarded: the next message is looked for in what
    arrives later. *)
Theorem raw_pipelined_lost `{DnsLib} w m rest later :
  msg_ok w → Unpack (enc_msg w) = Some m → ¬ 12 ≤ u16_at (enc_msg w) 0 ≤ 4096 →
  readDNSMessageCompat {| buf := []; conn := (enc_msg w ++ rest) :: later |} = Some (m, "raw", {| buf := []; conn := later |}).
Proof.
  intros Hw Hu Hid. destruct (enc_header_counts w Hw) as (Hl & _).
  assert (12 ≤ length (enc_msg w))%nat as Hlen by (unfold enc_msg; rewrite length_app; lia).
  rewrite (readCompat_raw w m _ (rest ++ concat later)); [|done| |done..].
  2: { unfold unread. cbn. by rewrite app_assoc. }
  rewrite advance_next by (rewrite length_app; lia). cbv zeta. cbn [buf conn]. rewrite drop_app_le by lia.
  set (x := drop 2 (enc_msg w) ++ rest). assert (length x = length (enc_msg w) - 2 + length rest)%nat as Hx.
  { unfold x. by rewrite length_app, length_drop. }
  rewrite (is_nil_length x) by lia.
  replace (length (enc_msg w)) with (2 + (length (enc_msg w) - 2))%nat by lia.
  assert (length (take 2 (enc_msg w)) = 2%nat) as Ht by (rewrite length_take; lia).
  rewrite <-advance_add. 2: { unfold unread. cbn. rewrite !length_app. lia. }
  rewrite advance_next by lia. rewrite drop_ge by lia. by rewrite advance_next by lia.
Qed.

(** The query [id] for the A records of "a.". *)
Definition demo_wire (id : Z) : WMsg :=
  {| w_head := PutUint16 id ++ [1; 0]; w_questions := [({| labels := [[97]]; name_end := Root |}, [0; 1; 0; 1])];
     w_answers := []; w_authority := []; w_extra := [] |}.
Definition demo_asked (id : Z) : Msg := set_Id demo_question id.
Definition wire_lib : DnsLib :=
  demo_lib [(enc_msg (demo_wire 40000), demo_asked 40000); (enc_msg (demo_wire 40001), demo_asked 40001);
            ([1; 2; 3], set_Compress (set_Id newMsg 40000) true); ([4; 5; 6], set_Compress (set_Id newMsg 40001) true)].
Lemma demo_wire_ok id : msg_ok (demo_wire id).
Proof.
  unfold msg_ok, demo_wire, name_ok. cbn. split_and!; try (repeat constructor; cbn; lia || done); try done; try lia.
Qed.
Lemma raw_message_read_witness :
  ∃ r', @readDNSMessageCompat wire_lib {| buf := []; conn := [take 5 (enc_msg (demo_wire 40000)); drop 5 (enc_msg (demo_wire 40000))] |}
    = Some (demo_asked 40000, "raw", r').
Proof.
  apply (@raw_message_read wire_lib (demo_wire 40000) _ _ []); [apply demo_wire_ok|vm_compute; reflexivity..|].
  vm_compute. intros [_ Hc]. by apply Hc.
Defined.
Lemma raw_pipelined_lost_witness :
  @readDNSMessageCompat wire_lib {| buf := []; conn := [enc_msg (demo_wire 40000) ++ enc_msg (demo_wire 40001)] |}
    = Some (demo_asked 40000, "raw", {| buf := []; conn := [] |}).
Proof.
  apply (@raw_pipelined_lost wire_lib (demo_wire 40000)); [apply demo_wire_ok|vm_compute; reflexivity|].
  vm_compute. intros [_ Hc]. by apply Hc.
Defined.

(** C9: on a DoT connection that carries length-prefixed queries of 12 to
    4096 bytes, however the stream is cut into reads, every query is
    processed once, in the order sent, and answered with its own
    length-prefixed response; nothing else is processed or written. *)
Theorem serveDoTConn_answers {St R} `{UnicodeCase} `{Cache St} `{RedisCount R} `{RedisSets R} `{DnsLib} `{Network} `{Rand} `{MapAPI}
    TenantByDomain TenantByPrefix (c : Core St R) sni remote r env raws ms :
  unread r = concat (frame <$> raws) →
  Forall2 (λ raw m, (12 ≤ length raw ≤ Z.to_nat 4096)%nat ∧ unpack_query raw = Some m) raws ms →
  serveDoTConn TenantByDomain TenantByPrefix c sni remote r env =
  answer_all TenantByPrefix 0 env (routed_meta TenantByDomain TenantByPrefix (c_cfg c) "dot" sni (clientIP remote)) c ms.
Proof. intros Hr Hall. unfold serveDoTConn. eapply dot_loop_answers; [lia|done|done]. Qed.

(** The loop of a DoT connection ends on every stream: more
    iterations than bytes received change nothing. *)
Theorem serveDoTConn_terminates {St R} `{UnicodeCase} `{Cache St} `{RedisCount R} `{RedisSets R} `{DnsLib} `{Network} `{Rand} `{MapAPI}
    TenantByDomain TenantByPrefix (c : Core St R) sni remote r env fuel :
  (length (unread r) < fuel)%nat →
  dot_loop TenantByPrefix fuel 0 env (routed_meta TenantByDomain TenantByPrefix (c_cfg c) "dot" sni (clientIP remote)) c r =
  serveDoTConn TenantByDomain TenantByPrefix c sni remote r env.
Proof. intros Hf. apply dot_loop_fuel; lia. Qed.

(** C36: a DNS message sent by GET, base64url-encoded with or without
    padding, is served exactly like the same message sent by POST: same
    response, same effect on the resolver. *)
Theorem doh_get_post {St R} `{UnicodeCase} `{Cache St} `{RedisCount R} `{RedisSets R} `{DnsLib} `{Network} `{Rand} `{MapAPI}
    TenantByDomain TenantByPrefix (c : Core St R) raw host ctype xreal remote env param body :
  Forall is_u8 raw → raw ≠ [] → Z.of_nat (length raw) ≤ 65535 → param = url_padded raw ∨ param = url_unpadded raw →
  HasPrefix ctype "application/dns-message" = true →
  serveDoH TenantByDomain TenantByPrefix c {| r_Method := "GET"; r_Host := host; r_dns := param; r_ContentType := "";
    r_Body := body; X_Real_IP := xreal; r_RemoteAddr := remote |} env =
  serveDoH TenantByDomain TenantByPrefix c {| r_Method := "POST"; r_Host := host; r_dns := ""; r_ContentType := ctype;
    r_Body := Ok raw; X_Real_IP := xreal; r_RemoteAddr := remote |} env.
Proof.
  intros Hf Hne Hl Hparam Hct. assert (decodeBase64URL param = Ok raw) as Hdec.
  { destruct Hparam as [->| ->]; [by apply decode_padded|by apply decode_unpadded]. }
  assert (param ≠ "") as Hp by (intros ->; vm_compute in Hdec; congruence).
  unfold serveDoH, doh_query, readBody, clientIPFromRequest. cbn [r_Method r_Host r_dns r_ContentType r_Body X_Real_IP r_RemoteAddr].
  rewrite (proj2 (String.eqb_neq _ _) Hp), Hdec, Hct, (proj2 (Z.ltb_ge _ _)) by lia. done.
Qed.

(** All DoQ clients of a tenant share one rate-limit budget, that
    of the empty address: once it is used up, a valid query is refused
    whatever address it comes from. *)
Theorem doq_shared_budget {St R} `{UnicodeCase} `{Cache St} `{RedisCount R} `{RedisSets R} `{DnsLib} `{Network} `{Rand} `{MapAPI}
    TenantByDomain TenantByPrefix (c : Core St R) sni remote stream env msg q t via lim :
  readDoQMsg stream = Some msg → validate_query (Some msg) = inr q →
  sni ≠ "" → resolveTenant TenantByDomain TenantByPrefix (c_cfg c) sni = (Some t, via) →
  AllowDNS (c_limiter c) (en_start env) (t_ID t) "" (t_VIP t) = (lim, false) →
  ∃ c', doqServeConn TenantByDomain TenantByPrefix c sni remote stream env = Ok (c', doq_response (Some (rateLimited msg))).
Proof.
  intros Hs Hv Hsni Ht Hlim. unfold doqServeConn. rewrite Hs. unfold doq_process. rewrite (proj2 (String.eqb_neq _ _) Hsni).
  cbv zeta. rewrite Ht. cbn [fst Via SNI Prefix MTenant ClientIP Internal SimulateECS SkipRateLimit].
  unfold run_Process, Process. rewrite Hv. cbv zeta. unfold request_tenant. cbn [MTenant ClientIP SkipRateLimit is_nil tenantID].
  autorewrite with core_fields. rewrite Hlim. cbn [negb]. eauto.
Qed.

(** A query of the public UDP and TCP listeners never reaches the
    IPv6 mapping service: its answer and its effects are the same whatever
    that service would say. *)
Theorem public_query_unmapped {St R} `{UnicodeCase} `{Cache St} `{RedisCount R} `{RedisSets R} `{DnsLib} `{Network} `{Rand}
    TenantByPrefix (api1 api2 : MapAPI) (c : Core St R) remote req env :
  @ServeDNS St R _ _ _ _ _ _ _ api1 TenantByPrefix c remote None req env =
  @ServeDNS St R _ _ _ _ _ _ _ api2 TenantByPrefix c remote None req env.
Proof.
  assert (∀ (c' : Core St R) tenant m, @request_ecs St R _ _ api1 c' (ServeDNS_meta remote None) tenant m =
            @request_ecs St R _ _ api2 c' (ServeDNS_meta remote None) tenant m) as Hecs.
  { intros c' tenant m. unfold request_ecs. cbn [ServeDNS_meta SimulateECS Internal ClientIP]. by rewrite !andb_false_r. }
  unfold ServeDNS, run_Process, Process. cbv zeta. destruct (validate_query _) as [[?|]|q]; [done..|].
  destruct (if SkipRateLimit _ then _ else _) as [lim allowed]. destruct allowed; cbn [negb]; [|done]. by rewrite Hecs.
Qed.

(** ** Witnesses *)

Definition demo_raws : list (list Z) := [enc_msg (demo_wire 40000); enc_msg (demo_wire 40001)].
Definition demo_env (now : Time) (k : nat) : ReqEnv :=
  {| en_flight := None; en_start := now; en_now := now; en_writes := true |}.
Definition demo_reader (l : list Z) : Reader := {| buf := []; conn := [take 20 l; drop 20 l] |}.
Definition demo_dot (c : Core MemoryCache.t DemoRedis) (r : Reader) : outcome (Core MemoryCache.t DemoRedis * list (list Z)) :=
  @serveDoTConn _ _ ascii_case _ _ _ wire_lib demo_network (seeded 0) demo_api (λ _, Ok None) demo_lookup c
    "acme-01.dns.example.com" (TCPAddr [192; 0; 2; 1]) r (demo_env (5 * second)).
Lemma serveDoTConn_answers_witness :
  match demo_dot (demo_core None) (demo_reader (concat (frame <$> demo_raws))) with
  | Ok (c, out) => out = [frame [1; 2; 3]; frame [4; 5; 6]] ∧ byTenantQ c !! "t1" = Some 2
  | _ => False
  end.
Proof.
  unfold demo_dot.
  rewrite (@serveDoTConn_answers MemoryCache.t DemoRedis ascii_case _ _ _ wire_lib demo_network (seeded 0) demo_api (λ _, Ok None) demo_lookup
             (demo_core None) "acme-01.dns.example.com" (TCPAddr [192; 0; 2; 1]) (demo_reader (concat (frame <$> demo_raws)))
             (demo_env (5 * second)) demo_raws [demo_asked 40000; demo_asked 40001]).
  - vm_compute. split; reflexivity.
  - vm_compute. reflexivity.
  - constructor; [|constructor; [|constructor]]; (split; [replace (length _) with 19%nat by (vm_compute; reflexivity); lia|vm_compute; reflexivity]).
Defined.
Lemma serveDoTConn_terminates_witness :
  @dot_loop _ _ ascii_case _ _ _ wire_lib demo_network (seeded 0) demo_api demo_lookup 1000 0 (demo_env (5 * second))
    (@routed_meta ascii_case (λ _, Ok None) demo_lookup (c_cfg (demo_core None)) "dot" "acme-01.dns.example.com" (clientIP (TCPAddr [192; 0; 2; 1])))
    (demo_core None) (demo_reader (concat (frame <$> demo_raws))) = demo_dot (demo_core None) (demo_reader (concat (frame <$> demo_raws))).
Proof.
  unfold demo_dot. apply (@serveDoTConn_terminates MemoryCache.t DemoRedis ascii_case _ _ _ wire_lib demo_network (seeded 0) demo_api (λ _, Ok None) demo_lookup
           (demo_core None) "acme-01.dns.example.com" (TCPAddr [192; 0; 2; 1])).
  replace (length _) with 42%nat by (vm_compute; reflexivity). lia.
Defined.

Definition demo_doh (method param ctype : string) (body : outcome (list Z)) : HTTPRequest :=
  {| r_Method := method; r_Host := "ACME-01.dns.example.com:443"; r_dns := param; r_ContentType := ctype; r_Body := body;
     X_Real_IP := "203.0.113.9"; r_RemoteAddr := "192.0.2.1:5353" |}.
Definition demo_serveDoH (r : HTTPRequest) : outcome (Core MemoryCache.t DemoRedis * HTTPResponse) :=
  @serveDoH _ _ ascii_case _ _ _ wire_lib demo_network (seeded 0) demo_api (λ _, Ok None) demo_lookup (demo_core None) r (demo_env (5 * second) 0).
Example demo_doh_get :
  match demo_serveDoH (demo_doh "GET" "nEABAAABAAAAAAAAAWEAAAEAAQ" "" (Ok [])) with
  | Ok (c, resp) => resp = DNSMessage [1; 2; 3] ∧ (ql_ClientIP <$> default [] (logger c)) = ["192.0.2.1"]
  | _ => False
  end.
Proof. vm_compute. split; reflexivity. Qed.
Lemma doh_get_post_witness :
  demo_serveDoH (demo_doh "GET" "nEABAAABAAAAAAAAAWEAAAEAAQ" "" (Ok [])) =
  demo_serveDoH (demo_doh "POST" "" "application/dns-message" (Ok (enc_msg (demo_wire 40000)))).
Proof.
  unfold demo_serveDoH, demo_doh. apply (@doh_get_post MemoryCache.t DemoRedis ascii_case _ _ _ wire_lib demo_network (seeded 0) demo_api (λ _, Ok None) demo_lookup
           (demo_core None) (enc_msg (demo_wire 40000)) "ACME-01.dns.example.com:443" "application/dns-message").
  - vm_compute. repeat constructor; discriminate.
  - discriminate.
  - vm_compute. discriminate.
  - right. vm_compute. reflexivity.
  - reflexivity.
Defined.

(** A limiter that admits nothing more in this second. *)
Definition full_limiter : Limiter DemoRedis := NewLimiter None 0 5.
Lemma doq_shared_budget_witness :
  ∃ c, @doqServeConn MemoryCache.t DemoRedis ascii_case _ _ _ wire_lib demo_network (seeded 0) demo_api (λ _, Ok None) demo_lookup
    (set_limiter full_limiter (demo_core None)) "acme-01.dns.example.com" (UDPAddr [192; 0; 2; 1])
    (frame (enc_msg (demo_wire 40000))) (demo_env (5 * second) 0)
    = Ok (c, @doq_response wire_lib (Some (@rateLimited wire_lib (demo_asked 40000)))).
Proof.
  eapply (@doq_shared_budget MemoryCache.t DemoRedis ascii_case _ _ _ wire_lib demo_network (seeded 0) demo_api (λ _, Ok None) demo_lookup
           (set_limiter full_limiter (demo_core None)) "acme-01.dns.example.com" (UDPAddr [192; 0; 2; 1])
           (frame (enc_msg (demo_wire 40000))) (demo_env (5 * second) 0) (demo_asked 40000)).
  - vm_compute. reflexivity.
  - vm_compute. reflexivity.
  - discriminate.
  - vm_compute. reflexivity.
  - vm_compute. reflexivity.
Defined.
