(* ===== verification/Lifecycle.v ===== *)
(** * Listeners from start to shutdown (src/internal/dnsx/server.go)

    [NewServer] with the TLS configurations of the listeners, the mux of the
    DoH listener with its headers, and the life of the listener goroutines:
    [Start] launches one per protocol, [Shutdown] closes what the server
    knows of and waits for all of them. A schedule says who moves; what a
    server of the dns, http and quic packages does when it is shut down is
    what their documentation says. *)

From S2P Require Import Prelude GoStrings GoNet Config Model DnsMsg Ecs Split StoreCache AnswerCache.
From S2P Require Import Dnssec RateLimit Metrics Upstream Ipdb Dualstack CertStore Threat Warmup Handler Server.

(** ** TLS *)

Record TLSConfig (C : Type) := {
  Certificates : list C; MinVersion : Z; NextProtos : list string; CipherSuites : list string
}.
Arguments Certificates {C}. Arguments MinVersion {C}. Arguments NextProtos {C}. Arguments CipherSuites {C}.
Definition VersionTLS12 : Z := 771.
Definition base_tls {C} (cert : C) : TLSConfig C :=
  {| Certificates := [cert]; MinVersion := VersionTLS12; NextProtos := ["dot"; "doq"; "h2"; "http/1.1"];
     CipherSuites := ["TLS_ECDHE_ECDSA_WITH_AES_128_GCM_SHA256"; "TLS_ECDHE_ECDSA_WITH_AES_256_GCM_SHA384";
                      "TLS_ECDHE_RSA_WITH_AES_128_GCM_SHA256"; "TLS_ECDHE_RSA_WITH_AES_256_GCM_SHA384";
                      "TLS_ECDHE_RSA_WITH_CHACHA20_POLY1305_SHA256"; "TLS_ECDHE_ECDSA_WITH_CHACHA20_POLY1305_SHA256"] |}.
Definition with_protos {C} (l : list string) (c : TLSConfig C) : TLSConfig C :=
  {| Certificates := Certificates c; MinVersion := MinVersion c; NextProtos := l; CipherSuites := CipherSuites c |}.
Definition with_cert {C} (cert : C) (c : TLSConfig C) : TLSConfig C :=
  {| Certificates := [cert]; MinVersion := MinVersion c; NextProtos := NextProtos c; CipherSuites := CipherSuites c |}.
(** The configuration [GetConfigForClient] returns for its choice. *)
Definition client_config {C} (tlsConf : TLSConfig C) (choice : TLSChoice C) : TLSConfig C :=
  match choice with BaseCert => tlsConf | CustomCert c => with_cert c tlsConf end.
(** The protocol the tls package agrees on: the first of the server's list
    that the client offers, none when the client offers nothing. *)
Definition negotiate (server client : list string) : outcome string :=
  match client with
  | [] => Ok ""
  | _ => match list_find (λ p, p ∈ client) server with
         | Some (_, p) => Ok p
         | None => if bool_decide ("h2" ∈ server) && bool_decide ("http/1.1" ∈ client) then Ok ""
                   else Err "tls: client requested unsupported application protocols"
         end
  end.

(** ** The listeners of a server *)

Inductive Kind := KDns | KDoH | KDoT | KDoQ.
#[global] Instance kind_eq_dec : EqDecision Kind.
Proof. solve_decision. Defined.
Record Listener := { ln_name : string; ln_kind : Kind; ln_addr : string; ln_internal : bool }.
Record Server (C : Type) := { sv_tls : TLSConfig C; sv_doh_tls : TLSConfig C; sv_certs : CertStore C; sv_listeners : list Listener }.
Arguments sv_tls {C}. Arguments sv_doh_tls {C}. Arguments sv_certs {C}. Arguments sv_listeners {C}.
(** In the order in which [Shutdown] closes them. *)
Definition listeners (cfg : Config) : list Listener :=
  let internal (name addr : string) := if (addr =? "")%string then []
                                       else [{| ln_name := name; ln_kind := KDns; ln_addr := addr; ln_internal := true |}] in
  [{| ln_name := "udp"; ln_kind := KDns; ln_addr := DNSListenUDP cfg; ln_internal := false |};
   {| ln_name := "tcp"; ln_kind := KDns; ln_addr := DNSListenTCP cfg; ln_internal := false |}]
  ++ internal "int-udp" (IntListenUDP cfg) ++ internal "int-tcp" (IntListenTCP cfg) ++
  [{| ln_name := "doh"; ln_kind := KDoH; ln_addr := DoHListen cfg; ln_internal := false |};
   {| ln_name := "doq"; ln_kind := KDoQ; ln_addr := DoQListen cfg; ln_internal := false |};
   {| ln_name := "dot"; ln_kind := KDoT; ln_addr := DoTListen cfg; ln_internal := false |}].
(** [base] is the pair of files of the platform's certificate, loaded. *)
Definition NewServer {C} (cfg : Config) (certs : CertStore C) (base : outcome C) : outcome (Server C) :=
  match base with
  | Ok cert =>
      let t := base_tls cert in
      Ok {| sv_tls := t; sv_doh_tls := with_protos ["h2"; "http/1.1"] t; sv_certs := certs; sv_listeners := listeners cfg |}
  | Err e => Err e
  | Panic => Panic
  end.
(** The configuration a listener is started with. *)
Definition listener_tls {C} (s : Server C) (k : Kind) : option (TLSConfig C) :=
  match k with
  | KDns => None
  | KDoH => Some (sv_doh_tls s)
  | KDoT => Some (with_protos ["dot"] (sv_tls s))
  | KDoQ => Some (with_protos ["doq"] (sv_tls s))
  end.
(** A handshake on a listener: the configuration of the listener is replaced
    by the one for the client's server name. *)
Definition handshake {C} `{UnicodeCase} (TenantByDomain TenantByPrefix : string → outcome (option Tenant)) (cfg : Config)
    (s : Server C) (k : Kind) (sni : string) (offer : list string) : outcome (string * list C) :=
  match listener_tls s k with
  | None => Err "no TLS"
  | Some _ =>
      match GetConfigForClient TenantByDomain TenantByPrefix cfg (sv_certs s) sni with
      | Ok choice =>
          let conf := client_config (sv_tls s) choice in
          match negotiate (NextProtos conf) offer with
          | Ok p => Ok (p, Certificates conf)
          | Err e => Err e
          | Panic => Panic
          end
      | Err e => Err e
      | Panic => Panic
      end
  end.

(** ** The DoH listener *)

(** A reply with the headers set on the way. *)
Inductive DoHBody := DoHReply (r : HTTPResponse) | DoHInfo.
Definition security_headers : list (string * string) :=
  [("X-Content-Type-Options", "nosniff"); ("X-Frame-Options", "DENY");
   ("Content-Security-Policy", "default-src 'none'; frame-ancestors 'none'");
   ("Strict-Transport-Security", "max-age=31536000; includeSubDomains")]%string.
Definition body_headers (b : DoHBody) : list (string * string) :=
  match b with
  | DoHInfo => [("Content-Type", "application/json")]
  | DoHReply (DNSMessage _) => [("Content-Type", "application/dns-message"); ("Cache-Control", "no-store")]
  | DoHReply (HTTPError code _) =>
      (if code =? 405 then [("Allow", "GET, POST")] else []) ++ [("Content-Type", "text/plain; charset=utf-8"); ("X-Content-Type-Options", "nosniff")]
  end.
Section doh.
Context {St R : Type} `{UnicodeCase} `{Cache St} `{Redis R} `{RedisCount R} `{RedisSets R}
  `{DnsLib} `{Network} `{Rand} `{MapAPI}.
Context (TenantByDomain TenantByPrefix : string → outcome (option Tenant)).
(** [dohHandler] wrapped in [securityHeaders], for a clean path (the mux
    redirects others to the clean form). *)
Definition dohHandler (c : Core St R) (path : string) (r : HTTPRequest) (env : ReqEnv)
    : outcome (Core St R * list (string * string) * DoHBody) :=
  if (path =? "/dns-query")%string then
    match serveDoH TenantByDomain TenantByPrefix c r env with
    | Ok (c, resp) => Ok (c, security_headers ++ body_headers (DoHReply resp), DoHReply resp)
    | Err e => Err e
    | Panic => Panic
    end
  else Ok (c, security_headers ++ body_headers DoHInfo, DoHInfo).
End doh.

(** ** Start and shutdown *)

(** A goroutine: before its socket is open, with the socket open but not
    recorded in the server ([KDoT] and [KDoQ]), serving, and returned.
    [closing] is set when its server or socket was closed. *)
Inductive LState := Starting | Bound | Serving | Stopped.
#[global] Instance lstate_eq_dec : EqDecision LState.
Proof. solve_decision. Defined.
Record Lis := { li_kind : Kind; li_state : LState; li_closing : bool }.
(** [Shutdown]: not called, about to close the listener with a number,
    waiting, returned. *)
Inductive SPc := Running | Closing (k : nat) | Waiting | Returned.
#[global] Instance spc_eq_dec : EqDecision SPc.
Proof. solve_decision. Defined.
Record Life := { lf_ls : list Lis; lf_errs : list string; lf_pc : SPc; lf_serrs : list string }.
Definition start_life (ls : list Listener) : Life :=
  {| lf_ls := (λ l, {| li_kind := ln_kind l; li_state := Starting; li_closing := false |}) <$> ls; lf_errs := [];
     lf_pc := Running; lf_serrs := [] |}.
Definition set_lis (i : nat) (l : Lis) (errs : list string) (s : Life) : Life :=
  {| lf_ls := <[i := l]> (lf_ls s); lf_errs := lf_errs s ++ errs; lf_pc := lf_pc s; lf_serrs := lf_serrs s |}.
Definition goto (pc : SPc) (errs : list string) (s : Life) : Life :=
  {| lf_ls := lf_ls s; lf_errs := lf_errs s; lf_pc := pc; lf_serrs := lf_serrs s ++ errs |}.
Definition to_state (l : Lis) (st : LState) : Lis := {| li_kind := li_kind l; li_state := st; li_closing := li_closing l |}.
Definition to_close (l : Lis) : Lis := {| li_kind := li_kind l; li_state := li_state l; li_closing := true |}.

Definition err_closed : string := "use of closed network connection".
Definition err_not_started : string := "dns: server not started".
(** The error a goroutine returns with when it was closed. *)
Definition closed_errs (k : Kind) : list string := match k with KDns => [] | _ => [err_closed] end.
(** A goroutine's move; [fault] is an error of the socket at this moment. *)
Definition lis_step (fault : option string) (l : Lis) : option (Lis * list string) :=
  match li_state l, fault with
  | Starting, Some e => Some (to_state l Stopped, [e])
  | Starting, None =>
      match li_kind l with
      | KDns => Some (to_state l Serving, [])
      | KDoH => if li_closing l then Some (to_state l Stopped, [err_closed]) else Some (to_state l Serving, [])
      | KDoT | KDoQ => Some (to_state l Bound, [])
      end
  | Bound, _ => Some (to_state l Serving, [])
  | Serving, _ =>
      if li_closing l then Some (to_state l Stopped, closed_errs (li_kind l))
      else match fault with Some e => Some (to_state l Stopped, [e]) | None => None end
  | Stopped, _ => None
  end.
(** What [Shutdown] does to a listener, and the error it keeps. *)
Definition close_lis (l : Lis) : Lis * list string :=
  match li_kind l, li_state l with
  | KDns, Serving => (to_close l, [])
  | KDns, _ => (l, [err_not_started])
  | KDoH, _ => (to_close l, [])
  | _, (Serving | Stopped) => (to_close l, [])
  | _, _ => (l, [])
  end.
(** One move: of [Shutdown] ([None]) or of a goroutine. *)
Definition life_step (who : option nat) (fault : option string) (s : Life) : option Life :=
  match who with
  | Some i =>
      match lf_ls s !! i with
      | Some l => match lis_step fault l with Some (l, errs) => Some (set_lis i l errs s) | None => None end
      | None => None
      end
  | None =>
      match lf_pc s with
      | Running => Some (goto (Closing 0) [] s)
      | Closing k =>
          match lf_ls s !! k with
          | Some l => let '(l, errs) := close_lis l in Some (goto (Closing (S k)) errs (set_lis k l [] s))
          | None => Some (goto Waiting [] s)
          end
      | Waiting => if forallb (λ l, bool_decide (li_state l = Stopped)) (lf_ls s) then Some (goto Returned [] s) else None
      | Returned => None
      end
  end.
Fixpoint life_sched (l : list (option nat * option string)) (s : Life) : option Life :=
  match l with
  | [] => Some s
  | (who, fault) :: l => match life_step who fault s with Some s' => life_sched l s' | None => None end
  end.
(** What [Start] and [Shutdown] return. *)
Definition Start_result (s : Life) : outcome unit := match lf_errs s with e :: _ => Err e | [] => Ok () end.
Definition Shutdown_result (s : Life) : outcome unit := match lf_serrs s with e :: _ => Err e | [] => Ok () end.

(** ** Lemmas *)

(** Moves a goroutine, and the server as a whole, have left. *)
Definition lis_left (l : Lis) : nat := match li_state l with Starting => 3 | Bound => 2 | Serving => 1 | Stopped => 0 end.
Definition life_left (s : Life) : nat :=
  sum_list_with lis_left (lf_ls s) +
  match lf_pc s with Running => length (lf_ls s) + 3 | Closing k => length (lf_ls s) - k + 2 | Waiting => 1 | Returned => 0 end.
Lemma sum_insert {A} (f : A → nat) (l : list A) i x y :
  l !! i = Some x → (sum_list_with f (<[i := y]> l) + f x = sum_list_with f l + f y)%nat.
Proof.
  revert i. induction l as [|z l IH]; intros i Hi; [done|]. destruct i as [|i]; simpl in *; [simplify_eq; lia|].
  specialize (IH i Hi). lia.
Qed.
Lemma lis_step_left fault l l' errs : lis_step fault l = Some (l', errs) → (lis_left l' < lis_left l)%nat ∧ li_kind l' = li_kind l ∧ li_closing l' = li_closing l.
Proof.
  unfold lis_step, lis_left. destruct (li_state l) eqn:E, fault; try done; repeat case_match; intros; simplify_eq; cbn; repeat split; try lia; congruence.
Qed.
Lemma close_lis_state l : li_state (close_lis l).1 = li_state l ∧ li_kind (close_lis l).1 = li_kind l.
Proof. unfold close_lis. destruct (li_kind l) eqn:K, (li_state l) eqn:E; cbn; auto. Qed.
Lemma life_step_left who fault s s' :
  life_step who fault s = Some s' → (life_left s' < life_left s)%nat ∧ length (lf_ls s') = length (lf_ls s).
Proof.
  unfold life_step, life_left. destruct who as [i|].
  - destruct (lf_ls s !! i) as [l|] eqn:Hi; [|done]. destruct (lis_step fault l) as [[l' errs]|] eqn:Hl; intros; simplify_eq.
    apply lis_step_left in Hl as [Hl _]. pose proof (sum_insert lis_left (lf_ls s) i l l' Hi) as Hs. cbn [set_lis lf_ls lf_pc].
    rewrite length_insert. split; [|done]. lia.
  - destruct (lf_pc s) as [|k| |] eqn:Hpc; [..|done].
    + intros; simplify_eq. cbn. split; [lia|done].
    + destruct (lf_ls s !! k) as [l|] eqn:Hk.
      * pose proof (close_lis_state l) as [Hst _]. destruct (close_lis l) as [l' errs]. intros; simplify_eq.
        pose proof (sum_insert lis_left (lf_ls s) k l l' Hk) as Hs. unfold lis_left in Hs at 2 4. cbn [fst] in Hst. rewrite Hst in Hs.
        cbn. rewrite length_insert. apply lookup_lt_Some in Hk. split; [lia|done].
      * intros; simplify_eq. cbn. split; [lia|done].
    + destruct (forallb _ _); intros; simplify_eq. cbn. split; [lia|done].
Qed.
Lemma life_sched_left l s s' : life_sched l s = Some s' → (length l + life_left s' ≤ life_left s)%nat.
Proof.
  revert s. induction l as [|[who fault] l IH]; intros s; simpl; [intros [= ->]; lia|].
  destruct (life_step who fault s) as [s1|] eqn:E; [|done]. intros Hr. apply life_step_left in E as [E _]. apply IH in Hr. lia.
Qed.
(** Before [Shutdown]: nothing is closed, and the errors kept are those of
    the goroutines that have returned. *)
Definition unclosed (s : Life) : Prop :=
  lf_pc s = Running → Forall (λ l, li_closing l = false) (lf_ls s) ∧
    (lf_errs s = [] ↔ Forall (λ l, li_state l ≠ Stopped) (lf_ls s)).
Lemma lis_step_errs fault l l' errs :
  lis_step fault l = Some (l', errs) → li_closing l = false → li_state l ≠ Stopped ∧ (errs = [] ↔ li_state l' ≠ Stopped).
Proof.
  unfold lis_step. destruct (li_state l) eqn:E, fault, (li_kind l), (li_closing l); intros; simplify_eq; cbn; done.
Qed.
Lemma life_step_unclosed who fault s s' : life_step who fault s = Some s' → unclosed s → unclosed s'.
Proof.
  unfold life_step, unclosed. destruct who as [i|].
  - destruct (lf_ls s !! i) as [l|] eqn:Hi; [|done]. destruct (lis_step fault l) as [[l' errs]|] eqn:Hl; intros; simplify_eq.
    cbn [set_lis lf_pc lf_ls lf_errs] in *. destruct (H0 ltac:(done)) as [Hc He].
    pose proof (Forall_lookup_1 _ _ _ _ Hc Hi) as Hlc. pose proof Hl as Hl'. apply lis_step_left in Hl' as (_ & _ & Hcl).
    apply lis_step_errs in Hl as [Hns Herr]; [|done]. split; [apply Forall_insert; [done|by rewrite Hcl]|].
    rewrite app_nil, He, Herr. split.
    + intros [Ha Hl]. by apply Forall_insert.
    + intros Ha. split.
      * apply Forall_lookup. intros k x Hk. destruct (decide (k = i)) as [->|Hne]; [by simplify_eq|].
        apply (Forall_lookup_1 _ _ k x Ha). by rewrite list_lookup_insert_ne.
      * apply (Forall_lookup_1 _ _ i l' Ha). apply list_lookup_insert_eq. by eapply lookup_lt_Some.
  - destruct (lf_pc s); repeat case_match; intros; simplify_eq; done.
Qed.
Lemma life_sched_unclosed l s s' : life_sched l s = Some s' → unclosed s → unclosed s'.
Proof.
  revert s. induction l as [|[who fault] l IH]; intros s; simpl; [by intros [= ->]|].
  destruct (life_step who fault s) as [s1|] eqn:E; [|done]. eauto using life_step_unclosed.
Qed.

(** During [Shutdown], when every listener was up or gone at its call: the
    ones passed so far are closed. *)
Definition ready (l : Lis) : Prop := li_state l = Serving ∨ li_state l = Stopped.
Definition passed (s : Life) : nat :=
  match lf_pc s with Running => 0 | Closing k => k | Waiting | Returned => length (lf_ls s) end.
Record closing_inv (s : Life) : Prop := {
  ci_ready : Forall ready (lf_ls s);
  ci_passed : ∀ i l, lf_ls s !! i = Some l → (i < passed s)%nat → li_state l = Serving → li_closing l = true;
  ci_stopped : lf_pc s = Returned → Forall (λ l, li_state l = Stopped) (lf_ls s);
}.
Lemma close_ready l : ready l → li_state (close_lis l).1 = Serving → li_closing (close_lis l).1 = true.
Proof. intros [E|E]; unfold close_lis; rewrite E; destruct (li_kind l); cbn; congruence. Qed.
Lemma life_step_closing who fault s s' : life_step who fault s = Some s' → closing_inv s → closing_inv s'.
Proof.
  intros Hs [Hr Hp Hst]. unfold life_step in Hs. destruct who as [i|].
  - destruct (lf_ls s !! i) as [l|] eqn:Hi; [|done]. destruct (lis_step fault l) as [[l' errs]|] eqn:Hl; simplify_eq.
    pose proof (Forall_lookup_1 _ _ _ _ Hr Hi) as Hrl.
    assert (li_state l' = Stopped ∧ li_state l = Serving) as [Hl' Hs].
    { unfold lis_step in Hl. destruct Hrl as [E|E]; rewrite E in Hl; [|done].
      destruct (li_closing l); [by simplify_eq|]. destruct fault; by simplify_eq. }
    split; cbn [set_lis lf_ls lf_pc].
    + apply Forall_insert; [done|by right].
    + intros k x [(<- & <- & _)|[_ Hk]]%list_lookup_insert_Some; [congruence|]. unfold passed. cbn. rewrite length_insert. by apply Hp.
    + intros Hpc. apply Hst in Hpc. apply (Forall_lookup_1 _ _ _ _ Hpc) in Hi. congruence.
  - unfold passed in Hp. destruct (lf_pc s) as [|k| |] eqn:Hpc; [..|done].
    + simplify_eq. split; unfold passed; cbn; [done|intros; lia|done].
    + destruct (lf_ls s !! k) as [l|] eqn:Hk.
      * pose proof (Forall_lookup_1 _ _ _ _ Hr Hk) as Hrl. pose proof (close_ready l Hrl) as Hcr. pose proof (close_lis_state l) as [Hcs _].
        destruct (close_lis l) as [l' errs]. simplify_eq. cbn [fst] in *. split; unfold passed; cbn; [| |done].
        -- apply Forall_insert; [done|]. unfold ready. by rewrite Hcs.
        -- intros i x [(<- & <- & _)|[Hne Hi]]%list_lookup_insert_Some Hlt Hx; [auto|]. apply (Hp i x Hi); [lia|done].
      * simplify_eq. split; unfold passed; cbn; [done| |done]. intros i x Hi _. apply (Hp i x Hi).
        apply lookup_lt_Some in Hi. apply lookup_ge_None in Hk. lia.
    + destruct (forallb _ _) eqn:Hall; simplify_eq. split; unfold passed; cbn; [done|done|]. intros _.
      apply Forall_forall. intros l Hl%list_elem_of_In. rewrite forallb_forall in Hall. apply Hall in Hl. by apply bool_decide_eq_true in Hl.
Qed.
Lemma life_sched_closing l s s' : life_sched l s = Some s' → closing_inv s → closing_inv s'.
Proof.
  revert s. induction l as [|[who fault] l IH]; intros s; simpl; [by intros [= ->]|].
  destruct (life_step who fault s) as [s1|] eqn:E; [|done]. eauto using life_step_closing.
Qed.
Lemma closing_progress s : closing_inv s → lf_pc s ≠ Returned → ∃ who, is_Some (life_step who None s).
Proof.
  intros [Hr Hp _] Hn. unfold passed in Hp.
  destruct (lf_pc s) as [|k| |] eqn:Hpc; [exists None; unfold life_step; rewrite Hpc; eauto|..|done].
  - exists None. unfold life_step. rewrite Hpc. destruct (lf_ls s !! k); [destruct (close_lis _)|]; eauto.
  - destruct (decide (Exists (λ l, li_state l = Serving) (lf_ls s))) as [Hex|Hno].
    + apply Exists_exists in Hex as (l & Hin & Hs). apply list_elem_of_lookup in Hin as [i Hi]. exists (Some i).
      unfold life_step. rewrite Hi. unfold lis_step. rewrite Hs, (Hp i l Hi); [eauto|by eapply lookup_lt_Some|done].
    + exists None. unfold life_step. rewrite Hpc, (proj2 (forallb_forall _ _)); [eauto|]. intros l Hl%list_elem_of_In.
      apply bool_decide_eq_true. rewrite Forall_forall in Hr. destruct (Hr l Hl) as [E|E]; [|done]. destruct Hno.
      apply Exists_exists. eauto.
Qed.

(** ** Properties *)

(** Shutting down ends: when every listener was serving or had
    returned at the call of [Shutdown], then whatever the schedule and
    whatever errors sockets report, the moves still possible are bounded,
    somebody can move until [Shutdown] has returned, and when it has
    returned every listener goroutine has. *)
Theorem Shutdown_completes s l s' :
  lf_pc s = Running → Forall ready (lf_ls s) → life_sched l s = Some s' →
  (length l ≤ 2 * length (lf_ls s) + 3)%nat ∧ (lf_pc s' ≠ Returned → ∃ who, is_Some (life_step who None s')) ∧
  (lf_pc s' = Returned → Forall (λ l, li_state l = Stopped) (lf_ls s')).
Proof.
  intros Hpc Hr Hs. assert (closing_inv s) as Hi.
  { split; [done|unfold passed; rewrite Hpc; intros; lia|congruence]. }
  pose proof (life_sched_closing _ _ _ Hs Hi) as Hi'. split_and!; [|by apply closing_progress|apply Hi'].
  apply life_sched_left in Hs. unfold life_left in Hs at 2. rewrite Hpc in Hs.
  assert (sum_list_with lis_left (lf_ls s) ≤ length (lf_ls s))%nat; [|lia].
  clear -Hr. induction Hr as [|x ls Hx _ IH]; simpl; [lia|]. assert (lis_left x ≤ 1)%nat by (unfold lis_left; destruct Hx as [->| ->]; lia). lia.
Qed.

(** [Start] reports an error exactly when a listener has returned
    by the time it looks. *)
Theorem Start_reports ls l s :
  life_sched l (start_life ls) = Some s → lf_pc s = Running →
  Start_result s = Ok () ↔ Forall (λ l, li_state l ≠ Stopped) (lf_ls s).
Proof.
  intros Hs Hpc. assert (unclosed (start_life ls)) as Hu.
  { intros _. cbn. split; [|split; [intros _|done]]; apply Forall_fmap, Forall_forall; done. }
  destruct (life_sched_unclosed _ _ _ Hs Hu Hpc) as [_ <-]. unfold Start_result. by destruct (lf_errs s).
Qed.

(** The protocols of a listener have no effect: every TLS listener agrees to
    any of the four protocols the server knows, because the configuration
    chosen for the client replaces the listener's. *)
Theorem alpn_not_narrowed {C} `{UnicodeCase} TenantByDomain TenantByPrefix cfg certs (cert : C) s k sni choice p :
  NewServer cfg certs (Ok cert) = Ok s → k ≠ KDns →
  GetConfigForClient TenantByDomain TenantByPrefix cfg certs sni = Ok choice → p ∈ ["dot"; "doq"; "h2"; "http/1.1"]%string →
  ∃ cs, handshake TenantByDomain TenantByPrefix cfg s k sni [p] = Ok (p, cs).
Proof.
  intros [= <-] Hk Hc Hp. unfold handshake. cbn [sv_certs sv_tls]. rewrite Hc.
  assert (NextProtos (client_config (base_tls cert) choice) = ["dot"; "doq"; "h2"; "http/1.1"]%string) as ->
    by (by destruct choice).
  assert (negotiate ["dot"; "doq"; "h2"; "http/1.1"]%string [p] = Ok p) as ->.
  { rewrite !elem_of_cons, elem_of_nil in Hp. destruct Hp as [->|[->|[->|[->|[]]]]]; vm_compute; reflexivity. }
  destruct k; cbn; eauto. done.
Qed.

(** ** Demonstration *)

Definition demo_listeners : list Listener := listeners demo_config.
(** All goroutines reach their loops. *)
Definition demo_up : list (option nat * option string) :=
  (λ i, (Some i, None)) <$> [0; 1; 2; 3; 4; 3; 4]%nat.
Definition demo_life : option Life := life_sched demo_up (start_life demo_listeners).
Lemma Start_reports_witness :
  ∃ s, demo_life = Some s ∧ Start_result s = Ok () ∧
  ∃ s', life_sched [(Some 0%nat, Some "bind: address already in use"%string)] (start_life demo_listeners) = Some s' ∧
    ¬ Forall (λ l, li_state l ≠ Stopped) (lf_ls s').
Proof.
  destruct demo_life as [s|] eqn:E; [|vm_compute in E; discriminate]. exists s. split; [reflexivity|]. split.
  - apply (Start_reports demo_listeners demo_up); [exact E|vm_compute in E; injection E as <-; reflexivity|].
    vm_compute in E. injection E as <-. repeat constructor; discriminate.
  - eexists. split; [reflexivity|]. rewrite <-(Start_reports demo_listeners [(Some 0%nat, Some "bind: address already in use"%string)]);
      [vm_compute; discriminate|reflexivity|reflexivity].
Defined.
Definition demo_down : list (option nat * option string) :=
  replicate 7 (None, None) ++ ((λ i, (Some i, None)) <$> [0; 1; 2; 3; 4]%nat) ++ [(None, None)].
Lemma Shutdown_completes_witness :
  ∃ s s', demo_life = Some s ∧ life_sched demo_down s = Some s' ∧ Forall (λ l, li_state l = Stopped) (lf_ls s').
Proof.
  destruct demo_life as [s|] eqn:E; [|vm_compute in E; discriminate]. exists s.
  destruct (life_sched demo_down s) as [s'|] eqn:E'; [|vm_compute in E; injection E as <-; vm_compute in E'; discriminate].
  exists s'. split; [reflexivity|]. split; [reflexivity|].
  apply (Shutdown_completes s demo_down s'); [| |exact E'|]; vm_compute in E; injection E as <-.
  - reflexivity.
  - repeat constructor.
  - vm_compute in E'. injection E' as <-. reflexivity.
Defined.
(** A listener that opens its socket while [Shutdown] runs is not closed:
    [Shutdown] waits for ever. *)
Example Shutdown_misses_late_listener :
  match life_sched (((λ i, (Some i, None)) <$> [0; 1; 2; 3; 3]%nat)
                    ++ replicate 7 (None, None) ++ ((λ i, (Some i, None)) <$> [0; 1; 2; 3; 4; 4]%nat)) (start_life demo_listeners) with
  | Some s => lf_pc s = Waiting ∧ (λ i, bool_decide (is_Some (life_step i None s))) <$> [None; Some 0; Some 1; Some 2; Some 3; Some 4]%nat
                = [false; false; false; false; false; false]
  | None => False
  end.
Proof. vm_compute. split; reflexivity. Qed.
