(* ===== verification/QueryLog.v ===== *)
(** * Query log and audit chain (src/internal/store/querylog.go)

    The buffering query-log writer as a transition system of writers, the
    flushing goroutine and its ticker; the SQL a log search sends; and the
    hash chain over the audit table with its verification. The database is
    the tables and the errors it reports. *)

From S2P Require Import Prelude GoStrings GoNet Config Model Sha256.

(** ** Searching the query log *)

(** [strings.ReplaceAll(s, old, new)] for a one-byte [old]. *)
Fixpoint replace_byte (s : string) (old : ascii) (new : string) : string :=
  match s with
  | EmptyString => EmptyString
  | String c s => if byte_of c =? byte_of old then (new +:+ replace_byte s old new)%string
                  else String c (replace_byte s old new)
  end.
Definition escapeLike (s : string) : string :=
  let s := replace_byte s "\" "\\" in
  let s := replace_byte s "%" "\%" in
  replace_byte s "_" "\_".

Fixpoint joinWhere_loop (out : string) (parts : list string) : string :=
  match parts with
  | [] => out
  | p :: parts => joinWhere_loop (out +:+ " AND " +:+ p) parts
  end.
Definition joinWhere (parts : list string) : string :=
  match parts with
  | [] => ""
  | p :: parts => joinWhere_loop p parts
  end.

(** A bound argument. *)
Inductive arg := AStr (s : string) | AInt (z : Z).
Record LogFilter := { f_tenantID : string; f_qname : string; f_qtype : string; f_from : string; f_to : string }.
Definition filter_part (value clause : string) (bound : arg) : list string * list arg :=
  if (value =? "")%string then ([], []) else ([clause], [bound]).
Definition filter_parts (f : LogFilter) : list string * list arg :=
  let parts := [filter_part (f_tenantID f) "tenant_id = ?" (AStr (f_tenantID f));
                filter_part (f_qname f) "qname LIKE ?" (AStr ("%" +:+ escapeLike (f_qname f) +:+ "%"));
                filter_part (f_qtype f) "qtype = ?" (AStr (f_qtype f));
                filter_part (f_from f) "ts >= ?" (AStr (f_from f));
                filter_part (f_to f) "ts <= ?" (AStr (f_to f))] in
  ("1=1" :: concat parts.*1, concat parts.*2).
(** The two statements [QueryLogs] sends, with their arguments. *)
Definition QueryLogs_sql (f : LogFilter) (limit offset countCap : Z) : (string * list arg) * (string * list arg) :=
  let '(where_, args) := filter_parts f in
  let limit := if (limit <=? 0) || (500 <? limit) then 100 else limit in
  let countCap := if countCap <=? 0 then 100000 else countCap in
  let w := (" WHERE " +:+ joinWhere where_)%string in
  let count := ("SELECT COUNT(*) FROM (SELECT 1 FROM query_logs" +:+ w +:+ " LIMIT ?) t")%string in
  let page := ("SELECT ts, tenant_id, client_ip, ecs, qname, qtype, rcode, cache_hit, upstream_group, upstream, rtt_ms, dnssec_ok, vip, via FROM query_logs"
                 +:+ w +:+ " ORDER BY ts DESC, id DESC LIMIT ? OFFSET ?")%string in
  ((count, args ++ [AInt countCap]), (page, args ++ [AInt limit; AInt offset])).

(** ** The writer *)

(** A row without a time gets the current one. *)
Definition stamp (now : Time) (r : QueryLogRow) : QueryLogRow :=
  if ql_TS r =? zeroTime then
    {| ql_TS := now; ql_TenantID := ql_TenantID r; ql_ClientIP := ql_ClientIP r; ql_ECS := ql_ECS r; ql_QName := ql_QName r;
       ql_QType := ql_QType r; ql_RCode := ql_RCode r; ql_CacheHit := ql_CacheHit r; ql_UpstreamGrp := ql_UpstreamGrp r;
       ql_Upstream := ql_Upstream r; ql_RTTMS := ql_RTTMS r; ql_DNSSECOK := ql_DNSSECOK r; ql_VIP := ql_VIP r; ql_Via := ql_Via r |}
  else r.

(** Capacity of the channel. *)
Definition chanCap : nat := Z.to_nat 8192.

(** Where a caller of [Write] is: before its first send, after finding the
    channel full, after making room, or back. The counters are changed with
    the channel operation they follow. *)
Inductive wpc := Start (row : QueryLogRow) | Full (row : QueryLogRow) | Retry (row : QueryLogRow) | Done.
Record QueryLogWriter := {
  chan : list QueryLogRow; batch : list QueryLogRow; batchMax : Z;
  dropped : Z; flushed : Z; queued : Z;
  writers : list wpc;                 (** the calls of [Write] *)
  query_logs : list QueryLogRow       (** the rows committed to the table *)
}.
Definition NewQueryLogWriter (max : Z) (rows : list QueryLogRow) : QueryLogWriter :=
  {| chan := []; batch := []; batchMax := max; dropped := 0; flushed := 0; queued := 0;
     writers := Start <$> rows; query_logs := [] |}.
Definition set_writer (w : QueryLogWriter) (ch : list QueryLogRow) (d q : Z) (ws : list wpc) : QueryLogWriter :=
  {| chan := ch; batch := batch w; batchMax := batchMax w; dropped := dropped w + d; flushed := flushed w;
     queued := queued w + q; writers := ws; query_logs := query_logs w |}.
(** [flush] with the outcome of [insert]. *)
Definition flush (w : QueryLogWriter) (inserted : bool) : QueryLogWriter :=
  let n := Z.of_nat (length (batch w)) in
  if n =? 0 then w
  else if inserted then
    {| chan := chan w; batch := []; batchMax := batchMax w; dropped := dropped w; flushed := flushed w + n;
       queued := queued w; writers := writers w; query_logs := query_logs w ++ batch w |}
  else
    {| chan := chan w; batch := []; batchMax := batchMax w; dropped := dropped w + n; flushed := flushed w;
       queued := queued w; writers := writers w; query_logs := query_logs w |}.
Definition receive (w : QueryLogWriter) (row : QueryLogRow) (rest : list QueryLogRow) (inserted : bool) : QueryLogWriter :=
  let w := {| chan := rest; batch := batch w ++ [row]; batchMax := batchMax w; dropped := dropped w; flushed := flushed w;
              queued := queued w; writers := writers w; query_logs := query_logs w |} in
  if batchMax w <=? Z.of_nat (length (batch w)) then flush w inserted else w.

Inductive wstep (w : QueryLogWriter) : QueryLogWriter → Prop :=
| w_send l1 row l2 now :
    writers w = l1 ++ Start row :: l2 → (length (chan w) < chanCap)%nat →
    wstep w (set_writer w (chan w ++ [stamp now row]) 0 1 (l1 ++ Done :: l2))
| w_full l1 row l2 now :
    writers w = l1 ++ Start row :: l2 → (chanCap ≤ length (chan w))%nat →
    wstep w (set_writer w (chan w) 1 0 (l1 ++ Full (stamp now row) :: l2))
| w_make_room l1 row l2 :
    writers w = l1 ++ Full row :: l2 →
    wstep w (set_writer w (tail (chan w)) 0 0 (l1 ++ Retry row :: l2))
| w_resend l1 row l2 :
    writers w = l1 ++ Retry row :: l2 → (length (chan w) < chanCap)%nat →
    wstep w (set_writer w (chan w ++ [row]) 0 1 (l1 ++ Done :: l2))
| w_give_up l1 row l2 :
    writers w = l1 ++ Retry row :: l2 → (chanCap ≤ length (chan w))%nat →
    wstep w (set_writer w (chan w) 1 0 (l1 ++ Done :: l2))
| w_receive row rest inserted :
    chan w = row :: rest → wstep w (receive w row rest inserted)
| w_tick inserted : batch w ≠ [] → wstep w (flush w inserted).

Definition wreach (max : Z) (rows : list QueryLogRow) (w : QueryLogWriter) : Prop :=
  rtc wstep (NewQueryLogWriter max rows) w.

(** ** The audit chain *)

(** A row of [audit_logs]; a NULL column is [None]. *)
Record AuditRec := {
  ad_id : Z; ad_ts : Time; ad_actor_id : option string; ad_actor_name : option string; ad_action : option string;
  ad_target : option string; ad_detail : option string; ad_client_ip : option string;
  ad_prev_hash : option string; ad_entry_hash : option string; ad_verifier : option string
}.
Definition nullStr (s : string) : option string := if (s =? "")%string then None else Some s.

Definition auditText (prevHash ts actorID actorName action target detail clientIP verifier : string) : string :=
  (prevHash +:+ "|" +:+ ts +:+ "|" +:+ actorID +:+ "|" +:+ actorName +:+ "|" +:+ action +:+ "|" +:+ target +:+ "|"
   +:+ detail +:+ "|" +:+ clientIP +:+ "|" +:+ verifier)%string.
Definition auditHash (prevHash ts actorID actorName action target detail clientIP verifier : string) : string :=
  sha256_hex (auditText prevHash ts actorID actorName action target detail clientIP verifier).
Definition normalizeTS (s : string) : string := s.

(** What can go wrong in the transaction of [WriteAudit]. *)
Record AuditFaults := { begin_err : option string; select_err : option string; insert_err : option string; commit_err : option string }.

Section audit.
(** [t.Format("2006-01-02 15:04:05.000000")] of a UTC instant and MySQL's
    [DATE_FORMAT(ts, '%Y-%m-%d %H:%i:%s.%f')] of the stored column. *)
Context (Format DATE_FORMAT : Time → string).

Definition Truncate (t : Time) : Time := t - t mod millisecond.

Definition WriteAudit (table : list AuditRec) (faults : AuditFaults) (now : Time) (id : Z) (a : AuditRow)
    : list AuditRec * option string :=
  let ts := if a_TS a =? zeroTime then now else a_TS a in
  match begin_err faults, select_err faults with
  | Some e, _ => (table, Some e)
  | None, Some e => (table, Some e)
  | None, None =>
      let ph := default "" (last table ≫= ad_entry_hash) in
      let tsMs := Truncate ts in
      let verifier := "apid" in
      let eh := auditHash ph (Format tsMs) (a_ActorID a) (a_ActorName a) (a_Action a) (a_Target a) (a_Detail a) (a_ClientIP a) verifier in
      let row := {| ad_id := id; ad_ts := tsMs; ad_actor_id := nullStr (a_ActorID a); ad_actor_name := Some (a_ActorName a);
                    ad_action := Some (a_Action a); ad_target := Some (a_Target a); ad_detail := nullStr (a_Detail a);
                    ad_client_ip := nullStr (a_ClientIP a); ad_prev_hash := Some ph; ad_entry_hash := Some eh;
                    ad_verifier := Some verifier |} in
      match insert_err faults, commit_err faults with
      | Some e, _ => (table, Some e)
      | None, Some e => (table, Some e)
      | None, None => (table ++ [row], None)
      end
  end.

Abbreviation str := (default ""%string) (only parsing).
(** The text hashed for a stored row after the hash [prev]. *)
Definition row_text (prev : string) (r : AuditRec) : string :=
  auditText prev (normalizeTS (DATE_FORMAT (ad_ts r))) (str (ad_actor_id r)) (str (ad_actor_name r)) (str (ad_action r))
    (str (ad_target r)) (str (ad_detail r)) (str (ad_client_ip r)) (str (ad_verifier r)).
(** The loop over the rows; the result is the id of the first bad one. *)
Fixpoint verify_rows (prev : string) (started : bool) (rows : list AuditRec) : option Z :=
  match rows with
  | [] => None
  | r :: rows =>
      let eh := str (ad_entry_hash r) in
      if (eh =? "")%string then verify_rows prev started rows
      else
        let prev := if negb started && negb (str (ad_prev_hash r) =? "")%string then str (ad_prev_hash r) else prev in
        let calc := sha256_hex (row_text prev r) in
        if negb (calc =? eh)%string then Some (ad_id r) else verify_rows eh true rows
  end.
(** The table is in the order of its ids. *)
Definition VerifyAuditChain (table : list AuditRec) (limit : Z) : bool * Z :=
  let limit := if (limit <=? 0) || (100000 <? limit) then 10000 else limit in
  match verify_rows "" false (take (Z.to_nat limit) table) with
  | Some id => (false, id)
  | None => (true, -1)
  end.
End audit.

(** ** Lemmas *)

(** The text a LIKE pattern without wildcards stands for: a backslash makes
    the next byte literal. *)
Fixpoint literal_of (p : string) : option string :=
  match p with
  | EmptyString => Some EmptyString
  | String c p =>
      if byte_of c =? byte_of "\" then
        match p with
        | EmptyString => None
        | String d p => String d <$> literal_of p
        end
      else if (byte_of c =? byte_of "%") || (byte_of c =? byte_of "_") then None
      else String c <$> literal_of p
  end.
Lemma replace_byte_app s t old new : replace_byte (s +:+ t) old new = (replace_byte s old new +:+ replace_byte t old new)%string.
Proof.
  induction s as [|c s IH]; [done|]. cbn. destruct (byte_of c =? byte_of old); rewrite IH; [|done]. by rewrite append_assoc_str.
Qed.
Lemma escapeLike_cons c s : escapeLike (String c s) = (escapeLike (String c "") +:+ escapeLike s)%string.
Proof. change (String c s) with (String c "" +:+ s)%string. unfold escapeLike. by rewrite !replace_byte_app. Qed.
Lemma literal_of_escape c t : literal_of (escapeLike (String c "") +:+ t) = String c <$> literal_of t.
Proof. destruct c as [[] [] [] [] [] [] [] []]; reflexivity. Qed.

(** *** The writer *)

Definition is_done (p : wpc) : bool := match p with Done => true | _ => false end.
Definition is_full (p : wpc) : bool := match p with Full _ => true | _ => false end.
Definition count (f : wpc → bool) (l : list wpc) : Z := Z.of_nat (length (filter (λ p, f p = true) l)).
Lemma count_mid f l1 p l2 : count f (l1 ++ p :: l2) = count f l1 + (if f p then 1 else 0) + count f l2.
Proof.
  unfold count. rewrite filter_app, length_app. destruct (f p) eqn:Hf.
  - rewrite filter_cons_True by done. cbn. lia.
  - rewrite filter_cons_False by (by rewrite Hf). cbn. lia.
Qed.
Lemma count_nonneg f l : 0 ≤ count f l.
Proof. unfold count. lia. Qed.

(** Every finished call is accounted for: its row is in the channel, in the
    batch or in the table, or the loss is counted. *)
Record winv (w : QueryLogWriter) : Prop := {
  wi_account : count is_done (writers w) + count is_full (writers w)
               ≤ Z.of_nat (length (chan w)) + Z.of_nat (length (batch w)) + Z.of_nat (length (query_logs w)) + dropped w;
  wi_cap : (length (chan w) ≤ chanCap)%nat;
  wi_flushed : flushed w = Z.of_nat (length (query_logs w));
}.
Lemma flush_winv w i : winv w → winv (flush w i).
Proof.
  intros [Ha Hc Hf]. unfold flush. cbv zeta. destruct (_ =? 0) eqn:Hn; [by split|]. zbool.
  destruct i; split; cbn; rewrite ?length_app; lia.
Qed.
Lemma wstep_winv w w' : winv w → wstep w w' → winv w'.
Proof.
  intros [Ha Hc Hf] Hs. assert (∀ f, 0 ≤ count f (writers w)) as Hpos by (intros; apply count_nonneg).
  inversion Hs as [l1 row l2 now Hw Hl|l1 row l2 now Hw Hl|l1 row l2 Hw|l1 row l2 Hw Hl|l1 row l2 Hw Hl|row rest i Hch|i Hb]; subst.
  1-5: rewrite Hw, !count_mid in Ha; cbn [is_done is_full] in Ha; split; cbn; rewrite ?count_mid, ?length_app; cbn [is_done is_full length]; try lia.
  1, 2: destruct (chan w); cbn in *; lia.
  - unfold receive. set (w1 := Build_QueryLogWriter _ _ _ _ _ _ _ _).
    assert (winv w1) as Hw1 by (rewrite Hch in *; split; cbn in *; rewrite ?length_app; cbn; lia).
    cbv zeta. destruct (_ <=? _); [by apply flush_winv|done].
  - by apply flush_winv.
Qed.
Lemma count_start f rows : (∀ r, f (Start r) = false) → count f (Start <$> rows) = 0.
Proof.
  intros Hs. unfold count. induction rows as [|r rows IH]; [done|]. by rewrite fmap_cons, filter_cons_False by (by rewrite Hs).
Qed.
Lemma wreach_winv max rows w : wreach max rows w → winv w.
Proof.
  intros Hr. unfold wreach in Hr. remember (NewQueryLogWriter max rows) as w0 eqn:H0. assert (winv w0) as Hinv.
  { subst. split; cbn; [|unfold chanCap; lia|done]. rewrite !count_start by done. lia. }
  clear H0. induction Hr as [w|w1 w2 w3 Hs _ IH]; [done|]. eauto using wstep_winv.
Qed.

(** Steps left to a caller of [Write]. *)
Definition rank (p : wpc) : nat := match p with Start _ => 3 | Full _ => 2 | Retry _ => 1 | Done => 0 end.

(** *** The audit chain *)

(** The database prints a millisecond instant the way Go does. *)
Class SameText (Format DATE_FORMAT : Time → string) : Prop :=
  same_text : ∀ t, t mod millisecond = 0 → DATE_FORMAT t = Format t.

Section chain.
Context (DATE_FORMAT : Time → string).

(** Rows that continue the chain after the hash [prev]. *)
Fixpoint chain_from (prev : string) (rows : list AuditRec) : Prop :=
  match rows with
  | [] => True
  | r :: rows =>
      ad_prev_hash r = Some prev ∧ ad_entry_hash r = Some (sha256_hex (row_text DATE_FORMAT prev r)) ∧
      chain_from (sha256_hex (row_text DATE_FORMAT prev r)) rows
  end.
(** The hash a chain ends with. *)
Definition chain_end (prev : string) (rows : list AuditRec) : string :=
  match last rows with Some r => default "" (ad_entry_hash r) | None => prev end.

Lemma chain_end_cons prev r rows h : ad_entry_hash r = Some h → chain_end prev (r :: rows) = chain_end h rows.
Proof. intros Hh. unfold chain_end. destruct rows as [|r' rows]; [cbn; by rewrite Hh|rewrite last_cons_cons; destruct (last (r' :: rows)) eqn:E; [done|by apply last_None in E]]. Qed.
Lemma chain_from_app prev l1 l2 :
  chain_from prev (l1 ++ l2) ↔ chain_from prev l1 ∧ chain_from (chain_end prev l1) l2.
Proof.
  revert prev. induction l1 as [|r l1 IH]; intros prev; cbn [app chain_from]; [by unfold chain_end; naive_solver|].
  split.
  - intros (Hp & He & [H1 H2]%IH). rewrite (chain_end_cons _ _ _ _ He). naive_solver.
  - intros [(Hp & He & H1) H2]. rewrite (chain_end_cons _ _ _ _ He) in H2. rewrite IH. naive_solver.
Qed.

(** Verification accepts a chain wherever it starts. *)
Lemma verify_chain_started prev rows : chain_from prev rows → verify_rows DATE_FORMAT prev true rows = None.
Proof.
  revert prev. induction rows as [|r rows IH]; intros prev; [done|]. intros (_ & He & Hc). cbn [verify_rows]. rewrite He.
  unfold default. cbn [from_option id negb andb]. rewrite (proj2 (String.eqb_neq _ _) (sha256_hex_ne _)), String.eqb_refl. by apply IH.
Qed.
Lemma verify_chain prev rows : chain_from prev rows → verify_rows DATE_FORMAT "" false rows = None.
Proof.
  destruct rows as [|r rows]; [done|]. intros (Hp & He & Hc). cbn [verify_rows]. rewrite He, Hp.
  unfold default. cbn [from_option id negb andb]. rewrite (proj2 (String.eqb_neq _ _) (sha256_hex_ne _)).
  assert ((if negb (prev =? "")%string then prev else "") = prev) as ->.
  { destruct (String.eqb_spec prev ""); [by subst|done]. }
  rewrite String.eqb_refl. by apply verify_chain_started.
Qed.
Lemma VerifyAuditChain_chain prev rows limit : chain_from prev rows → VerifyAuditChain DATE_FORMAT rows limit = (true, -1).
Proof.
  intros Hc. unfold VerifyAuditChain. set (n := Z.to_nat _). rewrite (verify_chain prev); [done|].
  rewrite <-(take_drop n rows) in Hc. by apply chain_from_app in Hc as [? _].
Qed.
(** The recorded content of a row, as the strings that are hashed. *)
Definition row_fields (r : AuditRec) : list string :=
  [normalizeTS (DATE_FORMAT (ad_ts r)); default "" (ad_actor_id r); default "" (ad_actor_name r); default "" (ad_action r);
   default "" (ad_target r); default "" (ad_detail r); default "" (ad_client_ip r); default "" (ad_verifier r)].
(** No field contains the separator. *)
Definition barless (r : AuditRec) : Prop :=
  no_byte "|" (default "" (ad_prev_hash r)) = true ∧ Forall (λ s, no_byte "|" s = true) (row_fields r).

Lemma row_text_fields prev r : row_text DATE_FORMAT prev r = (prev +:+ String "|" (Join (row_fields r) "|"))%string.
Proof. done. Qed.
Lemma row_text_inj prev r r' : barless r → barless r' → row_text DATE_FORMAT prev r = row_text DATE_FORMAT prev r' → row_fields r = row_fields r'.
Proof.
  intros [_ Hb] [_ Hb']. rewrite !row_text_fields. intros Heq%append_inj_l.
  assert (Join (row_fields r) "|" = Join (row_fields r') "|") as Hj by congruence.
  apply (f_equal (λ s, Split s "|")) in Hj. cbv beta in Hj. by rewrite !Split_Join in Hj.
Qed.
Lemma row_text_inj_prev prev prev' r r' :
  no_byte "|" prev = true → no_byte "|" prev' = true → barless r → barless r' →
  row_text DATE_FORMAT prev r = row_text DATE_FORMAT prev' r' → row_fields r = row_fields r'.
Proof.
  intros Hp Hp' [_ Hb] [_ Hb']. rewrite !row_text_fields. intros Heq.
  apply (f_equal (λ s, Split s "|")) in Heq. cbv beta in Heq. rewrite !Split_app, !Split_Join in Heq by done. congruence.
Qed.

(** The texts verification hashes, in order. *)
Fixpoint hashed (prev : string) (started : bool) (rows : list AuditRec) : list string :=
  match rows with
  | [] => []
  | r :: rows =>
      let eh := default "" (ad_entry_hash r) in
      if (eh =? "")%string then hashed prev started rows
      else
        let prev := if negb started && negb (default "" (ad_prev_hash r) =? "")%string then default "" (ad_prev_hash r) else prev in
        row_text DATE_FORMAT prev r :: hashed eh true rows
  end.
(** The hash tells these texts of two tables apart. *)
Definition no_collision (l l' : list string) : Prop :=
  Forall (λ x, Forall (λ y, sha256_hex x = sha256_hex y → x = y) l') l.
Lemma no_collision_cons x l y l' :
  no_collision (x :: l) (y :: l') → (sha256_hex x = sha256_hex y → x = y) ∧ no_collision l l'.
Proof.
  unfold no_collision. rewrite Forall_cons. intros [Hx Hl]. apply Forall_cons in Hx as [Hxy _]. split; [done|].
  eapply Forall_impl; [exact Hl|]. intros z Hz. by apply Forall_cons in Hz as [_ ?].
Qed.
Lemma tamper_started prev T T' :
  chain_from prev T → ad_entry_hash <$> T' = ad_entry_hash <$> T → Forall barless T → Forall barless T' →
  no_collision (hashed prev true T) (hashed prev true T') →
  verify_rows DATE_FORMAT prev true T' = None → row_fields <$> T' = row_fields <$> T.
Proof.
  revert prev T'. induction T as [|r T IH]; intros prev T' Hc Hh Hb Hb' Hcol Hv.
  { by apply fmap_nil_inv in Hh as ->. }
  destruct T' as [|r' T']; [done|]. destruct Hc as (_ & He & Hc). cbn in Hh. injection Hh as Hh Hh'.
  apply Forall_cons in Hb as [Hb Hbs], Hb' as [Hb' Hbs']. cbn [verify_rows] in Hv. cbn [hashed] in Hcol. rewrite Hh, He in Hv, Hcol.
  set (eh := sha256_hex (row_text DATE_FORMAT prev r)) in *. change (default "" (Some eh)) with eh in Hv, Hcol.
  cbv zeta in Hv, Hcol. cbn [negb andb] in Hv, Hcol. rewrite (proj2 (String.eqb_neq _ _) (sha256_hex_ne _ : eh ≠ "")) in Hv, Hcol.
  apply no_collision_cons in Hcol as [Hcr Hcol].
  destruct (String.eqb_spec (sha256_hex (row_text DATE_FORMAT prev r')) eh) as [Heq|]; [|done].
  cbn [negb] in Hv. cbn [fmap list_fmap]. f_equal.
  - symmetry. eapply row_text_inj; [done..|]. by apply Hcr.
  - by eapply IH.
Qed.
End chain.

Lemma nullStr_str s : default "" (nullStr s) = s.
Proof. unfold nullStr. by destruct (String.eqb_spec s ""). Qed.
Lemma WriteAudit_chain `{SameText Format DATE_FORMAT} T faults now id a :
  chain_from DATE_FORMAT "" T → chain_from DATE_FORMAT "" (WriteAudit Format T faults now id a).1.
Proof.
  intros Hc. unfold WriteAudit. cbv zeta. destruct (begin_err faults); [done|]. destruct (select_err faults); [done|].
  destruct (insert_err faults); [done|]. destruct (commit_err faults); [done|]. cbn [fst].
  apply chain_from_app. split; [done|].
  assert (default "" (last T ≫= ad_entry_hash) = chain_end "" T) as ->.
  { unfold chain_end. by destruct (last T). }
  cbn [chain_from]. split; [done|]. split; [|done]. cbn [ad_entry_hash]. f_equal. unfold auditHash, row_text. cbn [ad_ts ad_actor_id ad_actor_name ad_action ad_target ad_detail ad_client_ip ad_verifier].
  rewrite !nullStr_str. unfold normalizeTS. rewrite (@same_text Format DATE_FORMAT _); [done|]. unfold Truncate, millisecond. divlia.
Qed.

(** One call of [WriteAudit]: its faults, clock, id and entry. *)
Record AuditCall := { ac_faults : AuditFaults; ac_now : Time; ac_id : Z; ac_row : AuditRow }.
Definition run_audit (Format : Time → string) (T : list AuditRec) (calls : list AuditCall) : list AuditRec :=
  foldl (λ T c, (WriteAudit Format T (ac_faults c) (ac_now c) (ac_id c) (ac_row c)).1) T calls.
Lemma run_audit_chain `{SameText Format DATE_FORMAT} T calls :
  chain_from DATE_FORMAT "" T → chain_from DATE_FORMAT "" (run_audit Format T calls).
Proof. revert T. induction calls as [|c calls IH]; intros T Hc; [done|]. by apply IH, WriteAudit_chain. Qed.

(** ** Properties *)

(** Whatever sequence of audit entries is written, with any
    of the transactions failing at any point, verification reports the log
    intact, for every limit. *)
Theorem audit_chain_intact `{SameText Format DATE_FORMAT} calls limit :
  VerifyAuditChain DATE_FORMAT (run_audit Format [] calls) limit = (true, -1).
Proof. apply (VerifyAuditChain_chain _ ""), run_audit_chain. done. Qed.


(** Verification does not notice missing entries at either end:
    any contiguous part of a written log verifies as intact. *)
Theorem audit_truncation_undetected `{SameText Format DATE_FORMAT} calls from len limit :
  VerifyAuditChain DATE_FORMAT (take len (drop from (run_audit Format [] calls))) limit = (true, -1).
Proof.
  pose proof (run_audit_chain [] calls I) as Hc. set (T := run_audit Format [] calls) in *.
  rewrite <-(take_drop from T) in Hc. apply chain_from_app in Hc as [_ Hc].
  rewrite <-(take_drop len (drop from T)) in Hc. apply chain_from_app in Hc as [Hc _].
  by eapply VerifyAuditChain_chain.
Qed.

(** The separator is not escaped, so text can be moved between
    neighbouring fields without changing the entry hash. *)
Theorem auditHash_ambiguous prev ts actor name action a b c ip ver :
  auditHash prev ts actor name action (a +:+ "|" +:+ b) c ip ver = auditHash prev ts actor name action a (b +:+ "|" +:+ c) ip ver.
Proof. unfold auditHash, auditText. by rewrite !append_assoc_str. Qed.

(** C35: the query-log writer never loses rows silently: in every
    interleaving of callers, the flushing goroutine and failing inserts,
    each finished [Write] is accounted for by a row in the channel, the
    batch or the table, or by the drop counter; the channel never exceeds
    its capacity and the flush counter equals the rows stored. *)
Theorem writer_accounts max rows w :
  wreach max rows w →
  count is_done (writers w) ≤ Z.of_nat (length (chan w)) + Z.of_nat (length (batch w)) + Z.of_nat (length (query_logs w)) + dropped w ∧
  (length (chan w) ≤ chanCap)%nat ∧ flushed w = Z.of_nat (length (query_logs w)).
Proof. intros [Ha Hc Hf]%wreach_winv. pose proof (count_nonneg is_full (writers w)). split_and!; [lia|done|done]. Qed.

(** A caller of [Write] is never blocked: whatever the
    state of the channel and the database, it can take its next step, and
    after at most three it is done. *)
Theorem writer_never_blocks w l1 p l2 :
  writers w = l1 ++ p :: l2 → p ≠ Done →
  ∃ w' p', wstep w w' ∧ writers w' = l1 ++ p' :: l2 ∧ (rank p' < rank p ≤ 3)%nat.
Proof.
  intros Hw Hp. destruct p as [row|row|row|]; [| | |done].
  - destruct (decide (length (chan w) < chanCap)%nat) as [Hl|Hl].
    + eexists _, _. split; [by eapply (w_send w l1 row l2 0)|]. split; [done|cbn; lia].
    + eexists _, _. split; [by eapply (w_full w l1 row l2 0); [|lia]|]. split; [done|cbn; lia].
  - eexists _, _. split; [by eapply w_make_room|]. split; [done|cbn; lia].
  - destruct (decide (length (chan w) < chanCap)%nat) as [Hl|Hl].
    + eexists _, _. split; [by eapply w_resend|]. split; [done|cbn; lia].
    + eexists _, _. split; [by eapply w_give_up; [|lia]|]. split; [done|cbn; lia].
Qed.

(** The pattern of a name search has no wildcard of the user's: the
    escaped text stands for exactly the text searched for. *)
Theorem escapeLike_literal s : literal_of (escapeLike s) = Some s.
Proof.
  induction s as [|c s IH]; [done|]. by rewrite escapeLike_cons, literal_of_escape, IH.
Qed.

(** The statements of a log search contain no user text: they depend
    only on which filters are set, and each has one placeholder per bound
    argument. *)
Theorem QueryLogs_bound f limit offset countCap :
  let '(count, page) := QueryLogs_sql f limit offset countCap in
  Z.of_nat (length count.2) = CountByte count.1 "?" ∧ Z.of_nat (length page.2) = CountByte page.1 "?" ∧
  ∀ f' limit' offset' countCap',
    bool_decide (f_tenantID f = "") = bool_decide (f_tenantID f' = "") → bool_decide (f_qname f = "") = bool_decide (f_qname f' = "") →
    bool_decide (f_qtype f = "") = bool_decide (f_qtype f' = "") → bool_decide (f_from f = "") = bool_decide (f_from f' = "") →
    bool_decide (f_to f = "") = bool_decide (f_to f' = "") →
    let '(count', page') := QueryLogs_sql f' limit' offset' countCap' in count'.1 = count.1 ∧ page'.1 = page.1.
Proof.
  assert (∀ v cl b, filter_part v cl b = if bool_decide (v = "") then ([], []) else ([cl], [b])) as Hp.
  { intros v cl b. unfold filter_part. destruct (String.eqb_spec v ""); case_bool_decide; done. }
  unfold QueryLogs_sql, filter_parts. rewrite !Hp. cbv zeta.
  destruct (bool_decide (f_tenantID f = "")), (bool_decide (f_qname f = "")), (bool_decide (f_qtype f = "")),
    (bool_decide (f_from f = "")), (bool_decide (f_to f = "")); (split; [reflexivity|]; split; [reflexivity|]);
    intros f' limit' offset' countCap' H1 H2 H3 H4 H5; rewrite !Hp, <-H1, <-H2, <-H3, <-H4, <-H5; done.
Qed.

(** ** Witnesses *)

#[global] Instance pretty_same_text : SameText fmt_d fmt_d.
Proof. by intros t _. Qed.
Definition no_faults : AuditFaults := {| begin_err := None; select_err := None; insert_err := None; commit_err := None |}.
Definition demo_call (faults : AuditFaults) (id : Z) (action target : string) : AuditCall :=
  {| ac_faults := faults; ac_now := id * second; ac_id := id;
     ac_row := {| a_TS := zeroTime; a_ActorID := "u1"; a_ActorName := "alice"; a_Action := action; a_Target := target; a_Detail := "";
                  a_ClientIP := "192.0.2.1"; a_PrevHash := ""; a_EntryHash := ""; a_Verifier := "" |} |}.
Definition demo_calls : list AuditCall :=
  [demo_call no_faults 1 "tenant.create" "t1";
   demo_call {| begin_err := None; select_err := None; insert_err := None; commit_err := Some "deadlock" |} 2 "tenant.update" "t1";
   demo_call no_faults 3 "cache.purge" "dns:cache:t1"].
Definition demo_log : list AuditRec := run_audit fmt_d [] demo_calls.

Lemma audit_chain_intact_witness : length demo_log = 2%nat ∧ VerifyAuditChain fmt_d demo_log 100 = (true, -1).
Proof. split; [vm_compute; reflexivity|]. apply (@audit_chain_intact fmt_d fmt_d pretty_same_text demo_calls). Defined.
(** The log after a restore that renumbered its rows. *)
Definition demo_restored : list AuditRec :=
  (λ r, {| ad_id := ad_id r + 10; ad_ts := ad_ts r; ad_actor_id := ad_actor_id r; ad_actor_name := ad_actor_name r; ad_action := ad_action r;
           ad_target := ad_target r; ad_detail := Some ""; ad_client_ip := ad_client_ip r; ad_prev_hash := ad_prev_hash r;
           ad_entry_hash := ad_entry_hash r; ad_verifier := ad_verifier r |}) <$> demo_log.
Lemma audit_truncation_undetected_witness :
  VerifyAuditChain fmt_d (take 1 (drop 1 demo_log)) 100 = (true, -1) ∧ length (take 1 (drop 1 demo_log)) = 1%nat.
Proof. split; [|vm_compute; reflexivity]. apply (@audit_truncation_undetected fmt_d fmt_d pretty_same_text demo_calls). Defined.

Definition demo_row (name : string) : QueryLogRow :=
  {| ql_TS := 0; ql_TenantID := "t1"; ql_ClientIP := "192.0.2.1"; ql_ECS := ""; ql_QName := name; ql_QType := "A"; ql_RCode := "NOERROR";
     ql_CacheHit := false; ql_UpstreamGrp := "g1"; ql_Upstream := "u"; ql_RTTMS := 3; ql_DNSSECOK := false; ql_VIP := false; ql_Via := "udp" |}.
(** Two writes, one row received and its insert failing at batch size 1. *)
Definition demo_writer : QueryLogWriter :=
  {| chan := [demo_row "b"]; batch := []; batchMax := 1; dropped := 1; flushed := 0; queued := 2; writers := [Done; Done]; query_logs := [] |}.
Lemma demo_writer_reach : wreach 1 [demo_row "a"; demo_row "b"] demo_writer.
Proof.
  eapply rtc_l; [eapply (w_send _ [] (demo_row "a") [Start (demo_row "b")] 7); [done|cbn; unfold chanCap; lia]|].
  eapply rtc_l; [eapply (w_send _ [Done] (demo_row "b") [] 8); [done|cbn; unfold chanCap; lia]|].
  eapply rtc_l; [eapply (w_receive _ (demo_row "a") [demo_row "b"] false); done|]. apply rtc_refl.
Qed.
Lemma writer_accounts_witness :
  count is_done (writers demo_writer) ≤ Z.of_nat (length (chan demo_writer)) + Z.of_nat (length (batch demo_writer))
    + Z.of_nat (length (query_logs demo_writer)) + dropped demo_writer ∧
  (length (chan demo_writer) ≤ chanCap)%nat ∧ flushed demo_writer = Z.of_nat (length (query_logs demo_writer)).
Proof. exact (writer_accounts 1 [demo_row "a"; demo_row "b"] demo_writer demo_writer_reach). Defined.
Lemma writer_never_blocks_witness :
  ∃ w' p', wstep (NewQueryLogWriter 10 [demo_row "a"]) w' ∧ writers w' = [] ++ p' :: [] ∧ (rank p' < rank (Start (demo_row "a")) ≤ 3)%nat.
Proof. apply (writer_never_blocks (NewQueryLogWriter 10 [demo_row "a"]) [] (Start (demo_row "a")) []); [reflexivity|discriminate]. Defined.
