(* ===== verification/Backfill.v ===== *)
(** * Repair of the audit chain (src/cmd/backfill-audit-hash/main.go)

    The offline tool that recomputes the hashes of the audit table in the
    order of its ids, or, with [VERIFY_ONLY], reports the first entry whose
    hash is not the recomputed one. A failing statement ends the tool with a
    panic; the rows updated so far stay. *)

From S2P Require Import Prelude GoStrings Model Sha256 QueryLog.

Section backfill.
Context (DATE_FORMAT : Time → string).

(** The hash the tool computes for a row. *)
Definition rehash (prev : string) (r : AuditRec) : string :=
  auditHash prev (DATE_FORMAT (ad_ts r)) (default "" (ad_actor_id r)) (default "" (ad_actor_name r)) (default "" (ad_action r))
    (default "" (ad_target r)) (default "" (ad_detail r)) (default "" (ad_client_ip r)) "apid".
Definition set_hashes (prev eh : string) (r : AuditRec) : AuditRec :=
  {| ad_id := ad_id r; ad_ts := ad_ts r; ad_actor_id := ad_actor_id r; ad_actor_name := ad_actor_name r; ad_action := ad_action r;
     ad_target := ad_target r; ad_detail := ad_detail r; ad_client_ip := ad_client_ip r; ad_prev_hash := Some prev;
     ad_entry_hash := Some eh; ad_verifier := Some "apid"%string |}.
(** The updates, row by row; [faults] are the outcomes of the statements. *)
Fixpoint recompute (prev : string) (faults : list (option string)) (rows : list AuditRec) : outcome unit * list AuditRec :=
  match rows with
  | [] => (Ok (), [])
  | r :: rows =>
      let eh := rehash prev r in
      match head faults with
      | Some (Some _) => (Panic, r :: rows)
      | _ => let '(o, rows) := recompute eh (tail faults) rows in (o, set_hashes prev eh r :: rows)
      end
  end.
(** The first entry whose stored hash is missing or different. *)
Fixpoint check_only (prev : string) (rows : list AuditRec) : option Z :=
  match rows with
  | [] => None
  | r :: rows =>
      let eh := rehash prev r in
      match ad_entry_hash r with
      | Some h => if (h =? eh)%string then check_only eh rows else Some (ad_id r)
      | None => Some (ad_id r)
      end
  end.
(** The tool: what it prints at the end, and the table it leaves. Scanning
    an entry without an action into a string fails. *)
Inductive Report := CHAIN_OK | CHAIN_BROKEN (id : Z) | done_.
Definition backfill_main (verifyOnly : bool) (faults : list (option string)) (table : list AuditRec) : outcome Report * list AuditRec :=
  if existsb (λ r, negb (bool_decide (is_Some (ad_action r)))) table then (Panic, table)
  else if verifyOnly then
    (Ok (match check_only "" table with Some id => CHAIN_BROKEN id | None => CHAIN_OK end), table)
  else match recompute "" faults table with
       | (Ok _, table) => (Ok done_, table)
       | (Err e, table) => (Err e, table)
       | (Panic, table) => (Panic, table)
       end.

(** ** Lemmas *)

(** What an entry records, its hashes and verifier apart. *)
Definition record_of (r : AuditRec) :=
  (ad_id r, ad_ts r, ad_actor_id r, ad_actor_name r, ad_action r, ad_target r, ad_detail r, ad_client_ip r).
Lemma rehash_set prev p eh r : rehash prev (set_hashes p eh r) = rehash prev r.
Proof. done. Qed.
Lemma recompute_chain prev faults rows rows' :
  recompute prev faults rows = (Ok (), rows') →
  chain_from DATE_FORMAT prev rows' ∧ check_only prev rows' = None ∧ record_of <$> rows' = record_of <$> rows.
Proof.
  revert prev faults rows'. induction rows as [|r rows IH]; intros prev faults rows'; cbn [recompute].
  { by intros [= <-]. }
  destruct (head faults) as [[e|]|]; [done| |]; destruct (recompute (rehash prev r) (tail faults) rows) as [o rest] eqn:E;
    intros [= -> <-]; destruct (IH _ _ _ E) as (Hc & Hk & Hr); cbn [chain_from check_only ad_prev_hash ad_entry_hash set_hashes];
    rewrite rehash_set, String.eqb_refl; (split_and!; [done|done|exact Hc|done|]); rewrite !fmap_cons; by f_equal.
Qed.
Lemma check_only_chain prev rows :
  Forall (λ r, ad_verifier r = Some "apid"%string) rows → check_only prev rows = None →
  verify_rows DATE_FORMAT prev true rows = None.
Proof.
  revert prev. induction rows as [|r rows IH]; intros prev Hv; [done|]. inversion_clear Hv as [|?? Hr Hrs]. cbn [check_only verify_rows].
  destruct (ad_entry_hash r) as [h|]; [|done]. destruct (String.eqb_spec h (rehash prev r)) as [->|]; [|done].
  intros Hc. unfold default. cbn [from_option id]. unfold rehash, auditHash at 1.
  rewrite (proj2 (String.eqb_neq _ _) (sha256_hex_ne _)). cbn [negb andb].
  assert (sha256_hex (row_text DATE_FORMAT prev r) = rehash prev r) as -> by (unfold row_text, rehash, auditHash; by rewrite Hr).
  rewrite String.eqb_refl. cbn [negb]. by apply IH.
Qed.

(** ** Properties *)

(** A completed run of the tool leaves a log that verifies: with the
    API's check at every limit and with the tool's own; what the entries
    record is unchanged, so whatever was edited before is accepted. *)
Theorem backfill_repairs faults table table' :
  backfill_main false faults table = (Ok done_, table') →
  (∀ limit, VerifyAuditChain DATE_FORMAT table' limit = (true, -1)) ∧
  backfill_main true [] table' = (Ok CHAIN_OK, table') ∧ record_of <$> table' = record_of <$> table.
Proof.
  unfold backfill_main. destruct (existsb _ table) eqn:Ha; [done|]. destruct (recompute "" faults table) as [[[]|e|] t] eqn:E; [|done..].
  intros [= <-]. destruct (recompute_chain _ _ _ _ E) as (Hc & Hk & Hr). split_and!; [|rewrite Hk|done].
  - intros limit. by eapply VerifyAuditChain_chain.
  - assert (∀ l l', record_of <$> l' = record_of <$> l →
      existsb (λ r, negb (bool_decide (is_Some (ad_action r)))) l' = existsb (λ r, negb (bool_decide (is_Some (ad_action r)))) l) as Hex.
    { induction l as [|x l IH]; intros [|y l']; [done|done|done|]. rewrite !fmap_cons. intros [= _ _ _ _ Hact _ _ _ Hl]. cbn [existsb].
      by rewrite (IH l' Hl), Hact. }
    by rewrite (Hex table t Hr), Ha.
Qed.
(** A log the tool accepts is one the API accepts, when the entries name
    the verifier "apid" and the first one has no predecessor. *)
Lemma check_only_take n prev rows : check_only prev rows = None → check_only prev (take n rows) = None.
Proof.
  revert n prev. induction rows as [|r rows IH]; intros [|n] prev; [done..|]. cbn [check_only take].
  destruct (ad_entry_hash r); [|done]. destruct (_ =? _)%string; [apply IH|done].
Qed.
Theorem check_only_agrees table limit :
  Forall (λ r, ad_verifier r = Some "apid"%string) table → (∀ r, head table = Some r → default ""%string (ad_prev_hash r) = ""%string) →
  check_only "" table = None → VerifyAuditChain DATE_FORMAT table limit = (true, -1).
Proof.
  intros Hv Hp Hc. unfold VerifyAuditChain. set (n := Z.to_nat _).
  assert (verify_rows DATE_FORMAT "" false (take n table) = verify_rows DATE_FORMAT "" true (take n table)) as ->.
  { destruct n as [|n], table as [|r rows]; try done. cbn [take verify_rows check_only] in *.
    specialize (Hp r eq_refl). cbv zeta. rewrite Hp. cbn [negb andb String.eqb].
    destruct (ad_entry_hash r) as [x|]; [|done]. cbn [default from_option id].
    destruct (String.eqb_spec x "") as [->|]; [|done]. exfalso. revert Hc.
    unfold rehash, auditHash. by rewrite (proj2 (String.eqb_neq _ _) (not_eq_sym (sha256_hex_ne _))). }
  by rewrite check_only_chain by eauto using Forall_take, check_only_take.
Qed.
(** An interrupted run leaves a prefix of new hashes and the old rest. *)
Theorem backfill_interrupted prev faults rows rows' :
  recompute prev faults rows = (Panic, rows') →
  ∃ n, (n < length rows)%nat ∧ chain_from DATE_FORMAT prev (take n rows') ∧ drop n rows' = drop n rows.
Proof.
  revert prev faults rows'. induction rows as [|r rows IH]; intros prev faults rows'; cbn [recompute]; [done|].
  assert (∀ o rest, recompute (rehash prev r) (tail faults) rows = (o, rest) → (o, set_hashes prev (rehash prev r) r :: rest) = (Panic, rows') →
    ∃ n, (n < length (r :: rows))%nat ∧ chain_from DATE_FORMAT prev (take n rows') ∧ drop n rows' = drop n (r :: rows)) as Hgo.
  { intros o rest E [= -> <-]. destruct (IH _ _ _ E) as (n & Hn & Hc & Hd). exists (S n). split_and!; [simpl; lia| |done].
    cbn [take chain_from ad_prev_hash ad_entry_hash set_hashes]. split_and!; [done|done|exact Hc]. }
  destruct (head faults) as [[e|]|].
  - intros [= <-]. exists O. split_and!; [simpl; lia|done|done].
  - destruct (recompute _ _ rows) as [o rest] eqn:E. by apply Hgo.
  - destruct (recompute _ _ rows) as [o rest] eqn:E. by apply Hgo.
Qed.
End backfill.
