(* ===== verification/Sql.v ===== *)
(** * The MySQL store (src/internal/store/mysql.go)

    [ApplySchema] and its statement splitter: [splitStatements] scans the
    runes of the schema text and cuts it at the semicolons outside quotes.
    The server that executes a statement is the parameter [exec]. *)

From S2P Require Import Prelude GoStrings.

(** ** The splitter *)

Definition is_blank (b : Z) : bool := (b =? 32) || (b =? 10) || (b =? 13) || (b =? 9).
(** The two index loops move inwards over the blanks. *)
Definition trimSpace (s : string) : string :=
  string_of_bytes (reverse (drop_while is_blank (reverse (drop_while is_blank (bytes_of s))))).
Definition truncate (s : string) (n : nat) : string :=
  if Nat.leb (len s) n then s else take_str n s.

(** [string(cur)] for a slice of runes. *)
Definition string_of_runes (l : list Z) : string := concat_str (encode_rune <$> l).
Definition is_quote (r : Z) : bool := (r =? 39) || (r =? 34) || (r =? 96).
(** [if s != "" { out = append(out, s) }] on the current statement. *)
Definition emit (cur : list Z) : list string :=
  let s := trimSpace (string_of_runes cur) in
  if (s =? "")%string then [] else [s].
Fixpoint split_loop (inStr : Z) (cur rs : list Z) : list string :=
  match rs with
  | [] => emit cur
  | r :: rs =>
      if negb (inStr =? 0) then split_loop (if r =? inStr then 0 else inStr) (cur ++ [r]) rs
      else if is_quote r then split_loop r (cur ++ [r]) rs
      else if r =? 59 then emit cur ++ split_loop 0 [] rs
      else split_loop 0 (cur ++ [r]) rs
  end.
Definition splitStatements (sqlText : string) : list string := split_loop 0 [] (runes sqlText).

(** ** Applying a schema *)

Section apply.
(** One statement executed by the server: the new state and the error. *)
Context {S : Type} (exec : S → string → S * option string).

Fixpoint exec_all (s : S) (stmts : list string) : S * option string :=
  match stmts with
  | [] => (s, None)
  | st :: stmts =>
      match exec s st with
      | (s, Some e) => (s, Some ("schema exec failed for " +:+ fmt_q (truncate st 60) +:+ "...: " +:+ e)%string)
      | (s, None) => exec_all s stmts
      end
  end.
Definition ApplySchema (s : S) (sqlText : string) : S * option string :=
  exec_all s (splitStatements sqlText).
End apply.

(** ** Lemmas *)

(** The quoting automaton: the state after the runes [rs], [None] once a
    semicolon outside quotes has been met. *)
Fixpoint quote_state (inStr : Z) (rs : list Z) : option Z :=
  match rs with
  | [] => Some inStr
  | r :: rs =>
      if negb (inStr =? 0) then quote_state (if r =? inStr then 0 else inStr) rs
      else if is_quote r then quote_state r rs
      else if r =? 59 then None
      else quote_state 0 rs
  end.
(** A statement the splitter keeps whole: quotes closed, no semicolon
    outside them, no blank at its ends, not empty. *)
Definition is_statement (s : string) : bool :=
  is_ascii_string s && bool_decide (quote_state 0 (bytes_of s) = Some 0)
  && (trimSpace s =? s)%string && negb (s =? "")%string.
Definition is_blanks (s : string) : bool := forallb is_blank (bytes_of s).

Lemma drop_while_app {A} (p : A → bool) l1 l2 :
  forallb p l1 = true → drop_while p (l1 ++ l2) = drop_while p l2.
Proof. induction l1 as [|x l1 IH]; [done|]. simpl. intros [-> ?]%andb_true_iff. auto. Qed.
Lemma trimSpace_blanks w s : is_blanks w = true → trimSpace (w +:+ s) = trimSpace s.
Proof. intros Hw. unfold trimSpace. by rewrite bytes_of_app, drop_while_app. Qed.

Lemma string_of_runes_ascii s : is_ascii_string s = true → string_of_runes (bytes_of s) = s.
Proof.
  induction s as [|c s IH]; [done|]. rewrite is_ascii_cons, andb_true_iff. intros [Hc Hs].
  change (string_of_runes (bytes_of (String c s))) with (encode_rune (byte_of c) +:+ string_of_runes (bytes_of s))%string.
  rewrite IH by done. unfold encode_rune. rewrite Hc. simpl. by rewrite ascii_of_byte.
Qed.

(** The scan of one statement only moves its runes to [cur]. *)
Lemma split_loop_quotes rs : ∀ inStr st cur rest,
  quote_state inStr rs = Some st → split_loop inStr cur (rs ++ rest) = split_loop st (cur ++ rs) rest.
Proof.
  induction rs as [|r rs IH]; intros inStr st cur rest Hq.
  - simplify_eq/=. by rewrite app_nil_r.
  - simpl in *. repeat case_match; try done; erewrite IH by done; by rewrite <-app_assoc.
Qed.
Lemma split_loop_blanks w : ∀ cur rest,
  forallb is_blank w = true → split_loop 0 cur (w ++ rest) = split_loop 0 (cur ++ w) rest.
Proof.
  intros cur rest Hw. apply split_loop_quotes. induction w as [|b w IH]; [done|].
  simpl in *. apply andb_true_iff in Hw as [Hb Hw]. unfold is_blank, is_quote in *.
  repeat case_match; zbool; try lia; try auto. all: exfalso; destruct (Z.eqb_spec b 39), (Z.eqb_spec b 34), (Z.eqb_spec b 96), (Z.eqb_spec b 59); subst; done.
Qed.

(** The text of a schema: each statement with its terminator and the
    blanks after it. *)
Definition schema_text (l : list (string * string)) : string :=
  concat_str ((λ sw, (sw.1 +:+ ";" +:+ sw.2)%string) <$> l).

Lemma blanks_ascii w : is_blanks w = true → is_ascii_string w = true.
Proof.
  unfold is_blanks, is_ascii_string. rewrite !forallb_forall. intros Hw b Hb. specialize (Hw b Hb).
  unfold is_blank in Hw. rewrite !orb_true_iff, !Z.eqb_eq in Hw. apply Z.ltb_lt. lia.
Qed.
Definition layout_ok (l : list (string * string)) : bool :=
  forallb (λ sw, is_statement sw.1 && is_blanks sw.2) l.
Lemma layout_ok_cons s w l :
  layout_ok ((s, w) :: l) = true →
  is_ascii_string s = true ∧ quote_state 0 (bytes_of s) = Some 0 ∧ trimSpace s = s ∧ s ≠ ""%string ∧
  is_blanks w = true ∧ layout_ok l = true.
Proof.
  unfold layout_ok, is_statement. simpl. intros H. zbool. done.
Qed.
Lemma schema_text_ascii l : layout_ok l = true → is_ascii_string (schema_text l) = true.
Proof.
  induction l as [|[s w] l IH]; [done|]. intros (Hs & _ & _ & _ & Hw & Hl)%layout_ok_cons.
  change (schema_text ((s, w) :: l)) with ((s +:+ ";" +:+ w) +:+ schema_text l)%string.
  by rewrite !is_ascii_app, Hs, IH, (blanks_ascii w).
Qed.
Lemma split_layout l : ∀ w0,
  is_blanks w0 = true → layout_ok l = true →
  split_loop 0 (bytes_of w0) (bytes_of (schema_text l)) = l.*1.
Proof.
  induction l as [|[s w] l IH]; intros w0 Hw0.
  - intros _. change (bytes_of (schema_text [])) with (@nil Z). cbn [split_loop]. unfold emit.
    rewrite string_of_runes_ascii by (by apply blanks_ascii).
    rewrite <-(append_nil_r w0), trimSpace_blanks by done. done.
  - intros (Hs & Hq & Ht & Hne & Hw & Hl)%layout_ok_cons.
    change (schema_text ((s, w) :: l)) with ((s +:+ ";" +:+ w) +:+ schema_text l)%string.
    rewrite !bytes_of_app, <-!app_assoc. erewrite split_loop_quotes by done.
    change (bytes_of ";") with [59]. cbn [split_loop app]. simpl (is_quote 59). cbn [negb Z.eqb].
    rewrite (split_loop_blanks (bytes_of w)) by done. rewrite app_nil_l, IH by done.
    unfold emit. rewrite <-bytes_of_app, string_of_runes_ascii.
    + rewrite trimSpace_blanks, Ht by done. by destruct (String.eqb_spec s "").
    + by rewrite is_ascii_app, Hs, (blanks_ascii w0).
Qed.

(** ** Properties *)

(** A schema text written as statements, each ended by a semicolon
    and followed by blanks, is split back into exactly those statements, in
    order, whatever semicolons their quoted strings contain. *)
Theorem splitStatements_roundtrip l :
  layout_ok l = true → splitStatements (schema_text l) = l.*1.
Proof.
  intros Hl. unfold splitStatements. rewrite runes_ascii by (by apply schema_text_ascii).
  by apply (split_layout l "").
Qed.
Lemma splitStatements_roundtrip_witness :
  splitStatements (schema_text [("SET a = ';'", " "); ("INSERT INTO t VALUES (1)", "")])
  = ["SET a = ';'"; "INSERT INTO t VALUES (1)"].
Proof. rewrite splitStatements_roundtrip; reflexivity. Defined.

(** The splitter does not know comments: an apostrophe in a [--] comment
    opens a quote, and the statements up to the next apostrophe become one. *)
Definition newline : string := String (ascii_of 10) EmptyString.
Theorem splitStatements_comment_quote :
  let text := ("-- don't" +:+ newline +:+ "CREATE TABLE a (x INT); CREATE TABLE b (x INT);")%string in
  splitStatements text = [text].
Proof. vm_compute. reflexivity. Qed.

(** Applying a schema runs its statements in order and stops at the
    first that fails: the statements before it have been executed, none
    after it, and the result is an error exactly when one failed. *)
Theorem ApplySchema_stops {S} (exec : S → string → S * option string) s text s' r :
  ApplySchema exec s text = (s', r) →
  ∃ done_ rest, splitStatements text = done_ ++ rest ∧
    (match r with
     | None => rest = [] ∧ s' = foldl (λ s st, (exec s st).1) s done_
     | Some _ => ∃ st tl e, rest = st :: tl ∧
                 exec (foldl (λ s st, (exec s st).1) s done_) st = (s', Some e)
     end) ∧
    ∀ n st, done_ !! n = Some st → (exec (foldl (λ s st, (exec s st).1) s (take n done_)) st).2 = None.
Proof.
  unfold ApplySchema. generalize (splitStatements text). intros l. revert s.
  induction l as [|st l IH]; intros s; simpl.
  - intros [= <- <-]. exists [], []. repeat split; [done..|]. intros n st. by rewrite lookup_nil.
  - destruct (exec s st) as [s1 [e|]] eqn:He.
    + intros [= <- <-]. exists [], (st :: l). split; [done|]. split; [by exists st, l, e|].
      intros n st'. by rewrite lookup_nil.
    + intros (d & rest & -> & Hr & Hok)%IH. exists (st :: d), rest. split; [done|]. simpl. rewrite He. simpl.
      split; [done|]. intros [|n] st' Hn; simpl in *; [simplify_eq; by rewrite He|]. rewrite He. simpl. by apply Hok.
Qed.
Definition demo_exec (s : list string) (st : string) : list string * option string :=
  if (st =? "BAD")%string then (s, Some "syntax error") else (s ++ [st], None).
Lemma ApplySchema_stops_witness :
  ∃ done_ rest, splitStatements "A; BAD; C;" = done_ ++ rest ∧
    (∃ st tl e, rest = st :: tl ∧ demo_exec (foldl (λ s st, (demo_exec s st).1) [] done_) st = (["A"], Some e)) ∧
    ∀ n st, done_ !! n = Some st → (demo_exec (foldl (λ s st, (demo_exec s st).1) [] (take n done_)) st).2 = None.
Proof.
  apply (ApplySchema_stops demo_exec [] "A; BAD; C;" ["A"] (Some ("schema exec failed for " +:+ fmt_q "BAD" +:+ "...: syntax error")%string)).
  vm_compute. reflexivity.
Defined.
