(* ===== verification/Db.v ===== *)
(** * The metadata database (db/schema.sql and its migrations)

    The tables the repositories read and write, with the constraints of the
    schema: primary keys, unique columns, enumerations and foreign keys with
    ON DELETE CASCADE. Nullable columns are options. A statement that breaks
    a constraint fails and changes nothing. The collation of the server is
    the parameter [weight]: two strings are equal for SQL when their weights
    are, and ORDER BY compares weights. Column widths and integer ranges are
    not checked here: a statement may also fail for any other reason, which
    is the fault schedule of [World]. *)

From stdpp Require Import sorting.
From S2P Require Import Prelude GoStrings Config Model StoreCache RateLimit QueryLog.

(** ** Values *)

Class Collation := { weight : string → string }.
(** [DATETIME(3)] keeps milliseconds and rounds; [NOW()] has whole seconds;
    [CURRENT_TIMESTAMP(3)] milliseconds. *)
Definition dt3 (t : Time) : Time := (t + 500000) / millisecond * millisecond.
Definition NOW (now : Time) : Time := now / second * second.
Definition CURRENT_TIMESTAMP3 (now : Time) : Time := now / millisecond * millisecond.

Definition err_dup : string := "Error 1062 (23000): Duplicate entry".
Definition err_fk : string := "Error 1452 (23000): Cannot add or update a child row: a foreign key constraint fails".
Definition err_enum : string := "Error 1265 (01000): Data truncated for column".

(** [ORDER BY]; rows that compare equal keep their storage order. *)
Definition order_by {A} (le : A → A → bool) (l : list A) : list A := merge_sort (λ x y, Is_true (le x y)) l.
(** [UPDATE ... WHERE p] *)
Definition update_where {A} (p : A → bool) (f : A → A) (l : list A) : list A :=
  (λ r, if p r then f r else r) <$> l.
(** [DELETE ... WHERE p] *)
Definition delete_where {A} (p : A → bool) (l : list A) : list A := filter (λ r, p r = false) l.

(** ** Tables *)

Record UserRow := {
  ur_id : string; ur_tenant_id : option string; ur_username : string; ur_password_hash : string;
  ur_role : string; ur_email : option string; ur_failed_attempts : Z; ur_locked_until : option Time;
  ur_last_login : option Time; ur_must_change_pwd : bool; ur_pwd_changed_at : option Time; ur_created_at : Time
}.
Record HistRow := { ph_user_id : string; ph_password_hash : string; ph_created_at : Time }.
Record TenantRow := {
  tr_id : string; tr_name : string; tr_prefix : string; tr_base_domain : string; tr_enabled : bool;
  tr_vip : bool; tr_rate_limit_qps : Z; tr_cache_max_ttl : Z; tr_default_ecs : option string;
  tr_allow_ecs : bool; tr_dot_enabled : bool; tr_doh_enabled : bool; tr_doq_enabled : bool;
  tr_upstream_group : option string; tr_created_at : Time; tr_updated_at : Time
}.
Record DomainRow := {
  dr_id : string; dr_tenant_id : string; dr_domain : string; dr_enabled : Z; dr_cert_status : string;
  dr_cert_expiry : option Time; dr_cert_error : option string; dr_created_at : Time; dr_updated_at : Time
}.
Record GroupRow := {
  gr_id : string; gr_tenant_id : option string; gr_name : string; gr_strategy : string;
  gr_health_domain : option string; gr_created_at : Time
}.
Record UpstreamRow := {
  sr_id : string; sr_group_id : string; sr_name : string; sr_protocol : string; sr_address : string;
  sr_port : Z; sr_hostname : option string; sr_doh_path : option string; sr_weight : Z; sr_timeout_ms : Z;
  sr_tls_insecure : bool; sr_enabled : bool; sr_created_at : Time
}.
Record RuleRow := {
  rr_id : string; rr_tenant_id : option string; rr_name : string; rr_match_type : string;
  rr_match_value : string; rr_group_id : string; rr_priority : Z; rr_enabled : bool; rr_created_at : Time
}.
Record HotRow := {
  hr_id : string; hr_tenant_id : option string; hr_domain : string; hr_weight : Z; hr_enabled : bool
}.
Record BindingRow := {
  br_id : string; br_ipv6_subnet : string; br_ipv4 : string; br_isp : option string;
  br_region : option string; br_enabled : bool; br_created_at : Time
}.
#[global] Instance DomainRow_eq_dec : EqDecision DomainRow.
Proof. solve_decision. Defined.

Record DB := {
  users : list UserRow; password_history : list HistRow; tenants : list TenantRow;
  tenant_domains : list DomainRow; upstream_groups : list GroupRow; upstreams : list UpstreamRow;
  split_rules : list RuleRow; hot_domains : list HotRow; dualstack_bindings : list BindingRow
}.
Definition empty_db : DB :=
  {| users := []; password_history := []; tenants := []; tenant_domains := []; upstream_groups := [];
     upstreams := []; split_rules := []; hot_domains := []; dualstack_bindings := [] |}.
Definition set_users x d := let 'Build_DB a b c e f g h i j := d in Build_DB x b c e f g h i j.
Definition set_password_history x d := let 'Build_DB a b c e f g h i j := d in Build_DB a x c e f g h i j.
Definition set_tenants x d := let 'Build_DB a b c e f g h i j := d in Build_DB a b x e f g h i j.
Definition set_tenant_domains x d := let 'Build_DB a b c e f g h i j := d in Build_DB a b c x f g h i j.
Definition set_upstream_groups x d := let 'Build_DB a b c e f g h i j := d in Build_DB a b c e x g h i j.
Definition set_upstreams x d := let 'Build_DB a b c e f g h i j := d in Build_DB a b c e f x h i j.
Definition set_split_rules x d := let 'Build_DB a b c e f g h i j := d in Build_DB a b c e f g x i j.
Definition set_hot_domains x d := let 'Build_DB a b c e f g h i j := d in Build_DB a b c e f g h x j.

Definition role_values : list string := ["admin"; "sysadmin"; "secadmin"; "auditadmin"; "tenant"].
Definition strategy_values : list string := ["round_robin"; "weighted"; "failover"].
Definition protocol_values : list string := ["udp"; "tcp"; "dot"; "doh"; "doq"].
Definition match_values : list string := ["suffix"; "prefix"; "exact"; "regex"; "all"].
Definition cert_values : list string := ["none"; "issuing"; "active"; "renewing"; "error"].

(** The keys of a table and the references from one to another. *)
Abbreviation keys f t := ((λ r, weight (f r)) <$> t).
Abbreviation refers f t g p := (Forall (λ r, weight (f r) ∈ keys g p) t).
Abbreviation refers_null f t g p := (Forall (λ r, ∀ v, f r = Some v → weight v ∈ keys g p) t).

Section sql.
Context `{Collation}.

Definition ceq (a b : string) : bool := bool_decide (weight a = weight b).
Definition cle (a b : string) : bool := String.leb (weight a) (weight b).
(** [col = ?] on a nullable column. *)
Definition ceq_null (a : option string) (b : string) : bool := match a with Some a => ceq a b | None => false end.
(** The value an ENUM column stores: the member equal to the string, or
    the member with that index. *)
Definition enum_value (vals : list string) (v : string) : option string :=
  match first_match (ceq v) vals with
  | Some x => Some x
  | None => first_match (λ iv, (fmt_d (Z.of_nat iv.1 + 1) =? v)%string) (imap pair vals) ≫= λ iv, Some iv.2
  end.
(** A foreign key: NULL, or the identifier of a row of the parent. *)
Definition has_id {A} (id : A → string) (parents : list A) (v : string) : bool :=
  existsb (λ r, ceq (id r) v) parents.
Definition fk_ok {A} (id : A → string) (parents : list A) (v : option string) : bool :=
  match v with None => true | Some v => has_id id parents v end.

(** *** INSERT *)

(** The checks shared by the inserts: [dup] a key that exists already. *)
Definition guarded (dup fk : bool) (d : DB) : outcome DB :=
  if dup then Err err_dup else if fk then Ok d else Err err_fk.
Definition with_enum (vals : list string) (v : string) (k : string → outcome DB) : outcome DB :=
  match enum_value vals v with Some v => k v | None => Err err_enum end.

Definition set_ur_role (r : UserRow) (role : string) : UserRow :=
  {| ur_id := ur_id r; ur_tenant_id := ur_tenant_id r; ur_username := ur_username r;
     ur_password_hash := ur_password_hash r; ur_role := role; ur_email := ur_email r;
     ur_failed_attempts := ur_failed_attempts r; ur_locked_until := ur_locked_until r;
     ur_last_login := ur_last_login r; ur_must_change_pwd := ur_must_change_pwd r;
     ur_pwd_changed_at := ur_pwd_changed_at r; ur_created_at := ur_created_at r |}.
Definition insert_user (r : UserRow) (d : DB) : outcome DB :=
  with_enum role_values (ur_role r) (λ role,
    guarded (has_id ur_id (users d) (ur_id r) || has_id ur_username (users d) (ur_username r))
            (fk_ok tr_id (tenants d) (ur_tenant_id r))
            (set_users (users d ++ [set_ur_role r role]) d)).
Definition insert_history (r : HistRow) (d : DB) : outcome DB :=
  guarded false (has_id ur_id (users d) (ph_user_id r)) (set_password_history (password_history d ++ [r]) d).
Definition insert_tenant (r : TenantRow) (d : DB) : outcome DB :=
  guarded (has_id tr_id (tenants d) (tr_id r) || has_id tr_prefix (tenants d) (tr_prefix r)) true
          (set_tenants (tenants d ++ [r]) d).
Definition insert_domain (r : DomainRow) (d : DB) : outcome DB :=
  guarded (has_id dr_id (tenant_domains d) (dr_id r) || has_id dr_domain (tenant_domains d) (dr_domain r))
          (has_id tr_id (tenants d) (dr_tenant_id r))
          (set_tenant_domains (tenant_domains d ++ [r]) d).
Definition insert_group (r : GroupRow) (d : DB) : outcome DB :=
  with_enum strategy_values (gr_strategy r) (λ st,
    guarded (has_id gr_id (upstream_groups d) (gr_id r)) (fk_ok tr_id (tenants d) (gr_tenant_id r))
      (set_upstream_groups (upstream_groups d ++
        [{| gr_id := gr_id r; gr_tenant_id := gr_tenant_id r; gr_name := gr_name r; gr_strategy := st;
            gr_health_domain := gr_health_domain r; gr_created_at := gr_created_at r |}]) d)).
Definition set_sr_protocol (r : UpstreamRow) (p : string) : UpstreamRow :=
  {| sr_id := sr_id r; sr_group_id := sr_group_id r; sr_name := sr_name r; sr_protocol := p;
     sr_address := sr_address r; sr_port := sr_port r; sr_hostname := sr_hostname r;
     sr_doh_path := sr_doh_path r; sr_weight := sr_weight r; sr_timeout_ms := sr_timeout_ms r;
     sr_tls_insecure := sr_tls_insecure r; sr_enabled := sr_enabled r; sr_created_at := sr_created_at r |}.
Definition insert_upstream (r : UpstreamRow) (d : DB) : outcome DB :=
  with_enum protocol_values (sr_protocol r) (λ p,
    guarded (has_id sr_id (upstreams d) (sr_id r)) (has_id gr_id (upstream_groups d) (sr_group_id r))
      (set_upstreams (upstreams d ++ [set_sr_protocol r p]) d)).
Definition set_rr_match_type (r : RuleRow) (m : string) : RuleRow :=
  {| rr_id := rr_id r; rr_tenant_id := rr_tenant_id r; rr_name := rr_name r; rr_match_type := m;
     rr_match_value := rr_match_value r; rr_group_id := rr_group_id r; rr_priority := rr_priority r;
     rr_enabled := rr_enabled r; rr_created_at := rr_created_at r |}.
Definition insert_rule (r : RuleRow) (d : DB) : outcome DB :=
  with_enum match_values (rr_match_type r) (λ m,
    guarded (has_id rr_id (split_rules d) (rr_id r))
      (fk_ok tr_id (tenants d) (rr_tenant_id r) && has_id gr_id (upstream_groups d) (rr_group_id r))
      (set_split_rules (split_rules d ++ [set_rr_match_type r m]) d)).
Definition insert_hot (r : HotRow) (d : DB) : outcome DB :=
  guarded (has_id hr_id (hot_domains d) (hr_id r)) (fk_ok tr_id (tenants d) (hr_tenant_id r))
          (set_hot_domains (hot_domains d ++ [r]) d).

(** *** UPDATE by primary key

    Nothing is checked when no row has the key. *)

(** Columns of [users] that carry no constraint. *)
Definition update_users (id : string) (f : UserRow → UserRow) (d : DB) : outcome DB :=
  Ok (set_users (update_where (λ r, ceq (ur_id r) id) f (users d)) d).
Definition update_user_binding (id : string) (tid : option string) (role : string) (email : option string)
    (d : DB) : outcome DB :=
  if negb (has_id ur_id (users d) id) then Ok d else
  with_enum role_values role (λ role,
    guarded false (fk_ok tr_id (tenants d) tid)
      (set_users (update_where (λ r, ceq (ur_id r) id)
        (λ r, {| ur_id := ur_id r; ur_tenant_id := tid; ur_username := ur_username r;
                 ur_password_hash := ur_password_hash r; ur_role := role; ur_email := email;
                 ur_failed_attempts := ur_failed_attempts r; ur_locked_until := ur_locked_until r;
                 ur_last_login := ur_last_login r; ur_must_change_pwd := ur_must_change_pwd r;
                 ur_pwd_changed_at := ur_pwd_changed_at r; ur_created_at := ur_created_at r |}) (users d)) d)).
(** [f] keeps the identifier and sets the prefix to [prefix]. *)
Definition update_tenant (id prefix : string) (f : TenantRow → TenantRow) (d : DB) : outcome DB :=
  if negb (has_id tr_id (tenants d) id) then Ok d else
  guarded (existsb (λ r, negb (ceq (tr_id r) id) && ceq (tr_prefix r) prefix) (tenants d)) true
    (set_tenants (update_where (λ r, ceq (tr_id r) id) f (tenants d)) d).
Definition update_domain (id : string) (cert_status : string) (f : string → DomainRow → DomainRow) (d : DB) : outcome DB :=
  if negb (has_id dr_id (tenant_domains d) id) then Ok d else
  with_enum cert_values cert_status (λ st,
    Ok (set_tenant_domains (update_where (λ r, ceq (dr_id r) id) (f st) (tenant_domains d)) d)).
Definition update_group (id : string) (tid : option string) (name strategy : string) (hd : option string)
    (d : DB) : outcome DB :=
  if negb (has_id gr_id (upstream_groups d) id) then Ok d else
  with_enum strategy_values strategy (λ st,
    guarded false (fk_ok tr_id (tenants d) tid)
      (set_upstream_groups (update_where (λ r, ceq (gr_id r) id)
        (λ r, {| gr_id := gr_id r; gr_tenant_id := tid; gr_name := name; gr_strategy := st;
                 gr_health_domain := hd; gr_created_at := gr_created_at r |}) (upstream_groups d)) d)).
(** The columns of [new] except the identifier and the creation time. *)
Definition update_upstream (id : string) (new : UpstreamRow) (d : DB) : outcome DB :=
  if negb (has_id sr_id (upstreams d) id) then Ok d else
  with_enum protocol_values (sr_protocol new) (λ p,
    guarded false (has_id gr_id (upstream_groups d) (sr_group_id new))
      (set_upstreams (update_where (λ r, ceq (sr_id r) id)
        (λ r, {| sr_id := sr_id r; sr_group_id := sr_group_id new; sr_name := sr_name new; sr_protocol := p;
                 sr_address := sr_address new; sr_port := sr_port new; sr_hostname := sr_hostname new;
                 sr_doh_path := sr_doh_path new; sr_weight := sr_weight new; sr_timeout_ms := sr_timeout_ms new;
                 sr_tls_insecure := sr_tls_insecure new; sr_enabled := sr_enabled new;
                 sr_created_at := sr_created_at r |}) (upstreams d)) d)).
Definition update_rule (id : string) (new : RuleRow) (d : DB) : outcome DB :=
  if negb (has_id rr_id (split_rules d) id) then Ok d else
  with_enum match_values (rr_match_type new) (λ m,
    guarded false (fk_ok tr_id (tenants d) (rr_tenant_id new) && has_id gr_id (upstream_groups d) (rr_group_id new))
      (set_split_rules (update_where (λ r, ceq (rr_id r) id)
        (λ r, {| rr_id := rr_id r; rr_tenant_id := rr_tenant_id new; rr_name := rr_name new; rr_match_type := m;
                 rr_match_value := rr_match_value new; rr_group_id := rr_group_id new;
                 rr_priority := rr_priority new; rr_enabled := rr_enabled new;
                 rr_created_at := rr_created_at r |}) (split_rules d)) d)).

(** *** DELETE with its cascades *)

Definition delete_users (p : UserRow → bool) (d : DB) : DB :=
  let gone := filter (λ r, p r = true) (users d) in
  set_users (delete_where p (users d))
    (set_password_history (delete_where (λ h, has_id ur_id gone (ph_user_id h)) (password_history d)) d).
Definition delete_groups (p : GroupRow → bool) (d : DB) : DB :=
  let gone := filter (λ r, p r = true) (upstream_groups d) in
  set_upstream_groups (delete_where p (upstream_groups d))
    (set_upstreams (delete_where (λ u, has_id gr_id gone (sr_group_id u)) (upstreams d))
      (set_split_rules (delete_where (λ r, has_id gr_id gone (rr_group_id r)) (split_rules d)) d)).
Definition delete_tenant (id : string) (d : DB) : DB :=
  let d := delete_users (λ r, ceq_null (ur_tenant_id r) id) d in
  let d := delete_groups (λ r, ceq_null (gr_tenant_id r) id) d in
  let d := set_split_rules (delete_where (λ r, ceq_null (rr_tenant_id r) id) (split_rules d)) d in
  let d := set_hot_domains (delete_where (λ r, ceq_null (hr_tenant_id r) id) (hot_domains d)) d in
  let d := set_tenant_domains (delete_where (λ r, ceq (dr_tenant_id r) id) (tenant_domains d)) d in
  set_tenants (delete_where (λ r, ceq (tr_id r) id) (tenants d)) d.

(** ** Well-formed databases *)

Record wf_db (d : DB) : Prop := {
  wf_user_id : NoDup (keys ur_id (users d));
  wf_username : NoDup (keys ur_username (users d));
  wf_tenant_id : NoDup (keys tr_id (tenants d));
  wf_prefix : NoDup (keys tr_prefix (tenants d));
  wf_domain_id : NoDup (keys dr_id (tenant_domains d));
  wf_domain : NoDup (keys dr_domain (tenant_domains d));
  wf_group_id : NoDup (keys gr_id (upstream_groups d));
  wf_upstream_id : NoDup (keys sr_id (upstreams d));
  wf_rule_id : NoDup (keys rr_id (split_rules d));
  wf_hot_id : NoDup (keys hr_id (hot_domains d));
  wf_user_tenant : refers_null ur_tenant_id (users d) tr_id (tenants d);
  wf_history_user : refers ph_user_id (password_history d) ur_id (users d);
  wf_domain_tenant : refers dr_tenant_id (tenant_domains d) tr_id (tenants d);
  wf_group_tenant : refers_null gr_tenant_id (upstream_groups d) tr_id (tenants d);
  wf_upstream_group : refers sr_group_id (upstreams d) gr_id (upstream_groups d);
  wf_rule_tenant : refers_null rr_tenant_id (split_rules d) tr_id (tenants d);
  wf_rule_group : refers rr_group_id (split_rules d) gr_id (upstream_groups d);
  wf_hot_tenant : refers_null hr_tenant_id (hot_domains d) tr_id (tenants d);
  wf_roles : Forall (λ r, ur_role r ∈ role_values) (users d);
  wf_strategies : Forall (λ r, gr_strategy r ∈ strategy_values) (upstream_groups d);
  wf_protocols : Forall (λ r, sr_protocol r ∈ protocol_values) (upstreams d);
  wf_match_types : Forall (λ r, rr_match_type r ∈ match_values) (split_rules d);
}.
End sql.

(** ** The constraints hold after every statement *)

Section rows.
Context `{Collation} {A : Type}.
Implicit Types (t : list A) (f : A → string).

Lemma has_id_spec f t v : has_id f t v = true ↔ weight v ∈ keys f t.
Proof.
  unfold has_id, ceq. rewrite existsb_exists, list_elem_of_fmap. setoid_rewrite <-list_elem_of_In.
  setoid_rewrite bool_decide_eq_true. naive_solver.
Qed.
Lemma has_id_false f t v : has_id f t v = false ↔ weight v ∉ keys f t.
Proof. rewrite <-has_id_spec. by destruct (has_id _ _ _). Qed.
Lemma fk_ok_spec f t (v : option string) :
  fk_ok f t v = true → ∀ x, v = Some x → weight x ∈ keys f t.
Proof. intros Hv x ->. by apply has_id_spec. Qed.

Lemma NoDup_keys_snoc f t r :
  NoDup (keys f t) → has_id f t (f r) = false → NoDup (keys f (t ++ [r])).
Proof.
  intros Ht Hr%has_id_false. rewrite fmap_app. apply NoDup_app. split; [done|]. split; [|apply NoDup_singleton].
  intros x Hx ->%list_elem_of_singleton. done.
Qed.
(** A row is found by its own key. *)
Lemma first_match_key f t r : NoDup (keys f t) → r ∈ t → first_match (λ x, ceq (f x) (f r)) t = Some r.
Proof.
  induction t as [|y t IH]; [by intros _ ?%elem_of_nil|]. rewrite fmap_cons, NoDup_cons. intros [Hy Ht] [<-|Hr]%elem_of_cons; simpl.
  - unfold ceq at 1. by rewrite bool_decide_eq_true_2.
  - unfold ceq at 1. rewrite bool_decide_eq_false_2; [by apply IH|]. intros Heq. destruct Hy. rewrite Heq.
    by apply (list_elem_of_fmap_2 (λ r, weight (f r))).
Qed.
(** A key belongs to one row. *)
Lemma NoDup_keys_inj f t r r' : NoDup (keys f t) → r ∈ t → r' ∈ t → weight (f r) = weight (f r') → r = r'.
Proof.
  intros Hn Hr Hr' Heq. pose proof (first_match_key f t r Hn Hr) as H1. pose proof (first_match_key f t r' Hn Hr') as H2.
  unfold ceq in H1, H2. rewrite Heq in H1. congruence.
Qed.
Lemma keys_snoc f t r : keys f t ⊆ keys f (t ++ [r]).
Proof. rewrite fmap_app. set_solver. Qed.
Lemma keys_update f t q u :
  (∀ r, f (u r) = f r) → keys f (update_where q u t) = keys f t.
Proof.
  intros Hu. unfold update_where. rewrite <-list_fmap_compose. apply list_fmap_ext. intros _ r _. simpl.
  by destruct (q r); rewrite ?Hu.
Qed.
Lemma keys_delete f t q : keys f (delete_where q t) ⊆ keys f t.
Proof. intros x (r & -> & Hr)%list_elem_of_fmap. apply list_elem_of_filter in Hr as [_ Hr]. by apply (list_elem_of_fmap_2 (λ r, weight (f r))). Qed.
Lemma keys_kept f t q v :
  v ∈ keys f t → v ∉ keys f (filter (λ r, q r = true) t) → v ∈ keys f (delete_where q t).
Proof.
  intros (r & -> & Hr)%list_elem_of_fmap Hn. apply (list_elem_of_fmap_2 (λ r, weight (f r))).
  apply list_elem_of_filter. split; [|done]. destruct (q r) eqn:Hq; [|done]. destruct Hn.
  apply (list_elem_of_fmap_2 (λ r, weight (f r))). by apply list_elem_of_filter.
Qed.
Lemma NoDup_keys_delete f t q : NoDup (keys f t) → NoDup (keys f (delete_where q t)).
Proof.
  induction t as [|r t IH]; [done|]. unfold delete_where in *. rewrite fmap_cons, NoDup_cons. intros [Hr Ht].
  rewrite filter_cons. case_decide; [|auto]. rewrite fmap_cons, NoDup_cons. split; [|auto].
  intros Hin. by apply Hr, (keys_delete f t q).
Qed.
Lemma Forall_update (P : A → Prop) q u t :
  Forall P t → (∀ r, P r → P (u r)) → Forall P (update_where q u t).
Proof. intros Ht Hu. apply Forall_fmap. eapply Forall_impl; [done|]. intros r Hr. simpl. destruct (q r); auto. Qed.
Lemma Forall_delete (P : A → Prop) q t : Forall P t → Forall P (delete_where q t).
Proof. intros Ht. apply Forall_forall. intros r [_ Hr]%list_elem_of_filter. rewrite Forall_forall in Ht. auto. Qed.
Lemma Forall_snoc (P : A → Prop) t r : Forall P t → P r → Forall P (t ++ [r]).
Proof. intros. apply Forall_app; auto. Qed.
(** The key of the updated row differs from the keys of all other rows. *)
Lemma NoDup_keys_update f t (k : A → string) id u v :
  NoDup (keys k t) → NoDup (keys f t) →
  existsb (λ r, negb (ceq (k r) id) && ceq (f r) v) t = false →
  (∀ r, f (u r) = v) → NoDup (keys f (update_where (λ r, ceq (k r) id) u t)).
Proof.
  intros Hk Hf He Hu. induction t as [|r t IH]; [done|]. cbn [update_where fmap list_fmap existsb] in *.
  apply NoDup_cons in Hk as [Hkr Hk], Hf as [Hfr Hf]. apply orb_false_iff in He as [Her He].
  apply NoDup_cons. split; [|by apply IH]. intros (r' & Hr' & Hin)%list_elem_of_fmap.
  apply list_elem_of_fmap in Hin as (r2 & -> & Hr2). unfold ceq in *.
  assert (weight (f r2) ∈ keys f t) as Hk2 by (by apply (list_elem_of_fmap_2 (λ r, weight (f r)))).
  assert (weight (k r2) ∈ keys k t) as Hk3 by (by apply (list_elem_of_fmap_2 (λ r, weight (k r)))).
  assert (negb (bool_decide (weight (k r2) = weight id)) && bool_decide (weight (f r2) = weight v) = false) as Hr2f.
  { apply not_true_iff_false. intros Hx. apply not_true_iff_false in He. apply He, existsb_exists. exists r2.
    split; [by apply list_elem_of_In|done]. }
  destruct (bool_decide (weight (k r) = weight id)) eqn:H1, (bool_decide (weight (k r2) = weight id)) eqn:H2;
    zbool; rewrite ?Hu in Hr'; simpl in *; zbool; congruence.
Qed.
End rows.
Section references.
Context `{Collation} {A B : Type}.
Implicit Types (t : list A) (p : list B).
Lemma refers_mono (F : A → string) t (G : B → string) p p' :
  refers F t G p → keys G p ⊆ keys G p' → refers F t G p'.
Proof. intros Ht Hs. eapply Forall_impl; [done|]. intros r Hr. by apply Hs. Qed.
Lemma refers_null_mono (F : A → option string) t (G : B → string) p p' :
  refers_null F t G p → keys G p ⊆ keys G p' → refers_null F t G p'.
Proof. intros Ht Hs. eapply Forall_impl; [done|]. intros r Hr v Hv. by apply Hs, Hr. Qed.
(** ON DELETE CASCADE keeps the references of the rows that are left. *)
Lemma refers_cascade (F : A → string) t (G : B → string) p q :
  refers F t G p →
  refers F (delete_where (λ r, has_id G (filter (λ r, q r = true) p) (F r)) t) G (delete_where q p).
Proof.
  intros Ht. apply Forall_forall. intros r [Hr Hin]%list_elem_of_filter.
  apply has_id_false in Hr. eapply keys_kept, Hr. by eapply (proj1 (Forall_forall _ _)) in Ht.
Qed.
Lemma keys_kept_ne (G : B → string) p id v :
  weight v ∈ keys G p → weight v ≠ weight id → weight v ∈ keys G (delete_where (λ r, ceq (G r) id) p).
Proof.
  intros Hv Hne. apply keys_kept; [done|]. intros (r & Hr & Hin)%list_elem_of_fmap.
  apply list_elem_of_filter in Hin as [Hc _]. unfold ceq in Hc. zbool. congruence.
Qed.
Lemma refers_null_gone (F : A → option string) t (G : B → string) p id :
  refers_null F t G p → Forall (λ r, ceq_null (F r) id = false) t →
  refers_null F t G (delete_where (λ r, ceq (G r) id) p).
Proof.
  rewrite !Forall_forall. intros Ht Hn r Hr v Hv. specialize (Hn r Hr). rewrite Hv in Hn. simpl in Hn.
  unfold ceq in Hn. zbool. apply keys_kept_ne; eauto.
Qed.
Lemma refers_gone (F : A → string) t (G : B → string) p id :
  refers F t G p → Forall (λ r, ceq (F r) id = false) t →
  refers F t G (delete_where (λ r, ceq (G r) id) p).
Proof.
  rewrite !Forall_forall. intros Ht Hn r Hr. specialize (Hn r Hr). unfold ceq in Hn. zbool.
  apply keys_kept_ne; eauto.
Qed.
End references.
Create HintDb tables.
#[export] Hint Resolve NoDup_keys_snoc keys_snoc keys_delete NoDup_keys_delete Forall_delete Forall_snoc
  refers_mono refers_null_mono refers_cascade refers_null_gone refers_gone fk_ok_spec : tables.

Section preservation.
Context `{Collation}.

Lemma enum_value_elem vals v x : enum_value vals v = Some x → x ∈ vals.
Proof.
  unfold enum_value. destruct (first_match _ _) as [y|] eqn:Hy.
  - intros [= ->]. apply first_match_Some in Hy as (l1 & l2 & -> & _). set_solver.
  - destruct (first_match _ (imap pair vals)) as [[i y]|] eqn:Hi; [|done]. intros [= <-].
    apply first_match_Some in Hi as (l1 & l2 & Hl & _).
    assert ((i, y) ∈ imap pair vals) as Hin by (rewrite Hl; set_solver).
    apply list_elem_of_lookup_1 in Hin as [n Hn]. rewrite list_lookup_imap in Hn.
    destruct (vals !! n) eqn:Hv; [|done]. simplify_eq/=. by eapply list_elem_of_lookup_2.
Qed.
(** A member whose weight no other member has is stored as it is. *)
Lemma enum_value_self vals v :
  v ∈ vals → (∀ x, x ∈ vals → weight v = weight x → v = x) → enum_value vals v = Some v.
Proof.
  intros Hv Hinj. unfold enum_value. destruct (first_match (ceq v) vals) as [x|] eqn:Hm.
  - apply first_match_Some in Hm as (l1 & l2 & Hl & Hw & _). apply bool_decide_eq_true in Hw.
    f_equal. symmetry. apply Hinj; [|done]. rewrite Hl. set_solver.
  - apply first_match_None in Hm. rewrite Forall_forall in Hm. specialize (Hm v Hv). unfold ceq in Hm.
    by rewrite bool_decide_eq_true_2 in Hm.
Qed.
Lemma with_enum_Ok vals v k d :
  with_enum vals v k = Ok d → ∃ x, x ∈ vals ∧ k x = Ok d.
Proof. unfold with_enum. destruct (enum_value _ _) eqn:He; [|done]. intros. eauto using enum_value_elem. Qed.
Lemma guarded_Ok dup fk d d' : guarded dup fk d = Ok d' → dup = false ∧ fk = true ∧ d' = d.
Proof. unfold guarded. destruct dup, fk; naive_solver. Qed.

(** A statement that keeps the constraints. *)
Definition stmt_wf (f : DB → outcome DB) : Prop := ∀ d d', wf_db d → f d = Ok d' → wf_db d'.
Lemma stmt_wf_total f : (∀ d, wf_db d → wf_db (f d)) → stmt_wf (λ d, Ok (f d)).
Proof. intros Hf d d' Hd [= <-]. auto. Qed.

Lemma wf_empty : wf_db empty_db.
Proof. split; constructor. Qed.

(** Opens a statement that succeeded into its checks and its effect. *)
Ltac open_stmt :=
  repeat match goal with
  | Hs : with_enum _ _ _ = Ok _ |- _ => apply with_enum_Ok in Hs as (?e & ?He & Hs)
  | Hs : guarded _ _ _ = Ok _ |- _ => apply guarded_Ok in Hs as (?Hdup & ?Hfk & ->)
  | Hs : Ok _ = Ok _ |- _ => injection Hs as <-
  | Hs : _ || _ = false |- _ => apply orb_false_iff in Hs as [? ?]
  | Hs : _ && _ = true |- _ => apply andb_true_iff in Hs as [? ?]
  | Hs : has_id _ _ _ = true |- _ => apply has_id_spec in Hs
  end.
(** The constraints on the tables a statement leaves alone, then the
    library's lemmas on the ones it changes. *)
Ltac keep_wf :=
  match goal with Hwf : wf_db ?d |- _ => destruct d; destruct Hwf; simpl in *; split; simpl; try assumption end;
  rewrite ?keys_update by auto; eauto 6 using Forall_update with tables.

Lemma insert_user_wf r : stmt_wf (insert_user r).
Proof. intros d d' Hwf Hs. unfold insert_user in Hs. open_stmt. keep_wf. Qed.
Lemma insert_history_wf r : stmt_wf (insert_history r).
Proof. intros d d' Hwf Hs. unfold insert_history in Hs. open_stmt. keep_wf. Qed.
Lemma insert_tenant_wf r : stmt_wf (insert_tenant r).
Proof. intros d d' Hwf Hs. unfold insert_tenant in Hs. open_stmt. keep_wf. Qed.
Lemma insert_domain_wf r : stmt_wf (insert_domain r).
Proof. intros d d' Hwf Hs. unfold insert_domain in Hs. open_stmt. keep_wf. Qed.
Lemma insert_group_wf r : stmt_wf (insert_group r).
Proof. intros d d' Hwf Hs. unfold insert_group in Hs. open_stmt. keep_wf. Qed.
Lemma insert_upstream_wf r : stmt_wf (insert_upstream r).
Proof. intros d d' Hwf Hs. unfold insert_upstream in Hs. open_stmt. keep_wf. Qed.
Lemma insert_rule_wf r : stmt_wf (insert_rule r).
Proof. intros d d' Hwf Hs. unfold insert_rule in Hs. open_stmt. keep_wf. Qed.
Lemma insert_hot_wf r : stmt_wf (insert_hot r).
Proof. intros d d' Hwf Hs. unfold insert_hot in Hs. open_stmt. keep_wf. Qed.

Lemma update_users_wf id f :
  (∀ r, ur_id (f r) = ur_id r ∧ ur_username (f r) = ur_username r ∧ ur_tenant_id (f r) = ur_tenant_id r ∧
        ur_role (f r) = ur_role r) →
  stmt_wf (update_users id f).
Proof.
  intros Hf d d' Hwf Hs. unfold update_users in Hs. open_stmt.
  assert (∀ r, ur_id (f r) = ur_id r) by apply Hf. assert (∀ r, ur_username (f r) = ur_username r) by apply Hf.
  assert (∀ r, ur_tenant_id (f r) = ur_tenant_id r) as Ht by apply Hf.
  assert (∀ r, ur_role (f r) = ur_role r) as Hr by apply Hf.
  keep_wf; (apply Forall_update; [done|]; intros r; by rewrite ?Ht, ?Hr).
Qed.
Lemma update_user_binding_wf id tid role email : stmt_wf (update_user_binding id tid role email).
Proof.
  intros d d' Hwf Hs. unfold update_user_binding in Hs. destruct (has_id _ _ _); cbn [negb] in Hs; [|by open_stmt].
  open_stmt. keep_wf; apply Forall_update; simpl; eauto using fk_ok_spec.
Qed.
Lemma update_tenant_wf id prefix f :
  (∀ r, tr_id (f r) = tr_id r) → (∀ r, tr_prefix (f r) = prefix) →
  stmt_wf (update_tenant id prefix f).
Proof.
  intros Hi Hp d d' Hwf Hs. unfold update_tenant in Hs. destruct (has_id _ _ _); cbn [negb] in Hs; [|by open_stmt].
  open_stmt. keep_wf. by eapply NoDup_keys_update.
Qed.
Lemma update_domain_wf id st f :
  (∀ st r, dr_id (f st r) = dr_id r) → (∀ st r, dr_domain (f st r) = dr_domain r) →
  (∀ st r, dr_tenant_id (f st r) = dr_tenant_id r) →
  stmt_wf (update_domain id st f).
Proof.
  intros Hi Hd Ht d d' Hwf Hs. unfold update_domain in Hs. destruct (has_id _ _ _); cbn [negb] in Hs; [|by open_stmt].
  open_stmt. keep_wf. apply Forall_update; [done|]. intros r. by rewrite Ht.
Qed.
Lemma update_group_wf id tid name st hd : stmt_wf (update_group id tid name st hd).
Proof.
  intros d d' Hwf Hs. unfold update_group in Hs. destruct (has_id _ _ _); cbn [negb] in Hs; [|by open_stmt].
  open_stmt. keep_wf; apply Forall_update; simpl; eauto using fk_ok_spec.
Qed.
Lemma update_upstream_wf id new : stmt_wf (update_upstream id new).
Proof.
  intros d d' Hwf Hs. unfold update_upstream in Hs. destruct (has_id _ _ _); cbn [negb] in Hs; [|by open_stmt].
  open_stmt. keep_wf; apply Forall_update; simpl; eauto.
Qed.
Lemma update_rule_wf id new : stmt_wf (update_rule id new).
Proof.
  intros d d' Hwf Hs. unfold update_rule in Hs. destruct (has_id _ _ _); cbn [negb] in Hs; [|by open_stmt].
  open_stmt. keep_wf; apply Forall_update; simpl; eauto using fk_ok_spec.
Qed.

Lemma delete_users_wf p d : wf_db d → wf_db (delete_users p d).
Proof. intros Hwf. keep_wf. Qed.
Lemma delete_groups_wf p d : wf_db d → wf_db (delete_groups p d).
Proof. intros Hwf. keep_wf. Qed.
Lemma delete_upstreams_wf p d : wf_db d → wf_db (set_upstreams (delete_where p (upstreams d)) d).
Proof. intros Hwf. keep_wf. Qed.
Lemma delete_rules_wf p d : wf_db d → wf_db (set_split_rules (delete_where p (split_rules d)) d).
Proof. intros Hwf. keep_wf. Qed.
Lemma delete_hots_wf p d : wf_db d → wf_db (set_hot_domains (delete_where p (hot_domains d)) d).
Proof. intros Hwf. keep_wf. Qed.
Lemma delete_domains_wf p d : wf_db d → wf_db (set_tenant_domains (delete_where p (tenant_domains d)) d).
Proof. intros Hwf. keep_wf. Qed.

(** Once no row refers to the tenant, its row can go. *)
Lemma delete_tenants_wf id d :
  wf_db d →
  Forall (λ r, ceq_null (ur_tenant_id r) id = false) (users d) →
  Forall (λ r, ceq_null (gr_tenant_id r) id = false) (upstream_groups d) →
  Forall (λ r, ceq_null (rr_tenant_id r) id = false) (split_rules d) →
  Forall (λ r, ceq_null (hr_tenant_id r) id = false) (hot_domains d) →
  Forall (λ r, ceq (dr_tenant_id r) id = false) (tenant_domains d) →
  wf_db (set_tenants (delete_where (λ r, ceq (tr_id r) id) (tenants d)) d).
Proof.
  intros Hwf Hu Hg Hr Hh Hd. keep_wf.
Qed.
Lemma Forall_deleted {A} (q : A → bool) t : Forall (λ r, q r = false) (delete_where q t).
Proof. apply Forall_forall. by intros r [Hr _]%list_elem_of_filter. Qed.
Lemma delete_tenant_wf id d : wf_db d → wf_db (delete_tenant id d).
Proof.
  intros Hwf. unfold delete_tenant. apply delete_tenants_wf.
  - apply delete_domains_wf, delete_hots_wf, delete_rules_wf, delete_groups_wf, delete_users_wf, Hwf.
  - destruct d. apply Forall_deleted.
  - destruct d. apply Forall_deleted.
  - destruct d. apply Forall_deleted.
  - destruct d. apply Forall_deleted.
  - destruct d. apply Forall_deleted.
Qed.
End preservation.
#[export] Hint Resolve insert_user_wf insert_history_wf insert_tenant_wf insert_domain_wf insert_group_wf insert_upstream_wf
  insert_rule_wf insert_hot_wf update_users_wf update_user_binding_wf update_tenant_wf update_domain_wf update_group_wf
  update_upstream_wf update_rule_wf stmt_wf_total delete_users_wf delete_groups_wf delete_tenant_wf delete_upstreams_wf
  delete_rules_wf delete_hots_wf delete_domains_wf : tables.
