(* ===== verification/World.v ===== *)
(** * The state and effects of the control plane

    A handler or repository method is an [act]: it takes the state of the
    world (database, audit table, Redis, clock, fresh identifiers, alerts
    sent) and returns an outcome and the new state. An error returned by a
    Go function is the outcome [Err]; the state reached so far is kept, as
    nothing is rolled back. Every SQL statement consumes one entry of
    [w_faults]: [Some e] makes it fail with the error [e] (connection lost,
    context cancelled, value out of range); past its end nothing fails.

    UUIDs and bcrypt are parameters with the laws their documentation
    states. *)

From S2P Require Import Prelude GoStrings Config Model StoreCache RateLimit Warmup QueryLog Db.

Record World (R : Type) := {
  w_db : DB;                          (* the metadata tables *)
  w_audit : list AuditRec;            (* audit_logs *)
  w_rdb : R;
  w_now : Time;
  w_fresh : nat;                      (* randomness drawn so far *)
  w_faults : list (option string);
  w_mem : gmap string memCounter;     (* memory of the login limiter *)
  w_alerts : list (string * string);  (* alerts posted: title, content *)
}.
Arguments w_db {R}. Arguments w_audit {R}. Arguments w_rdb {R}. Arguments w_now {R}. Arguments w_fresh {R}.
Arguments w_faults {R}. Arguments w_mem {R}. Arguments w_alerts {R}. Arguments Build_World {R}.

Section setters.
Context {R : Type}.
Definition set_db (x : DB) (w : World R) : World R :=
  let 'Build_World a b c d e f g h := w in Build_World x b c d e f g h.
Definition set_audit (x : list AuditRec) (w : World R) : World R :=
  let 'Build_World a b c d e f g h := w in Build_World a x c d e f g h.
Definition set_rdb (x : R) (w : World R) : World R :=
  let 'Build_World a b c d e f g h := w in Build_World a b x d e f g h.
Definition set_now (x : Time) (w : World R) : World R :=
  let 'Build_World a b c d e f g h := w in Build_World a b c x e f g h.
Definition set_fresh (x : nat) (w : World R) : World R :=
  let 'Build_World a b c d e f g h := w in Build_World a b c d x f g h.
Definition set_faults (x : list (option string)) (w : World R) : World R :=
  let 'Build_World a b c d e f g h := w in Build_World a b c d e x g h.
Definition set_mem (x : gmap string memCounter) (w : World R) : World R :=
  let 'Build_World a b c d e f g h := w in Build_World a b c d e f x h.
Definition set_alerts (x : list (string * string)) (w : World R) : World R :=
  let 'Build_World a b c d e f g h := w in Build_World a b c d e f g x.
End setters.

(** ** The monad *)

Definition act (R A : Type) : Type := World R → outcome A * World R.
#[global] Instance act_ret {R} : MRet (act R) := λ A a w, (Ok a, w).
#[global] Instance act_bind {R} : MBind (act R) := λ A B f m w,
  match m w with
  | (Ok a, w) => f a w
  | (Err e, w) => (Err e, w)
  | (Panic, w) => (Panic, w)
  end.
Definition fail {R A} (e : string) : act R A := λ w, (Err e, w).
Definition panic {R A} : act R A := λ w, (Panic, w).
(** [x, err := m], with the error at hand. *)
Definition try_ {R A} (m : act R A) : act R (outcome A) := λ w,
  match m w with
  | (Panic, w) => (Panic, w)
  | (o, w) => (Ok o, w)
  end.
(** [_ = m] *)
Definition ignore {R A} (m : act R A) : act R unit := _ ← try_ m; mret ().

Definition time_Now {R} : act R Time := λ w, (Ok (w_now w), w).
Definition get_rdb {R} : act R R := λ w, (Ok (w_rdb w), w).
(** One Redis command, its error at hand. *)
Definition redis {R A} (f : R → Time → R * A) : act R A := λ w,
  let '(r, a) := f (w_rdb w) (w_now w) in (Ok a, set_rdb r w).
Definition redis_read {R A} (f : R → Time → A) : act R A := λ w, (Ok (f (w_rdb w) (w_now w)), w).

(** The next entry of the fault schedule. *)
Definition next_fault {R} (w : World R) : option string * World R :=
  match w_faults w with
  | [] => (None, w)
  | o :: l => (o, set_faults l w)
  end.
(** A SELECT and a statement that writes. *)
Definition query {R A} (f : DB → A) : act R A := λ w,
  let '(o, w) := next_fault w in
  match o with
  | Some e => (Err e, w)
  | None => (Ok (f (w_db w)), w)
  end.
Definition query_audit {R A} (f : list AuditRec → A) : act R A := λ w,
  let '(o, w) := next_fault w in
  match o with
  | Some e => (Err e, w)
  | None => (Ok (f (w_audit w)), w)
  end.
Definition exec {R} (f : DB → outcome DB) : act R unit := λ w,
  let '(o, w) := next_fault w in
  match o with
  | Some e => (Err e, w)
  | None => match f (w_db w) with
            | Ok d => (Ok (), set_db d w)
            | Err e => (Err e, w)
            | Panic => (Panic, w)
            end
  end.

(** ** Parameters *)

(** [uuid.NewString]: the n-th identifier drawn. *)
Class UUID := { NewString : nat → string }.
Class UUIDLaws `{UUID} : Prop := { NewString_inj :: Inj (=) (=) NewString }.
(** Package bcrypt: the first argument of the hash is its salt. *)
Class Bcrypt := {
  GenerateFromPassword : nat → string → outcome string;
  CompareHashAndPassword : string → string → bool;
}.
(** A password matches its own hash. *)
Class BcryptLaws `{Bcrypt} : Prop := {
  Compare_Generate : ∀ n pw h, GenerateFromPassword n pw = Ok h → CompareHashAndPassword h pw = true;
}.
(** [encoding/json] on a tenant. *)
Class TenantJSON := {
  Marshal_tenant : Tenant → outcome string;
  Unmarshal_tenant : string → outcome Tenant;
}.
Class TenantJSONLaws `{TenantJSON} : Prop := {
  Unmarshal_Marshal_tenant : ∀ t s, Marshal_tenant t = Ok s → Unmarshal_tenant s = Ok t;
}.

Definition uuid_NewString {R} `{UUID} : act R string := λ w,
  (Ok (NewString (w_fresh w)), set_fresh (S (w_fresh w)) w).

(** ** Documented behaviour of DEL on string keys *)

Class RedisDelLaws (R : Type) `{Redis R} : Prop := {
  rdb_get_del : ∀ r now now' k, (rdb_del r now [k]).2 = None → rdb_get (rdb_del r now [k]).1 now' k = Ok None;
  rdb_get_del_ne : ∀ r now now' k k', k ≠ k' → rdb_get (rdb_del r now [k]).1 now' k' = rdb_get r now' k';
}.
#[global] Instance demo_redis_del : RedisDelLaws DemoRedis.
Proof.
  split; simpl; intros; [by rewrite lookup_delete_eq|by rewrite lookup_delete_ne].
Qed.

(** ** Inversion of successful runs *)

Lemma bind_Ok {R A B} (m : act R A) (f : A → act R B) w b w' :
  (m ≫= f) w = (Ok b, w') → ∃ a w1, m w = (Ok a, w1) ∧ f a w1 = (Ok b, w').
Proof. unfold mbind, act_bind. destruct (m w) as [[a|e|] w1]; naive_solver. Qed.
Lemma bind_run {R A B} (m : act R A) (f : A → act R B) w a w1 : m w = (Ok a, w1) → (m ≫= f) w = f a w1.
Proof. unfold mbind, act_bind. by intros ->. Qed.
Lemma exec_Ok {R} f (w w' : World R) :
  exec f w = (Ok (), w') → ∃ d fl, f (w_db w) = Ok d ∧ w' = set_db d (set_faults fl w).
Proof.
  unfold exec, next_fault. destruct w as [db au r now fr [|o fl] me al]; simpl.
  - destruct (f db) as [d| |]; [|done..]. intros [= <-]. by exists d, [].
  - destruct o; [done|]. simpl. destruct (f db) as [d| |]; [|done..]. intros [= <-]. by exists d, fl.
Qed.
Lemma query_Ok {R A} (f : DB → A) (w w' : World R) a :
  query f w = (Ok a, w') → ∃ fl, a = f (w_db w) ∧ w' = set_faults fl w.
Proof.
  unfold query, next_fault. destruct w as [db au r now fr [|o fl] me al]; simpl; [|destruct o; [done|]];
    intros [= <- <-]; by eexists.
Qed.

(** ** What an action keeps *)

Definition keeps {R A} (I : World R → Prop) (m : act R A) : Prop := ∀ w, I w → I (m w).2.

Section keeps.
Context {R : Type} (I : World R → Prop).

Lemma keeps_ret {A} (a : A) : keeps I (mret a).
Proof. by intros w Hw. Qed.
Lemma keeps_fail {A} e : keeps I (fail (A := A) e).
Proof. by intros w Hw. Qed.
Lemma keeps_bind {A B} (m : act R A) (f : A → act R B) :
  keeps I m → (∀ a, keeps I (f a)) → keeps I (m ≫= f).
Proof.
  intros Hm Hf w Hw. unfold mbind, act_bind. specialize (Hm w Hw). destruct (m w) as [[a|e|] w']; simpl in *; try done.
  by apply Hf.
Qed.
Lemma keeps_from {A B} (m : act R A) (f : A → act R B) w :
  I (m w).2 → (∀ a w', m w = (Ok a, w') → I (f a w').2) → I ((m ≫= f) w).2.
Proof. unfold mbind, act_bind. destruct (m w) as [[a|e|] w']; simpl; auto. Qed.
Lemma keeps_try {A} (m : act R A) : keeps I m → keeps I (try_ m).
Proof. intros Hm w Hw. specialize (Hm w Hw). unfold try_. by destruct (m w) as [[a|e|] w']. Qed.
Lemma keeps_ignore {A} (m : act R A) : keeps I m → keeps I (ignore m).
Proof. intros Hm. apply keeps_bind; [by apply keeps_try|]. intros. apply keeps_ret. Qed.
Lemma keeps_time : keeps I time_Now.
Proof. by intros w Hw. Qed.
Lemma keeps_redis_read {A} (f : R → Time → A) : keeps I (redis_read f).
Proof. by intros w Hw. Qed.
Lemma keeps_match_option {A B} (o : option A) (f : A → act R B) g :
  (∀ a, keeps I (f a)) → keeps I g → keeps I (match o with Some a => f a | None => g end).
Proof. by destruct o. Qed.
Lemma keeps_if {B} (b : bool) (f g : act R B) :
  keeps I f → keeps I g → keeps I (if b then f else g).
Proof. by destruct b. Qed.
Lemma keeps_match_outcome {A B} (o : outcome A) (f : A → act R B) g h :
  (∀ a, keeps I (f a)) → (∀ e, keeps I (g e)) → keeps I h →
  keeps I (match o with Ok a => f a | Err e => g e | Panic => h end).
Proof. by destruct o. Qed.
End keeps.
Create HintDb keeps.
#[export] Hint Resolve keeps_ret keeps_fail keeps_bind keeps_try keeps_ignore keeps_time keeps_redis_read
  keeps_match_option keeps_if keeps_match_outcome : keeps.

(** Properties of the database alone. *)
Section keeps_db.
Context {R : Type} (P : DB → Prop).
Abbreviation I := (λ w : World R, P (w_db w)).

Lemma w_db_set_faults x (w : World R) : w_db (set_faults x w) = w_db w.
Proof. by destruct w. Qed.
Lemma w_db_set_rdb x (w : World R) : w_db (set_rdb x w) = w_db w.
Proof. by destruct w. Qed.
Lemma w_db_set_db x (w : World R) : w_db (set_db x w) = x.
Proof. by destruct w. Qed.
Lemma w_db_next_fault (w : World R) : w_db (next_fault w).2 = w_db w.
Proof. unfold next_fault. destruct (w_faults w); [done|]. apply w_db_set_faults. Qed.
Lemma keeps_query {A} (f : DB → A) : keeps I (query f).
Proof.
  intros w Hw. unfold query. pose proof (w_db_next_fault w) as Hn. destruct (next_fault w) as [[e|] w']; simpl in *; by rewrite Hn.
Qed.
Lemma keeps_query_audit {A} (f : list AuditRec → A) : keeps I (query_audit f).
Proof.
  intros w Hw. unfold query_audit. pose proof (w_db_next_fault w) as Hn. destruct (next_fault w) as [[e|] w']; simpl in *; by rewrite Hn.
Qed.
Lemma keeps_exec f : (∀ d d', P d → f d = Ok d' → P d') → keeps I (exec f).
Proof.
  intros Hf w Hw. unfold exec. pose proof (w_db_next_fault w) as Hn. destruct (next_fault w) as [[e|] w']; simpl in *; rewrite <-Hn in Hw; [done|].
  destruct (f (w_db w')) eqn:Hd; simpl; [|done..]. rewrite w_db_set_db. eauto.
Qed.
Lemma keeps_redis {A} (f : R → Time → R * A) : keeps I (redis f).
Proof. intros w Hw. unfold redis. destruct (f _ _). simpl. by rewrite w_db_set_rdb. Qed.
Lemma keeps_uuid `{UUID} : keeps I uuid_NewString.
Proof. intros w Hw. by destruct w. Qed.
End keeps_db.
#[export] Hint Resolve keeps_query keeps_query_audit keeps_exec keeps_redis keeps_uuid : keeps.
