(* ===== verification/Repos.v ===== *)
(** * Repositories (src/internal/store/repos.go, repos_domains.go)

    The management metadata: accounts and their lockout, tenants with the
    Redis cache of the hot-path lookups, upstream groups, split rules, hot
    domains, bindings and tenant domains. Every method is an action on
    [World]; a pointer argument a method completes (identifier, defaults) is
    returned with its new contents. *)

From stdpp Require Import sorting.
From S2P Require Import Prelude GoStrings Config Model Split StoreCache AnswerCache RateLimit Warmup QueryLog Db World.

Section repos.
Context {R : Type} `{UnicodeCase} `{Redis R} `{RedisSets R} `{Collation} `{UUID} `{Bcrypt} `{TenantJSON}.

(** ** Users *)

Definition HashPassword (pw : string) : act R string := λ w,
  (GenerateFromPassword (w_fresh w) pw, set_fresh (S (w_fresh w)) w).
Definition CheckPassword (hash pw : string) : bool := CompareHashAndPassword hash pw.

Abbreviation str := (default ""%string) (only parsing).
Definition scanUser (r : UserRow) : User :=
  {| u_ID := ur_id r; u_TenantID := str (ur_tenant_id r); u_Username := ur_username r;
     u_PasswordHash := ur_password_hash r; u_Role := ur_role r; u_Email := str (ur_email r);
     u_FailedAttempts := ur_failed_attempts r; u_LockedUntil := default zeroTime (ur_locked_until r);
     u_LastLogin := default zeroTime (ur_last_login r); u_MustChangePwd := ur_must_change_pwd r;
     u_PwdChangedAt := default zeroTime (ur_pwd_changed_at r); u_CreatedAt := ur_created_at r |}.

(** No row is [nil, nil]. *)
Definition GetUserByUsername (username : string) : act R (option User) :=
  row ← query (λ d, first_match (λ r, ceq (ur_username r) username) (users d));
  mret (scanUser <$> row).
Definition GetUserByID (id : string) : act R (option User) :=
  row ← query (λ d, first_match (λ r, ceq (ur_id r) id) (users d));
  mret (scanUser <$> row).

Definition set_u_ID (u : User) (id : string) : User :=
  {| u_ID := id; u_TenantID := u_TenantID u; u_Username := u_Username u; u_PasswordHash := u_PasswordHash u;
     u_Role := u_Role u; u_Email := u_Email u; u_FailedAttempts := u_FailedAttempts u;
     u_LockedUntil := u_LockedUntil u; u_LastLogin := u_LastLogin u; u_MustChangePwd := u_MustChangePwd u;
     u_PwdChangedAt := u_PwdChangedAt u; u_CreatedAt := u_CreatedAt u |}.
(** [if x.ID == "" { x.ID = uuid.NewString() }] *)
Definition fresh_id (id : string) : act R string :=
  if (id =? "")%string then uuid_NewString else mret id.

Definition CreateUser (u : User) (plainPassword : string) : act R User :=
  id ← fresh_id (u_ID u);
  let u := set_u_ID u id in
  hash ← HashPassword plainPassword;
  now ← time_Now;
  _ ← exec (insert_user {| ur_id := u_ID u; ur_tenant_id := nullStr (u_TenantID u); ur_username := u_Username u;
              ur_password_hash := hash; ur_role := u_Role u; ur_email := nullStr (u_Email u);
              ur_failed_attempts := 0; ur_locked_until := None; ur_last_login := None;
              ur_must_change_pwd := u_MustChangePwd u; ur_pwd_changed_at := Some (dt3 now); ur_created_at := dt3 now |});
  _ ← exec (insert_history {| ph_user_id := u_ID u; ph_password_hash := hash; ph_created_at := dt3 now |});
  mret u.

Definition SetPassword (userID plainPassword : string) : act R unit :=
  hash ← HashPassword plainPassword;
  now ← time_Now;
  _ ← exec (update_users userID (λ r,
        {| ur_id := ur_id r; ur_tenant_id := ur_tenant_id r; ur_username := ur_username r;
           ur_password_hash := hash; ur_role := ur_role r; ur_email := ur_email r; ur_failed_attempts := 0;
           ur_locked_until := None; ur_last_login := ur_last_login r; ur_must_change_pwd := false;
           ur_pwd_changed_at := Some (dt3 now); ur_created_at := ur_created_at r |}));
  exec (insert_history {| ph_user_id := userID; ph_password_hash := hash; ph_created_at := dt3 now |}).

(** [ORDER BY created_at DESC LIMIT ?] *)
Definition recent_hashes (userID : string) (n : Z) (d : DB) : list string :=
  ph_password_hash <$>
    take (Z.to_nat n) (order_by (λ a b, ph_created_at b <=? ph_created_at a)
                        (filter (λ h, ceq (ph_user_id h) userID = true) (password_history d))).
Definition CheckPasswordHistory (userID plainPassword : string) (historyCount : Z) : act R bool :=
  hs ← query (recent_hashes userID historyCount);
  mret (existsb (λ h, CheckPassword h plainPassword) hs).

Definition refresh_key (jti : string) : string := ("dns:refresh:" +:+ jti)%string.
Definition refresh_index (userID : string) : string := ("dns:refresh:user:" +:+ userID)%string.
Definition rev_key (userID : string) : string := ("dns:user:rev:" +:+ userID)%string.
(** The commands on the Redis connection, one after the other. *)
Definition revoke_sessions (r : R) (now : Time) (userID : string) : R :=
  let r := match rdb_smembers r now (refresh_index userID) with
           | Ok members =>
               let r := foldl (λ r jti, (rdb_del r now [refresh_key jti]).1) r members in
               (rdb_del r now [refresh_index userID]).1
           | _ => r
           end in
  (rdb_set r now (rev_key userID) (fmt_d (Unix now)) (30 * 24 * hour)).1.
Definition RevokeAllSessions (userID : string) : act R unit :=
  redis (λ r now, (revoke_sessions r now userID, ())).

Definition UpdateUser (u : User) : act R unit :=
  exec (update_user_binding (u_ID u) (nullStr (u_TenantID u)) (u_Role u) (nullStr (u_Email u))).
Definition DeleteUser (id : string) : act R unit :=
  exec (λ d, Ok (delete_users (λ r, ceq (ur_id r) id) d)).

(** Failure counter and lock of a row. *)
Definition set_lock (r : UserRow) (failed : Z) (until last_login : option Time) : UserRow :=
  {| ur_id := ur_id r; ur_tenant_id := ur_tenant_id r; ur_username := ur_username r;
     ur_password_hash := ur_password_hash r; ur_role := ur_role r; ur_email := ur_email r;
     ur_failed_attempts := failed; ur_locked_until := until; ur_last_login := last_login;
     ur_must_change_pwd := ur_must_change_pwd r; ur_pwd_changed_at := ur_pwd_changed_at r;
     ur_created_at := ur_created_at r |}.
(** The assignments of a single-table UPDATE are evaluated from left to
    right: the condition on [locked_until] reads the counter the first
    assignment has already incremented. *)
Definition login_failure (now : Time) (r : UserRow) : UserRow :=
  let failed := ur_failed_attempts r + 1 in
  let until := if 5 <=? failed + 1 then Some (NOW now + 15 * minute) else ur_locked_until r in
  set_lock r failed until (ur_last_login r).
Definition RecordLoginFailure (userID : string) : act R unit :=
  now ← time_Now;
  exec (update_users userID (login_failure now)).
Definition RecordLoginSuccess (userID : string) : act R unit :=
  now ← time_Now;
  exec (update_users userID (λ r, set_lock r 0 None (Some (NOW now)))).

Definition set_u_PasswordHash (u : User) (h : string) : User :=
  {| u_ID := u_ID u; u_TenantID := u_TenantID u; u_Username := u_Username u; u_PasswordHash := h;
     u_Role := u_Role u; u_Email := u_Email u; u_FailedAttempts := u_FailedAttempts u;
     u_LockedUntil := u_LockedUntil u; u_LastLogin := u_LastLogin u; u_MustChangePwd := u_MustChangePwd u;
     u_PwdChangedAt := u_PwdChangedAt u; u_CreatedAt := u_CreatedAt u |}.
Definition ListUsers : act R (list User) :=
  query (λ d, (λ r, set_u_PasswordHash (scanUser r) "") <$>
              order_by (λ a b, ur_created_at b <=? ur_created_at a) (users d)).

Definition LockUser (userID : string) (dur : Z) : act R unit :=
  now ← time_Now;
  exec (update_users userID (λ r, set_lock r 0 (Some (dt3 (now + dur))) (ur_last_login r))).
Definition UnlockUser (userID : string) : act R unit :=
  exec (update_users userID (λ r, set_lock r 0 None (ur_last_login r))).
Definition CountLockedUsers : act R Z :=
  now ← time_Now;
  query (λ d, Z.of_nat (length (filter (λ r, match ur_locked_until r with Some t => NOW now <? t | None => false end = true) (users d)))).
Definition CountMustChangePwd : act R Z :=
  query (λ d, Z.of_nat (length (filter (λ r, ur_must_change_pwd r = true) (users d)))).

(** [audit_logs] is in the order of its ids. *)
Record LoginFailure := { lf_username : string; lf_action : string; lf_ts : Time; lf_client_ip : string }.
Definition RecentLoginFailures (limit : Z) : act R (list LoginFailure) :=
  query_audit (λ t,
    (λ a, {| lf_username := str (ad_actor_name a); lf_action := str (ad_action a); lf_ts := ad_ts a;
             lf_client_ip := str (ad_client_ip a) |}) <$>
      take (Z.to_nat limit) (reverse (filter (λ a, ceq_null (ad_action a) "auth.login_failed" = true) t))).
Definition GetAuditLastHash : act R string := query_audit (λ t, str (last t ≫= ad_entry_hash)).

(** ** Tenants *)

Definition prefix_head (c : ascii) : bool :=
  let b := byte_of c in ((97 <=? b) && (b <=? 122)) || ((48 <=? b) && (b <=? 57)).
Definition prefix_char (c : ascii) : bool := prefix_head c || (byte_of c =? 45).
Fixpoint all_chars (p : ascii → bool) (s : string) : bool :=
  match s with EmptyString => true | String c s => p c && all_chars p s end.
(** [^[a-z0-9][a-z0-9-]{2,31}$] *)
Definition PrefixPattern (p : string) : bool :=
  match p with
  | EmptyString => false
  | String c r => prefix_head c && all_chars prefix_char r && Nat.leb 2 (len r) && Nat.leb (len r) 31
  end.
Definition reservedPrefixes : list string :=
  ["www"; "api"; "admin"; "dns"; "ns1"; "ns2"; "mail"; "static"; "cdn"; "vip"].
Definition ValidPrefix (p : string) : bool := PrefixPattern p && negb (existsb (String.eqb p) reservedPrefixes).

Definition scanTenant (r : TenantRow) : Tenant :=
  {| t_ID := tr_id r; t_Name := tr_name r; t_Prefix := tr_prefix r; t_BaseDomain := tr_base_domain r;
     t_Enabled := tr_enabled r; t_VIP := tr_vip r; t_RateLimitQPS := tr_rate_limit_qps r;
     t_CacheMaxTTL := tr_cache_max_ttl r; t_DefaultECS := str (tr_default_ecs r); t_AllowECS := tr_allow_ecs r;
     t_DoTEnabled := tr_dot_enabled r; t_DoHEnabled := tr_doh_enabled r; t_DoQEnabled := tr_doq_enabled r;
     t_UpstreamGroup := str (tr_upstream_group r); t_CreatedAt := tr_created_at r; t_UpdatedAt := tr_updated_at r |}.
Definition scanTenants (rs : list TenantRow) : list Tenant := scanTenant <$> rs.

(** A tenant in the meta cache, [None] when absent, unreadable or when
    Redis fails. *)
Definition cached_tenant (r : R) (now : Time) (key : string) : option Tenant :=
  match rdb_get r now key with
  | Ok (Some raw) => match Unmarshal_tenant raw with Ok t => Some t | _ => None end
  | _ => None
  end.
Definition cache_tenant (key : string) (t : Tenant) : act R unit :=
  match Marshal_tenant t with
  | Ok b => redis (λ r now, ((rdb_set r now key b (5 * minute)).1, ()))
  | _ => mret ()
  end.
Definition prefix_cache_key (prefix : string) : string := ("dns:meta:prefix:" +:+ Safe prefix)%string.
Definition TenantByPrefix (prefix : string) : act R (option Tenant) :=
  let cacheKey := prefix_cache_key prefix in
  hit ← redis_read (λ r now, cached_tenant r now cacheKey);
  match hit with
  | Some t => mret (Some t)
  | None =>
      row ← query (λ d, first_match (λ r, ceq (tr_prefix r) prefix && tr_enabled r) (tenants d));
      match row with
      | None => mret None
      | Some r =>
          let t := scanTenant r in
          _ ← cache_tenant cacheKey t;
          mret (Some t)
      end
  end.
Definition GetTenant (id : string) : act R (option Tenant) :=
  row ← query (λ d, first_match (λ r, ceq (tr_id r) id) (tenants d));
  mret (scanTenant <$> row).
Definition ListTenants : act R (list Tenant) :=
  query (λ d, scanTenants (order_by (λ a b, tr_created_at b <=? tr_created_at a) (tenants d))).

Definition set_t_times (t : Tenant) (id : string) (created updated : Time) : Tenant :=
  {| t_ID := id; t_Name := t_Name t; t_Prefix := t_Prefix t; t_BaseDomain := t_BaseDomain t;
     t_Enabled := t_Enabled t; t_VIP := t_VIP t; t_RateLimitQPS := t_RateLimitQPS t;
     t_CacheMaxTTL := t_CacheMaxTTL t; t_DefaultECS := t_DefaultECS t; t_AllowECS := t_AllowECS t;
     t_DoTEnabled := t_DoTEnabled t; t_DoHEnabled := t_DoHEnabled t; t_DoQEnabled := t_DoQEnabled t;
     t_UpstreamGroup := t_UpstreamGroup t; t_CreatedAt := created; t_UpdatedAt := updated |}.
Definition tenant_row (id : string) (t : Tenant) (created updated : Time) : TenantRow :=
  {| tr_id := id; tr_name := t_Name t; tr_prefix := t_Prefix t; tr_base_domain := t_BaseDomain t;
     tr_enabled := t_Enabled t; tr_vip := t_VIP t; tr_rate_limit_qps := t_RateLimitQPS t;
     tr_cache_max_ttl := t_CacheMaxTTL t; tr_default_ecs := nullStr (t_DefaultECS t); tr_allow_ecs := t_AllowECS t;
     tr_dot_enabled := t_DoTEnabled t; tr_doh_enabled := t_DoHEnabled t; tr_doq_enabled := t_DoQEnabled t;
     tr_upstream_group := nullStr (t_UpstreamGroup t); tr_created_at := created; tr_updated_at := updated |}.
Definition CreateTenant (t : Tenant) : act R Tenant :=
  id ← fresh_id (t_ID t);
  if (t_BaseDomain t =? "")%string then fail "base_domain required"
  else if negb (ValidPrefix (t_Prefix t)) then fail "invalid prefix: 3-32 lowercase alnum/hyphen, not reserved"
  else
    now ← time_Now;
    _ ← exec (insert_tenant (tenant_row id t (dt3 now) (dt3 now)));
    mret (set_t_times t id now now).
Definition UpdateTenant (t : Tenant) : act R unit :=
  if negb (t_Prefix t =? "")%string && negb (ValidPrefix (t_Prefix t)) then fail "invalid prefix"
  else
    now ← time_Now;
    _ ← exec (update_tenant (t_ID t) (t_Prefix t) (λ r, tenant_row (tr_id r) t (tr_created_at r) (NOW now)));
    redis (λ r now, ((rdb_del r now [prefix_cache_key (t_Prefix t)]).1, ())).
Definition DeleteTenant (id : string) : act R unit :=
  t ← GetTenant id;
  _ ← match t with
      | Some t => redis (λ r now, ((rdb_del r now [prefix_cache_key (t_Prefix t)]).1, ()))
      | None => mret ()
      end;
  exec (λ d, Ok (delete_tenant id d)).

(** ** Upstream groups and upstreams *)

Definition scan_upstream (r : UpstreamRow) : Upstream :=
  {| up_ID := sr_id r; up_GroupID := sr_group_id r; up_Name := sr_name r; up_Protocol := sr_protocol r;
     up_Address := sr_address r; up_Port := sr_port r; up_Hostname := str (sr_hostname r);
     up_DoHPath := str (sr_doh_path r); up_Weight := if sr_weight r =? 0 then 1 else sr_weight r;
     up_TimeoutMS := sr_timeout_ms r; up_TLSInsecure := sr_tls_insecure r; up_Enabled := sr_enabled r;
     up_Healthy := false; up_ConsecFails := 0; up_CreatedAt := sr_created_at r |}.
Definition upstream_le (a b : UpstreamRow) : bool :=
  if ceq (sr_group_id a) (sr_group_id b) then cle (sr_name a) (sr_name b) else cle (sr_group_id a) (sr_group_id b).
Definition ListUpstreams : act R (list Upstream) :=
  query (λ d, scan_upstream <$> order_by upstream_le (upstreams d)).
Definition scan_group (r : GroupRow) (us : list Upstream) : UpstreamGroup :=
  {| g_ID := gr_id r; g_TenantID := str (gr_tenant_id r); g_Name := gr_name r; g_Strategy := gr_strategy r;
     g_HealthDomain := str (gr_health_domain r); g_CreatedAt := gr_created_at r;
     g_Upstreams := filter (λ u, up_GroupID u = gr_id r) us |}.
Definition ListGroups : act R (list UpstreamGroup) :=
  rows ← query (λ d, order_by (λ a b, cle (gr_name a) (gr_name b)) (upstream_groups d));
  us ← ListUpstreams;
  mret ((λ r, scan_group r us) <$> rows).
Definition GetGroup (id : string) : act R (option UpstreamGroup) :=
  gs ← ListGroups; mret (first_match (λ g, (g_ID g =? id)%string) gs).
Definition GetUpstream (id : string) : act R (option Upstream) :=
  us ← ListUpstreams; mret (first_match (λ u, (up_ID u =? id)%string) us).

Definition set_g_defaults (g : UpstreamGroup) (id strategy : string) : UpstreamGroup :=
  {| g_ID := id; g_TenantID := g_TenantID g; g_Name := g_Name g; g_Strategy := strategy;
     g_HealthDomain := g_HealthDomain g; g_CreatedAt := g_CreatedAt g; g_Upstreams := g_Upstreams g |}.
Definition CreateGroup (g : UpstreamGroup) : act R UpstreamGroup :=
  id ← fresh_id (g_ID g);
  let g := set_g_defaults g id (if (g_Strategy g =? "")%string then "weighted" else g_Strategy g) in
  now ← time_Now;
  _ ← exec (insert_group {| gr_id := g_ID g; gr_tenant_id := nullStr (g_TenantID g); gr_name := g_Name g;
              gr_strategy := g_Strategy g; gr_health_domain := nullStr (g_HealthDomain g); gr_created_at := dt3 now |});
  mret g.
Definition UpdateGroup (g : UpstreamGroup) : act R unit :=
  exec (update_group (g_ID g) (nullStr (g_TenantID g)) (g_Name g) (g_Strategy g) (nullStr (g_HealthDomain g))).
Definition DeleteGroup (id : string) : act R unit :=
  exec (λ d, Ok (delete_groups (λ r, ceq (gr_id r) id) d)).

Definition validProtocols (p : string) : bool :=
  existsb (String.eqb p) [ProtoUDP; ProtoTCP; ProtoDoT; ProtoDoH; ProtoDoQ].
Definition defaultPort (p : UpstreamProtocol) : Z :=
  if (p =? ProtoDoT)%string then 853 else if (p =? ProtoDoH)%string then 443
  else if (p =? ProtoDoQ)%string then 853 else 53.
Definition set_up_defaults (u : Upstream) (id : string) : Upstream :=
  {| up_ID := id; up_GroupID := up_GroupID u; up_Name := up_Name u; up_Protocol := up_Protocol u;
     up_Address := up_Address u; up_Port := if up_Port u =? 0 then defaultPort (up_Protocol u) else up_Port u;
     up_Hostname := if (up_Hostname u =? "")%string then up_Address u else up_Hostname u;
     up_DoHPath := if (up_DoHPath u =? "")%string then "/dns-query" else up_DoHPath u;
     up_Weight := if up_Weight u =? 0 then 1 else up_Weight u;
     up_TimeoutMS := up_TimeoutMS u; up_TLSInsecure := up_TLSInsecure u; up_Enabled := up_Enabled u;
     up_Healthy := up_Healthy u; up_ConsecFails := up_ConsecFails u; up_CreatedAt := up_CreatedAt u |}.
(** Empty strings are stored as such, not as NULL. *)
Definition upstream_row (u : Upstream) (created : Time) : UpstreamRow :=
  {| sr_id := up_ID u; sr_group_id := up_GroupID u; sr_name := up_Name u; sr_protocol := up_Protocol u;
     sr_address := up_Address u; sr_port := up_Port u; sr_hostname := Some (up_Hostname u);
     sr_doh_path := Some (up_DoHPath u); sr_weight := up_Weight u; sr_timeout_ms := up_TimeoutMS u;
     sr_tls_insecure := up_TLSInsecure u; sr_enabled := up_Enabled u; sr_created_at := created |}.
Definition CreateUpstream (u : Upstream) : act R Upstream :=
  id ← fresh_id (up_ID u);
  if negb (validProtocols (up_Protocol u)) then fail ("invalid protocol " +:+ fmt_q (up_Protocol u))
  else
    let u := set_up_defaults u id in
    now ← time_Now;
    _ ← exec (insert_upstream (upstream_row u (dt3 now)));
    mret u.
Definition UpdateUpstream (u : Upstream) : act R unit :=
  exec (update_upstream (up_ID u) (upstream_row u zeroTime)).
Definition DeleteUpstream (id : string) : act R unit :=
  exec (λ d, Ok (set_upstreams (delete_where (λ r, ceq (sr_id r) id) (upstreams d)) d)).

(** ** Split rules and hot domains *)

Definition scan_rule (r : RuleRow) : SplitRule :=
  {| r_ID := rr_id r; r_TenantID := str (rr_tenant_id r); r_Name := rr_name r; r_MatchType := rr_match_type r;
     r_MatchValue := rr_match_value r; r_GroupID := rr_group_id r; r_Priority := rr_priority r;
     r_Enabled := rr_enabled r; r_CreatedAt := rr_created_at r |}.
(** [ORDER BY priority DESC, name] *)
Definition rule_le (a b : RuleRow) : bool :=
  if rr_priority a =? rr_priority b then cle (rr_name a) (rr_name b) else rr_priority b <? rr_priority a.
Definition ListRules : act R (list SplitRule) := query (λ d, scan_rule <$> order_by rule_le (split_rules d)).
Definition GetRule (id : string) : act R (option SplitRule) :=
  rs ← ListRules; mret (first_match (λ r, (r_ID r =? id)%string) rs).
Definition validMatch (m : MatchType) : bool :=
  existsb (String.eqb m) [MatchSuffix; MatchPrefix; MatchExact; MatchRegex; MatchAll].
Definition set_r_ID (s : SplitRule) (id : string) : SplitRule :=
  {| r_ID := id; r_TenantID := r_TenantID s; r_Name := r_Name s; r_MatchType := r_MatchType s;
     r_MatchValue := r_MatchValue s; r_GroupID := r_GroupID s; r_Priority := r_Priority s;
     r_Enabled := r_Enabled s; r_CreatedAt := r_CreatedAt s |}.
Definition rule_row (s : SplitRule) (created : Time) : RuleRow :=
  {| rr_id := r_ID s; rr_tenant_id := nullStr (r_TenantID s); rr_name := r_Name s; rr_match_type := r_MatchType s;
     rr_match_value := r_MatchValue s; rr_group_id := r_GroupID s; rr_priority := r_Priority s;
     rr_enabled := r_Enabled s; rr_created_at := created |}.
Definition CreateRule (s : SplitRule) : act R SplitRule :=
  id ← fresh_id (r_ID s);
  let s := set_r_ID s id in
  if negb (validMatch (r_MatchType s)) then fail ("invalid match_type " +:+ fmt_q (r_MatchType s))
  else
    now ← time_Now;
    _ ← exec (insert_rule (rule_row s (dt3 now)));
    mret s.
Definition UpdateRule (s : SplitRule) : act R unit := exec (update_rule (r_ID s) (rule_row s zeroTime)).
Definition DeleteRule (id : string) : act R unit :=
  exec (λ d, Ok (set_split_rules (delete_where (λ r, ceq (rr_id r) id) (split_rules d)) d)).
Definition LoadRulesForTenant (tenantID : string) : act R (list SplitRule) :=
  all ← ListRules;
  mret (filter (λ s, r_Enabled s && ((r_TenantID s =? "")%string || (r_TenantID s =? tenantID)%string) = true) all).

Definition scan_hot (r : HotRow) : HotDomain :=
  {| h_ID := hr_id r; h_TenantID := str (hr_tenant_id r); h_Domain := hr_domain r; h_Weight := hr_weight r;
     h_Enabled := hr_enabled r |}.
Definition ListHotDomains : act R (list HotDomain) :=
  query (λ d, scan_hot <$> order_by (λ a b, hr_weight b <=? hr_weight a) (hot_domains d)).
Definition CreateHotDomain (h : HotDomain) : act R HotDomain :=
  id ← fresh_id (h_ID h);
  let h := {| h_ID := id; h_TenantID := h_TenantID h; h_Domain := h_Domain h; h_Weight := h_Weight h; h_Enabled := h_Enabled h |} in
  _ ← exec (insert_hot {| hr_id := h_ID h; hr_tenant_id := nullStr (h_TenantID h); hr_domain := h_Domain h;
                          hr_weight := h_Weight h; hr_enabled := h_Enabled h |});
  mret h.
Definition DeleteHotDomain (id : string) : act R unit :=
  exec (λ d, Ok (set_hot_domains (delete_where (λ r, ceq (hr_id r) id) (hot_domains d)) d)).

Definition scan_binding (r : BindingRow) : DualstackBinding :=
  {| db_ID := br_id r; db_IPv6Subnet := br_ipv6_subnet r; db_IPv4 := br_ipv4 r; db_ISP := str (br_isp r);
     db_Region := str (br_region r); db_Enabled := br_enabled r; db_CreatedAt := br_created_at r |}.
Definition ListDualstackBindings : act R (list DualstackBinding) :=
  query (λ d, scan_binding <$> filter (λ r, br_enabled r = true) (dualstack_bindings d)).

(** The keys the SCAN iterator delivers are deleted one by one. *)
Definition purge_meta (r : R) (now : Time) : R :=
  foldl (λ r k, (rdb_del r now [k]).1) r (rdb_scan r now "dns:meta:*").1.
Definition PurgeMetaCache : act R unit := redis (λ r now, (purge_meta r now, ())).

(** ** Tenant domains *)

Definition scanTenantDomain (r : DomainRow) : TenantDomain :=
  {| td_ID := dr_id r; td_TenantID := dr_tenant_id r; td_Domain := dr_domain r; td_Enabled := dr_enabled r =? 1;
     td_CertStatus := dr_cert_status r; td_CertExpiry := dr_cert_expiry r; td_CertError := str (dr_cert_error r);
     td_CreatedAt := dr_created_at r; td_UpdatedAt := dr_updated_at r |}.

(** The columns of the two tables and of the SELECT list. *)
Definition tenants_columns : list string :=
  ["id"; "name"; "prefix"; "base_domain"; "enabled"; "vip"; "rate_limit_qps"; "cache_max_ttl"; "default_ecs";
   "allow_ecs"; "dot_enabled"; "doh_enabled"; "doq_enabled"; "upstream_group"; "created_at"; "updated_at"].
Definition tenant_domains_columns : list string :=
  ["id"; "tenant_id"; "domain"; "enabled"; "cert_status"; "cert_expiry"; "cert_error"; "created_at"; "updated_at"].
Definition tenantCols : list string :=
  ["id"; "name"; "prefix"; "base_domain"; "enabled"; "vip"; "rate_limit_qps"; "cache_max_ttl"; "default_ecs";
   "allow_ecs"; "dot_enabled"; "doh_enabled"; "doq_enabled"; "upstream_group"; "created_at"; "updated_at"].
(** An unqualified column of the SELECT list must belong to one table of
    the FROM clause only. *)
Definition ambiguous (from : list (list string)) (cols : list string) : option string :=
  first_match (λ c, Nat.leb 2 (length (filter (λ t, c ∈ t) from))) cols.
(** [s LIKE pat], byte by byte. *)
Fixpoint like (pat : string) {struct pat} : string → bool :=
  let lit (c : ascii) (k : string → bool) (s : string) :=
    match s with
    | EmptyString => false
    | String d s => ceq (String c EmptyString) (String d EmptyString) && k s
    end in
  match pat with
  | EmptyString => λ s, (s =? "")%string
  | String c p =>
      if (c =? "%")%char then
        fix any s := like p s || match s with EmptyString => false | String _ s => any s end
      else if (c =? "_")%char then λ s, match s with EmptyString => false | String _ s => like p s end
      else if (c =? "\")%char then
        match p with
        | EmptyString => lit c (λ s, (s =? "")%string)
        | String c p => lit c (like p)
        end
      else lit c (like p)
  end.
Definition domain_matches (host : string) (r : DomainRow) : bool :=
  (dr_enabled r =? 1) && (ceq host (dr_domain r) || like ("%." +:+ dr_domain r) host).
Definition domain_join (host : string) (d : DB) : list (TenantRow * DomainRow) :=
  order_by (λ a b, Nat.leb (len (dr_domain b.2)) (len (dr_domain a.2)))
    (filter (λ td, ceq (dr_tenant_id td.2) (tr_id td.1) && domain_matches host td.2 = true)
       (t ← tenants d; r ← tenant_domains d; mret (t, r))).
(** [SELECT tenantCols FROM tenants t JOIN tenant_domains td ...] *)
Definition select_by_domain (host : string) (d : DB) : outcome (option TenantRow) :=
  match ambiguous [tenants_columns; tenant_domains_columns] tenantCols with
  | Some c => Err ("Error 1052 (23000): Column '" +:+ c +:+ "' in field list is ambiguous")
  | None => Ok (fst <$> head (domain_join host d))
  end.
Definition domain_cache_key (host : string) : string := ("dns:meta:domain:" +:+ Safe host)%string.
Definition TenantByDomain (host : string) : act R (option Tenant) :=
  let host := ToLower (TrimSuffix host ".") in
  if (host =? "")%string then mret None else
  let cacheKey := domain_cache_key host in
  hit ← redis_read (λ r now, cached_tenant r now cacheKey);
  match hit with
  | Some t => mret (Some t)
  | None =>
      res ← query (select_by_domain host);
      match res with
      | Err e => fail e
      | Panic => panic
      | Ok None => mret None
      | Ok (Some r) =>
          let t := scanTenant r in
          _ ← cache_tenant cacheKey t;
          mret (Some t)
      end
  end.

Definition ListTenantDomains (tenantID : string) : act R (list TenantDomain) :=
  query (λ d, scanTenantDomain <$> order_by (λ a b, dr_created_at b <=? dr_created_at a)
    (filter (λ r, (tenantID =? "")%string || ceq (dr_tenant_id r) tenantID = true) (tenant_domains d))).
(** Here no row is the error [sql.ErrNoRows]. *)
Definition GetTenantDomain (id : string) : act R TenantDomain :=
  row ← query (λ d, first_match (λ r, ceq (dr_id r) id) (tenant_domains d));
  match row with Some r => mret (scanTenantDomain r) | None => fail "sql: no rows in result set" end.
Definition CreateTenantDomain (td : TenantDomain) : act R unit :=
  now ← time_Now;
  exec (insert_domain {| dr_id := td_ID td; dr_tenant_id := td_TenantID td;
          dr_domain := ToLower (TrimSuffix (td_Domain td) "."); dr_enabled := 1; dr_cert_status := "none";
          dr_cert_expiry := None; dr_cert_error := None; dr_created_at := CURRENT_TIMESTAMP3 now;
          dr_updated_at := CURRENT_TIMESTAMP3 now |}).
Definition DeleteTenantDomain (id : string) : act R unit :=
  exec (λ d, Ok (set_tenant_domains (delete_where (λ r, ceq (dr_id r) id) (tenant_domains d)) d)).
(** [updated_at] moves when a column really changes. *)
Definition set_cert (now : Time) (expiry : option Time) (errMsg : string) (status : string) (r : DomainRow) : DomainRow :=
  let r' upd := {| dr_id := dr_id r; dr_tenant_id := dr_tenant_id r; dr_domain := dr_domain r;
                   dr_enabled := dr_enabled r; dr_cert_status := status; dr_cert_expiry := dt3 <$> expiry;
                   dr_cert_error := Some errMsg; dr_created_at := dr_created_at r; dr_updated_at := upd |} in
  if decide (r' (dr_updated_at r) = r) then r else r' (CURRENT_TIMESTAMP3 now).
Definition SetDomainCert (id : string) (status : CertStatus) (expiry : option Time) (errMsg : string) : act R unit :=
  now ← time_Now;
  exec (update_domain id status (set_cert now expiry errMsg)).

(** ** Sequences of calls

    The methods that write, as data: a history of calls, each with the
    instant and the fault schedule it meets. *)
Inductive Call :=
| CallCreateUser (u : User) (pw : string)
| CallSetPassword (id pw : string)
| CallRevokeAllSessions (id : string)
| CallUpdateUser (u : User)
| CallDeleteUser (id : string)
| CallRecordLoginFailure (id : string)
| CallRecordLoginSuccess (id : string)
| CallLockUser (id : string) (dur : Z)
| CallUnlockUser (id : string)
| CallTenantByPrefix (prefix : string)
| CallCreateTenant (t : Tenant)
| CallUpdateTenant (t : Tenant)
| CallDeleteTenant (id : string)
| CallCreateGroup (g : UpstreamGroup)
| CallUpdateGroup (g : UpstreamGroup)
| CallDeleteGroup (id : string)
| CallCreateUpstream (u : Upstream)
| CallUpdateUpstream (u : Upstream)
| CallDeleteUpstream (id : string)
| CallCreateRule (s : SplitRule)
| CallUpdateRule (s : SplitRule)
| CallDeleteRule (id : string)
| CallCreateHotDomain (h : HotDomain)
| CallDeleteHotDomain (id : string)
| CallTenantByDomain (host : string)
| CallCreateTenantDomain (td : TenantDomain)
| CallDeleteTenantDomain (id : string)
| CallSetDomainCert (id : string) (st : CertStatus) (expiry : option Time) (msg : string)
| CallPurgeMetaCache.
Definition run_call (c : Call) : act R unit :=
  match c with
  | CallCreateUser u pw => ignore (CreateUser u pw)
  | CallSetPassword id pw => SetPassword id pw
  | CallRevokeAllSessions id => RevokeAllSessions id
  | CallUpdateUser u => UpdateUser u
  | CallDeleteUser id => DeleteUser id
  | CallRecordLoginFailure id => RecordLoginFailure id
  | CallRecordLoginSuccess id => RecordLoginSuccess id
  | CallLockUser id dur => LockUser id dur
  | CallUnlockUser id => UnlockUser id
  | CallTenantByPrefix p => ignore (TenantByPrefix p)
  | CallCreateTenant t => ignore (CreateTenant t)
  | CallUpdateTenant t => UpdateTenant t
  | CallDeleteTenant id => DeleteTenant id
  | CallCreateGroup g => ignore (CreateGroup g)
  | CallUpdateGroup g => UpdateGroup g
  | CallDeleteGroup id => DeleteGroup id
  | CallCreateUpstream u => ignore (CreateUpstream u)
  | CallUpdateUpstream u => UpdateUpstream u
  | CallDeleteUpstream id => DeleteUpstream id
  | CallCreateRule s => ignore (CreateRule s)
  | CallUpdateRule s => UpdateRule s
  | CallDeleteRule id => DeleteRule id
  | CallCreateHotDomain h => ignore (CreateHotDomain h)
  | CallDeleteHotDomain id => DeleteHotDomain id
  | CallTenantByDomain h => ignore (TenantByDomain h)
  | CallCreateTenantDomain td => CreateTenantDomain td
  | CallDeleteTenantDomain id => DeleteTenantDomain id
  | CallSetDomainCert id st e m => SetDomainCert id st e m
  | CallPurgeMetaCache => PurgeMetaCache
  end.
Definition run_calls (calls : list (Time * list (option string) * Call)) (w : World R) : World R :=
  foldl (λ w c, (run_call c.2 (set_faults c.1.2 (set_now c.1.1 w))).2) w calls.
End repos.

(** ** Lemmas *)

Section wf.
Context {R : Type} `{UnicodeCase} `{Redis R} `{RedisSets R} `{Collation} `{UUID} `{Bcrypt} `{TenantJSON}.
Abbreviation Wf := (λ w : World R, wf_db (w_db w)).

Lemma keeps_hash pw : keeps Wf (HashPassword pw).
Proof. intros w Hw. by destruct w. Qed.
Lemma keeps_fresh_id id : keeps Wf (fresh_id id).
Proof. unfold fresh_id. destruct (_ =? _)%string; [apply keeps_uuid|apply keeps_ret]. Qed.
Lemma keeps_stmt f : stmt_wf f → keeps Wf (exec f).
Proof. apply keeps_exec. Qed.
Lemma keeps_cache_tenant k t : keeps Wf (cache_tenant k t).
Proof. unfold cache_tenant. case_match; (apply keeps_redis || apply keeps_ret). Qed.
(** Steps through the actions of a method; the statements are left to the
    lemmas on tables. *)
Ltac keeps_step :=
  lazymatch goal with
  | |- keeps _ (mret _) => apply keeps_ret
  | |- keeps _ (fail _) => apply keeps_fail
  | |- keeps _ time_Now => apply keeps_time
  | |- keeps _ (redis_read _) => apply keeps_redis_read
  | |- keeps _ (HashPassword _) => apply keeps_hash
  | |- keeps _ (fresh_id _) => apply keeps_fresh_id
  | |- keeps _ (query _) => apply keeps_query
  | |- keeps _ (redis _) => apply keeps_redis
  | |- keeps _ (cache_tenant _ _) => apply keeps_cache_tenant
  | |- keeps _ (mbind _ _) => apply keeps_bind; [|intros ?]
  | |- keeps _ (ignore _) => apply keeps_ignore
  | |- keeps _ (exec _) => apply keeps_stmt; eauto with tables
  | |- keeps _ (match _ with _ => _ end) => case_match
  | |- keeps _ panic => by intros w Hw
  end.

Lemma run_call_wf c : keeps Wf (run_call c).
Proof.
  destruct c; unfold run_call, CreateUser, SetPassword, RevokeAllSessions, UpdateUser, DeleteUser,
    RecordLoginFailure, RecordLoginSuccess, LockUser, UnlockUser, TenantByPrefix, CreateTenant, UpdateTenant,
    DeleteTenant, GetTenant, CreateGroup, UpdateGroup, DeleteGroup, CreateUpstream, UpdateUpstream, DeleteUpstream,
    CreateRule, UpdateRule, DeleteRule, CreateHotDomain, DeleteHotDomain, TenantByDomain, CreateTenantDomain,
    DeleteTenantDomain, SetDomainCert, PurgeMetaCache; cbv zeta; repeat keeps_step.
  apply update_domain_wf; intros; unfold set_cert; by case_decide.
Qed.
Lemma w_db_set_now x (w : World R) : w_db (set_now x w) = w_db w.
Proof. by destruct w. Qed.
Lemma run_calls_wf calls w : wf_db (w_db w) → wf_db (w_db (run_calls calls w)).
Proof.
  revert w. induction calls as [|c calls IH]; intros w Hw; [done|]. simpl. apply IH, run_call_wf.
  by rewrite w_db_set_faults, w_db_set_now.
Qed.
End wf.

Lemma Sorted_mono {A} (P Q : A → A → Prop) l : (∀ x y, P x y → Q x y) → Sorted P l → Sorted Q l.
Proof. intros HPQ. induction 1 as [|x l _ IH Hh]; constructor; [done|]. destruct Hh; constructor; auto. Qed.
Lemma StronglySorted_index {A} (P : A → A → Prop) l i j x y :
  StronglySorted P l → (i < j)%nat → l !! i = Some x → l !! j = Some y → P x y.
Proof.
  intros Hs. revert i j. induction Hs as [|z l _ IH Hf]; intros i j Hij Hi Hj; [done|].
  destruct j as [|j]; [lia|]. destruct i as [|i]; simplify_eq/=.
  - rewrite Forall_forall in Hf. by eapply Hf, list_elem_of_lookup_2.
  - eapply (IH i j); [lia|done..].
Qed.
(** ORDER BY puts adjacent rows in order, whatever its relation. *)
Lemma order_by_Sorted {A} (le : A → A → bool) l :
  (∀ x y, le x y = true ∨ le y x = true) → Sorted (λ x y, le x y = true) (order_by le l).
Proof.
  intros Ht. assert (Total (λ x y, Is_true (le x y))) by (intros x y; rewrite !Is_true_true; apply Ht).
  eapply Sorted_mono; [|apply (Sorted_merge_sort (λ x y, Is_true (le x y)))]. intros x y. apply Is_true_true.
Qed.
Lemma order_by_perm {A} (le : A → A → bool) l : order_by le l ≡ₚ l.
Proof. apply merge_sort_Permutation. Qed.
Lemma order_by_elem {A} (le : A → A → bool) l x : x ∈ order_by le l ↔ x ∈ l.
Proof. by rewrite order_by_perm. Qed.

Lemma filter_all {A} (P : A → Prop) `{∀ x, Decision (P x)} l : Forall P l → filter P l = l.
Proof. induction 1 as [|x l Hx _ IH]; [done|]. rewrite filter_cons_True by done. by rewrite IH. Qed.
(** A row with few rows at least as recent is among the first ones. *)
Lemma take_recent {A} (time : A → Z) (l : list A) (n : nat) x :
  x ∈ l → (length (filter (λ y, (time x ≤ time y)%Z) l) ≤ n)%nat →
  x ∈ take n (order_by (λ a b, time b <=? time a) l).
Proof.
  intros Hx Hn. set (s := order_by _ l).
  assert (StronglySorted (λ a b, time b ≤ time a) s) as Hs.
  { apply Sorted_StronglySorted; [intros a b c; lia|]. eapply Sorted_mono; [|apply order_by_Sorted].
    - intros a b. apply Z.leb_le.
    - intros a b. rewrite !Z.leb_le. lia. }
  assert (x ∈ s) as [i Hi]%list_elem_of_lookup by (by apply order_by_elem).
  assert (length (filter (λ y, (time x ≤ time y)%Z) s) ≤ n)%nat as Hn'.
  { etrans; [|done]. apply Nat.eq_le_incl, Permutation_length. unfold s. by rewrite order_by_perm. }
  assert (filter (λ y, (time x ≤ time y)%Z) (take (S i) s) = take (S i) s) as Hall.
  { apply filter_all, Forall_forall. intros y [j [Hj Hlt]%lookup_take_Some]%list_elem_of_lookup.
    destruct (decide (i = j)) as [->|Hne]; [simplify_eq; lia|]. eapply (StronglySorted_index _ _ j i y x) in Hs; eauto; lia. }
  assert (i < length s)%nat by (by eapply lookup_lt_Some).
  assert (S i ≤ n)%nat as Hin.
  { rewrite <-(take_drop (S i) s), filter_app, Hall, length_app, length_take in Hn'. lia. }
  apply list_elem_of_lookup. exists i. rewrite lookup_take_lt by lia. done.
Qed.

Section rule_order.
Context `{Collation}.
Lemma rule_le_total a b : rule_le a b = true ∨ rule_le b a = true.
Proof.
  unfold rule_le, cle. rewrite (Z.eqb_sym (rr_priority b)). destruct (Z.eqb_spec (rr_priority a) (rr_priority b)).
  - destruct (String.leb (weight (rr_name a)) (weight (rr_name b))) eqn:Hl; [by left|right].
    destruct (String.leb_total (weight (rr_name a)) (weight (rr_name b))); congruence.
  - destruct (Z.lt_ge_cases (rr_priority b) (rr_priority a)); [left|right]; apply Z.ltb_lt; lia.
Qed.
Lemma rule_le_priority a b : rule_le a b = true → rr_priority b ≤ rr_priority a.
Proof. unfold rule_le. intros Hr. split_ifs; lia. Qed.
(** The rules of the table as the splitter receives them. *)
Definition listed_rules (d : DB) : list SplitRule := scan_rule <$> order_by rule_le (split_rules d).
Lemma listed_rules_sorted d : priority_sorted (listed_rules d).
Proof.
  assert (StronglySorted (λ a b, rr_priority b ≤ rr_priority a) (order_by rule_le (split_rules d))) as Hs.
  { apply Sorted_StronglySorted; [intros x y z; lia|]. eapply Sorted_mono; [|apply order_by_Sorted, rule_le_total].
    apply rule_le_priority. }
  unfold listed_rules. intros i j r1 r2 Hij Hi Hj. rewrite list_lookup_fmap_Some in Hi. rewrite list_lookup_fmap_Some in Hj.
  destruct Hi as (x & Hx & Hi), Hj as (y & Hy & Hj); subst; simpl.
  destruct (decide (i = j)) as [->|Hne]; [simplify_eq; lia|].
  eapply (StronglySorted_index _ _ i j x y) in Hs; eauto; lia.
Qed.
End rule_order.

(** ** Prefixes *)

Lemma prefix_char_byte c : prefix_char c = true →
  97 ≤ byte_of c ≤ 122 ∨ 48 ≤ byte_of c ≤ 57 ∨ byte_of c = 45.
Proof.
  unfold prefix_char, prefix_head. rewrite !orb_true_iff, !andb_true_iff, !Z.leb_le, Z.eqb_eq. lia.
Qed.
Lemma ValidPrefix_chars p : ValidPrefix p = true →
  all_chars prefix_char p = true ∧ (3 ≤ len p ≤ 32)%nat ∧ p ∉ reservedPrefixes.
Proof.
  unfold ValidPrefix. intros [Hp Hr]%andb_true_iff. split.
  { destruct p as [|c p]; [done|]. cbn [PrefixPattern all_chars] in *. unfold prefix_char at 1.
    rewrite !andb_true_iff in Hp. destruct Hp as [[[-> ->] _] _]. done. }
  split.
  { destruct p as [|c p]; [done|]. cbn [PrefixPattern] in Hp. rewrite !andb_true_iff, !Nat.leb_le in Hp. simpl. lia. }
  { intros Hin. apply negb_true_iff, not_true_iff_false in Hr. apply Hr, existsb_exists. exists p.
    split; [by apply list_elem_of_In|apply String.eqb_refl]. }
Qed.
Lemma prefix_escape p : all_chars prefix_char p = true → printable p = true ∧ escape (bytes_of p) = p.
Proof.
  induction p as [|c p IH]; [done|]. simpl. intros [Hc Hp]%andb_true_iff. destruct (IH Hp) as [Hpr He].
  apply prefix_char_byte in Hc. split.
  - change (printable (String c p)) with ((16 <=? byte_of c) && (byte_of c <? 128) && printable p).
    rewrite Hpr, (proj2 (Z.leb_le _ _)), (proj2 (Z.ltb_lt _ _)) by lia. done.
  - change (escape (byte_of c :: bytes_of p)) with (safe_piece (byte_of c) +:+ escape (bytes_of p))%string.
    rewrite He. unfold safe_piece.
    assert (safe_rune (byte_of c) = true) as ->.
    { unfold safe_rune. rewrite !orb_true_iff, !andb_true_iff, !Z.leb_le, !Z.eqb_eq. lia. }
    unfold encode_rune. rewrite (proj2 (Z.ltb_lt _ _)) by lia. simpl. by rewrite ascii_of_byte.
Qed.
Lemma ValidPrefix_key_field p : ValidPrefix p = true → key_field p.
Proof.
  intros (Hc & Hl & _)%ValidPrefix_chars. destruct (prefix_escape p Hc) as [Hp He]. split_and!; [|done|].
  - intros ->. simpl in Hl. lia.
  - rewrite (runes_ascii _ (printable_ascii _ Hp)), He. lia.
Qed.

(** ** The meta cache against the table *)

(** A reachable Redis: writes succeed. *)
Class RedisUp (R : Type) `{Redis R} : Prop := {
  up_set : ∀ r now k v ttl, (rdb_set r now k v ttl).2 = None;
  up_del : ∀ r now ks, (rdb_del r now ks).2 = None;
  up_scan : ∀ r now pat, (rdb_scan r now pat).2 = None;
}.
(** A full SCAN retrieves every key that matches and is present; a key
    present later without a write in between is present now. *)
Class RedisScanLaws (R : Type) `{Redis R} : Prop := {
  scan_complete : ∀ r now now' k v pfx, now ≤ now' → (rdb_scan r now (pfx +:+ "*")).2 = None →
    rdb_get r now' k = Ok (Some v) → HasPrefix k pfx = true → k ∈ (rdb_scan r now (pfx +:+ "*")).1;
}.
(** The collation tells valid prefixes (lower-case letters, digits,
    hyphens) apart. *)
Class CollationLaws `{Collation} : Prop := {
  weight_prefix : ∀ p q, ValidPrefix p = true → ValidPrefix q = true → weight p = weight q → p = q;
}.

(** What the SELECT of [TenantByPrefix] answers: the abstract lookup. *)
Definition db_tenant `{Collation} (d : DB) (p : string) : option Tenant :=
  scanTenant <$> first_match (λ r, ceq (tr_prefix r) p && tr_enabled r) (tenants d).
(** Every cached tenant is the table's answer for its prefix. *)
Definition coherent {R} `{Redis R} `{Collation} `{TenantJSON} (w : World R) : Prop :=
  ∀ p t now', w_now w ≤ now' → ValidPrefix p = true →
  cached_tenant (w_rdb w) now' (prefix_cache_key p) = Some t → db_tenant (w_db w) p = Some t.

Lemma first_match_update {A} (P q : A → bool) u l :
  (∀ r, r ∈ l → q r = true → P r = false ∧ P (u r) = false) →
  first_match P (update_where q u l) = first_match P l.
Proof.
  induction l as [|r l IH]; intros Hq; [done|]. cbn [update_where fmap list_fmap first_match].
  destruct (q r) eqn:Hr.
  - destruct (Hq r) as [-> ->]; [left|done|]. apply IH. intros r' Hr'. apply Hq. by right.
  - destruct (P r); [done|]. apply IH. intros r' Hr'. apply Hq. by right.
Qed.

Section coherence.
Context {R : Type} `{UnicodeCase} `{Redis R} `{RedisSets R} `{Collation} `{UUID} `{Bcrypt} `{TenantJSON}
  `{!RedisLaws R} `{!RedisDelLaws R} `{!RedisScanLaws R} `{!RedisUp R} `{!TenantJSONLaws} `{!CollationLaws}.
Implicit Types w : World R.

Lemma next_fault_nil w : w_faults w = [] → next_fault w = (None, w).
Proof. unfold next_fault. by intros ->. Qed.
Lemma query_nil {A} (f : DB → A) w : w_faults w = [] → query f w = (Ok (f (w_db w)), w).
Proof. intros Hf. unfold query. by rewrite next_fault_nil. Qed.

Lemma prefix_key_inj p q : ValidPrefix p = true → ValidPrefix q = true → prefix_cache_key p = prefix_cache_key q → p = q.
Proof.
  intros Hp Hq Heq%append_inj_l. apply Safe_key_field; [by apply ValidPrefix_key_field..|done].
Qed.
Lemma cached_set r now now' k t raw :
  now ≤ now' → Marshal_tenant t = Ok raw → ∀ t', 
  cached_tenant (rdb_set r now k raw (5 * minute)).1 now' k = Some t' → t' = t.
Proof.
  intros Hn Hm t'. unfold cached_tenant.
  pose proof (rdb_get_set r now now' k raw (5 * minute) Hn (up_set _ _ _ _ _)) as Hg.
  apply elem_of_cons in Hg as [->|Hg]; [|by apply list_elem_of_singleton in Hg as ->].
  rewrite (Unmarshal_Marshal_tenant _ _ Hm). congruence.
Qed.
Lemma cached_set_ne r now now' k k' v ttl :
  k ≠ k' → cached_tenant (rdb_set r now k v ttl).1 now' k' = cached_tenant r now' k'.
Proof. intros Hk. unfold cached_tenant. by rewrite rdb_get_set_ne. Qed.

(** Filling the cache with the table's answer keeps it coherent. *)
Lemma cache_tenant_coherent p t w :
  ValidPrefix p = true → coherent w → db_tenant (w_db w) p = Some t →
  ∃ w', cache_tenant (prefix_cache_key p) t w = (Ok (), w') ∧ w_db w' = w_db w ∧ coherent w'.
Proof.
  intros Hp Hc Ht. unfold cache_tenant. destruct (Marshal_tenant t) as [raw|e|] eqn:Hm; [|by exists w..].
  eexists. split; [reflexivity|]. split; [apply w_db_set_rdb|]. destruct w as [db au r now fr fa me al]. simpl in *.
  intros q t' now' Hn Hq Hcq. simpl in *. destruct (decide (prefix_cache_key p = prefix_cache_key q)) as [Hk|Hk].
  - rewrite <-Hk in Hcq. eapply cached_set in Hcq as ->; [|done..]. apply prefix_key_inj in Hk as <-; done.
  - rewrite cached_set_ne in Hcq by done. by eapply (Hc q t' now').
Qed.

Lemma get_dels r now now' ks k :
  rdb_get (foldl (λ r k, (rdb_del r now [k]).1) r ks) now' k =
  if bool_decide (k ∈ ks) then Ok None else rdb_get r now' k.
Proof.
  revert r. induction ks as [|k' ks IH]; intros r; [done|]. cbn [foldl]. rewrite IH.
  destruct (decide (k' = k)) as [->|Hne].
  - rewrite rdb_get_del by apply up_del. case_bool_decide; by rewrite ?bool_decide_eq_true_2 by set_solver.
  - rewrite rdb_get_del_ne by done.
    assert (bool_decide (k ∈ k' :: ks) = bool_decide (k ∈ ks)) as -> by (apply bool_decide_ext; rewrite elem_of_cons; naive_solver).
    done.
Qed.
(** After a purge no tenant is cached. *)
Lemma purge_empty r now now' k :
  now ≤ now' → HasPrefix k "dns:meta:" = true → cached_tenant (purge_meta r now) now' k = None.
Proof.
  intros Hn Hk. unfold cached_tenant, purge_meta. rewrite get_dels. case_bool_decide as Hin; [done|].
  destruct (rdb_get r now' k) as [[v|]| |] eqn:Hg; try done. destruct Hin.
  by eapply (scan_complete r now now' k v "dns:meta:"); [|apply up_scan|..].
Qed.
Lemma purge_coherent w : coherent (PurgeMetaCache w).2.
Proof.
  destruct w as [db au r now fr fa me al]. intros p t now' Hn Hp Hc. simpl in *.
  rewrite purge_empty in Hc; [done|done|]. reflexivity.
Qed.
Lemma update_tenant_other id p f d d' q :
  update_tenant id p f d = Ok d' → (∀ r, tr_prefix (f r) = p) →
  (∀ r, r ∈ tenants d → ceq (tr_id r) id = true → tr_prefix r = p) → weight p ≠ weight q →
  db_tenant d' q = db_tenant d q.
Proof.
  intros Hu Hf Hold Hne. unfold update_tenant in Hu. destruct (has_id _ _ _); cbn [negb] in Hu; [|by simplify_eq].
  apply guarded_Ok in Hu as (_ & _ & ->). destruct d as [us ph ts td ug up sr hd ds]. unfold db_tenant. simpl in *.
  f_equal. apply first_match_update. intros r Hr Hid.
  rewrite Hf, (Hold r Hr Hid). unfold ceq. by rewrite bool_decide_eq_false_2.
Qed.
End coherence.

(** ** Accounts *)

Section accounts.
Context {R : Type} `{UnicodeCase} `{Redis R} `{RedisSets R} `{Collation} `{UUID} `{Bcrypt} `{TenantJSON}.
Implicit Types w : World R.

Definition user_row (id : string) (w : World R) : option UserRow :=
  first_match (λ r, ceq (ur_id r) id) (users (w_db w)).
Lemma first_match_update_same {A} (q : A → bool) u l :
  (∀ r, q (u r) = q r) → first_match q (update_where q u l) = u <$> first_match q l.
Proof.
  intros Hu. induction l as [|r l IH]; [done|]. cbn [update_where fmap list_fmap first_match].
  destruct (q r) eqn:Hr; [by rewrite Hu, Hr|]. rewrite Hr. apply IH.
Qed.
Lemma exec_update_users id f w :
  w_faults w = [] →
  exec (update_users id f) w = (Ok (), set_db (set_users (update_where (λ r, ceq (ur_id r) id) f (users (w_db w))) (w_db w)) w).
Proof. intros Hf. unfold exec, update_users. by rewrite next_fault_nil. Qed.
Lemma user_row_update id f w :
  (∀ r, ur_id (f r) = ur_id r) → w_faults w = [] →
  let w' := (exec (update_users id f) w).2 in user_row id w' = f <$> user_row id w ∧ w_faults w' = [].
Proof.
  intros Hf Hw. rewrite exec_update_users by done. destruct w as [[] ? ? ? ? ? ? ?]. simpl in *. split; [|done].
  apply first_match_update_same. intros r. by rewrite Hf.
Qed.
Lemma RecordLoginFailure_row id w :
  w_faults w = [] →
  let w' := (RecordLoginFailure id w).2 in user_row id w' = login_failure (w_now w) <$> user_row id w ∧ w_faults w' = [].
Proof. intros Hw. by apply (user_row_update id (login_failure (w_now w))). Qed.

(** Failed attempts on one account, each at its instant. *)
Definition run_failures (id : string) (times : list Time) (w : World R) : World R :=
  foldl (λ w t, (RecordLoginFailure id (set_now t w)).2) w times.
Lemma user_row_set_now id t w : user_row id (set_now t w) = user_row id w.
Proof. by destruct w. Qed.
Lemma w_now_set_now t w : w_now (set_now t w) = t.
Proof. by destruct w. Qed.
Lemma w_faults_set_now t w : w_faults (set_now t w) = w_faults w.
Proof. by destruct w. Qed.
Lemma run_failures_row id times w :
  w_faults w = [] →
  user_row id (run_failures id times w) = (λ r, foldl (λ r t, login_failure t r) r times) <$> user_row id w.
Proof.
  revert w. induction times as [|t times IH]; intros w Hw; [simpl; by destruct (user_row id w)|].
  cbn [run_failures foldl]. fold (run_failures id times (RecordLoginFailure id (set_now t w)).2).
  destruct (RecordLoginFailure_row id (set_now t w)) as [Hr Hf]; [by rewrite w_faults_set_now|].
  rewrite IH by done. rewrite Hr, user_row_set_now, w_now_set_now. by destruct (user_row id w).
Qed.
Lemma failures_counter times r :
  ur_failed_attempts (foldl (λ r t, login_failure t r) r times) = ur_failed_attempts r + Z.of_nat (length times).
Proof. revert r. induction times as [|t times IH]; intros r; [simpl; lia|]. cbn [foldl]. rewrite IH. simpl. lia. Qed.
Lemma failures_lock times t r :
  ur_locked_until r = None → ur_failed_attempts r = 0 →
  ur_locked_until (foldl (λ r t, login_failure t r) r (times ++ [t])) =
  if Nat.leb 4 (S (length times)) then Some (NOW t + 15 * minute) else None.
Proof.
  intros Hl Hz. revert t. induction times as [|t' times IH] using rev_ind; intros t.
  - simpl. by rewrite Hz.
  - rewrite foldl_app. cbn [foldl]. unfold login_failure at 1. cbn [ur_locked_until set_lock].
    rewrite IH, failures_counter, Hz, !length_app. cbn [length].
    destruct (Nat.leb_spec 4 (S (length times + 1))), (Nat.leb_spec 4 (S (length times)));
      destruct (Z.leb_spec 5 (0 + Z.of_nat (length times + 1) + 1 + 1)); try lia; done.
Qed.

(** The rows after a statement that inserts. *)
Lemma exec_insert f w d : w_faults w = [] → f (w_db w) = Ok d → exec f w = (Ok (), set_db d w).
Proof. intros Hw Hf. unfold exec. by rewrite next_fault_nil, Hf. Qed.
Lemma first_match_app {A} (P : A → bool) l1 l2 :
  first_match P l1 = None → first_match P (l1 ++ l2) = first_match P l2.
Proof. induction l1 as [|x l1 IH]; [done|]. simpl. destruct (P x); [done|]. apply IH. Qed.
Lemma has_id_no_match {A} (f : A → string) l v :
  has_id f l v = false → first_match (λ r, ceq (f r) v) l = None.
Proof.
  unfold has_id. induction l as [|x l IH]; [done|]. simpl. destruct (ceq (f x) v); [done|]. apply IH.
Qed.
Lemma fresh_id_Ok id w a w' : fresh_id id w = (Ok a, w') → w_db w' = w_db w.
Proof. unfold fresh_id. destruct (id =? "")%string; intros [= _ <-]; by destruct w. Qed.
(** A user without rows has no password history. *)
Lemma no_history d id :
  wf_db d → has_id ur_id (users d) id = false →
  filter (λ h, ceq (ph_user_id h) id = true) (password_history d) = [].
Proof.
  intros Hwf Hid%has_id_false. pose proof (wf_history_user _ Hwf) as Hh. rewrite Forall_forall in Hh.
  destruct (filter _ _) as [|h l] eqn:Hf; [done|]. exfalso.
  assert (h ∈ filter (λ h, ceq (ph_user_id h) id = true) (password_history d)) as [Hc Hin]%list_elem_of_filter by (rewrite Hf; left).
  unfold ceq in Hc. zbool. apply Hid. rewrite <-Hc. by apply Hh.
Qed.
End accounts.

(** ** Instances for evaluation

    A binary collation, numbered identifiers, a transparent hash and a JSON
    coder for one tenant. *)
Definition demo_collation : Collation := {| weight s := s |}.
Definition demo_uuid : UUID := {| NewString n := ("uuid-" +:+ pretty n)%string |}.
Definition demo_bcrypt : Bcrypt :=
  {| GenerateFromPassword n pw := Ok ("$2a$" +:+ pw)%string; CompareHashAndPassword h pw := (h =? "$2a$" +:+ pw)%string |}.
#[global] Instance Tenant_eq_dec : EqDecision Tenant.
Proof. solve_decision. Defined.
Definition demo_json : TenantJSON :=
  {| Marshal_tenant t := if decide (t = demo_tenant) then Ok "acme"%string else Err "unsupported";
     Unmarshal_tenant s := if (s =? "acme")%string then Ok demo_tenant else Err "invalid" |}.
#[global] Instance demo_json_laws : @TenantJSONLaws demo_json.
Proof. split. intros t s. simpl. case_decide; [|done]. by intros [= <-]; subst. Qed.
#[global] Instance demo_bcrypt_laws : @BcryptLaws demo_bcrypt.
Proof. split. intros n pw h [= <-]. apply String.eqb_refl. Qed.
#[global] Instance demo_collation_laws : @CollationLaws demo_collation.
Proof. by split. Qed.
#[global] Instance demo_redis_up : RedisUp DemoRedis.
Proof. by split. Qed.
#[global] Instance demo_redis_scan : RedisScanLaws DemoRedis.
Proof.
  split. simpl. intros r now now' k v pfx _ _ [= Hg] Hp. apply list_elem_of_filter. rewrite TrimSuffix_app.
  split; [done|]. apply list_elem_of_fmap. exists (k, v). split; [done|]. by apply elem_of_map_to_list.
Qed.
Definition demo_world (d : DB) : World DemoRedis :=
  {| w_db := d; w_audit := []; w_rdb := empty_redis; w_now := 1000 * second; w_fresh := 0; w_faults := [];
     w_mem := ∅; w_alerts := [] |}.
(** The world of a fresh installation. *)
Definition boot {R} (r : R) (now : Time) : World R :=
  {| w_db := empty_db; w_audit := []; w_rdb := r; w_now := now; w_fresh := 0; w_faults := []; w_mem := ∅; w_alerts := [] |}.

(** ** Properties *)

(** The database stays well formed: after any history of repository
    calls on a fresh installation, whatever fails on the way, identifiers,
    user names, tenant prefixes and bound domains are unique under the
    collation, every reference (user, group, rule, hot domain and bound
    domain to their tenant, upstream and rule to their group, password to
    its user) has its target, and every enumeration column holds one of its
    members. *)
Theorem repos_integrity {R} `{UnicodeCase} `{Redis R} `{RedisSets R} `{Collation} `{UUID} `{Bcrypt} `{TenantJSON} (r : R) now calls :
  wf_db (w_db (run_calls calls (boot r now))).
Proof. apply run_calls_wf, wf_empty. Qed.

Definition demo_rule_row (id name ty v : string) (prio : Z) : RuleRow :=
  {| rr_id := id; rr_tenant_id := None; rr_name := name; rr_match_type := ty; rr_match_value := v;
     rr_group_id := "g1"; rr_priority := prio; rr_enabled := true; rr_created_at := 0 |}.
Definition demo_rules_db : DB :=
  {| users := []; password_history := []; tenants := []; tenant_domains := [];
     upstream_groups := [{| gr_id := "g1"; gr_tenant_id := None; gr_name := "g"; gr_strategy := "weighted"; gr_health_domain := None; gr_created_at := 0 |}];
     upstreams := []; split_rules := [demo_rule_row "r1" "low" "all" "" 1; demo_rule_row "r2" "high" "suffix" "cn" 9];
     hot_domains := []; dualstack_bindings := [] |}.
Lemma demo_rules_wf : @wf_db demo_collation demo_rules_db.
Proof.
  split; unfold demo_rules_db; simpl; repeat first [apply NoDup_nil_2 | apply NoDup_cons_2 | apply Forall_nil_2 | apply Forall_cons_2];
    try (intros ? [=]); rewrite ?list_elem_of_singleton; try set_solver; done.
Qed.

(** C11: with a coherent cache [TenantByPrefix] is the table lookup: it
    answers exactly what the SELECT would (an enabled tenant with that
    prefix, or none), whether the answer came from Redis or from MySQL, and
    leaves the table unchanged and the cache coherent. *)
Theorem TenantByPrefix_refines {R} `{UnicodeCase} `{Redis R} `{Collation} `{TenantJSON}
    `{!RedisLaws R} `{!RedisUp R} `{!TenantJSONLaws} (w : World R) p :
  coherent w → w_faults w = [] → ValidPrefix p = true →
  ∃ w', TenantByPrefix p w = (Ok (db_tenant (w_db w) p), w') ∧ w_db w' = w_db w ∧ coherent w'.
Proof.
  intros Hc Hw Hp. unfold TenantByPrefix. cbv zeta. unfold mbind, act_bind at 1, redis_read.
  destruct (cached_tenant _ _ _) as [t|] eqn:Hhit.
  - exists w. split; [|done]. by rewrite (Hc p t (w_now w)).
  - unfold act_bind at 1. rewrite query_nil by done. cbv beta iota. unfold db_tenant at 1.
    destruct (first_match _ _) as [r|] eqn:Hr; [|by exists w].
    destruct (cache_tenant_coherent p (scanTenant r) w) as (w' & Hw' & Hd & Hc'); [done..|unfold db_tenant; by rewrite Hr|].
    exists w'. unfold act_bind. by rewrite Hw'.
Qed.
Definition demo_tenant_db : DB :=
  {| users := []; password_history := []; tenants := [tenant_row "t1" demo_tenant 0 0]; tenant_domains := [];
     upstream_groups := []; upstreams := []; split_rules := []; hot_domains := []; dualstack_bindings := [] |}.
Lemma demo_coherent d : @coherent _ _ demo_collation demo_json (demo_world d).
Proof. intros p t now' _ _ H. vm_compute in H. discriminate H. Qed.
Lemma TenantByPrefix_refines_witness :
  ∃ w', @TenantByPrefix _ _ demo_collation demo_json "acme-01" (demo_world demo_tenant_db) = (Ok (Some demo_tenant), w') ∧
        w_db w' = demo_tenant_db ∧ @coherent _ _ demo_collation demo_json w'.
Proof.
  apply (@TenantByPrefix_refines _ ascii_case _ demo_collation demo_json _ _ _ (demo_world demo_tenant_db) "acme-01");
    [apply demo_coherent|reflexivity|vm_compute; reflexivity].
Defined.

(** Updating a tenant without changing its prefix keeps the cache
    coherent, so the next lookup of any prefix sees the new settings at
    once. *)
Theorem UpdateTenant_coherent {R} `{Redis R} `{Collation} `{TenantJSON}
    `{!RedisDelLaws R} `{!RedisUp R} `{!CollationLaws} (w w' : World R) t :
  coherent w → w_faults w = [] → ValidPrefix (t_Prefix t) = true →
  (∀ r, r ∈ tenants (w_db w) → ceq (tr_id r) (t_ID t) = true → tr_prefix r = t_Prefix t) →
  UpdateTenant t w = (Ok (), w') → coherent w'.
Proof.
  intros Hc Hw Hp Hold. unfold UpdateTenant. rewrite Hp, andb_false_r. unfold mbind, act_bind, time_Now, exec.
  rewrite next_fault_nil by done. destruct (update_tenant _ _ _ _) as [d|e|] eqn:Hu; [|done..].
  destruct w as [db au r now fr fa me al]. simpl in *. intros [= <-] q t' now' Hn Hq. simpl in *.
  destruct (decide (t_Prefix t = q)) as [<-|Hne].
  - unfold cached_tenant. by rewrite rdb_get_del by apply up_del.
  - unfold cached_tenant. rewrite rdb_get_del_ne by (by intros ?%prefix_key_inj).
    intros Hcq. rewrite (update_tenant_other _ _ _ _ _ q Hu); [by eapply (Hc q t' now')|done|done|].
    intros ?%weight_prefix; done.
Qed.
Lemma UpdateTenant_coherent_witness :
  @coherent _ _ demo_collation demo_json (@UpdateTenant _ _ demo_collation demo_tenant (demo_world demo_tenant_db)).2.
Proof.
  apply (@UpdateTenant_coherent _ _ demo_collation demo_json _ _ _ (demo_world demo_tenant_db) _ demo_tenant);
    [apply demo_coherent|reflexivity|vm_compute; reflexivity| |vm_compute; reflexivity].
  intros r Hr. apply list_elem_of_singleton in Hr as ->. intros _. vm_compute. reflexivity.
Defined.

(** The lookup of a customer's own domain cannot succeed: its query
    selects columns that both joined tables have, which MySQL rejects, so
    unless a tenant is already cached for the name (and nothing else writes
    that key) every call ends in an error and routes to no tenant. *)
Theorem TenantByDomain_fails {R} `{UnicodeCase} `{Redis R} `{Collation} `{TenantJSON} (w : World R) host :
  ToLower (TrimSuffix host ".") ≠ "" → w_faults w = [] →
  cached_tenant (w_rdb w) (w_now w) (domain_cache_key (ToLower (TrimSuffix host "."))) = None →
  TenantByDomain host w = (Err "Error 1052 (23000): Column 'id' in field list is ambiguous", w).
Proof.
  intros Hh Hw Hc. unfold TenantByDomain. cbv zeta. rewrite (proj2 (String.eqb_neq _ _) Hh).
  unfold mbind, act_bind, redis_read. rewrite Hc, query_nil by done. reflexivity.
Qed.
Lemma TenantByDomain_fails_witness :
  @TenantByDomain _ ascii_case _ demo_collation demo_json "dns.customer.com." (demo_world demo_tenant_db) =
  (Err "Error 1052 (23000): Column 'id' in field list is ambiguous", demo_world demo_tenant_db).
Proof. apply TenantByDomain_fails; [vm_compute; discriminate|reflexivity|reflexivity]. Defined.

(** Account lockout: from a clean account, the counter holds the
    number of failed attempts, and the account is locked exactly from the
    fourth one on, until fifteen minutes after the latest. *)
Theorem lockout_after_four {R} `{Redis R} `{Collation} (w : World R) id r times t :
  w_faults w = [] → user_row id w = Some r → ur_failed_attempts r = 0 → ur_locked_until r = None →
  ∃ r', user_row id (run_failures id (times ++ [t]) w) = Some r' ∧
        ur_failed_attempts r' = Z.of_nat (S (length times)) ∧
        ur_locked_until r' = if Nat.leb 4 (S (length times)) then Some (NOW t + 15 * minute) else None.
Proof.
  intros Hw Hr Hz Hl. rewrite run_failures_row, Hr by done. eexists. split; [reflexivity|].
  rewrite failures_counter, failures_lock by done. rewrite Hz, length_app. simpl. split; [lia|done].
Qed.
Definition demo_user_row : UserRow :=
  {| ur_id := "u1"; ur_tenant_id := None; ur_username := "alice"; ur_password_hash := "$2a$Str0ng!Pass"; ur_role := "sysadmin";
     ur_email := None; ur_failed_attempts := 0; ur_locked_until := None; ur_last_login := None;
     ur_must_change_pwd := false; ur_pwd_changed_at := None; ur_created_at := 0 |}.
Definition demo_user_db : DB :=
  {| users := [demo_user_row]; password_history := []; tenants := []; tenant_domains := []; upstream_groups := [];
     upstreams := []; split_rules := []; hot_domains := []; dualstack_bindings := [] |}.
Lemma lockout_after_four_witness :
  ∃ r', @user_row _ demo_collation "u1" (@run_failures _ demo_collation "u1" ([0; second; 2 * second] ++ [3 * second]) (demo_world demo_user_db)) = Some r' ∧
        ur_failed_attempts r' = 4 ∧ ur_locked_until r' = Some (NOW (3 * second) + 15 * minute).
Proof.
  apply (@lockout_after_four _ _ demo_collation (demo_world demo_user_db) "u1" demo_user_row [0; second; 2 * second] (3 * second)); reflexivity.
Defined.

(** A new account can be found and opened: when [CreateUser]
    succeeds, the account is stored under its name with its tenant, e-mail
    and forced-change flag, and its password, and so far only its password,
    is in its history. *)
Theorem CreateUser_found {R} `{Collation} `{UUID} `{Bcrypt} `{!BcryptLaws}
    (w w' : World R) u u' pw :
  wf_db (w_db w) → CreateUser u pw w = (Ok u', w') →
  ∃ v, GetUserByUsername (u_Username u) (set_faults [] w') = (Ok (Some v), set_faults [] w') ∧
       u_ID v = u_ID u' ∧ u_Username v = u_Username u ∧ u_TenantID v = u_TenantID u ∧ u_Email v = u_Email u ∧
       u_MustChangePwd v = u_MustChangePwd u ∧ u_FailedAttempts v = 0 ∧ u_LockedUntil v = zeroTime ∧
       CheckPassword (u_PasswordHash v) pw = true ∧
       recent_hashes (u_ID u') 5 (w_db w') = [u_PasswordHash v].
Proof.
  intros Hwf (id & w1 & Hid & Hr1)%bind_Ok. apply fresh_id_Ok in Hid. cbv zeta in Hr1.
  apply bind_Ok in Hr1 as (h & w2 & Hh & (now & w3 & Hn & (x & w4 & He1 & (y & w5 & He2 & [= <- <-])%bind_Ok)%bind_Ok)%bind_Ok).
  destruct x, y. injection Hn as _ <-. injection Hh as Hh <-.
  apply exec_Ok in He1 as (d1 & f1 & Hi1 & ->), He2 as (d2 & f2 & Hi2 & ->).
  assert (w_db (set_fresh (S (w_fresh w1)) w1) = w_db w) as Hd by (rewrite <-Hid; by destruct w1).
  rewrite Hd in Hi1. unfold insert_user in Hi1. apply with_enum_Ok in Hi1 as (role & Hrole & Hi1).
  apply guarded_Ok in Hi1 as ([Hdi Hdn]%orb_false_iff & _ & ->). simpl in Hdi, Hdn.
  unfold insert_history in Hi2. apply guarded_Ok in Hi2 as (_ & _ & ->).
  pose proof (no_history _ _ Hwf Hdi) as Hno. apply has_id_no_match in Hdn.
  destruct (w_db w) as [us ph ts td ug up sr hd ds] eqn:Hw. destruct w1 as [? ? ? ? ? ? ? ?]. simpl in *.
  eexists. split.
  { unfold GetUserByUsername, mbind, act_bind. rewrite query_nil by done. simpl. rewrite first_match_app by done.
    simpl. unfold ceq. by rewrite bool_decide_eq_true_2. }
  unfold scanUser. simpl. rewrite !nullStr_str. split_and!; try done.
  - by eapply Compare_Generate.
  - unfold recent_hashes. simpl. rewrite filter_app, Hno. simpl. rewrite filter_cons_True; [done|].
    simpl. unfold ceq. by rewrite bool_decide_eq_true_2.
Qed.
Lemma CreateUser_found_witness :
  let u := {| u_ID := ""; u_TenantID := ""; u_Username := "bob"; u_PasswordHash := ""; u_Role := "secadmin"; u_Email := "b@x";
              u_FailedAttempts := 0; u_LockedUntil := zeroTime; u_LastLogin := zeroTime; u_MustChangePwd := true;
              u_PwdChangedAt := zeroTime; u_CreatedAt := zeroTime |} in
  let r := @CreateUser _ demo_collation demo_uuid demo_bcrypt u "Secr3t!pass" (boot empty_redis second) in
  ∃ v, @GetUserByUsername _ demo_collation "bob" (set_faults [] r.2) = (Ok (Some v), set_faults [] r.2) ∧ u_ID v = "uuid-0".
Proof.
  intros u r.
  destruct (@CreateUser_found _ demo_collation demo_uuid demo_bcrypt _ (boot empty_redis second) r.2 u
    (set_u_ID u "uuid-0") "Secr3t!pass") as (v & Hv & Hid & _).
  - apply wf_empty.
  - vm_compute. reflexivity.
  - exists v. split; [exact Hv|exact Hid].
Defined.

(** Reuse of a recent password is refused: when the hash of a password
    of the account is in the history and at most [n] passwords of the
    account are as recent, the check over the last [n] reports it. *)
Theorem reuse_detected {R} `{Collation} `{Bcrypt} (w : World R) id pw n h :
  w_faults w = [] → h ∈ password_history (w_db w) → ceq (ph_user_id h) id = true →
  CheckPassword (ph_password_hash h) pw = true →
  (length (filter (λ y, (ph_created_at h ≤ ph_created_at y)%Z)
            (filter (λ y, ceq (ph_user_id y) id = true) (password_history (w_db w)))) ≤ Z.to_nat n)%nat →
  CheckPasswordHistory id pw n w = (Ok true, w).
Proof.
  intros Hw Hin Hid Hpw Hn. unfold CheckPasswordHistory, mbind, act_bind. rewrite query_nil by done.
  unfold mret, act_ret. do 2 f_equal. apply existsb_exists. exists (ph_password_hash h). split; [|done].
  apply list_elem_of_In, list_elem_of_fmap_2, take_recent; [|done]. by apply list_elem_of_filter.
Qed.
Definition demo_history_db : DB :=
  {| users := [demo_user_row]; password_history := [{| ph_user_id := "u1"; ph_password_hash := "$2a$old"; ph_created_at := 1 |};
       {| ph_user_id := "u1"; ph_password_hash := "$2a$new"; ph_created_at := 2 |}];
     tenants := []; tenant_domains := []; upstream_groups := []; upstreams := []; split_rules := []; hot_domains := [];
     dualstack_bindings := [] |}.
Lemma reuse_detected_witness :
  @CheckPasswordHistory _ demo_collation demo_bcrypt "u1" "old" 5 (demo_world demo_history_db) = (Ok true, demo_world demo_history_db).
Proof.
  apply (@reuse_detected _ demo_collation demo_bcrypt _ "u1" "old" 5 {| ph_user_id := "u1"; ph_password_hash := "$2a$old"; ph_created_at := 1 |});
    [reflexivity|left|reflexivity|reflexivity|vm_compute; lia].
Defined.
