(* ===== verification/Http.v ===== *)
(** * Requests, responses and middleware (src/internal/api/server.go)

    What the handlers read of an [http.Request] and the responses they
    write, the client address, the middleware around the router and the
    composition of handlers. [encoding/json] on request bodies is a
    parameter of the handlers; a response body is kept as the value that is
    encoded. *)

From Stdlib Require Import QArith.
From S2P Require Import Prelude GoStrings GoNet Config Model StoreCache RateLimit Handler QueryLog Db World Repos.
Open Scope Z_scope.

(** The claims of a token; [jwt.NumericDate]s have whole seconds. *)
Record Claims := {
  c_Role : string; c_TID : string; c_Use : string; c_Scope : string;
  c_Subject : string; c_ID : string; c_IssuedAt : option Z; c_ExpiresAt : option Z; c_Issuer : string
}.

Record Request := {
  rq_method : string; rq_path : string; rq_id : string;       (* URL.Path, PathValue("id") *)
  rq_query : list (string * string);                           (* URL.Query() *)
  rq_Authorization : string; rq_XRealIP : string; rq_Origin : string; rq_Bootstrap : string;
  rq_RemoteAddr : string; rq_body : string;
  rq_claims : option Claims;                                   (* the context value ctxClaims *)
}.
Definition with_claims (rq : Request) (c : Claims) : Request :=
  {| rq_method := rq_method rq; rq_path := rq_path rq; rq_id := rq_id rq; rq_query := rq_query rq;
     rq_Authorization := rq_Authorization rq; rq_XRealIP := rq_XRealIP rq; rq_Origin := rq_Origin rq;
     rq_Bootstrap := rq_Bootstrap rq; rq_RemoteAddr := rq_RemoteAddr rq; rq_body := rq_body rq; rq_claims := Some c |}.
Definition with_id (rq : Request) (id : string) : Request :=
  {| rq_method := rq_method rq; rq_path := rq_path rq; rq_id := id; rq_query := rq_query rq;
     rq_Authorization := rq_Authorization rq; rq_XRealIP := rq_XRealIP rq; rq_Origin := rq_Origin rq;
     rq_Bootstrap := rq_Bootstrap rq; rq_RemoteAddr := rq_RemoteAddr rq; rq_body := rq_body rq; rq_claims := rq_claims rq |}.
Definition claimsFrom (rq : Request) : option Claims := rq_claims rq.
(** [r.URL.Query().Get(k)] *)
Definition query_get (rq : Request) (k : string) : string :=
  match first_match (λ kv, (kv.1 =? k)%string) (rq_query rq) with Some kv => kv.2 | None => "" end.

Record tokenPair := { AccessToken : string; RefreshToken : string; ExpiresIn : Z; TokenType : string }.
(** The result of a simulated query. *)
Record AnswerBrief := { ab_Name : string; ab_Type : string; ab_TTL : Z; ab_Data : string }.
Record SimulateResult := {
  sr_QName : string; sr_QType : string; sr_ECSRequested : string; sr_ECSUsed : string; sr_TenantID : string;
  sr_TenantName : string; sr_CacheHit : bool; sr_UpstreamGroup : string; sr_Upstream : string; sr_RTTMS : Z;
  sr_RCode : string; sr_DNSSECValidated : bool; sr_VIP : bool; sr_Answers : list AnswerBrief; sr_RuleMatched : string
}.
(** The figures of the overview; rates are exact rationals, as in the
    counters they come from. *)
Record Overview := {
  ov_instance_id : string; ov_qps : Q; ov_hit_rate_pct : Q; ov_error_rate_pct : Q;
  ov_total_queries : Z; ov_total_hits : Z; ov_total_errors : Z; ov_tenant_queries : option Z
}.
(** Usage per tenant and its totals. *)
Record TenantUsage := {
  tu_TenantID : string; tu_Name : string; tu_Prefix : string; tu_BaseDomain : string;
  tu_VIP : bool; tu_Users : Z; tu_Queries : Z
}.
Record Usage := {
  us_window_hours : Z; us_since : string; us_free_users : Z; us_vip_users : Z; us_total_users : Z;
  us_free_tenants : Z; us_vip_tenants : Z; us_free_queries : Z; us_vip_queries : Z; us_tenants : list TenantUsage
}.
(** The platform's own certificate, in the overview of certificates. *)
Record BaseCert := { bc_Domain : string; bc_Expiry : option Time; bc_Valid : bool; bc_Source : string }.
(** The values encoded as response bodies. *)
Inductive Body :=
| BErr (msg : string)
| BNone
| BObj (fields : list (string * string))
| BTokens (p : tokenPair)
| BMustChange (access tokenType : string) (expiresIn : Z)
| BMe (u : User) (t : option Tenant)
| BTenant (t : Tenant)
| BTenants (ts : list Tenant)
| BNewTenant (t : Tenant) (username password : string)
| BUser (u : User)
| BUsers (us : list User)
| BGroup (g : UpstreamGroup)
| BGroups (gs : list UpstreamGroup)
| BUpstream (u : Upstream)
| BRule (r : SplitRule)
| BRules (rs : list SplitRule)
| BHot (h : HotDomain)
| BHots (hs : list HotDomain)
| BDomain (d : TenantDomain)
| BDomains (ds : list TenantDomain)
| BSecurity (locked mustChange : Z) (recent : list LoginFailure)
| BDeleted (n : Z)
| BVerify (ok : bool) (break_id : Z) (ts : Time)
| BEndpoints (fields : list (string * string))
| BQueries (id : string) (n : Z)
| BJob (j : WarmJob)
| BJobs (js : list WarmJob)
| BCacheStats (driver : string) (flushed queued dropped active_ecs verified failed : Z)
| BOverview (o : Overview)
| BUpstreams (by_upstream : gmap string Z) (health : gmap string bool)
| BUsage (u : Usage)
| BLogs (total : Z) (rows : list QueryLogRow)
| BAudit (rows : list AuditRow)
| BSimulate (r : SimulateResult)
| BCerts (acme_enabled acme_staging : bool) (base : BaseCert) (domains : list TenantDomain)
| BInfo (base_domain dnssec_mode : string) (ecs_enabled : bool) (version : string) (features : list string).
Record Resp := { rs_code : Z; rs_body : Body }.
Definition writeJSON {R} (code : Z) (b : Body) : act R Resp := mret {| rs_code := code; rs_body := b |}.
Definition writeErr {R} (code : Z) (msg : string) : act R Resp := writeJSON code (BErr msg).

Abbreviation StatusOK := 200 (only parsing).
Abbreviation StatusCreated := 201 (only parsing).
Abbreviation StatusAccepted := 202 (only parsing).
Abbreviation StatusNoContent := 204 (only parsing).
Abbreviation StatusBadRequest := 400 (only parsing).
Abbreviation StatusUnauthorized := 401 (only parsing).
Abbreviation StatusForbidden := 403 (only parsing).
Abbreviation StatusNotFound := 404 (only parsing).
Abbreviation StatusMethodNotAllowed := 405 (only parsing).
Abbreviation StatusConflict := 409 (only parsing).
Abbreviation StatusTooManyRequests := 429 (only parsing).
Abbreviation StatusInternalServerError := 500 (only parsing).
Abbreviation StatusServiceUnavailable := 503 (only parsing).

Definition clientIP (trustProxyHeaders : bool) (rq : Request) : string :=
  let peer := match SplitHostPort (rq_RemoteAddr rq) with Ok (host, _) => host | _ => rq_RemoteAddr rq end in
  if trustProxyHeaders then
    let ip := ParseIP (rq_XRealIP rq) in
    if is_nil ip then peer else IPString ip
  else peer.

Abbreviation HandlerFunc R := (Request → act R Resp).
(** Handlers that also use the DNS core run in a larger state; the parts of
    the middlewares that need only the control plane are lifted to it. *)
Class Lift (R : Type) (M : Type → Type) := lift : ∀ {A}, act R A → M A.
#[global] Instance lift_act {R} : Lift R (act R) := λ A m, m.
(** The middlewares are applied from the last to the first: the first of
    the list is the outermost. *)
Definition chain {H : Type} (h : H) (mws : list (H → H)) : H := foldr (λ mw h, mw h) h mws.

(** [strings.EqualFold] of ASCII strings. *)
Definition EqualFold `{UnicodeCase} (a b : string) : bool := (ToLower a =? ToLower b)%string.
(** The CORS headers set for an origin, none when it is not in the list. *)
Definition cors_headers `{UnicodeCase} (cfg : Config) (origin : string) : list (string * string) :=
  if negb (origin =? "")%string && existsb (λ o, EqualFold o origin) (APICORSOrigins cfg) then
    [("Access-Control-Allow-Origin", origin); ("Access-Control-Allow-Credentials", "false");
     ("Access-Control-Allow-Methods", "GET, POST, PUT, DELETE, OPTIONS");
     ("Access-Control-Allow-Headers", "Authorization, Content-Type"); ("Vary", "Origin")]
  else [].
Definition security_headers : list (string * string) :=
  [("X-Content-Type-Options", "nosniff"); ("X-Frame-Options", "DENY"); ("Referrer-Policy", "no-referrer")].
(** The response headers, and the response of the router; a panic of a
    handler is recovered. *)
Definition middleware {St : Type} `{UnicodeCase} (cfg : Config) (next : Request → St → outcome Resp * St) (rq : Request)
    : St → outcome (list (string * string) * Resp) * St := λ w,
  let hs := security_headers ++ cors_headers cfg (rq_Origin rq) in
  if (rq_method rq =? "OPTIONS")%string then (Ok (hs, {| rs_code := StatusNoContent; rs_body := BNone |}), w)
  else match next rq w with
       | (Ok r, w) => (Ok (hs, r), w)
       | (_, w) => (Ok (hs, {| rs_code := StatusInternalServerError; rs_body := BErr "internal error" |}), w)
       end.
