(* ===== verification/Auth.v ===== *)
(** * Authentication (src/internal/api/auth.go)

    Tokens and sessions: login with lockout and rate limit, single-use
    refresh tokens kept in Redis, logout and revocation, the middleware that
    admits a request, role checks, the password policy, self-service
    password change and security alerts. The JWT library is a parameter with
    its documented behaviour; so are the EXISTS and GETDEL commands. *)

From S2P Require Import Prelude GoStrings GoNet Config Model Sha256 StoreCache AnswerCache RateLimit Warmup QueryLog Db World Repos Http.

(** ** Parameters *)

(** [jwt.NewWithClaims(HS256, c).SignedString(secret)] and
    [jwt.ParseWithClaims] with the options of [parse]: method HS256, issuer
    "dns-platform", expiration required. *)
Class JWT := {
  SignedString : Claims → string → option string;   (* [None]: the error *)
  ParseWithClaims : string → Time → string → option Claims;
}.
(** A signed token parses to its claims until it expires and to nothing
    afterwards; the issuer and the expiration are enforced. *)
Class JWTLaws `{JWT} : Prop := {
  Parse_Signed : ∀ c secret tok now e, SignedString c secret = Some tok → c_Issuer c = "dns-platform" →
    c_ExpiresAt c = Some e → ParseWithClaims secret now tok = if now <? e * second then Some c else None;
  Parse_valid : ∀ secret now tok c, ParseWithClaims secret now tok = Some c →
    c_Issuer c = "dns-platform" ∧ ∃ e, c_ExpiresAt c = Some e ∧ now < e * second;
}.
Class RedisSession (R : Type) := {
  rdb_exists : R → Time → string → outcome Z;
  rdb_getdel : R → Time → string → R * outcome (option string);
}.
(** [encoding/json] on the request bodies; [None] is a decoding error. *)
Record Credentials := { cr_Username : string; cr_Password : string }.
Record PasswordChange := { pc_Old : string; pc_New : string }.
Class AuthJSON := {
  Decode_login : string → option Credentials;
  Decode_refresh : string → option string;
  Decode_change : string → option PasswordChange;
}.
(** [time.Format] with the layouts of the audit table and of the alerts;
    whether [http.NewRequest] accepts a URL. *)
Class Clock := {
  Format_micro : Time → string;
  Format_sec : Time → string;
  url_valid : string → bool;
}.

(** ** Password policy and roles *)

Definition passwordMinLen : nat := 10.
Definition passwordMaxLen : nat := 72.
Definition is_upper (c : Z) : bool := (65 <=? c) && (c <=? 90).
Definition is_lower (c : Z) : bool := (97 <=? c) && (c <=? 122).
Definition is_number (c : Z) : bool := (48 <=? c) && (c <=? 57).
Definition is_special (c : Z) : bool := negb (is_upper c) && negb (is_lower c) && negb (is_number c).
Record Classes := { hasUpper : bool; hasLower : bool; hasDigit : bool; hasSpecial : bool }.
Definition class_step (k : Classes) (c : Z) : Classes :=
  if is_upper c then {| hasUpper := true; hasLower := hasLower k; hasDigit := hasDigit k; hasSpecial := hasSpecial k |}
  else if is_lower c then {| hasUpper := hasUpper k; hasLower := true; hasDigit := hasDigit k; hasSpecial := hasSpecial k |}
  else if is_number c then {| hasUpper := hasUpper k; hasLower := hasLower k; hasDigit := true; hasSpecial := hasSpecial k |}
  else {| hasUpper := hasUpper k; hasLower := hasLower k; hasDigit := hasDigit k; hasSpecial := true |}.
Definition no_classes : Classes := {| hasUpper := false; hasLower := false; hasDigit := false; hasSpecial := false |}.
Definition ValidatePasswordStrength `{UnicodeCase} (username password : string) : string :=
  if Nat.ltb (len password) passwordMinLen then "password must be at least 10 characters"
  else if Nat.ltb passwordMaxLen (len password) then "password must be at most 72 characters"
  else
    let k := foldl class_step no_classes (runes password) in
    if negb (hasUpper k) || negb (hasLower k) || negb (hasDigit k) || negb (hasSpecial k)
    then "password must contain upper, lower, digit and special characters"
    else if Contains (ToLower password) (ToLower username) && negb (username =? "")%string
    then "password must not contain the username"
    else "".

Lemma existsb_elem {A} (p : A → bool) l : existsb p l = true ↔ ∃ c, c ∈ l ∧ p c = true.
Proof. rewrite existsb_exists. by setoid_rewrite <-list_elem_of_In. Qed.
Lemma classes_spec rs k :
  let k' := foldl class_step k rs in
  hasUpper k' = hasUpper k || existsb is_upper rs ∧ hasLower k' = hasLower k || existsb is_lower rs ∧
  hasDigit k' = hasDigit k || existsb is_number rs ∧ hasSpecial k' = hasSpecial k || existsb is_special rs.
Proof.
  revert k. induction rs as [|c rs IH]; intros k; simpl; [by rewrite !orb_false_r|].
  destruct (IH (class_step k c)) as (-> & -> & -> & ->). unfold class_step, is_special.
  destruct (is_upper c) eqn:Hu, (is_lower c) eqn:Hl, (is_number c) eqn:Hn; simpl;
    rewrite ?orb_true_r, ?orb_assoc, ?orb_false_r; try done;
    exfalso; unfold is_upper, is_lower, is_number in *; lia.
Qed.

(** The map [allowed] of [requireRole]: the entry of [admin] is overwritten
    with that of [sysadmin]. *)
Definition role_allowed (roles : list Role) (role : Role) : bool :=
  if (role =? RoleAdmin)%string then existsb (String.eqb RoleSysAdmin) roles else existsb (String.eqb role) roles.
Definition requireRole {R M} `{Lift R M} (roles : list Role) (next : Request → M Resp) : Request → M Resp := λ rq,
  match claimsFrom rq with
  | Some c => if role_allowed roles (c_Role c) then next rq else lift (writeErr StatusForbidden "insufficient role")
  | None => lift (writeErr StatusForbidden "insufficient role")
  end.
Definition requireAdmin {R M} `{Lift R M} : (Request → M Resp) → Request → M Resp := requireRole [RoleAdmin; RoleSysAdmin].
Definition isPlatformAdmin (role : string) : bool := (role =? RoleAdmin)%string || (role =? RoleSysAdmin)%string.

(** ** Alerts: [hmac.New(sha256.New, key)] and [url.QueryEscape] of base64 *)

Definition hmac_sha256 (key msg : list Z) : list Z :=
  let key := if Nat.ltb 64 (length key) then sha256 key else key in
  let k := key ++ replicate (64 - length key) 0 in
  sha256 ((Z.lxor 92 <$> k) ++ sha256 ((Z.lxor 54 <$> k) ++ msg)).
Fixpoint QueryEscape_b64 (s : string) : string :=
  match s with
  | EmptyString => EmptyString
  | String c s =>
      let r := QueryEscape_b64 s in
      if (c =? "+")%char then ("%2B" +:+ r)%string
      else if (c =? "/")%char then ("%2F" +:+ r)%string
      else if (c =? "=")%char then ("%3D" +:+ r)%string
      else String c r
  end.
Definition newline : string := String (ascii_of 10) EmptyString.
Definition UnixMilli (t : Time) : Z := t / millisecond.

Section auth.
Context {R : Type} `{UnicodeCase} `{Redis R} `{RedisSets R} `{RedisCount R} `{RedisSession R}
  `{Collation} `{UUID} `{Bcrypt} `{JWT} `{AuthJSON} `{Clock} (cfg : Config).

(** [EXISTS key], as the callers use it. *)
Definition exists_key (key : string) : act R (outcome Z) := redis_read (λ r now, rdb_exists r now key).

Definition alert_url (now : Time) : string :=
  if (SecurityAlertToken cfg =? "")%string then SecurityAlertWebhook cfg
  else
    let ts := fmt_d (UnixMilli now) in
    let mac := hmac_sha256 (bytes_of (SecurityAlertToken cfg)) (bytes_of (ts +:+ newline +:+ SecurityAlertToken cfg)%string) in
    (SecurityAlertWebhook cfg +:+ "&timestamp=" +:+ ts +:+ "&sign=" +:+ QueryEscape_b64 (EncodeToString mac))%string.
Definition alert_text (title content : string) (now : Time) : string :=
  ("[dns-platform安全告警] " +:+ title +:+ newline +:+ content +:+ newline +:+ "时间: " +:+ Format_sec now)%string.
Definition cooldown_key (title : string) : string := ("dns:alert:cooldown:" +:+ title)%string.
(** The outcome of the POST is not observed: an alert that leaves is
    recorded with its URL and text. *)
Definition post_alert (url text : string) : act R unit := λ w,
  (Ok (), set_alerts (w_alerts w ++ [(url, text)]) w).
Definition sendSecurityAlert (title content : string) : act R unit :=
  if (SecurityAlertWebhook cfg =? "")%string then mret () else
  n ← exists_key (cooldown_key title);
  if match n with Ok n => 0 <? n | _ => false end then mret () else
  _ ← (if 0 <? SecurityAlertCooldown cfg
       then redis (λ r now, ((rdb_set r now (cooldown_key title) "1" (SecurityAlertCooldown cfg)).1, ()))
       else mret ());
  now ← time_Now;
  if url_valid (alert_url now) then post_alert (alert_url now) (alert_text title content now) else mret ().

(** [WriteAudit] in its transaction: begin, select, insert, commit. *)
Definition write_audit (a : AuditRow) : act R unit := λ w,
  let '(f1, w) := next_fault w in
  let '(f2, w) := next_fault w in
  let '(f3, w) := next_fault w in
  let '(f4, w) := next_fault w in
  let fs := {| begin_err := f1; select_err := f2; insert_err := f3; commit_err := f4 |} in
  let '(t, err) := WriteAudit Format_micro (w_audit w) fs (w_now w) (Z.of_nat (length (w_audit w)) + 1) a in
  match err with
  | None => (Ok (), set_audit t w)
  | Some e => (Err e, set_audit t w)
  end.
Definition audit_row (actorID actorName action target detail ip : string) : AuditRow :=
  {| a_TS := zeroTime; a_ActorID := actorID; a_ActorName := actorName; a_Action := action; a_Target := target;
     a_Detail := detail; a_ClientIP := ip; a_PrevHash := ""; a_EntryHash := ""; a_Verifier := "" |}.
Definition audit (rq : Request) (u : User) (action target detail : string) : act R unit :=
  ignore (write_audit (audit_row (u_ID u) (u_Username u) action target detail (clientIP (TrustProxyHeaders cfg) rq))).

(** ** The limiter of the API *)

Definition api_limiter (w : World R) : Limiter R :=
  {| l_rdb := Some (w_rdb w); l_qps := RateLimitQPS cfg; l_vipMul := RateLimitVIPMult cfg; mem2 := w_mem w |}.
Definition put_limiter (l : Limiter R) (w : World R) : World R :=
  set_mem (mem2 l) (match l_rdb l with Some r => set_rdb r w | None => w end).
Definition allow_login (ip : string) : act R bool := λ w,
  match AllowLogin (api_limiter w) (w_now w) ip (LoginRateLimit cfg) (LoginRateWindow cfg) with
  | Ok (l, b) => (Ok b, put_limiter l w)
  | Err e => (Err e, w)
  | Panic => (Panic, w)
  end.
Definition reset_login (ip : string) : act R unit := λ w,
  (Ok (), put_limiter (ResetLogin (api_limiter w) (w_now w) ip) w).

(** ** Tokens *)

Definition claims_of (u : User) (use scope jti : string) (now : Time) (life : Z) : Claims :=
  {| c_Role := u_Role u; c_TID := u_TenantID u; c_Use := use; c_Scope := scope; c_Subject := u_ID u; c_ID := jti;
     c_IssuedAt := Some (Unix now); c_ExpiresAt := Some (Unix (now + life)); c_Issuer := "dns-platform" |}.
Definition signed (o : option string) : act R string := match o with Some s => mret s | None => fail "sign" end.
Definition as_error (e : option string) : act R unit := match e with Some e => fail e | None => mret () end.
Definition issuePair (u : User) : act R tokenPair :=
  now ← time_Now;
  accessJTI ← uuid_NewString;
  refreshJTI ← uuid_NewString;
  at_ ← signed (SignedString (claims_of u "access" "" accessJTI now (JWTExpiry cfg)) (APIJWTSecret cfg));
  rt ← signed (SignedString (claims_of u "refresh" "" refreshJTI now (JWTRefreshExp cfg)) (APIJWTSecret cfg));
  e ← redis (λ r now, rdb_set r now (refresh_key refreshJTI) (u_ID u) (JWTRefreshExp cfg));
  _ ← as_error e;
  e ← redis (λ r now, rdb_sadd r now (refresh_index (u_ID u)) [refreshJTI]);
  _ ← as_error e;
  _ ← redis (λ r now, (rdb_expire r now (refresh_index (u_ID u)) (JWTRefreshExp cfg), ()));
  mret {| AccessToken := at_; RefreshToken := rt; ExpiresIn := int_seconds (JWTExpiry cfg); TokenType := "Bearer" |}.
Definition issueRestrictedPair (u : User) (scope : string) : act R tokenPair :=
  now ← time_Now;
  accessJTI ← uuid_NewString;
  at_ ← signed (SignedString (claims_of u "access" scope accessJTI now (15 * minute)) (APIJWTSecret cfg));
  mret {| AccessToken := at_; RefreshToken := ""; ExpiresIn := 900; TokenType := "Bearer" |}.

Definition parse (token : string) (refresh : bool) : act R (option Claims) :=
  now ← time_Now;
  match ParseWithClaims (APIJWTSecret cfg) now token with
  | None => mret None
  | Some claims =>
      if refresh then
        n ← exists_key (refresh_key (c_ID claims));
        match n with
        | Ok n => if n =? 0 then mret None else mret (Some claims)
        | _ => mret None
        end
      else mret (Some claims)
  end.

(** ** Handlers *)

(** [u.LockedUntil.After(time.Now())] *)
Definition is_locked (u : User) (now : Time) : bool := now <? u_LockedUntil u.

Definition login (rq : Request) : act R Resp :=
  let ip := clientIP (TrustProxyHeaders cfg) rq in
  ok ← allow_login ip;
  if negb ok then writeErr StatusTooManyRequests "too many login attempts, try again later" else
  match Decode_login (rq_body rq) with
  | None => writeErr StatusBadRequest "invalid body"
  | Some req =>
      let username := ToLower (TrimSpace (cr_Username req)) in
      if (username =? "")%string || (cr_Password req =? "")%string
      then writeErr StatusBadRequest "username and password required" else
      u ← try_ (GetUserByUsername username);
      match u with
      | Err _ | Panic => writeErr StatusInternalServerError "db error"
      | Ok None => writeErr StatusUnauthorized "invalid credentials"
      | Ok (Some u) =>
          now ← time_Now;
          if is_locked u now then writeErr StatusUnauthorized "invalid credentials"
          else if negb (CheckPassword (u_PasswordHash u) (cr_Password req)) then
            _ ← ignore (RecordLoginFailure (u_ID u));
            let fails := u_FailedAttempts u + 1 in
            _ ← audit rq u "auth.login_failed" ("user:" +:+ u_Username u)%string "";
            _ ← (if SecurityAlertMinFails cfg <=? fails
                 then sendSecurityAlert "登录失败告警" ("用户 " +:+ u_Username u +:+ " 连续失败 " +:+ fmt_d fails +:+ " 次, IP=" +:+ ip)%string
                 else mret ());
            writeErr StatusUnauthorized "invalid credentials"
          else
            _ ← ignore (RecordLoginSuccess (u_ID u));
            _ ← reset_login ip;
            _ ← audit rq u "auth.login" ("user:" +:+ u_Username u)%string "";
            if u_MustChangePwd u then
              p ← try_ (issueRestrictedPair u "change-password");
              match p with
              | Ok p => writeJSON StatusOK (BMustChange (AccessToken p) (TokenType p) (ExpiresIn p))
              | _ => writeErr StatusInternalServerError "token issue failed"
              end
            else
              p ← try_ (issuePair u);
              match p with
              | Ok p => writeJSON StatusOK (BTokens p)
              | _ => writeErr StatusInternalServerError "token issue failed"
              end
      end
  end.

Definition refresh (rq : Request) : act R Resp :=
  match Decode_refresh (rq_body rq) with
  | None => writeErr StatusBadRequest "invalid body"
  | Some token =>
      claims ← parse token true;
      match claims with
      | None => writeErr StatusUnauthorized "invalid refresh token"
      | Some claims =>
          if negb (c_Use claims =? "refresh")%string then writeErr StatusUnauthorized "invalid refresh token" else
          uid ← redis (λ r now, rdb_getdel r now (refresh_key (c_ID claims)));
          match uid with
          | Ok None => writeErr StatusUnauthorized "refresh token already used or revoked"
          | Err _ | Panic => writeErr StatusUnauthorized "invalid refresh token"
          | Ok (Some uid) =>
              if negb (uid =? c_Subject claims)%string then writeErr StatusUnauthorized "invalid refresh token" else
              u ← try_ (GetUserByID (c_Subject claims));
              match u with
              | Ok (Some u) =>
                  now ← time_Now;
                  if is_locked u now then writeErr StatusUnauthorized "account locked"
                  else if u_MustChangePwd u then writeErr StatusUnauthorized "password change required"
                  else
                    p ← try_ (issuePair u);
                    match p with
                    | Ok p => writeJSON StatusOK (BTokens p)
                    | _ => writeErr StatusInternalServerError "token issue failed"
                    end
              | _ => writeErr StatusUnauthorized "user not found"
              end
          end
      end
  end.

Definition blacklist_key (jti : string) : string := ("dns:jwt:blacklist:" +:+ jti)%string.
(** [claims.ExpiresAt.Time] of parsed claims is present. *)
Definition logout (rq : Request) : act R Resp :=
  _ ← match claimsFrom rq with
      | None => mret ()
      | Some c =>
          match c_ExpiresAt c with
          | None => panic
          | Some e =>
              now ← time_Now;
              let ttl := e * second - now in
              _ ← (if 0 <? ttl then redis (λ r now, ((rdb_set r now (blacklist_key (c_ID c)) "1" ttl).1, ())) else mret ());
              _ ← RevokeAllSessions (c_Subject c);
              u ← try_ (GetUserByID (c_Subject c));
              match u with
              | Ok (Some u) => audit rq u "auth.logout" ("user:" +:+ u_Username u)%string ""
              | _ => mret ()
              end
          end
      end;
  writeJSON StatusOK (BObj [("status", "ok")]).

(** [Get(key).Int64()]: the value parsed as a 64-bit integer. *)
Definition revoked_at (r : R) (now : Time) (uid : string) : option Z :=
  match rdb_get r now (rev_key uid) with Ok (Some v) => Atoi v | _ => None end.
Definition authMiddleware {M} `{MBind M} `{!Lift R M} (next : Request → M Resp) : Request → M Resp := λ rq,
  let hdr := rq_Authorization rq in
  if negb (HasPrefix hdr "Bearer ") then lift (writeErr StatusUnauthorized "missing bearer token") else
  let token := TrimPrefix hdr "Bearer " in
  claims ← lift (parse token false);
  match claims with
  | None => lift (writeErr StatusUnauthorized "invalid or expired token")
  | Some c =>
      if negb (c_Use c =? "access")%string then lift (writeErr StatusUnauthorized "invalid token type") else
      n ← lift (exists_key (blacklist_key (c_ID c)));
      if match n with Ok n => 0 <? n | _ => false end then lift (writeErr StatusUnauthorized "token revoked") else
      rev ← lift (redis_read (λ r now, revoked_at r now (c_Subject c)));
      if match rev, c_IssuedAt c with Some ts, Some iat => (0 <? ts) && (iat <? ts) | _, _ => false end
      then lift (writeErr StatusUnauthorized "token revoked")
      else if negb (c_Scope c =? "")%string && negb (rq_path rq =? "/api/v1/auth/change-password")%string
      then lift (writeErr StatusForbidden "restricted token cannot access this endpoint")
      else next (with_claims rq c)
  end.

Definition changePassword (rq : Request) : act R Resp :=
  match claimsFrom rq with
  | None => writeErr StatusUnauthorized "unauthorized"
  | Some c =>
      match Decode_change (rq_body rq) with
      | None => writeErr StatusBadRequest "invalid body"
      | Some in_ =>
          u ← try_ (GetUserByID (c_Subject c));
          match u with
          | Ok (Some u) =>
              if negb (CheckPassword (u_PasswordHash u) (pc_Old in_)) then writeErr StatusBadRequest "old password incorrect" else
              let msg := ValidatePasswordStrength (u_Username u) (pc_New in_) in
              if negb (msg =? "")%string then writeErr StatusBadRequest msg else
              reused ← try_ (CheckPasswordHistory (u_ID u) (pc_New in_) 5);
              match reused with
              | Err e => writeErr StatusInternalServerError e
              | Panic => panic
              | Ok true => writeErr StatusBadRequest "password was used recently, choose a new one"
              | Ok false =>
                  r ← try_ (SetPassword (u_ID u) (pc_New in_));
                  match r with
                  | Err e => writeErr StatusInternalServerError e
                  | Panic => panic
                  | Ok _ =>
                      _ ← RevokeAllSessions (u_ID u);
                      _ ← audit rq u "auth.password_changed" ("user:" +:+ u_Username u)%string "";
                      writeJSON StatusOK (BObj [("status", "ok")])
                  end
              end
          | _ => writeErr StatusUnauthorized "user not found"
          end
      end
  end.
End auth.

(** ** Documented behaviour of the Redis commands on other keys *)

Class RedisFrame (R : Type) `{Redis R} `{RedisSets R} `{RedisCount R} `{RedisSession R} : Prop := {
  get_sadd_ne : ∀ r now now' k k' vs, k ≠ k' → rdb_get (rdb_sadd r now k vs).1 now' k' = rdb_get r now' k';
  get_incr_ne : ∀ r now now' k k', k ≠ k' → rdb_get (rdb_incr r now k).1 now' k' = rdb_get r now' k';
  get_expire_ne : ∀ r now now' k k' ttl, k ≠ k' → rdb_get (rdb_expire r now k ttl) now' k' = rdb_get r now' k';
  get_getdel_ne : ∀ r now now' k k', k ≠ k' → rdb_get (rdb_getdel r now k).1 now' k' = rdb_get r now' k';
  (* GETDEL answers with the value and removes it. *)
  get_getdel : ∀ r now now' k o, (rdb_getdel r now k).2 = Ok o → rdb_get r now k = Ok o ∧ rdb_get (rdb_getdel r now k).1 now' k = Ok None;
  getdel_absent : ∀ r now now' k, rdb_get r now' k = Ok None → rdb_get (rdb_getdel r now k).1 now' k = Ok None;
  (* DEL creates nothing. *)
  del_absent : ∀ r now now' ks k, rdb_get r now' k = Ok None → rdb_get (rdb_del r now ks).1 now' k = Ok None;
  exists_absent : ∀ r now k n, rdb_get r now k = Ok None → rdb_exists r now k = Ok n → n = 0;
  exists_present : ∀ r now k v, rdb_get r now k = Ok (Some v) → rdb_exists r now k = Ok 1;
  getdel_present : ∀ r now k v, rdb_get r now k = Ok (Some v) → (rdb_getdel r now k).2 = Ok (Some v);
}.
(** No value, now or later, unless the key is written again. *)
Definition absent {R} `{Redis R} (r : R) (now : Time) (k : string) : Prop :=
  ∀ now', now ≤ now' → rdb_get r now' k = Ok None.

(** What identifiers look like: hexadecimal digits and hyphens, so none
    starts with the "user:" of the index keys. *)
Class UUIDShape `{UUID} : Prop := { NewString_shape : ∀ n s, NewString n ≠ ("user:" +:+ s)%string }.
(** Parsing a token gives the same claims whenever it succeeds. *)
Class JWTStable `{JWT} : Prop := {
  Parse_stable : ∀ secret now now' tok c c', ParseWithClaims secret now tok = Some c →
    ParseWithClaims secret now' tok = Some c' → c = c';
}.

Section spent.
Context {R : Type} `{UnicodeCase} `{Redis R} `{RedisSets R} `{RedisCount R} `{RedisSession R}
  `{Collation} `{UUID} `{Bcrypt} `{JWT} `{AuthJSON} `{Clock} `{!RedisLaws R} `{!RedisFrame R} `{!UUIDLaws} `{!UUIDShape} (cfg : Config).

(** The n-th identifier has been drawn and no refresh token is stored
    under it. *)
Definition spent (n : nat) (w : World R) : Prop :=
  (n < w_fresh w)%nat ∧ absent (w_rdb w) (w_now w) (refresh_key (NewString n)).

Lemma spent_db n x w : spent n (set_db x w) ↔ spent n w.
Proof. by destruct w. Qed.
Lemma spent_faults n x w : spent n (set_faults x w) ↔ spent n w.
Proof. by destruct w. Qed.
Lemma spent_later n w t : w_now w ≤ t → spent n w → spent n (set_now t w).
Proof. destruct w. unfold spent. simpl. intros Ht [Hn Ha]. split; [done|]. intros now' Hle. apply Ha. lia. Qed.

Lemma keeps_spent_redis {A} n (f : R → Time → R * A) :
  (∀ r now, absent r now (refresh_key (NewString n)) → absent (f r now).1 now (refresh_key (NewString n))) →
  keeps (spent n) (redis f).
Proof.
  intros Hf w [Hn Ha]. unfold redis. specialize (Hf (w_rdb w) (w_now w) Ha).
  destruct (f _ _) as [r a]. destruct w. by split.
Qed.
(** Writing other keys, removing any. *)
Lemma absent_set r now k v ttl k' : k ≠ k' → absent r now k' → absent (rdb_set r now k v ttl).1 now k'.
Proof. intros Hk Ha now' Hn. rewrite rdb_get_set_ne by done. by apply Ha. Qed.
Lemma absent_del r now ks k : absent r now k → absent (rdb_del r now ks).1 now k.
Proof. intros Ha now' Hn. apply del_absent. by apply Ha. Qed.
Lemma absent_dels r now (ks : list string) g k :
  absent r now k → absent (foldl (λ r x, (rdb_del r now [g x]).1) r ks) now k.
Proof. revert r. induction ks as [|x ks IH]; intros r Ha; [done|]. simpl. by apply IH, absent_del. Qed.

Lemma rev_key_ne uid k : rev_key uid ≠ refresh_key k.
Proof. done. Qed.
Lemma index_key_ne uid n : refresh_index uid ≠ refresh_key (NewString n).
Proof.
  unfold refresh_index, refresh_key. change "dns:refresh:user:" with ("dns:refresh:" +:+ "user:")%string.
  rewrite append_assoc_str. intros Heq%append_inj_l. by eapply NewString_shape.
Qed.
Lemma absent_revoke r now uid k : absent r now (refresh_key k) → absent (revoke_sessions r now uid) now (refresh_key k).
Proof.
  intros Ha. unfold revoke_sessions. apply absent_set; [apply rev_key_ne|].
  destruct (rdb_smembers _ _ _); [|done..]. by apply absent_del, absent_dels.
Qed.

Lemma keeps_spent_revoke n uid : keeps (spent n) (RevokeAllSessions uid).
Proof. apply keeps_spent_redis. intros r now. apply absent_revoke. Qed.
Lemma next_fault_spent n w : spent n w → spent n (next_fault w).2.
Proof. unfold next_fault. destruct (w_faults w); [done|]. simpl. by rewrite spent_faults. Qed.
Lemma keeps_spent_query {A} n (f : DB → A) : keeps (spent n) (query f).
Proof. intros w Hw%next_fault_spent. unfold query. by destruct (next_fault w) as [[e|] w']. Qed.
Lemma keeps_spent_exec n f : keeps (spent n) (exec f).
Proof.
  intros w Hw%next_fault_spent. unfold exec. destruct (next_fault w) as [[e|] w']; [done|]. simpl in *.
  destruct (f (w_db w')); simpl; by rewrite ?spent_db.
Qed.
Lemma spent_audit_table n x w : spent n (set_audit x w) ↔ spent n w.
Proof. by destruct w. Qed.
Lemma keeps_spent_audit n rq u a t d : keeps (spent n) (audit cfg rq u a t d).
Proof.
  apply keeps_ignore. intros w Hw. unfold write_audit.
  pose proof (next_fault_spent n w Hw) as H1'. destruct (next_fault w) as [f1 w1].
  pose proof (next_fault_spent n w1 H1') as H2'. destruct (next_fault w1) as [f2 w2].
  pose proof (next_fault_spent n w2 H2') as H3'. destruct (next_fault w2) as [f3 w3].
  pose proof (next_fault_spent n w3 H3') as H4'. destruct (next_fault w3) as [f4 w4]. simpl in *.
  destruct (WriteAudit _ _ _ _ _ _) as [tab [e|]]; simpl; by rewrite spent_audit_table.
Qed.
Lemma keeps_spent_hash n pw : keeps (spent n) (HashPassword pw).
Proof. intros w [Hn Ha]. destruct w. split; simpl in *; [lia|done]. Qed.
Lemma keeps_spent_uuid n : keeps (spent n) uuid_NewString.
Proof. intros w [Hn Ha]. destruct w. split; simpl in *; [lia|done]. Qed.
Lemma keeps_spent_signed n o : keeps (spent n) (signed o).
Proof. destruct o; [apply keeps_ret|apply keeps_fail]. Qed.
Lemma keeps_spent_as_error n e : keeps (spent n) (as_error e).
Proof. destruct e; [apply keeps_fail|apply keeps_ret]. Qed.
Lemma keeps_spent_alert n title content : keeps (spent n) (sendSecurityAlert cfg title content).
Proof.
  unfold sendSecurityAlert. apply keeps_if; [apply keeps_ret|]. apply keeps_bind; [apply keeps_redis_read|]. intros o.
  apply keeps_if; [apply keeps_ret|]. apply keeps_bind.
  { apply keeps_if; [|apply keeps_ret]. apply keeps_spent_redis. intros r now. by apply absent_set. }
  intros _. apply keeps_bind; [apply keeps_time|]. intros now. apply keeps_if; [|apply keeps_ret].
  intros w Hw. by destruct w.
Qed.
Lemma spent_put_limiter n w l :
  spent n w → match l_rdb l with Some r => absent r (w_now w) (refresh_key (NewString n)) | None => True end →
  spent n (put_limiter l w).
Proof. intros [Hn Ha] Hl. unfold put_limiter. destruct (l_rdb l), w; by split. Qed.
Lemma keeps_spent_allow n ip : keeps (spent n) (allow_login cfg ip).
Proof.
  intros w Hw. unfold allow_login, AllowLogin. destruct (_ =? 0); [done|]. unfold redisAllow, api_limiter. cbn [l_rdb].
  set (key := login_key _ _ _). assert (key ≠ refresh_key (NewString n)) as Hk by done.
  pose proof (λ now', get_incr_ne (w_rdb w) (w_now w) now' key _ Hk) as Hi.
  destruct (rdb_incr _ _ key) as [r [c|e|]] eqn:Hinc; simpl in Hi.
  2-3: unfold memAllow; repeat case_match; simplify_eq/=; apply spent_put_limiter; simpl; auto;
    intros now' Hn'; rewrite Hi; by apply Hw.
  simpl. apply spent_put_limiter; [done|]. simpl. intros now' Hn'. destruct (c =? 1); rewrite ?get_expire_ne by done; rewrite Hi; by apply Hw.
Qed.
Lemma keeps_spent_reset n ip : keeps (spent n) (reset_login cfg ip).
Proof.
  intros w Hw. unfold reset_login, ResetLogin. simpl. apply spent_put_limiter; [done|]. simpl.
  apply (absent_dels _ _ _ (λ k, k)). apply Hw.
Qed.

End spent.

(** Steps through the actions of a handler. *)
Ltac spent_step :=
  lazymatch goal with
  | |- keeps _ (mret _) => apply keeps_ret
  | |- keeps _ (writeErr _ _) => apply keeps_ret
  | |- keeps _ (writeJSON _ _) => apply keeps_ret
  | |- keeps _ (fail _) => apply keeps_fail
  | |- keeps _ panic => by intros w Hw
  | |- keeps _ time_Now => apply keeps_time
  | |- keeps _ (redis_read _) => apply keeps_redis_read
  | |- keeps _ (exists_key _) => apply keeps_redis_read
  | |- keeps _ (HashPassword _) => apply keeps_spent_hash
  | |- keeps _ (signed _) => apply keeps_spent_signed
  | |- keeps _ (as_error _) => apply keeps_spent_as_error
  | |- keeps _ uuid_NewString => apply keeps_spent_uuid
  | |- keeps _ (query _) => apply keeps_spent_query
  | |- keeps _ (exec _) => apply keeps_spent_exec
  | |- keeps _ (RevokeAllSessions _) => apply keeps_spent_revoke
  | |- keeps _ (audit _ _ _ _ _ _) => apply keeps_spent_audit
  | |- keeps _ (sendSecurityAlert _ _ _) => apply keeps_spent_alert
  | |- keeps _ (allow_login _ _) => apply keeps_spent_allow
  | |- keeps _ (reset_login _ _) => apply keeps_spent_reset
  | |- keeps _ (mbind _ _) => apply keeps_bind; [|intros ?]
  | |- keeps _ (ignore _) => apply keeps_ignore
  | |- keeps _ (try_ _) => apply keeps_try
  | |- keeps _ (match _ with _ => _ end) => case_match
  end.
Section spent_handlers.
Context {R : Type} `{UnicodeCase} `{Redis R} `{RedisSets R} `{RedisCount R} `{RedisSession R}
  `{Collation} `{UUID} `{Bcrypt} `{JWT} `{AuthJSON} `{Clock} `{!RedisLaws R} `{!RedisFrame R} `{!UUIDLaws} `{!UUIDShape} (cfg : Config).

Lemma refresh_key_inj a b : refresh_key a = refresh_key b → a = b.
Proof. apply append_inj_l. Qed.
(** A new session is stored under an identifier drawn for it. *)
Lemma keeps_spent_issuePair n u : keeps (spent n) (issuePair cfg u).
Proof.
  intros w Hw. unfold issuePair. apply keeps_from; [done|]. intros now w1 [= <- <-].
  apply keeps_from; [by apply keeps_spent_uuid|]. intros a w2 [= <- <-].
  pose proof (keeps_spent_uuid n w Hw) as Hw2. apply keeps_from; [by apply keeps_spent_uuid|].
  intros j w3 [= <- <-]. pose proof (keeps_spent_uuid n _ Hw2) as Hw3. simpl in Hw2, Hw3.
  set (j := NewString _). assert (refresh_key j ≠ refresh_key (NewString n)) as Hj.
  { intros Hk%refresh_key_inj%NewString_inj. destruct Hw2 as [Hlt _]. lia. }
  revert Hw3. generalize (set_fresh (S (w_fresh (set_fresh (S (w_fresh w)) w))) (set_fresh (S (w_fresh w)) w)) as w4.
  match goal with |- ∀ w4, _ → spent n (?m w4).2 => change (keeps (spent n) m) end.
  repeat spent_step; apply keeps_spent_redis; intros r now' Ha.
  - by apply absent_set.
  - intros t Ht. rewrite get_sadd_ne by apply index_key_ne. by apply Ha.
  - intros t Ht. simpl. rewrite get_expire_ne by apply index_key_ne. by apply Ha.
Qed.
Lemma keeps_spent_issueRestricted n u scope : keeps (spent n) (issueRestrictedPair cfg u scope).
Proof. unfold issueRestrictedPair. repeat spent_step. Qed.
Lemma keeps_spent_parse n tok b : keeps (spent n) (parse cfg tok b).
Proof. unfold parse. repeat spent_step. Qed.
Lemma keeps_spent_login n rq : keeps (spent n) (login cfg rq).
Proof.
  unfold login, GetUserByUsername, RecordLoginFailure, RecordLoginSuccess. cbv zeta.
  repeat first [spent_step | apply keeps_spent_issuePair | apply keeps_spent_issueRestricted].
Qed.
Lemma keeps_spent_refresh n rq : keeps (spent n) (refresh cfg rq).
Proof.
  unfold refresh, GetUserByID.
  repeat first [spent_step | apply keeps_spent_issuePair | apply keeps_spent_parse].
  apply keeps_spent_redis. intros r now Ha t Ht.
  destruct (decide (refresh_key (c_ID c) = refresh_key (NewString n))) as [Hk|Hk].
  - rewrite Hk. apply getdel_absent. by apply Ha.
  - rewrite get_getdel_ne by done. by apply Ha.
Qed.
Lemma keeps_spent_logout n rq : keeps (spent n) (logout cfg rq).
Proof.
  unfold logout, GetUserByID. repeat spent_step.
  apply keeps_spent_redis. intros r now. by apply absent_set.
Qed.
Lemma keeps_spent_change n rq : keeps (spent n) (changePassword cfg rq).
Proof.
  unfold changePassword, GetUserByID, CheckPasswordHistory, SetPassword. cbv zeta. repeat spent_step.
Qed.
End spent_handlers.

(** *** Integers in decimal *)

Lemma digit_char (x : N) : ∃ c, pretty_N_char (x mod 10) = c ∧ is_digit c = true ∧ byte_of c - 48 = Z.of_N (x mod 10) ∧
  ∀ s, HasPrefix (String c s) "-" = false ∧ HasPrefix (String c s) "+" = false.
Proof.
  assert (x mod 10 < 10)%N as Hd by (by apply N.mod_lt). revert Hd. generalize (x mod 10)%N. intros d Hd.
  assert (d = 0 ∨ d = 1 ∨ d = 2 ∨ d = 3 ∨ d = 4 ∨ d = 5 ∨ d = 6 ∨ d = 7 ∨ d = 8 ∨ d = 9)%N as Hc by lia.
  destruct Hc as [->|[->|[->|[->|[->|[->|[->|[->|[->| ->]]]]]]]]]; by eexists.
Qed.
Lemma atoi_digits (x : N) s : (0 < x)%N → atoi_go (pretty_N_go x s) 0 = atoi_go s (Z.of_N x).
Proof.
  revert s. induction (N.lt_wf_0 x) as [x _ IH]. intros s Hx. rewrite pretty_N_go_step by done.
  destruct (digit_char x) as (c & -> & Hc & Hv & _). pose proof (N.div_mod x 10 ltac:(done)) as Hdm.
  destruct (decide (x `div` 10 = 0)%N) as [Hz|Hnz].
  - rewrite Hz, pretty_N_go_0. simpl. rewrite Hc, Hv. f_equal. lia.
  - assert (x `div` 10 < x)%N by (by apply N.div_lt). assert (0 < x `div` 10)%N by (revert Hnz; generalize (x `div` 10)%N; lia).
    rewrite IH by done. simpl. rewrite Hc, Hv. f_equal. lia.
Qed.
Lemma digits_sign (x : N) s :
  HasPrefix s "-" = false → HasPrefix s "+" = false → (x ≠ 0)%N ∨ s ≠ ""%string →
  HasPrefix (pretty_N_go x s) "-" = false ∧ HasPrefix (pretty_N_go x s) "+" = false ∧ pretty_N_go x s ≠ ""%string.
Proof.
  revert s. induction (N.lt_wf_0 x) as [x _ IH]. intros s Hm Hp Hne.
  destruct (decide (x = 0)%N) as [->|Hx]; [rewrite pretty_N_go_0; naive_solver|].
  rewrite pretty_N_go_step by lia. destruct (digit_char x) as (c & -> & _ & _ & Hc).
  apply IH; [by apply N.div_lt; lia|apply Hc|apply Hc|by right].
Qed.
Lemma Atoi_fmt_d z : 0 < z ≤ 9223372036854775807 → Atoi (fmt_d z) = Some z.
Proof.
  intros [Hz Hmax%Z.leb_le]. destruct z as [|p|p]; [lia| |lia]. unfold fmt_d, Atoi.
  change (pretty (Z.pos p)) with (pretty (N.pos p)). unfold pretty, pretty_N. rewrite decide_False by done.
  pose proof (atoi_digits (N.pos p) "" eq_refl) as Ha.
  destruct (digits_sign (N.pos p) "") as (-> & -> & Hne); [done|done|by left|].
  destruct (pretty_N_go (N.pos p) "") eqn:Hs; [done|]. cbv iota. simpl orb. cbv iota. rewrite Ha.
  cbn [atoi_go Z.of_N]. by rewrite Hmax.
Qed.

(** ** Parsing and admission as functions of the state *)

Section runs.
Context {R : Type} `{UnicodeCase} `{Redis R} `{RedisSets R} `{RedisCount R} `{RedisSession R}
  `{Collation} `{UUID} `{Bcrypt} `{JWT} `{AuthJSON} `{Clock} (cfg : Config).

Definition parse_result (w : World R) (tok : string) (refresh : bool) : option Claims :=
  match ParseWithClaims (APIJWTSecret cfg) (w_now w) tok with
  | None => None
  | Some c =>
      if refresh then
        match rdb_exists (w_rdb w) (w_now w) (refresh_key (c_ID c)) with
        | Ok n => if n =? 0 then None else Some c
        | _ => None
        end
      else Some c
  end.
Lemma parse_run tok b w : parse cfg tok b w = (Ok (parse_result w tok b), w).
Proof.
  unfold parse, parse_result, mbind, act_bind, time_Now. destruct (ParseWithClaims _ _ _) as [c|]; [|done].
  destruct b; [|done]. unfold exists_key, redis_read. destruct (rdb_exists _ _ _) as [n| |]; [|done..]. by destruct (n =? 0).
Qed.

(** The reasons to turn a request away, in order. *)
Definition refused (c : Claims) (w : World R) (path : string) : option (Z * string) :=
  if negb (c_Use c =? "access")%string then Some (StatusUnauthorized, "invalid token type"%string)
  else if match rdb_exists (w_rdb w) (w_now w) (blacklist_key (c_ID c)) with Ok n => 0 <? n | _ => false end
  then Some (StatusUnauthorized, "token revoked"%string)
  else if match revoked_at (w_rdb w) (w_now w) (c_Subject c), c_IssuedAt c with
          | Some ts, Some iat => (0 <? ts) && (iat <? ts) | _, _ => false end
  then Some (StatusUnauthorized, "token revoked"%string)
  else if negb (c_Scope c =? "")%string && negb (path =? "/api/v1/auth/change-password")%string
  then Some (StatusForbidden, "restricted token cannot access this endpoint"%string)
  else None.
Lemma authMiddleware_run (next : HandlerFunc R) rq w :
  authMiddleware cfg next rq w =
  if HasPrefix (rq_Authorization rq) "Bearer " then
    match parse_result w (TrimPrefix (rq_Authorization rq) "Bearer ") false with
    | None => writeErr StatusUnauthorized "invalid or expired token" w
    | Some c => match refused c w (rq_path rq) with
                | Some (code, msg) => writeErr code msg w
                | None => next (with_claims rq c) w
                end
    end
  else writeErr StatusUnauthorized "missing bearer token" w.
Proof.
  unfold authMiddleware, lift, lift_act. cbv zeta. destruct (HasPrefix _ _); [|done]. cbn [negb]. cbv iota.
  erewrite bind_run by apply parse_run. destruct (parse_result _ _ _) as [c|]; [|done]. unfold refused.
  destruct (negb (c_Use c =? "access")%string); [done|]. cbv beta iota. erewrite bind_run by reflexivity.
  destruct (match rdb_exists _ _ _ with Ok n => 0 <? n | _ => false end); [done|]. cbv beta iota. erewrite bind_run by reflexivity.
  repeat case_match; try done; simplify_eq.
Qed.

(** A token whose identifier has no stored session is refused and changes
    nothing. *)
Lemma refresh_inactive rq tok w :
  Decode_refresh (rq_body rq) = Some tok → parse_result w tok true = None →
  refresh cfg rq w = (Ok {| rs_code := StatusUnauthorized; rs_body := BErr "invalid refresh token" |}, w).
Proof. intros Hd Hp. unfold refresh. rewrite Hd. erewrite bind_run by apply parse_run. by rewrite Hp. Qed.
Lemma parse_spent `{!RedisFrame R} n tok c w :
  ParseWithClaims (APIJWTSecret cfg) (w_now w) tok = Some c → c_ID c = NewString n → spent n w →
  parse_result w tok true = None.
Proof.
  intros Hp Hid [_ Ha]. unfold parse_result. rewrite Hp, Hid.
  destruct (rdb_exists _ _ _) as [k| |] eqn:He; [|done..].
  apply exists_absent in He as ->; [done|]. apply Ha. lia.
Qed.
Lemma parse_result_claims tok b w c :
  parse_result w tok b = Some c → ParseWithClaims (APIJWTSecret cfg) (w_now w) tok = Some c.
Proof. unfold parse_result. destruct (ParseWithClaims _ _ _); [|done]. repeat case_match; naive_solver. Qed.

(** A refresh that succeeds spends its token. *)
Lemma refresh_spends `{!RedisLaws R} `{!RedisFrame R} `{!UUIDLaws} `{!UUIDShape} rq tok c n w r w1 :
  Decode_refresh (rq_body rq) = Some tok →
  ParseWithClaims (APIJWTSecret cfg) (w_now w) tok = Some c → c_ID c = NewString n → (n < w_fresh w)%nat →
  refresh cfg rq w = (Ok r, w1) → rs_code r = StatusOK → spent n w1.
Proof.
  intros Hd Hp Hid Hn. unfold refresh. rewrite Hd. erewrite bind_run by apply parse_run.
  destruct (parse_result w tok true) as [c'|] eqn:Hpr; [|by intros [= <- _]].
  apply parse_result_claims in Hpr. rewrite Hp in Hpr. injection Hpr as <-.
  destruct (negb (c_Use c =? "refresh")%string); [by intros [= <- _]|].
  destruct (rdb_getdel (w_rdb w) (w_now w) (refresh_key (c_ID c))) as [r' o'] eqn:Hg.
  erewrite bind_run by (unfold redis; rewrite Hg; reflexivity). destruct o' as [o|e|]; [|by intros [= <- _]..].
  assert (spent n (set_rdb r' w)) as Hs.
  { split; [by destruct w|]. intros t Ht. destruct w as [? ? r0 now ? ? ? ?]. simpl in *. rewrite <-Hid.
    pose proof (get_getdel r0 now t (refresh_key (c_ID c)) o) as Hgd. rewrite Hg in Hgd. by apply Hgd. }
  destruct o as [uid|]; [|by intros [= <- _]]. destruct (negb (uid =? c_Subject c)%string); [by intros [= <- _]|].
  match goal with |- ?m (set_rdb r' w) = _ → _ => assert (keeps (spent n) m) as Hk end.
  { unfold GetUserByID. repeat first [spent_step | apply keeps_spent_issuePair]. }
  intros Hr _. specialize (Hk _ Hs). by rewrite Hr in Hk.
Qed.

(** ** Histories of authentication requests *)

Inductive AuthCall := ALogin (rq : Request) | ARefresh (rq : Request) | ALogout (rq : Request) | AChange (rq : Request).
Definition auth_handler (c : AuthCall) : act R Resp :=
  match c with
  | ALogin rq => login cfg rq
  | ARefresh rq => refresh cfg rq
  | ALogout rq => logout cfg rq
  | AChange rq => changePassword cfg rq
  end.
(** Each request comes some time after the previous one and meets its own
    database failures. *)
Definition run_auth (calls : list (N * list (option string) * AuthCall)) (w : World R) : World R :=
  foldl (λ w c, (auth_handler c.2 (set_faults c.1.2 (set_now (w_now w + Z.of_N c.1.1) w))).2) w calls.
Lemma run_auth_spent `{!RedisLaws R} `{!RedisFrame R} `{!UUIDLaws} `{!UUIDShape} n calls w :
  spent n w → spent n (run_auth calls w).
Proof.
  revert w. induction calls as [|[[dt fs] c] calls IH]; intros w Hw; [done|]. apply IH. simpl.
  assert (keeps (spent n) (auth_handler c)) as Hk
    by (destruct c; [apply keeps_spent_login|apply keeps_spent_refresh|apply keeps_spent_logout|apply keeps_spent_change]).
  apply Hk. rewrite spent_faults. apply spent_later; [lia|done].
Qed.
End runs.

Section revocation.
Context {R : Type} `{Redis R} `{RedisSets R} `{RedisCount R} `{RedisSession R} `{!RedisLaws R} `{!RedisFrame R}
  `{!RedisDelLaws R} `{!RedisUp R}.
Lemma absent_deleted (r : R) now (g : string → string) ks x :
  x ∈ ks → absent (foldl (λ r x, (rdb_del r now [g x]).1) r ks) now (g x).
Proof.
  intros Hx. revert r. induction Hx as [x ks|x y ks _ IH]; intros r; [|apply IH]. simpl.
  apply absent_dels. intros t Ht. apply rdb_get_del, up_del.
Qed.
Lemma revoke_absent (r : R) now uid ms jti :
  rdb_smembers r now (refresh_index uid) = Ok ms → jti ∈ ms → absent (revoke_sessions r now uid) now (refresh_key jti).
Proof.
  intros Hm Hj. unfold revoke_sessions. rewrite Hm. apply absent_set; [apply rev_key_ne|].
  by apply absent_del, absent_deleted.
Qed.
Lemma revoke_stamp `{!RedisKeeps R} (r : R) now uid t :
  now ≤ t < now + 30 * 24 * hour → 0 < Unix now ≤ 9223372036854775807 →
  revoked_at (revoke_sessions r now uid) t uid = Some (Unix now).
Proof.
  intros Ht Hu. unfold revoked_at, revoke_sessions. rewrite rdb_get_set_fresh by (done || apply up_set).
  by apply Atoi_fmt_d.
Qed.
End revocation.

(** ** Effects of the steps of a login *)

Section steps.
Context {R : Type} `{UnicodeCase} `{Redis R} `{RedisSets R} `{RedisCount R} `{RedisSession R}
  `{Collation} `{UUID} `{Bcrypt} `{JWT} `{AuthJSON} `{Clock} (cfg : Config).
Implicit Types w : World R.

(** The parts of the state a step leaves alone. *)
Definition same_db (w w' : World R) : Prop :=
  w_db w' = w_db w ∧ w_now w' = w_now w ∧ w_fresh w' = w_fresh w ∧ (w_faults w = [] → w_faults w' = []).
Lemma same_db_refl w : same_db w w.
Proof. by split_and!. Qed.
Lemma same_db_trans w1 w2 w3 : same_db w1 w2 → same_db w2 w3 → same_db w1 w3.
Proof. intros (? & ? & ? & ?) (? & ? & ? & ?). split_and!; try congruence. auto. Qed.
Lemma next_fault_same w : same_db w (next_fault w).2.
Proof. unfold next_fault. destruct w as [? ? ? ? ? [|o fl] ? ?]; by split_and!. Qed.
Lemma put_limiter_same w l : same_db w (put_limiter l w).
Proof. unfold put_limiter. destruct (l_rdb l), w; by split_and!. Qed.

Lemma audit_run rq u a t d w : ∃ w', audit cfg rq u a t d w = (Ok (), w') ∧ same_db w w'.
Proof.
  unfold audit, ignore, try_, mbind, act_bind, write_audit.
  pose proof (next_fault_same w) as S1. destruct (next_fault w) as [f1 w1].
  pose proof (next_fault_same w1) as S2. destruct (next_fault w1) as [f2 w2].
  pose proof (next_fault_same w2) as S3. destruct (next_fault w2) as [f3 w3].
  pose proof (next_fault_same w3) as S4. destruct (next_fault w3) as [f4 w4]. simpl in *.
  assert (same_db w w4) as Hs by eauto using same_db_trans.
  destruct (WriteAudit _ _ _ _ _ _) as [tab [e|]]; eexists; (split; [reflexivity|]);
    eapply same_db_trans; [exact Hs| |exact Hs|]; destruct w4; by split_and!.
Qed.
Lemma allow_login_run ip w : int_seconds (LoginRateWindow cfg) ≠ 0 → ∃ b w', allow_login cfg ip w = (Ok b, w') ∧ same_db w w'.
Proof.
  intros Hw. unfold allow_login, AllowLogin. rewrite (proj2 (Z.eqb_neq _ _) Hw).
  destruct (redisAllow _ _ _ _ _) as [l [b|]].
  - exists b. eexists. split; [reflexivity|]. apply put_limiter_same.
  - destruct (memAllow _ _ _ _) as [l' b]. exists b. eexists. split; [reflexivity|]. apply put_limiter_same.
Qed.
Lemma allow_login_same ip w b w' : allow_login cfg ip w = (Ok b, w') → same_db w w'.
Proof.
  intros Ha. destruct (decide (int_seconds (LoginRateWindow cfg) = 0)) as [Hw|Hw].
  - unfold allow_login, AllowLogin in Ha. rewrite Hw in Ha. simpl in Ha. done.
  - destruct (allow_login_run ip w Hw) as (b' & w0 & Hr & Hs). congruence.
Qed.
Lemma reset_login_run ip w : ∃ w', reset_login cfg ip w = (Ok (), w') ∧ same_db w w'.
Proof. eexists. split; [reflexivity|]. apply put_limiter_same. Qed.

Lemma alert_run title content w : ∃ w', sendSecurityAlert cfg title content w = (Ok (), w') ∧ same_db w w'.
Proof.
  unfold sendSecurityAlert. destruct (SecurityAlertWebhook cfg =? "")%string; [eauto using same_db_refl|].
  erewrite bind_run by reflexivity.
  destruct (match rdb_exists _ _ _ with Ok n => 0 <? n | _ => false end); [eauto using same_db_refl|].
  assert (∃ w1, (if 0 <? SecurityAlertCooldown cfg
     then redis (λ r now, ((rdb_set r now (cooldown_key title) "1" (SecurityAlertCooldown cfg)).1, ())) else mret ()) w = (Ok (), w1)
     ∧ same_db w w1) as (w1 & Hw1 & Hs1).
  { destruct (0 <? _); [|eauto using same_db_refl]. eexists. split; [reflexivity|]. destruct w. by split_and!. }
  erewrite bind_run by exact Hw1. erewrite bind_run by reflexivity.
  destruct (url_valid _); [|eauto]. eexists. split; [reflexivity|]. eapply same_db_trans; [exact Hs1|]. destruct w1. by split_and!.
Qed.
Lemma ignore_update_run id f w :
  w_faults w = [] → ∃ w', ignore (exec (update_users id f)) w = (Ok (), w') ∧ w' = (exec (update_users id f) w).2 ∧
    w_now w' = w_now w ∧ w_fresh w' = w_fresh w ∧ w_rdb w' = w_rdb w.
Proof. intros Hf. unfold ignore, try_, mbind, act_bind. rewrite exec_update_users by done. eexists. split; [reflexivity|]. by destruct w. Qed.
Lemma user_row_same id w w' : same_db w w' → user_row id w' = user_row id w.
Proof. intros (Hd & _). unfold user_row. by rewrite Hd. Qed.

(** What [issuePair] signs and stores. *)
Lemma issuePair_Ok u w p w1 :
  issuePair cfg u w = (Ok p, w1) →
  SignedString (claims_of u "access" "" (NewString (w_fresh w)) (w_now w) (JWTExpiry cfg)) (APIJWTSecret cfg) = Some (AccessToken p) ∧
  SignedString (claims_of u "refresh" "" (NewString (S (w_fresh w))) (w_now w) (JWTRefreshExp cfg)) (APIJWTSecret cfg) = Some (RefreshToken p) ∧
  ∃ r1 r2, rdb_set (w_rdb w) (w_now w) (refresh_key (NewString (S (w_fresh w)))) (u_ID u) (JWTRefreshExp cfg) = (r1, None) ∧
    rdb_sadd r1 (w_now w) (refresh_index (u_ID u)) [NewString (S (w_fresh w))] = (r2, None) ∧
    w1 = set_rdb (rdb_expire r2 (w_now w) (refresh_index (u_ID u)) (JWTRefreshExp cfg)) (set_fresh (S (S (w_fresh w))) w).
Proof.
  destruct w as [db au r now fr fa me al].
  unfold issuePair, mbind, act_bind, time_Now, uuid_NewString, signed, redis, as_error. simpl.
  destruct (SignedString (claims_of u "access" _ _ _ _) _) as [at_|]; [|done].
  destruct (SignedString (claims_of u "refresh" _ _ _ _) _) as [rt|]; [|done]. simpl.
  destruct (rdb_set _ _ _ _ _) as [r1 [e|]] eqn:Hs; [done|]. simpl.
  destruct (rdb_sadd _ _ _ _) as [r2 [e|]] eqn:Ha; [done|]. simpl. intros [= <- <-]. simpl.
  split_and!; [done..|]. exists r1, r2. by split_and!.
Qed.
(** The tokens of the next session can be signed. *)
Definition can_sign (u : User) (n : nat) (now : Time) : Prop :=
  ∃ at_ rt, SignedString (claims_of u "access" "" (NewString n) now (JWTExpiry cfg)) (APIJWTSecret cfg) = Some at_ ∧
            SignedString (claims_of u "refresh" "" (NewString (S n)) now (JWTRefreshExp cfg)) (APIJWTSecret cfg) = Some rt.
Lemma issuePair_total u w :
  can_sign u (w_fresh w) (w_now w) →
  (∀ r now k v ttl, (rdb_set r now k v ttl).2 = None) → (∀ r now k vs, (rdb_sadd r now k vs).2 = None) →
  ∃ p w', issuePair cfg u w = (Ok p, w') ∧ w_db w' = w_db w.
Proof.
  intros (at_ & rt & Ha & Hr) Hset Hadd. destruct w as [db au r now fr fa me al].
  unfold issuePair, mbind, act_bind, time_Now, uuid_NewString, signed, redis, as_error. simpl.
  simpl in *. rewrite Ha, Hr. simpl.
  pose proof (Hset r now (refresh_key (NewString (S fr))) (u_ID u) (JWTRefreshExp cfg)) as He.
  destruct (rdb_set _ _ _ _ _) as [r1 e]. simpl in He. subst e. simpl.
  pose proof (Hadd r1 now (refresh_index (u_ID u)) [NewString (S fr)]) as He.
  destruct (rdb_sadd _ _ _ _) as [r2 e]. simpl in He. subst e. simpl. by eexists _, _.
Qed.
(** Issuing neither panics nor touches the database. *)
Lemma issuePair_safe u w : ∃ o w', issuePair cfg u w = (o, w') ∧ w_db w' = w_db w ∧ o ≠ Panic.
Proof.
  destruct w as [db au r now fr fa me al].
  unfold issuePair, mbind, act_bind, time_Now, uuid_NewString, signed, redis, as_error. simpl.
  destruct (SignedString (claims_of u "access" _ _ _ _) _) as [at_|]; [|by eexists _, _].
  destruct (SignedString (claims_of u "refresh" _ _ _ _) _) as [rt|]; [|by eexists _, _]. simpl.
  destruct (rdb_set _ _ _ _ _) as [r1 [e|]]; [by eexists _, _|]. simpl.
  destruct (rdb_sadd _ _ _ _) as [r2 [e|]]; by eexists _, _.
Qed.
(** The last step of a login: a session or a token for the password change. *)
Lemma login_finish u (must_change : bool) w :
  ∃ r w', (if must_change then
             p ← try_ (issueRestrictedPair cfg u "change-password");
             match p with
             | Ok p => writeJSON StatusOK (BMustChange (AccessToken p) (TokenType p) (ExpiresIn p))
             | _ => writeErr StatusInternalServerError "token issue failed"
             end
           else
             p ← try_ (issuePair cfg u);
             match p with
             | Ok p => writeJSON StatusOK (BTokens p)
             | _ => writeErr StatusInternalServerError "token issue failed"
             end) w = (Ok r, w') ∧ w_db w' = w_db w ∧
    (must_change = true → ∀ tok, SignedString (claims_of u "access" "change-password" (NewString (w_fresh w)) (w_now w) (15 * minute)) (APIJWTSecret cfg) = Some tok →
       r = {| rs_code := StatusOK; rs_body := BMustChange tok "Bearer" 900 |}) ∧
    (must_change = false → can_sign u (w_fresh w) (w_now w) →
       (∀ r now k v ttl, (rdb_set r now k v ttl).2 = None) → (∀ r now k vs, (rdb_sadd r now k vs).2 = None) →
       ∃ p, r = {| rs_code := StatusOK; rs_body := BTokens p |}).
Proof.
  destruct must_change.
  - unfold issueRestrictedPair, try_, mbind, act_bind, time_Now, uuid_NewString, signed. simpl.
    destruct (SignedString _ _) as [tok|] eqn:Hs; eexists _, _; (split; [reflexivity|]);
      (split; [by destruct w|]); (split; [|done]); intros _ tok' [= <-]; done.
  - destruct (issuePair_safe u w) as (o & w' & Hi & Hd & Hn). unfold try_, mbind, act_bind. rewrite Hi.
    destruct o as [p|e|]; [| |done]; (eexists _, w'; split; [reflexivity|]; split; [done|]; split; [done|]); intros _ Hc Hse Hsa; [by exists p|].
    destruct (issuePair_total u w Hc Hse Hsa) as (p & w2 & Hp & _). congruence.
Qed.
(** A stored refresh token of an account in good standing is exchanged. *)
Lemma refresh_live `{!RedisFrame R} rq tok c w row :
  Decode_refresh (rq_body rq) = Some tok → ParseWithClaims (APIJWTSecret cfg) (w_now w) tok = Some c →
  c_Use c = "refresh" → rdb_get (w_rdb w) (w_now w) (refresh_key (c_ID c)) = Ok (Some (c_Subject c)) →
  w_faults w = [] → user_row (c_Subject c) w = Some row → ur_must_change_pwd row = false →
  default zeroTime (ur_locked_until row) ≤ w_now w →
  can_sign (scanUser row) (w_fresh w) (w_now w) →
  (∀ r now k v ttl, (rdb_set r now k v ttl).2 = None) → (∀ r now k vs, (rdb_sadd r now k vs).2 = None) →
  ∃ p w2, refresh cfg rq w = (Ok {| rs_code := StatusOK; rs_body := BTokens p |}, w2).
Proof.
  intros Hd Hp Huse Hg Hf Hrow Hmc Hlock Hj Hse Hsa. unfold refresh. rewrite Hd. erewrite bind_run by apply parse_run.
  unfold parse_result. rewrite Hp, (exists_present _ _ _ _ Hg). simpl. rewrite Huse. simpl.
  pose proof (getdel_present _ _ _ _ Hg) as Hgd.
  destruct (rdb_getdel (w_rdb w) (w_now w) (refresh_key (c_ID c))) as [r o] eqn:Hr. simpl in Hgd. subst o.
  erewrite bind_run by (unfold redis; rewrite Hr; reflexivity). cbv beta iota. rewrite String.eqb_refl. simpl.
  destruct w as [db au r0 now fr fa me al]. simpl in *. subst fa. unfold user_row in Hrow. simpl in Hrow.
  erewrite bind_run; [|unfold try_, GetUserByID, mbind, act_bind; rewrite query_nil by done; simpl; rewrite Hrow; reflexivity].
  simpl. erewrite bind_run by reflexivity. unfold is_locked. simpl. rewrite (proj2 (Z.ltb_ge _ _) Hlock), Hmc.
  destruct (issuePair_total (scanUser row) (Build_World db au r now fr [] me al) Hj Hse Hsa) as (p' & w2 & Hp' & _).
  exists p', w2. erewrite bind_run by (unfold try_; rewrite Hp'; reflexivity). done.
Qed.
End steps.

(** ** Instances for evaluation *)

#[global] Instance Claims_eq_dec : EqDecision Claims.
Proof. solve_decision. Defined.
Definition enc_claims (c : Claims) : string :=
  Join [c_Role c; c_TID c; c_Use c; c_Scope c; c_Subject c; c_ID c; fmt_d (default 0 (c_IssuedAt c));
        fmt_d (default 0 (c_ExpiresAt c)); c_Issuer c] "|".
Definition dec_claims (s : string) : option Claims :=
  match Split s "|" with
  | [role; tid; use; scope; sub; id; iat; exp; iss] =>
      match Atoi iat, Atoi exp with
      | Some iat, Some exp =>
          Some {| c_Role := role; c_TID := tid; c_Use := use; c_Scope := scope; c_Subject := sub; c_ID := id;
                  c_IssuedAt := Some iat; c_ExpiresAt := Some exp; c_Issuer := iss |}
      | _, _ => None
      end
  | _ => None
  end.
(** Unsigned tokens, for claims whose fields contain no separator. *)
Definition demo_jwt : JWT := {|
  SignedString c _ := if decide (dec_claims (enc_claims c) = Some c) then Some (enc_claims c) else None;
  ParseWithClaims _ now tok :=
    match dec_claims tok with
    | Some c => match c_ExpiresAt c with
                | Some e => if (c_Issuer c =? "dns-platform")%string && (now <? e * second) then Some c else None
                | None => None
                end
    | None => None
    end |}.
#[global] Instance demo_jwt_laws : @JWTLaws demo_jwt.
Proof.
  split; simpl.
  - intros c _ tok now e. case_decide as Hd; [|done]. intros [= <-] Hi He. rewrite Hd, He, Hi. done.
  - intros _ now tok c. repeat case_match; try done. intros [= <-]. zbool. eauto.
Qed.
#[global] Instance demo_jwt_stable : @JWTStable demo_jwt.
Proof. split. simpl. intros _ now now' tok c c'. repeat case_match; naive_solver. Qed.
#[global] Instance demo_session : RedisSession DemoRedis := {
  rdb_exists r _ k := Ok (match dr_str r !! k with Some _ => 1 | None => 0 end);
  rdb_getdel r _ k := ({| dr_str := delete k (dr_str r); dr_set := dr_set r |}, Ok (dr_str r !! k));
}.
Lemma foldl_delete_None (m : gmap string string) ks k : m !! k = None → foldl (λ m k, delete k m) m ks !! k = None.
Proof. revert m. induction ks as [|x ks IH]; intros m Hk; [done|]. simpl. apply IH. by rewrite lookup_delete_None; right. Qed.
#[global] Instance demo_redis_frame : RedisFrame DemoRedis.
Proof.
  split; simpl; intros; try done.
  - repeat case_match; simpl; try done; by rewrite lookup_insert_ne.
  - by rewrite lookup_delete_ne.
  - simplify_eq. by rewrite lookup_delete_eq.
  - f_equal. apply lookup_delete_None. right. congruence.
  - f_equal. apply foldl_delete_None. congruence.
  - simplify_eq/=. by rewrite H.
  - simplify_eq/=. by rewrite H.
Qed.
#[global] Instance demo_redis_keep : RedisKeeps DemoRedis.
Proof. split. intros. simpl. by rewrite lookup_insert_eq. Qed.
#[global] Instance demo_uuid_laws : @UUIDLaws demo_uuid.
Proof. split. intros n m Heq%append_inj_l. by apply (inj pretty). Qed.
#[global] Instance demo_uuid_shape : @UUIDShape demo_uuid.
Proof. split. intros n s. simpl. discriminate. Qed.
Definition demo_auth_json : AuthJSON := {|
  Decode_login s := match Split s "|" with [u; p] => Some {| cr_Username := u; cr_Password := p |} | _ => None end;
  Decode_refresh s := Some s;
  Decode_change s := match Split s "~" with [o; n] => Some {| pc_Old := o; pc_New := n |} | _ => None end |}.
Definition demo_clock : Clock := {| Format_micro := fmt_d; Format_sec := fmt_d; url_valid _ := true |}.
Definition demo_request (path auth body : string) : Request :=
  {| rq_method := "POST"; rq_path := path; rq_id := ""; rq_query := []; rq_Authorization := auth; rq_XRealIP := "";
     rq_Origin := ""; rq_Bootstrap := ""; rq_RemoteAddr := "192.0.2.7:4711"; rq_body := body; rq_claims := None |}.

(** ** Properties *)

(** C5: a refresh token works once: when a refresh with it has
    succeeded, it is refused ever after, without any effect, whatever
    logins, refreshes, logouts and password changes happen in between. *)
Theorem refresh_single_use {R} `{UnicodeCase} `{Redis R} `{RedisSets R} `{RedisCount R} `{RedisSession R}
    `{Collation} `{UUID} `{Bcrypt} `{JWT} `{AuthJSON} `{Clock} `{!RedisLaws R} `{!RedisFrame R} `{!UUIDLaws}
    `{!UUIDShape} `{!JWTStable} cfg (w w1 : World R) rq rq' tok c n r1 calls :
  Decode_refresh (rq_body rq) = Some tok → Decode_refresh (rq_body rq') = Some tok →
  ParseWithClaims (APIJWTSecret cfg) (w_now w) tok = Some c → c_ID c = NewString n → (n < w_fresh w)%nat →
  refresh cfg rq w = (Ok r1, w1) → rs_code r1 = StatusOK →
  let w2 := run_auth cfg calls w1 in
  refresh cfg rq' w2 = (Ok {| rs_code := StatusUnauthorized; rs_body := BErr "invalid refresh token" |}, w2).
Proof.
  intros Hd Hd' Hp Hid Hn Hr Hok w2. apply (refresh_inactive _ _ tok); [done|].
  destruct (ParseWithClaims (APIJWTSecret cfg) (w_now w2) tok) as [c'|] eqn:Hp2.
  - assert (c' = c) as -> by (by eapply Parse_stable).
    assert (spent n w1) as Hs by (by apply (refresh_spends cfg rq tok c n w r1 w1)).
    apply (parse_spent cfg n tok c w2); [done..|]. by apply run_auth_spent.
  - unfold parse_result. by rewrite Hp2.
Qed.

Definition demo_login_world : World DemoRedis :=
  (@login _ ascii_case _ _ _ _ demo_collation demo_uuid demo_bcrypt demo_jwt demo_auth_json demo_clock demo_config
     (demo_request "/api/v1/auth/login" "" "Alice|Str0ng!Pass") (demo_world demo_user_db)).2.
Definition demo_refresh_claims : Claims :=
  {| c_Role := "sysadmin"; c_TID := ""; c_Use := "refresh"; c_Scope := ""; c_Subject := "u1"; c_ID := "uuid-1";
     c_IssuedAt := Some 1000; c_ExpiresAt := Some 605800; c_Issuer := "dns-platform" |}.
Definition demo_refresh (w : World DemoRedis) : outcome Resp * World DemoRedis :=
  @refresh _ _ _ _ _ demo_collation demo_uuid demo_jwt demo_auth_json demo_config
    (demo_request "/api/v1/auth/refresh" "" (enc_claims demo_refresh_claims)) w.
Definition resp_of (o : outcome Resp) : Resp := match o with Ok r => r | _ => {| rs_code := 0; rs_body := BNone |} end.
Lemma refresh_single_use_witness :
  let w1 := (demo_refresh demo_login_world).2 in
  rs_code (resp_of (demo_refresh demo_login_world).1) = StatusOK ∧
  demo_refresh w1 = (Ok {| rs_code := StatusUnauthorized; rs_body := BErr "invalid refresh token" |}, w1).
Proof.
  cbv zeta. split; [vm_compute; reflexivity|].
  apply (@refresh_single_use _ ascii_case _ _ _ _ demo_collation demo_uuid demo_bcrypt demo_jwt demo_auth_json demo_clock _ _ _ _ _
    demo_config demo_login_world (demo_refresh demo_login_world).2
    (demo_request "/api/v1/auth/refresh" "" (enc_claims demo_refresh_claims))
    (demo_request "/api/v1/auth/refresh" "" (enc_claims demo_refresh_claims))
    (enc_claims demo_refresh_claims) demo_refresh_claims 1 (resp_of (demo_refresh demo_login_world).1) []);
    [reflexivity|reflexivity|vm_compute; reflexivity|reflexivity|vm_compute; lia|vm_compute; reflexivity|vm_compute; reflexivity].
Defined.

(** C17: revoking the sessions of a user ends them: every refresh token in
    the user's index is refused from then on, and for thirty days so is
    every access token of the user issued in an earlier second, on every
    endpoint and before the handler runs. *)
Theorem revoke_kills {R} `{UnicodeCase} `{Redis R} `{RedisSets R} `{RedisCount R} `{RedisSession R}
    `{Collation} `{UUID} `{JWT} `{AuthJSON} `{!RedisLaws R} `{!RedisFrame R} `{!RedisDelLaws R} `{!RedisUp R} `{!RedisKeeps R}
    cfg (w : World R) uid ms t :
  rdb_smembers (w_rdb w) (w_now w) (refresh_index uid) = Ok ms →
  w_now w ≤ t → 0 < Unix (w_now w) ≤ 9223372036854775807 →
  let w' := set_now t (RevokeAllSessions uid w).2 in
  (∀ rq tok c, Decode_refresh (rq_body rq) = Some tok → ParseWithClaims (APIJWTSecret cfg) t tok = Some c → c_ID c ∈ ms →
     refresh cfg rq w' = (Ok {| rs_code := StatusUnauthorized; rs_body := BErr "invalid refresh token" |}, w')) ∧
  (∀ (next : HandlerFunc R) rq c iat, ParseWithClaims (APIJWTSecret cfg) t (TrimPrefix (rq_Authorization rq) "Bearer ") = Some c →
     c_Subject c = uid → c_IssuedAt c = Some iat → iat < Unix (w_now w) → t < w_now w + 30 * 24 * hour →
     ∃ msg, authMiddleware cfg next rq w' = writeErr StatusUnauthorized msg w').
Proof.
  intros Hm Ht Hu. destruct w as [db au r now fr fa me al]. simpl in *. split.
  - intros rq tok c Hd Hp Hin. apply (refresh_inactive _ _ tok); [done|]. unfold parse_result. simpl. rewrite Hp.
    destruct (rdb_exists _ _ _) as [k| |] eqn:He; [|done..]. apply exists_absent in He as ->; [done|].
    by eapply revoke_absent.
  - intros next rq c iat Hp Hs Hi Hlt Hend. rewrite authMiddleware_run.
    destruct (HasPrefix _ _); [|by eexists]. unfold parse_result. simpl w_now. rewrite Hp.
    assert (∃ msg, refused c (set_now t (RevokeAllSessions uid (Build_World db au r now fr fa me al)).2) (rq_path rq)
              = Some (StatusUnauthorized, msg)) as [msg Hmsg].
    { unfold refused. simpl w_rdb. simpl w_now. rewrite Hs, revoke_stamp, Hi by (done || lia).
      rewrite (proj2 (Z.ltb_lt 0 _)), (proj2 (Z.ltb_lt iat _)) by lia. simpl andb. repeat case_match; simplify_eq; by eexists. }
    simpl in Hmsg. rewrite Hmsg. by eexists.
Qed.
Definition demo_access_claims (iat : Z) : Claims :=
  {| c_Role := "sysadmin"; c_TID := ""; c_Use := "access"; c_Scope := ""; c_Subject := "u1"; c_ID := "uuid-0";
     c_IssuedAt := Some iat; c_ExpiresAt := Some 2000; c_Issuer := "dns-platform" |}.
Lemma revoke_kills_witness :
  let w' := set_now (1001 * second) (RevokeAllSessions "u1" demo_login_world).2 in
  (demo_refresh w' = (Ok {| rs_code := StatusUnauthorized; rs_body := BErr "invalid refresh token" |}, w')) ∧
  ∃ msg, @authMiddleware _ _ _ demo_jwt demo_config _ _ _ (λ _, writeJSON 200 BNone)
           (demo_request "/api/v1/me" ("Bearer " +:+ enc_claims (demo_access_claims 999)) "") w' = writeErr StatusUnauthorized msg w'.
Proof.
  destruct (@revoke_kills _ ascii_case _ _ _ _ demo_collation demo_uuid demo_jwt demo_auth_json _ _ _ _ _ demo_config demo_login_world "u1"
    ["uuid-1"] (1001 * second)) as [Ha Hb].
  - vm_compute. reflexivity.
  - vm_compute. discriminate.
  - vm_compute. split; [reflexivity|discriminate].
  - split.
    + apply (Ha (demo_request "/api/v1/auth/refresh" "" (enc_claims demo_refresh_claims)) (enc_claims demo_refresh_claims) demo_refresh_claims);
        [reflexivity|vm_compute; reflexivity|left].
    + apply (Hb (λ _, writeJSON 200 BNone) (demo_request "/api/v1/me" ("Bearer " +:+ enc_claims (demo_access_claims 999)) "") (demo_access_claims 999) 999);
        [vm_compute; reflexivity|reflexivity|reflexivity|vm_compute; reflexivity|vm_compute; reflexivity].
Defined.

(** An access token issued in the very second of the revocation
    outlives it: the stamp has whole seconds and the comparison is strict. *)
Theorem revoke_same_second {R} `{Redis R} `{RedisSets R} `{RedisCount R} `{RedisSession R} `{JWT} `{!RedisUp R} `{!RedisKeeps R}
    cfg (w : World R) uid t (next : HandlerFunc R) rq c :
  w_now w ≤ t < w_now w + 30 * 24 * hour → 0 < Unix (w_now w) ≤ 9223372036854775807 →
  HasPrefix (rq_Authorization rq) "Bearer " = true →
  let w' := set_now t (RevokeAllSessions uid w).2 in
  ParseWithClaims (APIJWTSecret cfg) t (TrimPrefix (rq_Authorization rq) "Bearer ") = Some c →
  c_Use c = "access" → c_Scope c = "" → c_Subject c = uid → c_IssuedAt c = Some (Unix (w_now w)) →
  rdb_exists (w_rdb w') t (blacklist_key (c_ID c)) = Ok 0 →
  authMiddleware cfg next rq w' = next (with_claims rq c) w'.
Proof.
  intros Ht Hu Hb w' Hp Huse Hsc Hs Hi He. rewrite authMiddleware_run, Hb. unfold parse_result.
  assert (w_now w' = t) as -> by (unfold w'; by destruct w). rewrite Hp. unfold refused.
  assert (w_now w' = t) as -> by (unfold w'; by destruct w). rewrite Huse, He, Hsc.
  assert (w_rdb w' = revoke_sessions (w_rdb w) (w_now w) uid) as -> by (unfold w'; by destruct w).
  rewrite Hs, revoke_stamp, Hi by done. by rewrite !Z.ltb_irrefl, andb_false_r.
Qed.
Lemma revoke_same_second_witness :
  let w' := set_now (1001 * second) (RevokeAllSessions "u1" demo_login_world).2 in
  let rq := demo_request "/api/v1/me" ("Bearer " +:+ enc_claims (demo_access_claims 1000)) "" in
  @authMiddleware _ _ _ demo_jwt demo_config _ _ _ (λ _, writeJSON 200 BNone) rq w' = (Ok {| rs_code := 200; rs_body := BNone |}, w').
Proof.
  apply (@revoke_same_second _ _ _ _ _ demo_jwt _ _ demo_config demo_login_world "u1" (1001 * second) (λ _, writeJSON 200 BNone)
    (demo_request "/api/v1/me" ("Bearer " +:+ enc_claims (demo_access_claims 1000)) "") (demo_access_claims 1000));
    try (vm_compute; reflexivity); vm_compute; split; discriminate || reflexivity.
Defined.

(** The two tokens of a session are not interchangeable: the refresh
    token never opens an endpoint and the access token is never accepted
    for a refresh, at any time and in any state. *)
Theorem token_kinds {R} `{Redis R} `{RedisSets R} `{RedisCount R} `{RedisSession R}
    `{Collation} `{UUID} `{JWT} `{!JWTLaws} `{AuthJSON} cfg (w w1 : World R) u p :
  issuePair cfg u w = (Ok p, w1) →
  ∀ (w2 : World R) rq (next : HandlerFunc R),
    (rq_Authorization rq = ("Bearer " +:+ RefreshToken p)%string →
     ∃ msg, authMiddleware cfg next rq w2 = writeErr StatusUnauthorized msg w2) ∧
    (Decode_refresh (rq_body rq) = Some (AccessToken p) →
     ∃ msg, refresh cfg rq w2 = writeErr StatusUnauthorized msg w2).
Proof.
  intros (Ha & Hr & _)%issuePair_Ok w2 rq next. split.
  - intros Hauth. rewrite authMiddleware_run, Hauth. change (HasPrefix _ "Bearer ") with true. cbv iota.
    rewrite (TrimPrefix_app "Bearer "). unfold parse_result. erewrite Parse_Signed by done.
    destruct (w_now w2 <? _); [|by eexists]. by eexists.
  - intros Hd. unfold refresh. rewrite Hd. erewrite bind_run by apply parse_run.
    destruct (parse_result cfg w2 (AccessToken p) true) as [c|] eqn:Hp; [|by eexists].
    apply parse_result_claims in Hp. erewrite Parse_Signed in Hp by done. destruct (w_now w2 <? _); [|done].
    injection Hp as <-. by eexists.
Qed.
Definition demo_user : User := scanUser demo_user_row.
Definition demo_issue := @issuePair _ _ _ _ demo_uuid demo_jwt demo_config demo_user (demo_world demo_user_db).
Definition demo_pair : tokenPair :=
  match demo_issue.1 with Ok p => p | _ => {| AccessToken := ""; RefreshToken := ""; ExpiresIn := 0; TokenType := "" |} end.
Lemma token_kinds_witness :
  ∃ msg, @authMiddleware _ _ _ demo_jwt demo_config _ _ _ (λ _, writeJSON 200 BNone)
           (demo_request "/api/v1/me" ("Bearer " +:+ RefreshToken demo_pair) "") demo_issue.2 = writeErr StatusUnauthorized msg demo_issue.2.
Proof.
  assert (Hi : @issuePair _ _ _ _ demo_uuid demo_jwt demo_config demo_user (demo_world demo_user_db) = (Ok demo_pair, demo_issue.2))
    by (vm_compute; reflexivity).
  destruct (@token_kinds _ _ _ _ _ demo_collation demo_uuid demo_jwt _ demo_auth_json demo_config (demo_world demo_user_db) demo_issue.2
    demo_user demo_pair Hi demo_issue.2 (demo_request "/api/v1/me" ("Bearer " +:+ RefreshToken demo_pair) "") (λ _, writeJSON 200 BNone)) as [Ha _].
  exact (Ha eq_refl).
Defined.

(** A fresh session works: until its expiry the access token admits
    requests with the identity, role and tenant of the account (unless the
    token or the account's sessions have been revoked), and until its own
    expiry the refresh token is exchanged for a new pair, as long as the
    account exists, is not locked and need not change its password. *)
Theorem session_usable {R} `{Redis R} `{RedisSets R} `{RedisCount R} `{RedisSession R}
    `{Collation} `{UUID} `{JWT} `{AuthJSON} `{!JWTLaws} `{!RedisFrame R} `{!RedisKeeps R} `{!UUIDShape}
    cfg (w w1 : World R) u p t rq (next : HandlerFunc R) :
  issuePair cfg u w = (Ok p, w1) → w_now w ≤ t → w_faults w = [] →
  (rq_Authorization rq = ("Bearer " +:+ AccessToken p)%string → t < Unix (w_now w + JWTExpiry cfg) * second →
   rdb_exists (w_rdb w1) t (blacklist_key (NewString (w_fresh w))) = Ok 0 → revoked_at (w_rdb w1) t (u_ID u) = None →
   authMiddleware cfg next rq (set_now t w1) =
   next (with_claims rq (claims_of u "access" "" (NewString (w_fresh w)) (w_now w) (JWTExpiry cfg))) (set_now t w1)) ∧
  (Decode_refresh (rq_body rq) = Some (RefreshToken p) →
   t < Unix (w_now w + JWTRefreshExp cfg) * second → t < w_now w + JWTRefreshExp cfg →
   (∀ r now k v ttl, (rdb_set r now k v ttl).2 = None) → (∀ r now k vs, (rdb_sadd r now k vs).2 = None) →
   ∀ row, user_row (u_ID u) w = Some row → ur_must_change_pwd row = false → default zeroTime (ur_locked_until row) ≤ t →
   can_sign cfg (scanUser row) (S (S (w_fresh w))) t →
   ∃ p' w2, refresh cfg rq (set_now t w1) = (Ok {| rs_code := StatusOK; rs_body := BTokens p' |}, w2)).
Proof.
  intros (Ha & Hr & r1 & r2 & Hset & Hadd & ->)%issuePair_Ok Ht Hf. split.
  - intros Hauth Hexp Hbl Hrev. rewrite authMiddleware_run, Hauth. change (HasPrefix _ "Bearer ") with true. cbv iota.
    rewrite (TrimPrefix_app "Bearer "). unfold parse_result. erewrite Parse_Signed by done. destruct w. simpl in *.
    rewrite (proj2 (Z.ltb_lt _ _) Hexp). unfold refused. simpl. rewrite Hbl, Hrev. done.
  - intros Hd Hexp Hlive Hse Hsa row Hrow Hmc Hlock Hj. destruct w as [db au r now fr fa me al]. simpl in *.
    apply (refresh_live cfg rq (RefreshToken p) (claims_of u "refresh" "" (NewString (S fr)) now (JWTRefreshExp cfg)) _ row); try done.
    + simpl. erewrite Parse_Signed by done. by rewrite (proj2 (Z.ltb_lt _ _) Hexp).
    + simpl. rewrite get_expire_ne by apply index_key_ne.
      replace r2 with ((rdb_sadd r1 now (refresh_index (u_ID u)) [NewString (S fr)]).1) by (by rewrite Hadd).
      rewrite get_sadd_ne by apply index_key_ne.
      replace r1 with ((rdb_set r now (refresh_key (NewString (S fr))) (u_ID u) (JWTRefreshExp cfg)).1) by (by rewrite Hset).
      apply rdb_get_set_fresh; [lia|apply Hse].
Qed.
Lemma session_usable_witness :
  let rq := demo_request "/api/v1/me" ("Bearer " +:+ AccessToken demo_pair) (RefreshToken demo_pair) in
  let w := set_now (1001 * second) demo_issue.2 in
  @authMiddleware _ _ _ demo_jwt demo_config _ _ _ (λ _, writeJSON StatusOK BNone) rq w = (Ok {| rs_code := StatusOK; rs_body := BNone |}, w) ∧
  ∃ p' w2, @refresh _ _ _ _ _ demo_collation demo_uuid demo_jwt demo_auth_json demo_config rq w = (Ok {| rs_code := StatusOK; rs_body := BTokens p' |}, w2).
Proof.
  cbv zeta.
  assert (Hi : @issuePair _ _ _ _ demo_uuid demo_jwt demo_config demo_user (demo_world demo_user_db) = (Ok demo_pair, demo_issue.2))
    by (vm_compute; reflexivity).
  destruct (@session_usable _ _ _ _ _ demo_collation demo_uuid demo_jwt demo_auth_json _ _ _ _ demo_config (demo_world demo_user_db) demo_issue.2
    demo_user demo_pair (1001 * second)
    (demo_request "/api/v1/me" ("Bearer " +:+ AccessToken demo_pair) (RefreshToken demo_pair)) (λ _, writeJSON StatusOK BNone) Hi) as [Ha Hr].
  - vm_compute. discriminate.
  - reflexivity.
  - split.
    + apply Ha; [reflexivity|vm_compute; reflexivity|vm_compute; reflexivity|vm_compute; reflexivity].
    + apply (Hr eq_refl) with demo_user_row; try (vm_compute; reflexivity); try (intros; reflexivity).
      * vm_compute. discriminate.
      * eexists. eexists. split; vm_compute; reflexivity.
Defined.

Definition demo_login_request (pw : string) : Request := demo_request "/api/v1/auth/login" "" ("Alice|" +:+ pw).

(** The password policy accepts exactly the passwords of 10 to 72
    bytes with an upper-case letter, a lower-case letter, a digit and any
    other character, in which the name of the account does not occur when
    case is ignored. *)
Theorem password_policy `{UnicodeCase} username password :
  ValidatePasswordStrength username password = "" ↔
  (10 ≤ len password ≤ 72)%nat ∧
  (∃ c, c ∈ runes password ∧ is_upper c = true) ∧ (∃ c, c ∈ runes password ∧ is_lower c = true) ∧
  (∃ c, c ∈ runes password ∧ is_number c = true) ∧ (∃ c, c ∈ runes password ∧ is_special c = true) ∧
  (username = "" ∨ Contains (ToLower password) (ToLower username) = false).
Proof.
  unfold ValidatePasswordStrength, passwordMinLen, passwordMaxLen. rewrite <-!existsb_elem.
  pose proof (classes_spec (runes password) no_classes) as (-> & -> & -> & ->). cbn [orb no_classes hasUpper hasLower hasDigit hasSpecial].
  destruct (Nat.ltb_spec (len password) 10) as [?|?]; [split; [done|lia]|].
  destruct (Nat.ltb_spec 72 (len password)) as [?|?]; [split; [done|lia]|].
  repeat destruct (existsb _ _); cbn [negb orb]; try naive_solver lia.
  destruct (Contains _ _); destruct (String.eqb_spec username "") as [->|?]; cbn [andb negb]; naive_solver lia.
Qed.
