(* ===== verification/Admin.v ===== *)
(** * Tenants, users and their security (src/internal/api/handlers_tenants.go,
    handlers_security.go, handlers_domains.go)

    The handlers of the management API that work on the database and on
    Redis alone: tenants and their endpoints, the bootstrap of the first
    administrator, accounts, the measures of the security officer and the
    custom domains. Request bodies are decoded by [encoding/json], random
    bytes come from [crypto/rand]: both are parameters. *)

From S2P Require Import Prelude GoStrings GoNet Config Model StoreCache AnswerCache RateLimit Warmup QueryLog Db World Repos Http Auth.

(** ** Parameters *)

Record DotReq := { dq_Prefix : string; dq_DoT : option bool; dq_DoH : option bool; dq_DoQ : option bool }.
Record BootstrapReq := { bq_Username : string; bq_Password : string; bq_Email : string }.
Record UserReq := { nu_TenantID : string; nu_Username : string; nu_Password : string; nu_Role : string; nu_Email : string }.
Record UserUpdate := { uu_TenantID : option string; uu_Role : string; uu_Email : string }.
Record createDomainReq := { cd_TenantID : string; cd_Domain : string }.
(** The values passed to [jsonDetail]. *)
Inductive Detail :=
| DText (s : string)
| DTenant (t : Tenant)
| DTenants (before after : Tenant)
| DUpstreams (before : option Upstream) (after : Upstream)
| DFields (fields : list (string * string)).
(** [readJSON] on a body (at most 1 MiB of it is read) and [json.Marshal]. *)
Class AdminJSON := {
  Decode_tenant : string → option Tenant;
  Decode_dot : string → option DotReq;
  Decode_bootstrap : string → option BootstrapReq;
  Decode_user : string → option UserReq;
  Decode_user_update : string → option UserUpdate;
  Decode_password : string → option string;
  Decode_domain : string → option createDomainReq;
  jsonDetail : Detail → string;
}.
(** [rand.Read] of 18 bytes: the n-th draw. *)
Class RandRead := { rand_bytes : nat → list Z }.

(** ** Helpers *)

Definition password_chars : string := "abcdefghijklmnopqrstuvwxyzABCDEFGHIJKLMNOPQRSTUVWXYZ0123456789!@#$%^&*".
Definition randomPassword `{RandRead} (n : nat) : string :=
  string_of_bytes ((λ b, default 0 (bytes_of password_chars !! Z.to_nat (b mod Z.of_nat (len password_chars)))) <$> rand_bytes n).

(** Assignments to fields of a tenant or a user. *)
Definition set_proto (t : Tenant) (dot doh doq : bool) : Tenant :=
  {| t_ID := t_ID t; t_Name := t_Name t; t_Prefix := t_Prefix t; t_BaseDomain := t_BaseDomain t;
     t_Enabled := t_Enabled t; t_VIP := t_VIP t; t_RateLimitQPS := t_RateLimitQPS t;
     t_CacheMaxTTL := t_CacheMaxTTL t; t_DefaultECS := t_DefaultECS t; t_AllowECS := t_AllowECS t;
     t_DoTEnabled := dot; t_DoHEnabled := doh; t_DoQEnabled := doq;
     t_UpstreamGroup := t_UpstreamGroup t; t_CreatedAt := t_CreatedAt t; t_UpdatedAt := t_UpdatedAt t |}.
Definition set_t_prefix (t : Tenant) (p : string) : Tenant :=
  {| t_ID := t_ID t; t_Name := t_Name t; t_Prefix := p; t_BaseDomain := t_BaseDomain t;
     t_Enabled := t_Enabled t; t_VIP := t_VIP t; t_RateLimitQPS := t_RateLimitQPS t;
     t_CacheMaxTTL := t_CacheMaxTTL t; t_DefaultECS := t_DefaultECS t; t_AllowECS := t_AllowECS t;
     t_DoTEnabled := t_DoTEnabled t; t_DoHEnabled := t_DoHEnabled t; t_DoQEnabled := t_DoQEnabled t;
     t_UpstreamGroup := t_UpstreamGroup t; t_CreatedAt := t_CreatedAt t; t_UpdatedAt := t_UpdatedAt t |}.
(** The fields an administrator, or a user of the tenant, may change. *)
Definition edit_tenant (admin : bool) (t in_ : Tenant) : Tenant :=
  if admin then
    {| t_ID := t_ID t; t_Name := t_Name in_; t_Prefix := t_Prefix in_; t_BaseDomain := t_BaseDomain in_;
       t_Enabled := t_Enabled in_; t_VIP := t_VIP in_; t_RateLimitQPS := t_RateLimitQPS in_;
       t_CacheMaxTTL := t_CacheMaxTTL in_; t_DefaultECS := t_DefaultECS in_; t_AllowECS := t_AllowECS in_;
       t_DoTEnabled := t_DoTEnabled in_; t_DoHEnabled := t_DoHEnabled in_; t_DoQEnabled := t_DoQEnabled in_;
       t_UpstreamGroup := t_UpstreamGroup in_; t_CreatedAt := t_CreatedAt t; t_UpdatedAt := t_UpdatedAt t |}
  else set_proto t (t_DoTEnabled in_) (t_DoHEnabled in_) (t_DoQEnabled in_).
Definition set_t_defaults (cfg : Config) (t : Tenant) : Tenant :=
  {| t_ID := t_ID t; t_Name := t_Name t; t_Prefix := t_Prefix t; t_BaseDomain := t_BaseDomain t;
     t_Enabled := t_Enabled t; t_VIP := t_VIP t;
     t_RateLimitQPS := if t_RateLimitQPS t =? 0 then RateLimitQPS cfg else t_RateLimitQPS t;
     t_CacheMaxTTL := if t_CacheMaxTTL t =? 0 then int_seconds (CacheMaxTTL cfg) else t_CacheMaxTTL t;
     t_DefaultECS := t_DefaultECS t; t_AllowECS := t_AllowECS t;
     t_DoTEnabled := t_DoTEnabled t; t_DoHEnabled := t_DoHEnabled t; t_DoQEnabled := t_DoQEnabled t;
     t_UpstreamGroup := t_UpstreamGroup t; t_CreatedAt := t_CreatedAt t; t_UpdatedAt := t_UpdatedAt t |}.
Definition new_user (id tenantID username : string) (role : Role) (email : string) (mustChange : bool) : User :=
  {| u_ID := id; u_TenantID := tenantID; u_Username := username; u_PasswordHash := ""; u_Role := role; u_Email := email;
     u_FailedAttempts := 0; u_LockedUntil := zeroTime; u_LastLogin := zeroTime; u_MustChangePwd := mustChange;
     u_PwdChangedAt := zeroTime; u_CreatedAt := zeroTime |}.
Definition edit_user (u : User) (role : Role) (tenantID email : string) : User :=
  {| u_ID := u_ID u; u_TenantID := tenantID; u_Username := u_Username u; u_PasswordHash := u_PasswordHash u; u_Role := role;
     u_Email := email; u_FailedAttempts := u_FailedAttempts u; u_LockedUntil := u_LockedUntil u; u_LastLogin := u_LastLogin u;
     u_MustChangePwd := u_MustChangePwd u; u_PwdChangedAt := u_PwdChangedAt u; u_CreatedAt := u_CreatedAt u |}.
(** The role of a new account, and of an edited one ([None]: refused). *)
Definition assignable (role : Role) : bool :=
  existsb (String.eqb role) [RoleSysAdmin; RoleSecAdmin; RoleAuditAdmin; RoleTenant].
Definition new_role (role : Role) : Role :=
  if assignable role then role else if (role =? RoleAdmin)%string then RoleSysAdmin else RoleTenant.
Definition edited_role (old : Role) (in_ : string) : option Role :=
  if (in_ =? "")%string then Some old
  else if assignable in_ then Some in_
  else if (in_ =? RoleAdmin)%string then Some RoleSysAdmin else None.

Definition nginxSnippet (t : Tenant) : string :=
  ("# DoH upstream for prefix " +:+ t_Prefix t +:+ newline +:+ "location / {" +:+ newline +:+
   "    proxy_pass http://127.0.0.1:8443;" +:+ newline +:+ "    proxy_set_header Host " +:+ DotEndpoint t +:+ ";" +:+ newline +:+
   "    proxy_set_header X-Real-IP $remote_addr;" +:+ newline +:+ "    proxy_read_timeout 10s;" +:+ newline +:+ "}")%string.
Definition caddySnippet (t : Tenant) : string :=
  (DotEndpoint t +:+ " {" +:+ newline +:+ "    tls {" +:+ newline +:+ "        protocols tls1.2 tls1.3" +:+ newline +:+
   "    }" +:+ newline +:+ "    handle /dns-query {" +:+ newline +:+ "        reverse_proxy 127.0.0.1:8443" +:+ newline +:+
   "    }" +:+ newline +:+ "}")%string.

(** One label of a domain, and a domain. *)
Definition label_char (c : ascii) : bool :=
  let b := byte_of c in ((97 <=? b) && (b <=? 122)) || ((48 <=? b) && (b <=? 57)) || (b =? 45).
Definition valid_label (l : string) : bool :=
  negb (l =? "")%string && Nat.leb (len l) 63 && negb (HasPrefix l "-") && negb (HasSuffix l "-") && all_chars label_char l.
Definition validDomain (s : string) : bool :=
  negb (s =? "")%string && Nat.leb (len s) 253 && negb (Contains s "..") && forallb valid_label (Split s ".").

(** ** Early returns *)

Section returns.
Context {R : Type} {M : Type → Type} `{MBind M} `{!Lift R M}.
(** [if err != nil { writeErr(500, err.Error()); return }] *)
Definition or_500 {A} (m : act R A) (k : A → M Resp) : M Resp :=
  r ← lift (try_ m);
  match r with
  | Ok a => k a
  | Err e => lift (writeErr StatusInternalServerError e)
  | Panic => lift panic
  end.
(** The same with a message of its own. *)
Definition or_fail {A} (m : act R A) (msg : string) (k : A → M Resp) : M Resp :=
  r ← lift (try_ m);
  match r with
  | Ok a => k a
  | Err _ => lift (writeErr StatusInternalServerError msg)
  | Panic => lift panic
  end.
(** [if err != nil || x == nil { writeErr(code, msg); return }] *)
Definition or_else {A} (m : act R (option A)) (code : Z) (msg : string) (k : A → M Resp) : M Resp :=
  r ← lift (try_ m);
  match r with
  | Ok (Some a) => k a
  | _ => lift (writeErr code msg)
  end.
Definition readJSON {A} (Decode : string → option A) (rq : Request) (k : A → M Resp) : M Resp :=
  match Decode (rq_body rq) with
  | None => lift (writeErr StatusBadRequest "invalid body")
  | Some v => k v
  end.
End returns.

Section admin.
Context {R : Type} `{UnicodeCase} `{Redis R} `{RedisSets R} `{RedisCount R} `{RedisSession R}
  `{Collation} `{UUID} `{Bcrypt} `{TenantJSON} `{Clock} `{AdminJSON} `{RandRead} (cfg : Config).

(** The claims are dereferenced: a panic without them. *)
Definition claims_or_panic (rq : Request) : act R Claims :=
  match claimsFrom rq with Some c => mret c | None => panic end.
Definition deleted : act R Resp := writeJSON StatusOK (BObj [("status", "deleted")]).

Definition auditAction (rq : Request) (action target : string) (detail : Detail) : act R unit :=
  an ← match claimsFrom rq with
       | None => mret (""%string, "unknown"%string)
       | Some c =>
           u ← try_ (GetUserByID (c_Subject c));
           mret (c_Subject c, match u with Ok (Some u) => u_Username u | _ => "unknown"%string end)
       end;
  ignore (write_audit (audit_row an.1 an.2 action target (jsonDetail detail) (clientIP (TrustProxyHeaders cfg) rq))).

(** ** Tenants *)

Definition scopeTenant {M} `{!Lift R M} (next : Request → M Resp) : Request → M Resp := λ rq,
  match claimsFrom rq with
  | None => lift (writeErr StatusUnauthorized "unauthorized")
  | Some c =>
      if negb (isPlatformAdmin (c_Role c)) && negb (c_TID c =? rq_id rq)%string
      then lift (writeErr StatusForbidden "not your tenant")
      else next rq
  end.

Definition me (rq : Request) : act R Resp :=
  c ← claims_or_panic rq;
  or_else (GetUserByID (c_Subject c)) StatusUnauthorized "user not found" (λ u,
  let u := set_u_PasswordHash u "" in
  t ← (if (u_TenantID u =? "")%string then mret None
       else t ← try_ (GetTenant (u_TenantID u)); mret match t with Ok t => t | _ => None end);
  writeJSON StatusOK (BMe u t)).

Definition listTenants (rq : Request) : act R Resp :=
  or_500 ListTenants (λ ts, writeJSON StatusOK (BTenants ts)).
Definition getTenant (rq : Request) : act R Resp :=
  or_else (GetTenant (rq_id rq)) StatusNotFound "tenant not found" (λ t, writeJSON StatusOK (BTenant t)).

Definition createTenant (rq : Request) : act R Resp :=
  readJSON Decode_tenant rq (λ t,
  if (t_Name t =? "")%string || (t_Prefix t =? "")%string || (t_BaseDomain t =? "")%string
  then writeErr StatusBadRequest "name, prefix and base_domain required"
  else if negb (ValidPrefix (t_Prefix t))
  then writeErr StatusBadRequest "invalid prefix: 3-32 lowercase alnum/hyphen, not reserved" else
  let t := set_t_defaults cfg t in
  r ← try_ (CreateTenant t);
  match r with
  | Err e => if Contains e "Duplicate" then writeErr StatusConflict "prefix or id already exists"
             else writeErr StatusInternalServerError e
  | Panic => panic
  | Ok t =>
      pw ← (λ w, (Ok (randomPassword (w_fresh w)), set_fresh (S (w_fresh w)) w));
      id ← uuid_NewString;
      let username := (t_Name t +:+ "-admin")%string in
      _ ← ignore (CreateUser (new_user id (t_ID t) username RoleTenant "" false) pw);
      _ ← auditAction rq "tenant.create" ("tenant:" +:+ t_ID t) (DTenant t);
      writeJSON StatusCreated (BNewTenant t username pw)
  end).

Definition updateTenant (rq : Request) : act R Resp :=
  or_else (GetTenant (rq_id rq)) StatusNotFound "tenant not found" (λ before,
  readJSON Decode_tenant rq (λ in_,
  c ← claims_or_panic rq;
  let t := edit_tenant (isPlatformAdmin (c_Role c)) before in_ in
  or_500 (UpdateTenant t) (λ _,
  _ ← PurgeMetaCache;
  _ ← auditAction rq "tenant.update" ("tenant:" +:+ rq_id rq) (DTenants before t);
  writeJSON StatusOK (BTenant t)))).

Definition deleteTenant (rq : Request) : act R Resp :=
  or_500 (DeleteTenant (rq_id rq)) (λ _,
  _ ← PurgeMetaCache;
  _ ← auditAction rq "tenant.delete" ("tenant:" +:+ rq_id rq) (DText "");
  deleted).

Definition show_bool (b : bool) : string := if b then "true" else "false".
Definition store_dot (rq : Request) (t : Tenant) : act R Resp :=
  or_500 (UpdateTenant t) (λ _,
  _ ← PurgeMetaCache;
  _ ← auditAction rq "tenant.dot_customize" ("tenant:" +:+ rq_id rq)
        (DFields [("prefix", t_Prefix t); ("dot", show_bool (t_DoTEnabled t)); ("doh", show_bool (t_DoHEnabled t));
                  ("doq", show_bool (t_DoQEnabled t))]%string);
  writeJSON StatusOK (BTenant t)).
Definition customizeDot (rq : Request) : act R Resp :=
  or_else (GetTenant (rq_id rq)) StatusNotFound "tenant not found" (λ t,
  readJSON Decode_dot rq (λ in_,
  let t' := set_proto t (default (t_DoTEnabled t) (dq_DoT in_)) (default (t_DoHEnabled t) (dq_DoH in_))
                        (default (t_DoQEnabled t) (dq_DoQ in_)) in
  if (dq_Prefix in_ =? "")%string then store_dot rq t'
  else if negb (ValidPrefix (dq_Prefix in_))
  then writeErr StatusBadRequest "invalid prefix: 3-32 lowercase alnum/hyphen, not reserved"
  else or_500 (TenantByPrefix (dq_Prefix in_)) (λ existing,
       if match existing with Some e => negb (t_ID e =? t_ID t)%string | None => false end
       then writeErr StatusConflict "prefix already taken"
       else store_dot rq (set_t_prefix t' (dq_Prefix in_))))).

Definition tenantEndpoints (rq : Request) : act R Resp :=
  or_else (GetTenant (rq_id rq)) StatusNotFound "tenant not found" (λ t,
  if (t_Prefix t =? "")%string then writeErr StatusBadRequest "tenant has no prefix yet — customize it first"
  else writeJSON StatusOK (BEndpoints
    [("tenant_id", t_ID t); ("prefix", t_Prefix t); ("dot_endpoint", DotEndpoint t); ("doh_endpoint", DoHEndpoint t);
     ("doq_endpoint", "quic://" +:+ DotEndpoint t); ("dot_port", "853"); ("doh_port", "443"); ("doq_port", "853");
     ("android_private_dns", DotEndpoint t); ("ios_profile", "DoT " +:+ DotEndpoint t +:+ " / DoH " +:+ DoHEndpoint t);
     ("dig_dot", "dig @127.0.0.1 -p 853 " +:+ DotEndpoint t +:+ " +tls example.com A");
     ("curl_doh", "curl -H 'accept: application/dns-message' -H 'content-type: application/dns-message' --data-binary @query.bin " +:+ DoHEndpoint t);
     ("nginx_snippet", nginxSnippet t); ("caddy_snippet", caddySnippet t)]%string)).

(** ** Accounts *)

Definition bootstrapAdmin (rq : Request) : act R Resp :=
  if (BootstrapToken cfg =? "")%string then writeErr StatusForbidden "bootstrap disabled: set BOOTSTRAP_TOKEN env"
  else if negb (rq_Bootstrap rq =? BootstrapToken cfg)%string then writeErr StatusUnauthorized "invalid bootstrap token"
  else or_500 ListUsers (λ existing,
  if existsb (λ u, (u_Role u =? RoleAdmin)%string) existing
  then writeErr StatusConflict "admin already exists — bootstrap disabled"
  else readJSON Decode_bootstrap rq (λ in_,
  if (bq_Username in_ =? "")%string || Nat.ltb (len (bq_Password in_)) 12
  then writeErr StatusBadRequest "username required; password >= 12 chars" else
  id ← uuid_NewString;
  let u := new_user id "" (ToLower (bq_Username in_)) RoleAdmin (bq_Email in_) false in
  or_500 (CreateUser u (bq_Password in_)) (λ _,
  _ ← ignore (write_audit (audit_row "" "bootstrap" "auth.bootstrap_admin" ("user:" +:+ u_Username u) ""
                             (clientIP (TrustProxyHeaders cfg) rq)));
  writeJSON StatusCreated (BObj [("status", "admin created"); ("username", u_Username u)]%string)))).

Definition listUsers (rq : Request) : act R Resp := or_500 ListUsers (λ us, writeJSON StatusOK (BUsers us)).

(** The tenant an account is bound to exists. *)
Definition bound_tenant (tid : string) (k : act R Resp) : act R Resp :=
  if (tid =? "")%string then k else or_else (GetTenant tid) StatusBadRequest "租户不存在" (λ _, k).

Definition createUser (rq : Request) : act R Resp :=
  readJSON Decode_user rq (λ in_,
  if (TrimSpace (nu_Username in_) =? "")%string then writeErr StatusBadRequest "用户名不能为空" else
  let msg := ValidatePasswordStrength (nu_Username in_) (nu_Password in_) in
  if negb (msg =? "")%string then writeErr StatusBadRequest msg else
  bound_tenant (nu_TenantID in_) (
  let role := new_role (nu_Role in_) in
  if (role =? RoleTenant)%string && (nu_TenantID in_ =? "")%string
  then writeErr StatusBadRequest "租户用户必须绑定租户" else
  id ← uuid_NewString;
  let u := new_user id (nu_TenantID in_) (ToLower (TrimSpace (nu_Username in_))) role (nu_Email in_) true in
  or_500 (CreateUser u (nu_Password in_)) (λ u,
  let u := set_u_PasswordHash u "" in
  _ ← auditAction rq "user.create" ("user:" +:+ u_Username u) (DFields [("tenant_id"%string, nu_TenantID in_)]);
  writeJSON StatusCreated (BUser u)))).

Definition updateUser (rq : Request) : act R Resp :=
  or_else (GetUserByID (rq_id rq)) StatusNotFound "user not found" (λ old,
  readJSON Decode_user_update rq (λ in_,
  match edited_role (u_Role old) (uu_Role in_) with
  | None => writeErr StatusBadRequest "invalid role"
  | Some role =>
      bound_tenant (default "" (uu_TenantID in_)) (
      let u := edit_user old role (default (u_TenantID old) (uu_TenantID in_)) (uu_Email in_) in
      or_500 (UpdateUser u) (λ _,
      _ ← (if negb (u_Role u =? u_Role old)%string || negb (u_TenantID u =? u_TenantID old)%string
           then ignore (RevokeAllSessions (u_ID u)) else mret ());
      let u := set_u_PasswordHash u "" in
      _ ← auditAction rq "user.update" ("user:" +:+ u_Username u) (DFields [("tenant_id", u_TenantID u); ("role", u_Role u)]%string);
      writeJSON StatusOK (BUser u)))
  end)).

Definition setPassword (rq : Request) : act R Resp :=
  readJSON Decode_password rq (λ pw,
  let msg := ValidatePasswordStrength "" pw in
  if negb (msg =? "")%string then writeErr StatusBadRequest msg else
  or_500 (CheckPasswordHistory (rq_id rq) pw 5) (λ reused,
  if (reused : bool) then writeErr StatusBadRequest "password was used recently, choose a new one" else
  or_500 (SetPassword (rq_id rq) pw) (λ _,
  _ ← ignore (RevokeAllSessions (rq_id rq));
  _ ← auditAction rq "user.password_reset" ("user:" +:+ rq_id rq) (DText "");
  writeJSON StatusOK (BObj [("status", "ok")]%string)))).

Definition deleteUser (rq : Request) : act R Resp :=
  or_else (GetUserByID (rq_id rq)) StatusNotFound "user not found" (λ u,
  if (rq_id rq =? "")%string then writeErr StatusNotFound "user not found" else
  c ← claims_or_panic rq;
  if (c_Subject c =? rq_id rq)%string then writeErr StatusBadRequest "cannot delete yourself" else
  _ ← ignore (RevokeAllSessions (rq_id rq));
  or_500 (DeleteUser (rq_id rq)) (λ _,
  _ ← auditAction rq "user.delete" ("user:" +:+ u_Username u) (DText "");
  deleted)).

(** ** The security officer *)

Definition auditActor (rq : Request) (action target detail : string) : act R unit :=
  match claimsFrom rq with
  | None => mret ()
  | Some c =>
      u ← try_ (GetUserByID (c_Subject c));
      match u with
      | Ok (Some _) => auditAction rq action target (DText detail)
      | _ => mret ()
      end
  end.
Definition sec_done (status : string) (u : User) : act R Resp :=
  writeJSON StatusOK (BObj [("status"%string, status); ("user"%string, u_Username u)]).
Definition secLockUser (rq : Request) : act R Resp :=
  or_else (GetUserByID (rq_id rq)) StatusNotFound "user not found" (λ u,
  or_fail (LockUser (rq_id rq) (15 * minute)) "lock failed" (λ _,
  _ ← ignore (RevokeAllSessions (rq_id rq));
  _ ← auditActor rq "security.user_lock" ("user:" +:+ u_Username u) "locked_by_secadmin";
  sec_done "locked" u)).
Definition secUnlockUser (rq : Request) : act R Resp :=
  or_else (GetUserByID (rq_id rq)) StatusNotFound "user not found" (λ u,
  or_fail (UnlockUser (rq_id rq)) "unlock failed" (λ _,
  _ ← auditActor rq "security.user_unlock" ("user:" +:+ u_Username u) "unlocked_by_secadmin";
  sec_done "unlocked" u)).
Definition secRevokeSessions (rq : Request) : act R Resp :=
  or_else (GetUserByID (rq_id rq)) StatusNotFound "user not found" (λ u,
  or_fail (RevokeAllSessions (rq_id rq)) "revoke failed" (λ _,
  _ ← auditActor rq "security.revoke_sessions" ("user:" +:+ u_Username u) "sessions_revoked";
  sec_done "sessions revoked" u)).
Definition secOverview (rq : Request) : act R Resp :=
  or_fail CountLockedUsers "db error" (λ locked,
  or_fail CountMustChangePwd "db error" (λ mustChange,
  or_fail (RecentLoginFailures 10) "db error" (λ recent,
  writeJSON StatusOK (BSecurity locked mustChange recent)))).

(** ** Custom domains *)

(** Signals the DNS daemons to reload their configuration. *)
Definition bumpConfig : act R unit := redis (λ r now, ((rdb_incr r now "dns:config:version").1, ())).
Definition listDomains (rq : Request) : act R Resp :=
  let tenantID := match claimsFrom rq with
                  | Some c => if (c_Role c =? RoleTenant)%string then c_TID c else query_get rq "tenant_id"
                  | None => query_get rq "tenant_id"
                  end in
  or_500 (ListTenantDomains tenantID) (λ ds, writeJSON StatusOK (BDomains ds)).
Definition createDomain (rq : Request) : act R Resp :=
  match Decode_domain (rq_body rq) with
  | None => writeErr StatusBadRequest "invalid JSON body"
  | Some req =>
      let domain := ToLower (TrimSpace (TrimSuffix (cd_Domain req) ".")) in
      if negb (validDomain domain) then writeErr StatusBadRequest "valid domain required (e.g. dns.customer.com)"
      else if (cd_TenantID req =? "")%string then writeErr StatusBadRequest "tenant_id required"
      else or_else (GetTenant (cd_TenantID req)) StatusNotFound "tenant not found" (λ _,
      let base := ToLower (TrimSuffix (BaseDomain cfg) ".") in
      if (domain =? base)%string || HasSuffix domain ("." +:+ base)
      then writeErr StatusBadRequest "domain overlaps the platform base domain" else
      id ← uuid_NewString;
      let td := {| td_ID := id; td_TenantID := cd_TenantID req; td_Domain := domain; td_Enabled := false;
                   td_CertStatus := CertNone; td_CertExpiry := None; td_CertError := ""; td_CreatedAt := zeroTime;
                   td_UpdatedAt := zeroTime |} in
      r ← try_ (CreateTenantDomain td);
      match r with
      | Err e => if Contains e "Duplicate" then writeErr StatusConflict "domain already bound"
                 else writeErr StatusInternalServerError e
      | Panic => panic
      | Ok _ =>
          _ ← bumpConfig;
          _ ← auditAction rq "domain.create" domain (DText (cd_TenantID req));
          writeJSON StatusCreated (BDomain td)
      end)
  end.
Definition deleteDomain (rq : Request) : act R Resp :=
  td ← try_ (GetTenantDomain (rq_id rq));
  match td with
  | Ok td =>
      or_500 (DeleteTenantDomain (rq_id rq)) (λ _,
      _ ← bumpConfig;
      _ ← auditAction rq "domain.delete" (td_Domain td) (DText (td_TenantID td));
      deleted)
  | _ => writeErr StatusNotFound "domain not found"
  end.
End admin.
