(* ===== verification/CertMgr.v ===== *)
(** * Certificates of customer domains (src/internal/certmgr/certmgr.go)

    The ACME manager: the account key and the set-up of the client, issuing
    a certificate and storing it, the renewal pass, and the two API handlers
    on top of it (handlers_domains.go). The state is the [World] of the
    control plane and the file system. The ACME library, PEM, X.509 and key
    generation are parameters. Issuing holds the manager's lock, so calls
    run one after the other; the clock stands still within one call. *)

From S2P Require Import Prelude GoStrings GoNet Config Model StoreCache RateLimit Files CertStore Warmup QueryLog Db World Repos Http Auth Admin.

(** ** Parameters *)

(** [certificate.Resource] *)
Record Resource := { Certificate : string; PrivateKey : string }.
(** Keys are of type [K], loaded certificate chains of type [C]. *)
Class ACME (K C : Type) := {
  ecdsa_GenerateKey : nat → outcome K;
  x509_MarshalECPrivateKey : K → outcome string;
  x509_ParseECPrivateKey : string → outcome K;
  pem_Encode : string → string;                      (* type EC PRIVATE KEY *)
  pem_Decode : string → option string;               (* the first block *)
  x509_NotAfter : string → string + Time;            (* ParseCertificate: error or NotAfter *)
  tls_X509KeyPair : string → string → option (Loaded C);
  LEDirectoryStaging : string;
  LEDirectoryProduction : string;
  lego_NewClient : string → K → string → outcome unit;
  lego_ResolveAccountByKey : K → outcome (option string);
  lego_Register : K → outcome string;
  lego_SetHTTP01Provider : string → string → outcome unit;
  lego_SetDNS01Provider : string → string → string → outcome unit;
  lego_Obtain : Time → list string → outcome Resource;
}.

(** ** State *)

Record CertState (R : Type) := { cs_world : World R; cs_files : Files }.
Arguments cs_world {R}. Arguments cs_files {R}. Arguments Build_CertState {R}.
Definition certm (R A : Type) : Type := CertState R → outcome A * CertState R.
#[global] Instance certm_ret {R} : MRet (certm R) := λ A a st, (Ok a, st).
#[global] Instance certm_bind {R} : MBind (certm R) := λ A B f m st,
  match m st with
  | (Ok a, st) => f a st
  | (Err e, st) => (Err e, st)
  | (Panic, st) => (Panic, st)
  end.
#[global] Instance certm_lift {R} : Lift R (certm R) := λ A m st,
  let '(o, w) := m (cs_world st) in (o, {| cs_world := w; cs_files := cs_files st |}).
(** A file operation. *)
Definition on_files {R A} (op : Files → outcome A * Files) : certm R A := λ st,
  let '(o, f) := op (cs_files st) in (o, {| cs_world := cs_world st; cs_files := f |}).
Definition on_disk {R A} (q : Files → A) : certm R A := λ st, (Ok (q (cs_files st)), st).
(** A call of a library that is no part of the state. *)
Definition call {R A} (o : outcome A) : certm R A := λ st, (o, st).
(** [x, err := m] *)
Definition cert_try {R A} (m : certm R A) : certm R (outcome A) := λ st,
  match m st with
  | (Panic, st) => (Panic, st)
  | (o, st) => (Ok o, st)
  end.

Section manager.
Context {R K C : Type} `{UnicodeCase} `{Redis R} `{RedisSets R} `{RedisCount R} `{RedisSession R}
  `{Collation} `{UUID} `{Bcrypt} `{TenantJSON} `{Clock} `{AdminJSON} `{ACME K C} (cfg : Config).

(** ** Account and client *)

Definition loadOrCreateKey (path : string) : certm R K :=
  r ← cert_try (on_files (λ f, ReadFile f path));
  let stored := match r with
                | Ok b => match pem_Decode b with
                          | Some blk => match x509_ParseECPrivateKey blk with Ok k => Some k | _ => None end
                          | None => None
                          end
                | _ => None
                end in
  match stored with
  | Some k => mret k
  | None =>
      n ← lift (λ w, (Ok (w_fresh w), set_fresh (S (w_fresh w)) w));
      key ← call (ecdsa_GenerateKey n);
      der ← call (x509_MarshalECPrivateKey key);
      _ ← on_files (λ f, WriteFile f path (pem_Encode der));
      mret key
  end.

Definition directoryURL : string :=
  if negb (ACMEDirectoryURL cfg =? "")%string then ACMEDirectoryURL cfg
  else if ACMEStaging cfg then LEDirectoryStaging else LEDirectoryProduction.
(** The parts of the manager the client set-up leaves behind. *)
Record Manager := { mg_key : K; mg_registration : string; mg_directoryURL : string }.
Definition initClient : certm R Manager :=
  let acctDir := path_Join [CertDir cfg; "acme"%string] in
  _ ← on_files (λ f, MkdirAll f acctDir);
  key ← loadOrCreateKey (path_Join [acctDir; "account.key"%string]);
  _ ← call (lego_NewClient (ACMEEmail cfg) key directoryURL);
  reg ← match lego_ResolveAccountByKey key with
        | Ok (Some reg) => mret reg
        | Panic => call Panic
        | _ => call (match lego_Register key with Err e => Err ("acme register: " +:+ e)%string | o => o end)
        end;
  mret {| mg_key := key; mg_registration := reg; mg_directoryURL := directoryURL |}.
(** [None] is a manager without a client, for [ACMEEnabled] off. *)
Definition New : certm R (option Manager) :=
  if negb (ACMEEnabled cfg) then mret None
  else if (ACMEEmail cfg =? "")%string then call (Err "ACME_EMAIL is required when ACME_ENABLED=true")
  else
    _ ← on_files (λ f, MkdirAll f (path_Join [CertDir cfg; "domains"%string]));
    m ← initClient;
    let '(host, port) := match SplitHostPort (ACMEHTTPPort cfg) with
                         | Ok hp => hp
                         | _ => ("127.0.0.1"%string, ACMEHTTPPort cfg)
                         end in
    _ ← call (match lego_SetHTTP01Provider host port with Err e => Err ("http01 provider: " +:+ e)%string | o => o end);
    mret (Some m).

(** ** Files of a domain *)

Definition DomainCertDir (domain : string) : string := path_Join [CertDir cfg; "domains"%string; ToLower domain].
Definition certPaths (domain : string) : string * string :=
  (path_Join [DomainCertDir domain; "fullchain.pem"%string], path_Join [DomainCertDir domain; "privkey.pem"%string]).
(** [tls.LoadX509KeyPair] on the two files. *)
Definition LoadX509KeyPair (f : Files) (certFile keyFile : string) : option (Loaded C) :=
  match f_files f !! path_of f certFile, f_files f !! path_of f keyFile with
  | Some c, Some k => tls_X509KeyPair c k
  | _, _ => None
  end.
Definition LoadDomainCert (domain : string) : certm R (option (Loaded C)) :=
  let '(certFile, keyFile) := certPaths domain in on_disk (λ f, LoadX509KeyPair f certFile keyFile).
Definition pem_expiry (nothing b : string) : outcome Time :=
  match pem_Decode b with
  | None => Err nothing
  | Some blk => match x509_NotAfter blk with inl e => Err e | inr t => Ok t end
  end.
Definition CertExpiryFromFile (certFile : string) : certm R Time :=
  b ← on_files (λ f, ReadFile f certFile); call (pem_expiry "no PEM block" b).
Definition DomainCertExpiry (domain : string) : certm R Time :=
  b ← on_files (λ f, ReadFile f (certPaths domain).1); call (pem_expiry "no PEM block in fullchain" b).
Definition withinCertDir (f : Files) (dir : string) : bool :=
  match Abs f (CertDir cfg), Abs f dir with
  | Ok base, Ok d => let rel := Rel base d in negb (rel =? "..")%string && negb (HasPrefix rel "../")
  | _, _ => false
  end.
Definition store_pair (domain : string) (res : Resource) : certm R unit :=
  _ ← on_files (λ f, MkdirAll f (DomainCertDir domain));
  _ ← on_files (λ f, WriteFile f (certPaths domain).1 (Certificate res));
  on_files (λ f, WriteFile f (certPaths domain).2 (PrivateKey res)).
Definition persist (domain : string) (res : Resource) : certm R unit :=
  inside ← on_disk (λ f, withinCertDir f (DomainCertDir domain));
  if negb inside then call (Err ("refusing to persist cert outside cert dir for " +:+ fmt_q domain)%string)
  else store_pair domain res.

(** ** Issuing *)

(** [m.repos.SetDomainCert(...)], its result dropped. *)
Definition set_status (td : TenantDomain) (st : CertStatus) (expiry : option Time) (msg : string) : certm R unit :=
  lift (ignore (SetDomainCert (td_ID td) st expiry msg)).
(** [m; on error record it and return wrap(err)] *)
Definition or_record {A} (td : TenantDomain) (wrap : string → string) (m : certm R A) (k : A → certm R unit) : certm R unit :=
  r ← cert_try m;
  match r with
  | Ok a => k a
  | Err e => _ ← set_status td CertError None e; call (Err (wrap e))
  | Panic => call Panic
  end.
Definition norm_domain (d : string) : string := ToLower (TrimSuffix d ".").
Definition setDNS01Provider : certm R unit :=
  call (lego_SetDNS01Provider (AliyunAccessKeyID cfg) (AliyunAccessKeySecret cfg) "cn-hangzhou").
Definition obtain_and_store (td : TenantDomain) (domain : string) (domains : list string) : certm R unit :=
  now ← lift time_Now;
  or_record td (λ e, "obtain " +:+ domain +:+ ": " +:+ e)%string (call (lego_Obtain now domains)) (λ res,
  or_record td id (persist domain res) (λ _,
  exp ← cert_try (DomainCertExpiry domain);
  _ ← set_status td CertActive (Some (match exp with Ok t => t | _ => zeroTime end)) "";
  lift bumpConfig)).
Definition Issue (td : TenantDomain) (method : string) : certm R unit :=
  if negb (ACMEEnabled cfg) then call (Err "ACME manager disabled (ACME_ENABLED=false)") else
  let domain := norm_domain (td_Domain td) in
  _ ← set_status td CertIssuing None "";
  if (method =? "dns01")%string then
    if (AliyunAccessKeyID cfg =? "")%string || (AliyunAccessKeySecret cfg =? "")%string
    then call (Err "dns01 requires ALIYUN_ACCESS_KEY_ID/SECRET")
    else or_record td id setDNS01Provider (λ _, obtain_and_store td domain [domain; ("*." +:+ domain)%string])
  else obtain_and_store td domain [domain].

(** ** Renewal *)

(** Whether a listed domain is renewed; the last case looks at the file. *)
Definition renewal_due (now : Time) (td : TenantDomain) : certm R bool :=
  if (td_CertStatus td =? CertError)%string then mret true
  else match td_CertExpiry td with
       | None => mret true
       | Some t =>
           if t - now <? CertRenewBefore cfg then mret true
           else r ← cert_try (DomainCertExpiry (td_Domain td));
                mret (match r with Ok _ => false | _ => true end)
       end.
Definition renew (td : TenantDomain) : certm R unit :=
  if negb (td_Enabled td) then mret () else
  now ← lift time_Now;
  need ← renewal_due now td;
  if (need : bool) then _ ← cert_try (Issue td "http01"); mret () else mret ().
Fixpoint renew_all (tds : list TenantDomain) : certm R unit :=
  match tds with
  | [] => mret ()
  | td :: tds => _ ← renew td; renew_all tds
  end.
(** One run of [RenewLoop]: at the start and every twelve hours. *)
Definition renew_run : certm R unit :=
  r ← cert_try (lift (ListTenantDomains ""));
  match r with
  | Ok tds => renew_all tds
  | _ => mret ()
  end.
(** [RenewLoop]: a pass at the start and one per tick; [evs] is what happens
    before each tick. Its context is never cancelled. *)
Fixpoint renew_ticks (evs : list (CertState R → CertState R)) : certm R unit :=
  match evs with
  | [] => mret ()
  | ev :: evs => λ st, (_ ← renew_run; renew_ticks evs) (ev st)
  end.
Definition RenewLoop (evs : list (CertState R → CertState R)) : certm R unit :=
  if negb (ACMEEnabled cfg) then mret () else _ ← renew_run; renew_ticks evs.

(** ** Handlers *)

Definition issueDomainCert (has_mgr : bool) (rq : Request) : certm R Resp :=
  if negb has_mgr || negb (ACMEEnabled cfg)
  then lift (writeErr StatusServiceUnavailable "ACME disabled (set ACME_ENABLED=true + ACME_EMAIL)") else
  td ← cert_try (lift (GetTenantDomain (rq_id rq)));
  match td with
  | Ok td =>
      let method := query_get rq "method" in
      let method := if (method =? "")%string then "http01"%string else method in
      if negb (method =? "http01")%string && negb (method =? "dns01")%string
      then lift (writeErr StatusBadRequest "method must be http01 or dns01") else
      r ← cert_try (Issue td method);
      match r with
      | Ok _ =>
          _ ← lift (auditAction cfg rq "domain.cert_issue" (td_Domain td) (DText (td_TenantID td)));
          lift (writeJSON StatusOK (BObj [("status", "issued")]%string))
      | Err e => lift (writeErr 502 ("issue failed: " +:+ e)%string)
      | Panic => call Panic
      end
  | _ => lift (writeErr StatusNotFound "domain not found")
  end.

Definition with_expiry (td : TenantDomain) (t : Time) : TenantDomain :=
  {| td_ID := td_ID td; td_TenantID := td_TenantID td; td_Domain := td_Domain td; td_Enabled := td_Enabled td;
     td_CertStatus := td_CertStatus td; td_CertExpiry := Some t; td_CertError := td_CertError td;
     td_CreatedAt := td_CreatedAt td; td_UpdatedAt := td_UpdatedAt td |}.
(** The expiry on disk of a domain listed as active without one. *)
Definition refresh_expiry (has_mgr : bool) (td : TenantDomain) : certm R TenantDomain :=
  if (td_CertStatus td =? CertActive)%string && negb (bool_decide (is_Some (td_CertExpiry td))) && has_mgr then
    r ← cert_try (DomainCertExpiry (td_Domain td));
    mret (match r with Ok t => with_expiry td t | _ => td end)
  else mret td.
Fixpoint refresh_all (has_mgr : bool) (tds : list TenantDomain) : certm R (list TenantDomain) :=
  match tds with
  | [] => mret []
  | td :: tds => td ← refresh_expiry has_mgr td; tds ← refresh_all has_mgr tds; mret (td :: tds)
  end.
Definition certsOverview (has_mgr : bool) (rq : Request) : certm R Resp :=
  exp ← cert_try (CertExpiryFromFile (TLSCertFile cfg));
  now ← lift time_Now;
  let base := {| bc_Domain := BaseDomain cfg; bc_Expiry := match exp with Ok t => Some t | _ => None end;
                 bc_Valid := match exp with Ok t => 0 <? t - now | _ => false end; bc_Source := "acme.sh" |} in
  or_500 (ListTenantDomains "") (λ tds,
  tds ← refresh_all has_mgr tds;
  lift (writeJSON StatusOK (BCerts (ACMEEnabled cfg) (ACMEStaging cfg) base tds))).
End manager.

(** ** Containment *)

Section contained.
Context {R K C : Type} `{UnicodeCase} `{Redis R} `{RedisSets R} `{RedisCount R} `{RedisSession R}
  `{Collation} `{UUID} `{Bcrypt} `{TenantJSON} `{Clock} `{AdminJSON} `{ACME K C} (cfg : Config).
Implicit Types st : CertState R.

(** A command keeps a property of the files. *)
Definition fkeeps {A} (Q : Files → Prop) (m : certm R A) : Prop := ∀ st, Q (cs_files st) → Q (cs_files (m st).2).
Lemma fkeeps_bind {A B} Q (m : certm R A) (k : A → certm R B) : fkeeps Q m → (∀ a, fkeeps Q (k a)) → fkeeps Q (m ≫= k).
Proof.
  intros Hm Hk st Hst. unfold mbind, certm_bind. specialize (Hm st Hst).
  destruct (m st) as [[a|e|] st']; simpl in *; [by apply Hk|done|done].
Qed.
Lemma fkeeps_ret {A} Q (a : A) : fkeeps Q (mret a).
Proof. by intros st. Qed.
Lemma fkeeps_call {A} Q (o : outcome A) : fkeeps Q (call o).
Proof. by intros st. Qed.
Lemma fkeeps_on_disk {A} Q (q : Files → A) : fkeeps Q (on_disk q).
Proof. by intros st. Qed.
Lemma fkeeps_lift {A} Q (m : act R A) : fkeeps Q (lift m).
Proof. intros st. unfold lift, certm_lift. by destruct (m (cs_world st)). Qed.
Lemma fkeeps_try {A} Q (m : certm R A) : fkeeps Q m → fkeeps Q (cert_try m).
Proof. intros Hm st Hst. unfold cert_try. specialize (Hm st Hst). by destruct (m st) as [[a|e|] st']. Qed.
Lemma fkeeps_files {A} Q (op : Files → outcome A * Files) : (∀ f, Q f → Q (op f).2) → fkeeps Q (on_files op).
Proof. intros Hop st Hst. unfold on_files. specialize (Hop _ Hst). by destruct (op (cs_files st)). Qed.

(** The files outside the certificate directory are those of [f0]. *)
Definition outside_same (f0 f : Files) : Prop :=
  f_cwd f = f_cwd f0 ∧
  ∀ q, ¬ path_of f0 (CertDir cfg) `prefix_of` q → f_files f !! q = f_files f0 !! q.
Lemma outside_fault f0 f : outside_same f0 f → outside_same f0 (next_file_fault f).2.
Proof. unfold next_file_fault. by destruct (f_faults f). Qed.
Lemma outside_read f0 p f : outside_same f0 f → outside_same f0 (ReadFile f p).2.
Proof. intros Hf%outside_fault. unfold ReadFile. destruct (next_file_fault f) as [o f']. by destruct o. Qed.
Lemma outside_mkdir f0 p f : outside_same f0 f → outside_same f0 (MkdirAll f p).2.
Proof.
  intros Hf%outside_fault. unfold MkdirAll. destruct (next_file_fault f) as [o f']. simpl in *.
  destruct (existsb _ _); [done|]. by destruct o.
Qed.
Lemma outside_write f0 p s f :
  path_of f0 (CertDir cfg) `prefix_of` path_of f0 p → outside_same f0 f → outside_same f0 (WriteFile f p s).2.
Proof.
  intros Hp Hf%outside_fault. unfold WriteFile. destruct (next_file_fault f) as [o f']. simpl in *.
  destruct Hf as [Hc Hf].
  assert (∀ x, outside_same f0 (set_files (<[path_of f' p := x]> (f_files f')) f')) as Hset.
  { intros x. split; [done|]. intros q Hq. simpl. rewrite lookup_insert_ne; [by apply Hf|].
    intros <-. apply Hq. unfold path_of in *. by rewrite Hc. }
  destruct (_ || _); [done|]. destruct o as [[e [n|]]|]; simpl; [apply Hset|done|apply Hset].
Qed.
Lemma withinCertDir_prefix f dir :
  Forall (λ x, plain x = true) (f_cwd f) → withinCertDir cfg f dir = true →
  path_of f (CertDir cfg) `prefix_of` path_of f dir.
Proof.
  intros Hc. unfold withinCertDir, Abs.
  destruct (IsAbs (CertDir cfg)), (IsAbs dir), (f_getwd f); try done; intros Hw;
    (apply stays_prefix; [by apply resolve_plain|exact Hw]).
Qed.
Lemma certPaths_below f domain :
  path_of f (certPaths cfg domain).1 = path_of f (DomainCertDir cfg domain) ++ ["fullchain.pem"%string] ∧
  path_of f (certPaths cfg domain).2 = path_of f (DomainCertDir cfg domain) ++ ["privkey.pem"%string].
Proof. split; by apply path_Join_plain; [|repeat constructor]. Qed.
Lemma fkeeps_persist f0 domain res :
  Forall (λ x, plain x = true) (f_cwd f0) → fkeeps (outside_same f0) (persist cfg domain res).
Proof.
  intros Hcwd st Hst. unfold persist.
  change ((on_disk ?q ≫= ?k) st) with (k (q (cs_files st)) st). cbv beta.
  destruct (withinCertDir cfg (cs_files st) (DomainCertDir cfg domain)) eqn:Hw; [|done].
  assert (path_of f0 (CertDir cfg) `prefix_of` path_of f0 (DomainCertDir cfg domain)) as Hp.
  { destruct Hst as [Hc _]. unfold path_of. rewrite <-Hc. apply withinCertDir_prefix; [by rewrite Hc|done]. }
  destruct (certPaths_below f0 domain) as [H1' H2'].
  assert (fkeeps (outside_same f0) (store_pair cfg domain res)) as Hs; [|exact (Hs st Hst)]. unfold store_pair.
  apply fkeeps_bind; [apply fkeeps_files; intros; by apply outside_mkdir|intros _].
  apply fkeeps_bind; [|intros _]; apply fkeeps_files; intros f; apply outside_write;
    rewrite ?H1', ?H2'; by apply prefix_app_r.
Qed.
Ltac fkeeps_step :=
  lazymatch goal with
  | |- fkeeps _ (_ ≫= _) => apply fkeeps_bind; [|intros ?]
  | |- fkeeps _ (mret _) => apply fkeeps_ret
  | |- fkeeps _ (call _) => apply fkeeps_call
  | |- fkeeps _ (lift _) => apply fkeeps_lift
  | |- fkeeps _ (cert_try _) => apply fkeeps_try
  | |- fkeeps _ (on_files (λ f, ReadFile f _)) => apply fkeeps_files, outside_read
  | |- fkeeps _ (persist _ _ _) => by apply fkeeps_persist
  | |- fkeeps _ (match ?x with _ => _ end) => destruct x
  | |- fkeeps _ (if ?x then _ else _) => destruct x
  end.
Lemma fkeeps_Issue f0 td method :
  Forall (λ x, plain x = true) (f_cwd f0) → fkeeps (outside_same f0) (Issue cfg td method).
Proof.
  intros Hc. unfold Issue, obtain_and_store, or_record, set_status, setDNS01Provider, DomainCertExpiry. cbv zeta.
  repeat fkeeps_step.
Qed.
(** However long it runs, the loop writes nothing outside the certificate
    directory. *)
Lemma fkeeps_renew_run f0 : Forall (λ x, plain x = true) (f_cwd f0) → fkeeps (outside_same f0) (renew_run cfg).
Proof.
  intros Hc. unfold renew_run. repeat fkeeps_step; [|apply fkeeps_ret..]. match goal with |- fkeeps _ (renew_all _ ?l) => induction l as [|td tds IH] end;
    cbn [renew_all]; [apply fkeeps_ret|].
  apply fkeeps_bind; [|done]. unfold renew, renewal_due, DomainCertExpiry. repeat first [apply fkeeps_Issue; done | fkeeps_step].
Qed.
Lemma RenewLoop_contained f0 evs :
  Forall (λ x, plain x = true) (f_cwd f0) →
  Forall (λ ev : CertState R → CertState R, ∀ st, outside_same f0 (cs_files st) → outside_same f0 (cs_files (ev st))) evs →
  fkeeps (outside_same f0) (RenewLoop cfg evs).
Proof.
  intros Hc Hevs. unfold RenewLoop. destruct (negb _); [apply fkeeps_ret|]. apply fkeeps_bind; [by apply fkeeps_renew_run|intros _].
  induction Hevs as [|ev evs Hev _ IH]; [apply fkeeps_ret|]. intros st Hst. cbn [renew_ticks].
  apply (fkeeps_bind _ (renew_run cfg) (λ _, renew_ticks cfg evs)); [by apply fkeeps_renew_run|by intros _|by apply Hev].
Qed.
End contained.

(** ** Accepted domains *)

Lemma Split_chars p s c :
  p c = true → Forall (λ l, all_chars p l = true) (Split s c) → all_chars p s = true.
Proof.
  intros Hc. induction s as [|d s IH]; [done|]. cbn [Split all_chars]. destruct (Ascii.eqb_spec d c) as [->|Hd].
  - intros Hs. inversion_clear Hs. rewrite Hc. auto.
  - destruct (Split s c) as [|x l] eqn:E; [by apply Split_ne in E|]. intros Hs. inversion_clear Hs as [|?? Hx Hl].
    cbn [all_chars] in Hx. apply andb_true_iff in Hx as [-> Hx]. apply IH. by constructor.
Qed.
Lemma all_chars_impl (p q : ascii → bool) s : (∀ c, p c = true → q c = true) → all_chars p s = true → all_chars q s = true.
Proof.
  intros Hpq. induction s as [|c s IH]; [done|]. cbn [all_chars]. rewrite !andb_true_iff. naive_solver.
Qed.
Definition domain_char (c : ascii) : bool := label_char c || (byte_of c =? 46).
Lemma domain_chars d : validDomain d = true → all_chars domain_char d = true.
Proof.
  unfold validDomain. intros [_ Hl]%andb_true_iff. rewrite forallb_forall in Hl. apply (Split_chars _ _ "."%char); [done|].
  apply Forall_forall. intros l Hin%list_elem_of_In. specialize (Hl l Hin). unfold valid_label in Hl.
  apply andb_true_iff in Hl as [_ Hl]. eapply all_chars_impl; [|exact Hl]. intros c Hc. unfold domain_char. by rewrite Hc.
Qed.
Lemma domain_char_spec c : domain_char c = true → byte_of c < 128 ∧ lower_byte (byte_of c) = byte_of c ∧ byte_of c ≠ 47.
Proof. unfold domain_char, label_char, lower_byte. pose proof (byte_of_bound c). intros. repeat case_match; zbool; lia. Qed.
Lemma domain_ascii s : all_chars domain_char s = true → is_ascii_string s = true.
Proof.
  induction s as [|c s IH]; [done|]. cbn [all_chars]. intros [Hc Hs]%andb_true_iff.
  apply domain_char_spec in Hc. rewrite is_ascii_cons. apply andb_true_iff. split; [apply Z.ltb_lt; lia|auto].
Qed.
Lemma domain_lower `{UnicodeCase} s : all_chars domain_char s = true → ToLower s = s.
Proof.
  induction s as [|c s IH]; [done|]. intros Hs. rewrite ToLower_cons by (by apply domain_ascii).
  cbn [all_chars] in Hs. apply andb_true_iff in Hs as [Hc Hs]. apply domain_char_spec in Hc as (_ & -> & _).
  by rewrite ascii_of_byte, IH.
Qed.
Lemma domain_no_slash s : all_chars domain_char s = true → no_byte slash s = true.
Proof.
  induction s as [|c s IH]; [done|]. cbn [all_chars]. intros [Hc Hs]%andb_true_iff. apply domain_char_spec in Hc as (_ & _ & Hc).
  unfold no_byte. simpl. apply andb_true_iff. split; [|by apply IH]. rewrite negb_true_iff. by apply Z.eqb_neq.
Qed.
(** A domain that passed the check is one plain name, in normal form. *)
Lemma validDomain_plain d : validDomain d = true → plain d = true.
Proof.
  intros Hd. unfold plain. rewrite domain_no_slash by (by apply domain_chars). rewrite andb_true_r. apply negb_true_iff.
  apply not_true_iff_false. rewrite !orb_true_iff, !String.eqb_eq. intros [[-> | ->] | ->]; by vm_compute in Hd.
Qed.
Lemma validDomain_no_dot d : validDomain d = true → HasSuffix d "." = false.
Proof.
  intros Hd. apply not_true_iff_false. intros Hs.
  apply HasSuffix_spec in Hs as [t ->]. unfold validDomain in Hd. apply andb_true_iff in Hd as [_ Hd].
  assert (Split (t +:+ ".") "." = Split t "." ++ [""%string]) as Hsp.
  { clear. induction t as [|c t IH]; [done|].
    change (String c t +:+ ".")%string with (String c (t +:+ "."))%string. cbn [Split]. rewrite IH.
    destruct (Ascii.eqb c "."); [done|]. pose proof (Split_ne t "."%char). by destruct (Split t "."). }
  rewrite Hsp, forallb_app in Hd. apply andb_true_iff in Hd as [_ Hd]. done.
Qed.
Lemma validDomain_norm `{UnicodeCase} d : validDomain d = true → norm_domain d = d ∧ ToLower d = d.
Proof.
  intros Hd. assert (ToLower d = d) as Hl by (by apply domain_lower, domain_chars). split; [|done].
  unfold norm_domain, TrimSuffix. by rewrite validDomain_no_dot.
Qed.

(** The collation tells the states of a certificate apart. *)
Class CertWeights `{Collation} : Prop := {
  weight_cert : ∀ a b, a ∈ cert_values → b ∈ cert_values → weight a = weight b → a = b;
}.

(** ** Runs without faults *)

Section runs.
Context {R K C : Type} `{UnicodeCase} `{Redis R} `{RedisSets R} `{RedisCount R} `{RedisSession R}
  `{Collation} `{UUID} `{Bcrypt} `{TenantJSON} `{Clock} `{AdminJSON} `{ACME K C} (cfg : Config).
Implicit Types st : CertState R.

Definition quiet_files (f : Files) : Prop :=
  f_faults f = [] ∧ f_getwd f = None ∧ Forall (λ x, plain x = true) (f_cwd f).
(** The directory of a domain, and a place for its files: no file where a
    directory is needed and no directory where a file is. *)
Definition domain_dir (f : Files) (d : string) : list string := path_of f (CertDir cfg) ++ ["domains"%string; d].
Definition slot (f : Files) (d : string) : Prop :=
  (∀ q, q `prefix_of` domain_dir f d → f_files f !! q = None) ∧
  domain_dir f d ++ ["fullchain.pem"%string] ∉ f_dirs f ∧ domain_dir f d ++ ["privkey.pem"%string] ∉ f_dirs f.
Definition stored (f : Files) (d : string) (res : Resource) : Files :=
  set_files (<[domain_dir f d ++ ["privkey.pem"%string] := PrivateKey res]>
            (<[domain_dir f d ++ ["fullchain.pem"%string] := Certificate res]> (f_files f)))
    (set_dirs (list_to_set (inits (domain_dir f d)) ∪ f_dirs f) f).

Lemma DomainCertDir_path f d : plain d = true → ToLower d = d → path_of f (DomainCertDir cfg d) = domain_dir f d.
Proof.
  intros Hd Hl. unfold DomainCertDir, path_of. rewrite Hl. apply path_Join_plain; [done|]. by repeat constructor.
Qed.
Lemma cert_paths f d :
  plain d = true → ToLower d = d →
  path_of f (certPaths cfg d).1 = domain_dir f d ++ ["fullchain.pem"%string] ∧
  path_of f (certPaths cfg d).2 = domain_dir f d ++ ["privkey.pem"%string].
Proof. intros Hd Hl. rewrite <-DomainCertDir_path by done. apply certPaths_below. Qed.
Lemma inits_spec q p : p ∈ inits q ↔ p `prefix_of` q.
Proof.
  revert p. induction q as [|x q IH]; intros p; simpl.
  - rewrite list_elem_of_singleton. split; [by intros ->|]. by intros ?%prefix_nil_inv.
  - rewrite elem_of_cons, list_elem_of_fmap. split.
    + intros [->|(p' & -> & Hp%IH)]; [apply prefix_nil|by apply prefix_cons].
    + destruct p as [|y p]; [by left|]. intros Hp. right. exists p. rewrite IH. split.
      * f_equal. by eapply prefix_cons_inv_1.
      * by eapply prefix_cons_inv_2.
Qed.
Lemma MkdirAll_quiet f p :
  f_faults f = [] → (∀ q, q `prefix_of` path_of f p → f_files f !! q = None) →
  MkdirAll f p = (Ok (), set_dirs (list_to_set (inits (path_of f p)) ∪ f_dirs f) f).
Proof.
  intros Hf Hfree. unfold MkdirAll, next_file_fault. rewrite Hf.
  destruct (existsb _ _) eqn:E; [|done]. exfalso. apply existsb_exists in E as (q & Hq & He).
  apply list_elem_of_In, inits_spec, Hfree in Hq. apply bool_decide_eq_true in He. rewrite Hq in He. by destruct He.
Qed.
Lemma WriteFile_quiet f p dir name s :
  f_faults f = [] → path_of f p = dir ++ [name] → dir ∈ f_dirs f → dir ++ [name] ∉ f_dirs f →
  WriteFile f p s = (Ok (), set_files (<[dir ++ [name] := s]> (f_files f)) f).
Proof.
  intros Hf Hp Hd Hn. unfold WriteFile, next_file_fault. rewrite Hf, Hp, removelast_last.
  by rewrite bool_decide_eq_false_2, (bool_decide_eq_true_2 (dir ∈ _)) by done.
Qed.
(** A directory made and two files put into it. *)
Lemma pair_run f p p1 p2 n1 n2 c k :
  f_faults f = [] → (∀ q, q `prefix_of` path_of f p → f_files f !! q = None) →
  path_of f p1 = path_of f p ++ [n1] → path_of f p2 = path_of f p ++ [n2] →
  path_of f p ++ [n1] ∉ f_dirs f → path_of f p ++ [n2] ∉ f_dirs f →
  let f1 := set_dirs (list_to_set (inits (path_of f p)) ∪ f_dirs f) f in
  let f2 := set_files (<[path_of f p ++ [n1] := c]> (f_files f)) f1 in
  MkdirAll f p = (Ok (), f1) ∧ WriteFile f1 p1 c = (Ok (), f2) ∧
  WriteFile f2 p2 k = (Ok (), set_files (<[path_of f p ++ [n2] := k]> (<[path_of f p ++ [n1] := c]> (f_files f))) f1).
Proof.
  intros Hf Hfree Hp1 Hp2 Hn1 Hn2 f1 f2. set (dir := path_of f p) in *.
  assert (dir ∈ f_dirs f1) as Hin by (by apply elem_of_union_l, elem_of_list_to_set, inits_spec).
  assert (∀ n, dir ++ [n] ∉ f_dirs f → dir ++ [n] ∉ f_dirs f1) as Hout.
  { intros n Hn [Hq%elem_of_list_to_set|?]%elem_of_union; [|done]. apply inits_spec, prefix_length in Hq.
    rewrite length_app in Hq. simpl in Hq. lia. }
  split_and!; [by apply MkdirAll_quiet|..].
  - rewrite (WriteFile_quiet f1 _ dir n1) by auto. done.
  - rewrite (WriteFile_quiet f2 _ dir n2) by (simpl; auto). done.
Qed.
Lemma certm_run {A B} (m : certm R A) (k : A → certm R B) st a st' : m st = (Ok a, st') → (m ≫= k) st = k a st'.
Proof. unfold mbind, certm_bind. by intros ->. Qed.
Lemma try_run {A} (m : certm R A) st o st' : m st = (o, st') → o ≠ Panic → cert_try m st = (Ok o, st').
Proof. unfold cert_try. intros -> Ho. by destruct o. Qed.
Lemma time_run st : (lift time_Now : certm R Time) st = (Ok (w_now (cs_world st)), st).
Proof. by destruct st. Qed.
Lemma store_pair_run st d res :
  plain d = true → ToLower d = d → f_faults (cs_files st) = [] → slot (cs_files st) d →
  store_pair cfg d res st = (Ok (), {| cs_world := cs_world st; cs_files := stored (cs_files st) d res |}).
Proof.
  intros Hd Hl Hf (Hfree & Hn1 & Hn2). destruct st as [w f]. simpl in *.
  unfold store_pair, mbind, certm_bind, on_files. cbn [cs_files cs_world].
  destruct (cert_paths f d Hd Hl) as [Hp1 Hp2]. pose proof (DomainCertDir_path f d Hd Hl) as Hdir.
  destruct (pair_run f (DomainCertDir cfg d) (certPaths cfg d).1 (certPaths cfg d).2 "fullchain.pem" "privkey.pem"
    (Certificate res) (PrivateKey res) Hf) as (Hm & Hw1 & Hw2); [by rewrite ?Hdir..|]. rewrite Hdir in Hm, Hw1, Hw2. rewrite Hm. cbv beta iota. cbn [cs_files cs_world].
  rewrite Hw1. cbv beta iota. cbn [cs_files cs_world]. by rewrite Hw2.
Qed.
Lemma withinCertDir_domain f d :
  plain d = true → ToLower d = d → quiet_files f → withinCertDir cfg f (DomainCertDir cfg d) = true.
Proof.
  intros Hd Hl (_ & Hg & Hc). unfold withinCertDir, Abs. rewrite Hg.
  assert (stays (Rel (path_of f (CertDir cfg)) (path_of f (DomainCertDir cfg d))) = true) as Hs.
  { apply stays_prefix; [by apply resolve_plain|]. rewrite DomainCertDir_path by done. by apply prefix_app_r. }
  by destruct (IsAbs _), (IsAbs _).
Qed.
Lemma persist_run st d res :
  plain d = true → ToLower d = d → quiet_files (cs_files st) → slot (cs_files st) d →
  persist cfg d res st = (Ok (), {| cs_world := cs_world st; cs_files := stored (cs_files st) d res |}).
Proof.
  intros Hd Hl Hq Hs. unfold persist. change ((on_disk ?q ≫= ?k) st) with (k (q (cs_files st)) st). cbv beta.
  rewrite withinCertDir_domain by done. apply store_pair_run; try done. apply Hq.
Qed.
Lemma ReadFile_quiet f p : f_faults f = [] →
  ReadFile f p = (match f_files f !! path_of f p with Some s => Ok s | None => Err "no such file or directory" end, f).
Proof. intros Hf. unfold ReadFile, next_file_fault. by rewrite Hf. Qed.
(** The expiry of the certificate on disk. *)
Definition disk_expiry (f : Files) (d : string) : outcome Time :=
  match f_files f !! (domain_dir f d ++ ["fullchain.pem"%string]) with
  | Some s => pem_expiry "no PEM block in fullchain" s
  | None => Err "no such file or directory"
  end.
Lemma disk_expiry_no_panic f d : disk_expiry f d ≠ Panic.
Proof. unfold disk_expiry, pem_expiry. by repeat case_match. Qed.
Lemma DomainCertExpiry_run st d :
  plain d = true → ToLower d = d → f_faults (cs_files st) = [] →
  DomainCertExpiry cfg d st = (disk_expiry (cs_files st) d, st).
Proof.
  intros Hd Hl Hf. destruct st as [w f]. unfold DomainCertExpiry, mbind, certm_bind, on_files, disk_expiry. cbn [cs_files cs_world] in *.
  rewrite ReadFile_quiet by done. destruct (cert_paths f d Hd Hl) as [-> _].
  by destruct (f_files f !! _) as [s|].
Qed.

Context `{!CertWeights}.
(** The rows of a domain identifier, with a new state. *)
Definition mark (now : Time) (id : string) (status : CertStatus) (expiry : option Time) (msg : string) (d : DB) : DB :=
  set_tenant_domains (update_where (λ r, ceq (dr_id r) id) (set_cert now expiry msg status) (tenant_domains d)) d.
Lemma set_tenant_domains_id d : set_tenant_domains (tenant_domains d) d = d.
Proof. by destruct d. Qed.
Lemma set_status_run st td status expiry msg :
  status ∈ cert_values → w_faults (cs_world st) = [] →
  set_status td status expiry msg st =
    (Ok (), {| cs_world := set_db (mark (w_now (cs_world st)) (td_ID td) status expiry msg (w_db (cs_world st))) (cs_world st);
               cs_files := cs_files st |}).
Proof.
  intros Hs Hf. destruct st as [w f]. cbn [cs_world cs_files] in *.
  unfold set_status, lift, certm_lift, ignore, try_, SetDomainCert, time_Now, mbind, act_bind, exec. cbn [cs_world cs_files].
  rewrite next_fault_nil by done. unfold update_domain. destruct (has_id dr_id _ _) eqn:Hid; cbn [negb].
  - unfold with_enum. rewrite enum_value_self; [done|done|]. intros. by apply weight_cert.
  - assert (mark (w_now w) (td_ID td) status expiry msg (w_db w) = w_db w) as ->; [|done].
    unfold mark. rewrite <-(set_tenant_domains_id (w_db w)) at 3. f_equal. unfold update_where.
    unfold has_id in Hid. rewrite <-(list_fmap_id (tenant_domains (w_db w))) at 2. apply list_fmap_ext. intros i r Hr.
    destruct (ceq (dr_id r) (td_ID td)) eqn:E; [|done]. exfalso. revert Hid. apply not_false_iff_true, existsb_exists.
    exists r. split; [|done]. apply list_elem_of_In. by eapply list_elem_of_lookup_2.
Qed.
Lemma disk_expiry_stored f d res :
  disk_expiry (stored f d res) d = pem_expiry "no PEM block in fullchain" (Certificate res).
Proof.
  unfold disk_expiry. change (domain_dir (stored f d res) d) with (domain_dir f d). simpl.
  rewrite lookup_insert_ne by (by intros [=]%app_inv_head). by rewrite lookup_insert_eq.
Qed.
(** What issuing leaves behind: the row and the files. *)
Definition issued (st : CertState R) (td : TenantDomain) (d : string) (res : Resource) (t : Time) (st' : CertState R) : Prop :=
  let w := cs_world st in
  w_faults (cs_world st') = [] ∧ w_now (cs_world st') = w_now w ∧
  w_db (cs_world st') = mark (w_now w) (td_ID td) CertActive (Some t) "" (mark (w_now w) (td_ID td) CertIssuing None "" (w_db w)) ∧
  cs_files st' = stored (cs_files st) d res.
Lemma Issue_run st td res t :
  let d := td_Domain td in
  ACMEEnabled cfg = true → validDomain d = true → w_faults (cs_world st) = [] → quiet_files (cs_files st) →
  slot (cs_files st) d → lego_Obtain (w_now (cs_world st)) [d] = Ok res →
  pem_expiry "no PEM block in fullchain" (Certificate res) = Ok t →
  ∃ st', Issue cfg td "http01" st = (Ok (), st') ∧ issued st td d res t st'.
Proof.
  intros d Hen Hd Hf Hq Hs Hob Hexp. destruct (validDomain_norm d Hd) as [Hn Hl]. apply validDomain_plain in Hd.
  destruct st as [w f]. cbn [cs_world cs_files] in *. unfold Issue. rewrite Hen. cbn [negb]. cbv zeta. fold d. rewrite Hn.
  erewrite certm_run by (apply set_status_run; [set_solver|done]).
  change ("http01" =? "dns01")%string with false. cbv iota. cbn [cs_world cs_files].
  set (db1 := mark _ _ _ _ _ _). set (w1 := set_db db1 w).
  assert (w_faults w1 = [] ∧ w_now w1 = w_now w ∧ w_db w1 = db1) as (Hf1 & Hn1 & Hd1) by (by destruct w).
  unfold obtain_and_store, or_record. erewrite certm_run by apply time_run. cbn [cs_world]. rewrite Hn1, Hob.
  erewrite certm_run by (by eapply try_run). cbv iota.
  erewrite certm_run by (eapply try_run; [by apply persist_run|done]). cbv iota. cbn [cs_world cs_files].
  erewrite certm_run by (eapply try_run; [apply DomainCertExpiry_run; (done || apply Hq)|cbn [cs_files]; by rewrite disk_expiry_stored, Hexp]).
  cbn [cs_files]. rewrite disk_expiry_stored, Hexp. cbv iota.
  erewrite certm_run by (apply set_status_run; [set_solver|done]). cbn [cs_world cs_files].
  rewrite Hn1, Hd1. unfold bumpConfig, redis, lift, certm_lift. cbn [cs_world cs_files].
  destruct (rdb_incr _ _ _) as [r o]. eexists. split; [reflexivity|]. unfold issued. cbn [cs_world cs_files fst].
  by destruct w.
Qed.

(** ** The data plane *)

(** [CertStore.Reload] of dnsd on the files the manager wrote. *)
Definition RefreshCerts (f : Files) (cs : CertStore C) : CertStore C :=
  let dir := path_Join [CertDir cfg; "domains"%string] in
  CertStore.Reload (ReadDir f dir)
    (λ name, LoadX509KeyPair f (path_Join [dir; name; "fullchain.pem"%string]) (path_Join [dir; name; "privkey.pem"%string])) cs.

Lemma RefreshCerts_stored f cs d res :
  plain d = true → ToLower d = d →
  RefreshCerts (stored f d res) cs !! d = entry_of <$> tls_X509KeyPair (Certificate res) (PrivateKey res).
Proof.
  intros Hd Hl. unfold RefreshCerts. set (f' := stored f d res). set (dir := path_Join _).
  assert (path_of f' dir = path_of f (CertDir cfg) ++ ["domains"%string]) as Hdir
    by (apply path_Join_plain; [done|by repeat constructor]).
  assert (∀ q, q `prefix_of` domain_dir f d → q ∈ f_dirs f') as Hin.
  { intros q Hq%inits_spec. apply elem_of_union_l, elem_of_list_to_set. done. }
  unfold ReadDir. rewrite Hdir, bool_decide_eq_true_2
    by (apply Hin; exists [d]; unfold domain_dir; by rewrite <-app_assoc).
  rewrite Reload_lookup; [|apply elem_of_app; left; apply list_elem_of_fmap; exists d; split; [done|]|done].
  - f_equal. unfold LoadX509KeyPair.
    assert (∀ n, plain n = true → path_of f' (path_Join [dir; d; n]) = domain_dir f d ++ [n]) as Hp.
    { intros n Hn. unfold path_of. rewrite path_Join_plain by (done || by repeat constructor).
      change (resolve (f_cwd f') dir) with (path_of f' dir). rewrite Hdir. unfold domain_dir. by rewrite <-!app_assoc. }
    rewrite !Hp by done. simpl. rewrite lookup_insert_ne by (by intros [=]%app_inv_head). by rewrite !lookup_insert_eq.
  - apply list_elem_of_omap. exists (domain_dir f d). split; [by apply elem_of_elements, Hin|].
    unfold child_of, domain_dir. change (?l ++ ["domains"%string; d]) with (l ++ (["domains"%string] ++ [d])).
    by rewrite app_assoc, strip_common_app.
Qed.
Lemma Get_own (cs : CertStore C) d l :
  validDomain d = true → d ∈ DNSNames l → cs !! d = Some (entry_of l) → CertStore.Get cs d = Some (l_cert l).
Proof.
  intros Hd Hin Hcs. destruct (validDomain_norm d Hd) as [Hn _]. unfold CertStore.Get.
  change (CertStore.norm_name d) with (norm_domain d). rewrite Hn. unfold CertStore.try. rewrite Hcs.
  assert (covers (entry_of l) d = true) as ->; [|done]. apply existsb_exists. exists d. split.
  - apply list_elem_of_In. unfold entry_of. cbn [covered].
    assert (d ∈ CertStore.norm_name <$> DNSNames l) by (apply list_elem_of_fmap; exists d; split; [symmetry; exact Hn|done]).
    destruct (_ =? _)%string; [done|]. by apply elem_of_app; left.
  - apply covers_name_spec. by left.
Qed.

(** ** A renewal pass *)

(** A certificate that needs no renewal: its row and its file. *)
Definition healthy (now : Time) (f : Files) (r : DomainRow) : Prop :=
  dr_cert_status r ≠ CertError ∧
  (∃ e, dr_cert_expiry r = Some e ∧ CertRenewBefore cfg ≤ e - now) ∧
  (∃ e, disk_expiry f (dr_domain r) = Ok e).
(** The certificate authority serves a domain: it issues a certificate that
    lasts beyond the renewal margin. *)
Definition served (now : Time) (d : string) : Prop :=
  ∃ res t, lego_Obtain now [d] = Ok res ∧ pem_expiry "no PEM block in fullchain" (Certificate res) = Ok t ∧
    CertRenewBefore cfg ≤ dt3 t - now.

Lemma domain_dir_stored f d res d' : domain_dir (stored f d res) d' = domain_dir f d'.
Proof. done. Qed.
Lemma domain_dir_length f d : length (domain_dir f d) = (length (path_of f (CertDir cfg)) + 2)%nat.
Proof. unfold domain_dir. by rewrite length_app. Qed.
Lemma slot_stored f d res d' : slot f d' → slot (stored f d res) d'.
Proof.
  intros (Hfree & Hn1 & Hn2). unfold slot. rewrite !domain_dir_stored.
  assert (∀ n, domain_dir f d' ++ [n] ∉ f_dirs f → domain_dir f d' ++ [n] ∉ f_dirs (stored f d res)) as Hd.
  { intros n Hn [Hq%elem_of_list_to_set|?]%elem_of_union; [|done]. apply inits_spec, prefix_length in Hq.
    rewrite length_app, !domain_dir_length in Hq. simpl in Hq. lia. }
  split_and!; auto. intros q Hq. assert (∀ n, domain_dir f d ++ [n] ≠ q) as Hne.
  { intros n <-. apply prefix_length in Hq. rewrite length_app, !domain_dir_length in Hq. simpl in Hq. lia. }
  simpl. rewrite !lookup_insert_ne by done. auto.
Qed.
Lemma disk_stored_other f d res d' e :
  disk_expiry f d' = Ok e → (∃ t, pem_expiry "no PEM block in fullchain" (Certificate res) = Ok t) → ∃ e', disk_expiry (stored f d res) d' = Ok e'.
Proof.
  intros He [t Ht]. unfold disk_expiry in *. rewrite domain_dir_stored. simpl.
  rewrite lookup_insert_ne by (intros Heq; apply app_inj_tail in Heq as [_ ?]; done).
  destruct (decide (domain_dir f d ++ ["fullchain.pem"%string] = domain_dir f d' ++ ["fullchain.pem"%string])) as [->|Hne].
  - rewrite lookup_insert_eq. eauto.
  - rewrite lookup_insert_ne by done. eauto.
Qed.
(** The two states an issue writes, on one row. *)
Definition renewed (now t : Time) (r : DomainRow) : DomainRow :=
  set_cert now (Some t) "" CertActive (set_cert now None "" CertIssuing r).
Lemma set_cert_fields now e m s r :
  let r' := set_cert now e m s r in
  dr_id r' = dr_id r ∧ dr_domain r' = dr_domain r ∧ dr_enabled r' = dr_enabled r ∧
  dr_cert_status r' = s ∧ dr_cert_expiry r' = dt3 <$> e.
Proof. simpl. unfold set_cert. case_decide as Hd; [|done]. split_and!; try done; by rewrite <-Hd. Qed.
Lemma mark_rows now id s e m d :
  tenant_domains (mark now id s e m d) = update_where (λ r, ceq (dr_id r) id) (set_cert now e m s) (tenant_domains d).
Proof. by destruct d. Qed.
Lemma issued_rows st td d res t st' :
  issued st td d res t st' →
  tenant_domains (w_db (cs_world st')) =
    update_where (λ r, ceq (dr_id r) (td_ID td)) (renewed (w_now (cs_world st)) t) (tenant_domains (w_db (cs_world st))).
Proof.
  intros (_ & _ & -> & _). rewrite !mark_rows. unfold update_where. rewrite <-list_fmap_compose. apply list_fmap_ext.
  intros i r _. simpl. destruct (ceq (dr_id r) (td_ID td)) eqn:E; [|by rewrite E].
  destruct (set_cert_fields (w_now (cs_world st)) None "" CertIssuing r) as [Hid _]. by rewrite Hid, E.
Qed.
Lemma renewed_fields now t r :
  let r' := renewed now t r in
  dr_id r' = dr_id r ∧ dr_domain r' = dr_domain r ∧ dr_enabled r' = dr_enabled r ∧
  dr_cert_status r' = CertActive ∧ dr_cert_expiry r' = Some (dt3 t).
Proof.
  simpl. unfold renewed. destruct (set_cert_fields now (Some t) "" CertActive (set_cert now None "" CertIssuing r)) as (-> & -> & -> & -> & ->).
  destruct (set_cert_fields now None "" CertIssuing r) as (-> & -> & -> & _). done.
Qed.

(** The state of a pass with the rows [todo] still to come. *)
Record passing (now : Time) (todo : list DomainRow) (st : CertState R) : Prop := {
  ps_faults : w_faults (cs_world st) = [];
  ps_files : quiet_files (cs_files st);
  ps_now : w_now (cs_world st) = now;
  ps_keys : NoDup (keys dr_id (tenant_domains (w_db (cs_world st))));
  ps_todo : todo ⊆ tenant_domains (w_db (cs_world st));
  ps_todo_keys : NoDup (keys dr_id todo);
  ps_domains : ∀ r, r ∈ tenant_domains (w_db (cs_world st)) → dr_enabled r = 1 →
    validDomain (dr_domain r) = true ∧ slot (cs_files st) (dr_domain r) ∧ served now (dr_domain r);
  ps_done : ∀ r, r ∈ tenant_domains (w_db (cs_world st)) → dr_enabled r = 1 → r ∈ todo ∨ healthy now (cs_files st) r;
}.
Lemma passing_skip now r todo st :
  passing now (r :: todo) st → (dr_enabled r = 1 → healthy now (cs_files st) r) → passing now todo st.
Proof.
  intros [] Hr. split; try done.
  - set_solver.
  - by inversion_clear ps_todo_keys0.
  - intros x Hx He. destruct (ps_done0 x Hx He) as [[->|]%elem_of_cons|]; auto.
Qed.
Lemma passing_issued now r todo st st' res t :
  passing now (r :: todo) st → dr_enabled r = 1 → pem_expiry "no PEM block in fullchain" (Certificate res) = Ok t →
  CertRenewBefore cfg ≤ dt3 t - now → issued st (scanTenantDomain r) (dr_domain r) res t st' → passing now todo st'.
Proof.
  intros [] Hen Hexp Hlife Hiss. pose proof (issued_rows _ _ _ _ _ _ Hiss) as Hrows.
  destruct Hiss as (Hf & Hn & _ & Hfiles). rewrite ps_now0 in *. cbn [td_ID scanTenantDomain] in Hrows.
  assert (r ∈ tenant_domains (w_db (cs_world st))) as Hin by set_solver.
  assert (∀ x, x ∈ tenant_domains (w_db (cs_world st)) → ceq (dr_id x) (dr_id r) = true → x = r) as Huniq.
  { intros x Hx Hw%bool_decide_eq_true. apply (NoDup_keys_inj dr_id _ x r ps_keys0 Hx Hin Hw). }
  assert (∀ x', x' ∈ tenant_domains (w_db (cs_world st')) →
    x' = renewed now t r ∨ (x' ∈ tenant_domains (w_db (cs_world st)) ∧ x' ≠ r)) as Hcase.
  { rewrite Hrows. intros x' (x & -> & Hx)%list_elem_of_fmap. destruct (ceq (dr_id x) (dr_id r)) eqn:E.
    - left. by rewrite (Huniq x Hx E).
    - right. split; [done|]. intros ->. unfold ceq in E. by rewrite bool_decide_eq_true_2 in E. }
  destruct (renewed_fields now t r) as (Hid & Hdom & Hena & Hst & Hx). split; try done.
  - rewrite Hfiles. exact ps_files0.
  - rewrite Hrows, keys_update; [done|]. intros x. apply (renewed_fields now t x).
  - intros x Hxt. rewrite Hrows. apply list_elem_of_fmap. exists x. split; [|set_solver].
    destruct (ceq (dr_id x) (dr_id r)) eqn:E; [|done]. exfalso.
    apply bool_decide_eq_true in E. unfold keys in ps_todo_keys0. inversion_clear ps_todo_keys0 as [|?? Hnot _].
    apply Hnot. apply list_elem_of_fmap. exists x. split; [by symmetry|done].
  - by inversion_clear ps_todo_keys0.
  - intros x' Hx' He. rewrite Hfiles. destruct (Hcase x' Hx') as [->|[Hold _]].
    + rewrite Hdom. rewrite Hena in He. destruct (ps_domains0 r Hin He) as (? & ? & ?). eauto using slot_stored.
    + destruct (ps_domains0 x' Hold He) as (? & ? & ?). eauto using slot_stored.
  - intros x' Hx' He. rewrite Hfiles. destruct (Hcase x' Hx') as [->|[Hold Hne]].
    + right. split_and!; [by rewrite Hst|exists (dt3 t); split; [exact Hx|done]|]. rewrite Hdom, disk_expiry_stored. eauto.
    + destruct (ps_done0 x' Hold He) as [[->|?]%elem_of_cons|(? & ? & e & ?)]; [done|by left|right].
      split_and!; eauto using disk_stored_other.
Qed.
Lemma renewal_due_run now r st :
  validDomain (dr_domain r) = true → f_faults (cs_files st) = [] →
  ∃ b, renewal_due cfg now (scanTenantDomain r) st = (Ok b, st) ∧ (b = false → healthy now (cs_files st) r).
Proof.
  intros Hd Hf. unfold renewal_due, healthy. cbn [td_CertStatus td_CertExpiry td_Domain scanTenantDomain].
  destruct (String.eqb_spec (dr_cert_status r) CertError); [by exists true|].
  destruct (dr_cert_expiry r) as [e|]; [|by exists true].
  destruct (Z.ltb_spec (e - now) (CertRenewBefore cfg)); [by exists true|].
  pose proof (disk_expiry_no_panic (cs_files st) (dr_domain r)) as Hnp.
  exists (match disk_expiry (cs_files st) (dr_domain r) with Ok _ => false | _ => true end). split.
  - erewrite certm_run; [reflexivity|]. apply try_run; [|done].
    apply DomainCertExpiry_run; [by apply validDomain_plain|by apply validDomain_norm|done].
  - destruct (disk_expiry (cs_files st) (dr_domain r)) as [x|x|]; [|done..]. intros _. split_and!; [done|by exists e|by exists x].
Qed.
Lemma renew_step now r todo st :
  ACMEEnabled cfg = true → passing now (r :: todo) st →
  ∃ st', renew cfg (scanTenantDomain r) st = (Ok (), st') ∧ passing now todo st'.
Proof.
  intros Hen Hp. unfold renew. cbn [td_Enabled scanTenantDomain]. destruct (Z.eqb_spec (dr_enabled r) 1) as [He|He]; cbn [negb].
  2:{ eexists. split; [reflexivity|]. by eapply passing_skip. }
  destruct (Hp) as []. assert (r ∈ tenant_domains (w_db (cs_world st))) as Hin by set_solver.
  destruct (ps_domains0 r Hin He) as (Hd & Hs & res & t & Hob & Hexp & Hlife).
  destruct (renewal_due_run now r st Hd (proj1 ps_files0)) as (b & Hdue & Hb).
  erewrite certm_run by apply time_run. rewrite ps_now0.
  erewrite certm_run by exact Hdue. destruct b.
  - destruct (Issue_run st (scanTenantDomain r) res t) as (st' & Hi & Hiss); try done; [by rewrite ps_now0|].
    exists st'. split; [|by eapply passing_issued].
    rewrite (certm_run _ _ st (Ok ()) st'); [done|by apply try_run].
  - exists st. split; [done|]. eapply passing_skip; eauto.
Qed.
Lemma renew_all_run now todo st :
  ACMEEnabled cfg = true → passing now todo st →
  ∃ st', renew_all cfg (scanTenantDomain <$> todo) st = (Ok (), st') ∧ passing now [] st'.
Proof.
  intros Hen. revert st. induction todo as [|r todo IH]; intros st Hp; [by exists st|].
  destruct (renew_step now r todo st Hen Hp) as (st1 & Hr & Hp1). destruct (IH st1 Hp1) as (st2 & Hr2 & Hp2).
  exists st2. split; [|done]. rewrite fmap_cons. cbn [renew_all]. by rewrite (certm_run _ _ st () st1).
Qed.
End runs.

(** ** Demonstration *)

Definition demo_acme : ACME string string := {|
  ecdsa_GenerateKey n := Ok (pretty n); x509_MarshalECPrivateKey k := Ok k; x509_ParseECPrivateKey der := Ok der;
  pem_Encode b := ("PEM " +:+ b)%string;
  pem_Decode s := if HasPrefix s "PEM " then Some (drop_str 4 s) else None;
  x509_NotAfter _ := inr (90 * 24 * hour);
  tls_X509KeyPair c k := Some {| l_cert := c; DNSNames := [drop_str 4 c]; CommonName := "" |};
  LEDirectoryStaging := "staging"; LEDirectoryProduction := "production";
  lego_NewClient _ _ _ := Ok (); lego_ResolveAccountByKey _ := Ok None; lego_Register k := Ok "account";
  lego_SetHTTP01Provider _ _ := Ok (); lego_SetDNS01Provider _ _ _ := Ok ();
  lego_Obtain _ ds := match ds with
                      | d :: _ => Ok {| Certificate := "PEM " +:+ d; PrivateKey := "key" |}
                      | [] => Err "no domains"
                      end
|}.
Definition demo_acme_config : Config :=
  @config_of_env (λ _, None) "h1" (<["ACME_ENABLED"%string := "true"%string]> demo_env).
Definition demo_files : Files := {| f_cwd := []; f_getwd := None; f_dirs := {[ [] ]}; f_files := ∅; f_faults := [] |}.
Definition demo_domain : DomainRow :=
  {| dr_id := "d1"; dr_tenant_id := "t1"; dr_domain := "dns.example.com"; dr_enabled := 1; dr_cert_status := "none";
     dr_cert_expiry := None; dr_cert_error := None; dr_created_at := 0; dr_updated_at := 0 |}.
Definition demo_cert_state : CertState DemoRedis :=
  {| cs_world := demo_world (set_tenant_domains [demo_domain] empty_db); cs_files := demo_files |}.
#[global] Instance demo_cert_weights : @CertWeights demo_collation.
Proof. by split. Qed.

(** ** Properties *)

Section properties.
Context {R K C : Type} `{UnicodeCase} `{Redis R} `{RedisSets R} `{RedisCount R} `{RedisSession R}
  `{Collation} `{UUID} `{Bcrypt} `{TenantJSON} `{Clock} `{AdminJSON} `{ACME K C} (cfg : Config).

(** C29: whatever name a domain row holds, ".." and slashes included, and
    whatever fails on the way, issuing a certificate changes no file outside
    the certificate directory. *)
Theorem Issue_contained td method (st : CertState R) q :
  let f := cs_files st in
  Forall (λ x, plain x = true) (f_cwd f) → ¬ path_of f (CertDir cfg) `prefix_of` q →
  f_files (cs_files (Issue cfg td method st).2) !! q = f_files f !! q.
Proof. intros f Hc Hq. by apply (fkeeps_Issue cfg f td method Hc st). Qed.


(** C28: one renewal pass restores every certificate: when the certificate
    authority serves the enabled domains and nothing fails, the pass ends
    with every enabled domain outside the error state, with an expiry beyond
    the renewal margin and a readable certificate file. *)
Theorem renewal_restores `{!CertWeights} (st : CertState R) :
  let now := w_now (cs_world st) in
  ACMEEnabled cfg = true → w_faults (cs_world st) = [] → quiet_files (cs_files st) →
  NoDup (keys dr_id (tenant_domains (w_db (cs_world st)))) →
  (∀ r, r ∈ tenant_domains (w_db (cs_world st)) → dr_enabled r = 1 →
     validDomain (dr_domain r) = true ∧ slot cfg (cs_files st) (dr_domain r) ∧ served cfg now (dr_domain r)) →
  ∃ st', renew_run cfg st = (Ok (), st') ∧
    ∀ r, r ∈ tenant_domains (w_db (cs_world st')) → dr_enabled r = 1 → healthy cfg now (cs_files st') r.
Proof.
  intros now Hen Hf Hq Hwf Hdom. set (rows := tenant_domains (w_db (cs_world st))) in *.
  set (todo := order_by (λ a b, dr_created_at b <=? dr_created_at a)
    (filter (λ r, ("" =? "")%string || ceq (dr_tenant_id r) "" = true) rows)).
  assert (todo ≡ₚ rows) as Hp.
  { unfold todo. rewrite order_by_perm, filter_all; [done|]. apply Forall_forall. by intros. }
  destruct (renew_all_run cfg now todo st) as (st' & Hrun & Hpass); [done| |].
  { split; try done; [intros r; by rewrite Hp| |].
    - unfold keys. by rewrite Hp.
    - intros r Hr _. left. by rewrite Hp. }
  exists st'. split.
  - unfold renew_run. rewrite (certm_run _ _ st (Ok (scanTenantDomain <$> todo)) st); [done|].
    apply try_run; [|done]. unfold lift, certm_lift, ListTenantDomains. rewrite query_nil by done. by destruct st.
  - intros r Hr He. by destruct (ps_done _ _ _ _ Hpass r Hr He) as [?%not_elem_of_nil|].
Qed.

(** The account key survives restarts: the key [loadOrCreateKey] returned,
    loaded or freshly made, is the one a later call reads from the files. *)
Theorem account_key_stable path (st st1 st2 : CertState R) k :
  (∀ der, pem_Decode (pem_Encode der) = Some der) →
  (∀ k der, x509_MarshalECPrivateKey k = Ok der → x509_ParseECPrivateKey der = Ok k) →
  loadOrCreateKey path st = (Ok k, st1) →
  f_faults (cs_files st2) = [] → f_files (cs_files st2) = f_files (cs_files st1) → f_cwd (cs_files st2) = f_cwd (cs_files st) →
  loadOrCreateKey path st2 = (Ok k, st2).
Proof.
  intros Hpem Hec Hload Hf2 Hfiles Hcwd.
  assert (∃ b der, f_files (cs_files st1) !! path_of (cs_files st) path = Some b ∧ pem_Decode b = Some der ∧
    x509_ParseECPrivateKey der = Ok k) as (b & der & Hb & Hd & Hk).
  { revert Hload. destruct st as [w [cwd gw dirs files faults]]. unfold loadOrCreateKey.
    unfold mbind, certm_bind, mret, certm_ret, cert_try, on_files, ReadFile, next_file_fault, call, lift, certm_lift, WriteFile, next_file_fault, path_of.
    cbn. intros Hload. repeat (case_match; simplify_eq/=; try done); eauto 10;
      (eexists _, _; split_and!; [apply lookup_insert_eq|apply Hpem|by apply Hec]). }
  unfold loadOrCreateKey. unfold path_of in *. rewrite <-Hcwd in Hb. destruct st2 as [w2 f2]. cbn [cs_files] in *.
  rewrite (certm_run _ _ _ (Ok b) {| cs_world := w2; cs_files := f2 |}).
  - rewrite Hd, Hk. done.
  - apply try_run; [|done]. unfold on_files. cbn [cs_files]. rewrite ReadFile_quiet by done.
    unfold path_of. by rewrite Hfiles, Hb.
Qed.

(** A DNS-01 request without credentials fails and leaves the row in the
    state "issuing", without an expiry and without an error. *)
Theorem dns01_unconfigured `{!CertWeights} (td : TenantDomain) (st : CertState R) :
  ACMEEnabled cfg = true → AliyunAccessKeyID cfg = ""%string → w_faults (cs_world st) = [] →
  ∃ st' e, Issue cfg td "dns01" st = (Err e, st') ∧
    ∀ r, r ∈ tenant_domains (w_db (cs_world st')) → weight (dr_id r) = weight (td_ID td) →
      dr_cert_status r = CertIssuing ∧ dr_cert_expiry r = None ∧ dr_cert_error r = Some ""%string.
Proof.
  intros Hen Hkey Hf. unfold Issue. rewrite Hen, Hkey. cbn [negb]. cbv zeta.
  erewrite certm_run by (apply set_status_run; [set_solver|done]). cbn [String.eqb orb]. eexists _, _. split; [reflexivity|].
  cbn [cs_world]. rewrite w_db_set_db, mark_rows. intros r (r0 & -> & _)%list_elem_of_fmap.
  destruct (ceq (dr_id r0) (td_ID td)) eqn:E; [intros _|intros Hw; unfold ceq in E; by rewrite bool_decide_eq_true_2 in E].
  destruct (set_cert_fields (w_now (cs_world st)) None "" CertIssuing r0) as (_ & _ & _ & -> & ->). split_and!; try done.
  unfold set_cert. case_decide as Hd; [by rewrite <-Hd|done].
Qed.
End properties.

#[local] Existing Instances ascii_case demo_collation demo_uuid demo_bcrypt demo_json demo_clock demo_acme.
Definition evil_domain : TenantDomain :=
  {| td_ID := "d1"; td_TenantID := "t1"; td_Domain := "../../../../etc/cron.d"; td_Enabled := true;
     td_CertStatus := CertNone; td_CertExpiry := None; td_CertError := ""; td_CreatedAt := 0; td_UpdatedAt := 0 |}.
Lemma Issue_contained_witness :
  f_files (cs_files (Issue demo_acme_config evil_domain "http01" demo_cert_state).2) !! ["etc"; "cron.d"; "fullchain.pem"]%string = None.
Proof.
  etransitivity; [apply (Issue_contained demo_acme_config evil_domain "http01" demo_cert_state)|reflexivity]; [constructor|].
  intros [k Hk]. vm_compute in Hk. discriminate Hk.
Defined.

Lemma demo_slot d : slot demo_acme_config demo_files d.
Proof.
  split_and!; [intros; apply lookup_empty| |]; 
    (change (f_dirs demo_files) with ({[ [] ]} : gset (list string)); intros Hd%elem_of_singleton; vm_compute in Hd; discriminate Hd).
Qed.
Lemma demo_quiet : quiet_files demo_files.
Proof. by split_and!. Qed.
Lemma renewal_restores_witness :
  ∃ st', renew_run demo_acme_config demo_cert_state = (Ok (), st') ∧
    ∀ r, r ∈ tenant_domains (w_db (cs_world st')) → dr_enabled r = 1 → healthy demo_acme_config (1000 * second) (cs_files st') r.
Proof.
  apply (renewal_restores demo_acme_config demo_cert_state); [reflexivity|reflexivity|apply demo_quiet| |].
  - vm_compute. apply NoDup_singleton.
  - intros r Hr%list_elem_of_singleton _. rewrite Hr. split; [reflexivity|split; [apply demo_slot|]].
    exists {| Certificate := "PEM dns.example.com"; PrivateKey := "key" |}, (90 * 24 * hour).
    split; [reflexivity|split; [reflexivity|]]. vm_compute. discriminate.
Defined.
