(* ===== verification/Ops.v ===== *)
(** * Operations on the data plane (src/internal/api/handlers_ops.go,
    handlers_cache.go, handlers_dns.go, handlers_logs.go, server.go)

    The handlers that work on the DNS core of the API process as well:
    upstream groups, split rules and hot domains with the reload that
    follows a change, the caches, simulated queries, statistics and logs.
    Their state is [ApiState]; the Redis server is shared by the core and
    the rest. The text of SQL on the log tables is modelled, its execution
    by MySQL is a parameter, as are the parsers of dates and durations. *)

From Stdlib Require Import QArith.
From S2P Require Import Prelude GoStrings GoNet Config Model DnsMsg Ecs Split StoreCache AnswerCache Dnssec RateLimit Metrics Upstream Dualstack Warmup Handler QueryLog Db World Repos Http Auth Admin.
Open Scope Z_scope.

(** ** Parameters *)

Record PurgeReq := { pq_TenantID : string; pq_QName : string; pq_ECS : string }.
Record WarmJobReq := { wq_TenantID : string; wq_Domains : list string; wq_ECS : list string }.
Record SimulateReq := { sq_QName : string; sq_QType : string; sq_ECS : string; sq_TenantID : string; sq_Flush : bool }.
(** The members of the JSON object the daemon publishes, where they have
    the expected type. *)
Record Published := {
  pb_qps : option Q; pb_hit_rate_pct : option Q; pb_error_rate_pct : option Q; pb_total_queries : option Q;
  pb_total_hits : option Q; pb_total_errors : option Q; pb_instance_id : option string
}.
Class OpsJSON := {
  Decode_group : string → option UpstreamGroup;
  Decode_upstream : string → option Upstream;
  Decode_rule : string → option SplitRule;
  Decode_hot : string → option HotDomain;
  Decode_purge : string → option PurgeReq;
  Decode_warm : string → option WarmJobReq;
  Decode_simulate : string → option SimulateReq;
  Decode_published : string → option Published;
}.
(** Packages [time], [regexp] and [os]; [rr.String()]; the statements on the
    log tables; SCARD, HSET and PING. *)
Class Lib := {
  ParseDuration : string → option Z;
  ParseInLocation : string → option Time;
  regexp_Compile : string → option Regexp;
  os_ReadFile : string → option string;
  rr_String : RR → string;
}.
Class LogDB := {
  select_count : string * list arg → outcome Z;
  select_logs : string * list arg → outcome (list QueryLogRow);
  select_usage : string * list arg → outcome (list TenantUsage);
  DATE_FORMAT : Time → string;
}.
Class RedisMore (R : Type) := {
  rdb_scard : R → Time → string → outcome Z;
  rdb_hset : R → Time → string → list (string * string) → R;
}.
Class CachePing (S : Type) := { Ping : S → option string }.

(** ** State *)

Record ApiState (S R : Type) := {
  a_world : World R;
  a_core : Core S R;
  a_jobs : gmap string WarmJob;            (* the jobs of the warm-up manager *)
  a_logger : option QueryLogWriter;
}.
Arguments a_world {S R}. Arguments a_core {S R}. Arguments a_jobs {S R}. Arguments a_logger {S R}.
Arguments Build_ApiState {S R}.
Definition api (S R A : Type) : Type := ApiState S R → outcome A * ApiState S R.
Definition set_world {S R} (w : World R) (st : ApiState S R) : ApiState S R :=
  {| a_world := w; a_core := a_core st; a_jobs := a_jobs st; a_logger := a_logger st |}.
#[global] Instance api_ret {S R} : MRet (api S R) := λ A a st, (Ok a, st).
#[global] Instance api_bind {S R} : MBind (api S R) := λ A B f m st,
  match m st with
  | (Ok a, st) => f a st
  | (Err e, st) => (Err e, st)
  | (Panic, st) => (Panic, st)
  end.
#[global] Instance api_lift {S R} : Lift R (api S R) := λ A m st,
  let '(o, w) := m (a_world st) in (o, set_world w st).
(** [x, err := m] *)
Definition api_try {S R A} (m : api S R A) : api S R (outcome A) := λ st,
  match m st with
  | (Panic, st) => (Panic, st)
  | (o, st) => (Ok o, st)
  end.

(** ** Numbers and text *)

(** [strings.SplitN(s, sep, n)] for a positive [n]. *)
Fixpoint SplitN (s sep : string) (n : nat) : list string :=
  match n with
  | O => []
  | 1%nat => [s]
  | Datatypes.S n =>
      match Index s sep with
      | Some i => take_str i s :: SplitN (drop_str (i + len sep) s) sep n
      | None => [s]
      end
  end.

(** A [float64] conversion to an integer drops the fraction. *)
Definition Qtrunc (q : Q) : Z := Z.quot (Qnum q) (Zpos (Qden q)).
Definition round2 (f : Q) : Q := (inject_Z (Qtrunc (f * 100)) / 100)%Q.
(** The value of [strconv.Atoi] when its error is ignored: clipped to the
    range, 0 for text that is no number. *)
Fixpoint parse_uint (s : string) (acc : Z) : option Z :=
  match s with
  | EmptyString => Some acc
  | String c s =>
      if is_digit c then
        let n := acc * 10 + (byte_of c - 48) in
        if 18446744073709551615 <? n then Some 18446744073709551615 else parse_uint s n
      else None
  end.
Definition Atoi_value (s : string) : Z :=
  let neg := HasPrefix s "-" in
  let d := if neg || HasPrefix s "+" then drop_str 1 s else s in
  match d with
  | EmptyString => 0
  | _ => match parse_uint d 0 with
         | Some n => if neg then - Z.min n 9223372036854775808 else Z.min n 9223372036854775807
         | None => 0
         end
  end.

Section ops.
Context {S R : Type} `{UnicodeCase} `{Cache S} `{CachePing S} `{Redis R} `{RedisSets R} `{RedisCount R} `{RedisSession R}
  `{RedisMore R} `{Collation} `{UUID} `{Bcrypt} `{TenantJSON} `{Clock} `{AdminJSON} `{OpsJSON} `{Lib} `{LogDB}
  `{DnsLib} `{Network} `{Rand} `{MapAPI} (cfg : Config).
Abbreviation handler := (Request → api S R Resp).

Definition reply (code : Z) (b : Body) : api S R Resp := lift (writeJSON code b).
Definition reply_err (code : Z) (msg : string) : api S R Resp := lift (writeErr code msg).
(** An operation of the core, on the shared Redis. *)
Definition core_do {A} (f : Core S R → Time → outcome (Core S R * A)) : api S R A := λ st,
  let w := a_world st in
  match f (Handler.set_rdb (Some (w_rdb w)) (a_core st)) (w_now w) with
  | Ok (c, a) =>
      (Ok a, {| a_world := World.set_rdb (default (w_rdb w) (c_rdb c)) w; a_core := c; a_jobs := a_jobs st; a_logger := a_logger st |})
  | Err e => (Err e, st)
  | Panic => (Panic, st)
  end.
Definition core_get {A} (f : Core S R → A) : api S R A := λ st, (Ok (f (a_core st)), st).

(** [Core.ReloadAll] on the repositories. *)
Definition core_ReloadAll : api S R unit :=
  groups ← lift ListGroups;
  upstreams ← lift ListUpstreams;
  tenants ← lift ListTenants;
  rules ← lift ListRules;
  hots ← lift ListHotDomains;
  bindings ← lift (try_ ListDualstackBindings);
  core_do (λ c now,
    match ReloadAll regexp_Compile os_ReadFile c
            {| rd_groups := Ok groups; rd_upstreams := Ok upstreams; rd_tenants := Ok tenants; rd_rules := Ok rules;
               rd_hots := Ok hots; rd_bindings := bindings |} now with
    | Ok c => Ok (c, ())
    | Err e => Err e
    | Panic => Panic
    end).
Definition config_changed (rq : Request) (action target : string) (detail : Detail) : api S R unit :=
  _ ← api_try core_ReloadAll;
  _ ← lift bumpConfig;
  lift (auditAction cfg rq action target detail).
Definition afterConfigChange (rq : Request) (action target : string) : api S R unit :=
  config_changed rq action target (DText "").
Definition afterConfigChangeSnap (rq : Request) (action target : string) (before : option Upstream) (after : Upstream) : api S R unit :=
  config_changed rq action target (DUpstreams before after).
Definition ok_deleted : api S R Resp := reply StatusOK (BObj [("status", "deleted")]%string).

(** ** Groups, upstreams, rules and hot domains *)

Definition listGroups : handler := λ rq, or_500 ListGroups (λ gs, reply StatusOK (BGroups gs)).
Definition createGroup : handler := λ rq,
  readJSON Decode_group rq (λ g,
  if (g_Name g =? "")%string then reply_err StatusBadRequest "name required" else
  or_500 (CreateGroup g) (λ g,
  _ ← afterConfigChange rq "group.create" (g_Name g);
  reply StatusCreated (BGroup g))).
Definition set_g_ID (g : UpstreamGroup) (id : string) : UpstreamGroup :=
  {| g_ID := id; g_TenantID := g_TenantID g; g_Name := g_Name g; g_Strategy := g_Strategy g;
     g_HealthDomain := g_HealthDomain g; g_CreatedAt := g_CreatedAt g; g_Upstreams := g_Upstreams g |}.
Definition updateGroup : handler := λ rq,
  readJSON Decode_group rq (λ g,
  let g := set_g_ID g (rq_id rq) in
  or_500 (UpdateGroup g) (λ _,
  _ ← afterConfigChange rq "group.update" (g_ID g);
  reply StatusOK (BGroup g))).
Definition deleteGroup : handler := λ rq,
  or_500 (DeleteGroup (rq_id rq)) (λ _, _ ← afterConfigChange rq "group.delete" (rq_id rq); ok_deleted).

Definition createUpstream : handler := λ rq,
  readJSON Decode_upstream rq (λ u,
  if (up_Protocol u =? "")%string || (up_Address u =? "")%string || (up_GroupID u =? "")%string
  then reply_err StatusBadRequest "protocol, address and group_id required"
  else if up_TLSInsecure u && (Env cfg =? "prod")%string then reply_err StatusBadRequest "tls_insecure is forbidden in prod" else
  or_500 (CreateUpstream u) (λ u,
  _ ← afterConfigChange rq "upstream.create" (up_Name u);
  reply StatusCreated (BUpstream u))).
Definition set_up_ID (u : Upstream) (id : string) : Upstream :=
  {| up_ID := id; up_GroupID := up_GroupID u; up_Name := up_Name u; up_Protocol := up_Protocol u; up_Address := up_Address u;
     up_Port := up_Port u; up_Hostname := up_Hostname u; up_DoHPath := up_DoHPath u; up_Weight := up_Weight u;
     up_TimeoutMS := up_TimeoutMS u; up_TLSInsecure := up_TLSInsecure u; up_Enabled := up_Enabled u; up_Healthy := up_Healthy u;
     up_ConsecFails := up_ConsecFails u; up_CreatedAt := up_CreatedAt u |}.
Definition updateUpstream : handler := λ rq,
  readJSON Decode_upstream rq (λ u,
  let u := set_up_ID u (rq_id rq) in
  if up_TLSInsecure u && (Env cfg =? "prod")%string then reply_err StatusBadRequest "tls_insecure is forbidden in prod" else
  old ← lift (try_ (GetUpstream (up_ID u)));
  or_500 (UpdateUpstream u) (λ _,
  _ ← afterConfigChangeSnap rq "upstream.update" (up_ID u) (match old with Ok o => o | _ => None end) u;
  reply StatusOK (BUpstream u))).
Definition deleteUpstream : handler := λ rq,
  or_500 (DeleteUpstream (rq_id rq)) (λ _, _ ← afterConfigChange rq "upstream.delete" (rq_id rq); ok_deleted).

Definition listRules : handler := λ rq, or_500 ListRules (λ rs, reply StatusOK (BRules rs)).
Definition createRule : handler := λ rq,
  readJSON Decode_rule rq (λ s,
  if (r_GroupID s =? "")%string || (r_MatchType s =? "")%string
  then reply_err StatusBadRequest "group_id and match_type required" else
  or_500 (CreateRule s) (λ s,
  _ ← afterConfigChange rq "rule.create" (r_Name s);
  reply StatusCreated (BRule s))).
Definition updateRule : handler := λ rq,
  readJSON Decode_rule rq (λ s,
  let s := set_r_ID s (rq_id rq) in
  or_500 (UpdateRule s) (λ _,
  _ ← afterConfigChange rq "rule.update" (r_ID s);
  reply StatusOK (BRule s))).
Definition deleteRule : handler := λ rq,
  or_500 (DeleteRule (rq_id rq)) (λ _, _ ← afterConfigChange rq "rule.delete" (rq_id rq); ok_deleted).

Definition reload : handler := λ rq,
  r ← api_try core_ReloadAll;
  match r with
  | Ok _ => _ ← lift (auditAction cfg rq "config.reload" "all" (DText "")); reply StatusOK (BObj [("status", "reloaded")]%string)
  | Err e => reply_err StatusInternalServerError e
  | Panic => lift panic
  end.

Definition listHotDomains : handler := λ rq, or_500 ListHotDomains (λ hs, reply StatusOK (BHots hs)).
Definition createHotDomain : handler := λ rq,
  readJSON Decode_hot rq (λ h,
  if (h_Domain h =? "")%string then reply_err StatusBadRequest "domain required" else
  or_500 (CreateHotDomain h) (λ h,
  _ ← afterConfigChange rq "hotdomain.create" (h_Domain h);
  reply StatusCreated (BHot h))).
Definition deleteHotDomain : handler := λ rq,
  or_500 (DeleteHotDomain (rq_id rq)) (λ _, _ ← afterConfigChange rq "hotdomain.delete" (rq_id rq); ok_deleted).
(** ** Warm-up jobs *)

Definition register_job (job : WarmJob) : api S R unit := λ st,
  (Ok (), {| a_world := a_world st; a_core := a_core st; a_jobs := <[j_ID job := job]> (a_jobs st); a_logger := a_logger st |}).
(** [Warmup().Warm]: registers the job and announces it in Redis; the
    fetches run afterwards ([Handler.run_job]). *)
Definition start_warm (tid : string) (domains ecs : list string) : api S R WarmJob :=
  id ← lift uuid_NewString;
  job ← core_do (λ c now, match Warm c id tid domains ecs now with Ok j => Ok (c, j) | Err e => Err e | Panic => Panic end);
  _ ← register_job job;
  let key := ("dns:warm:" +:+ j_ID job)%string in
  _ ← lift (redis (λ r now, (rdb_hset r now key [("status", "running"); ("total", fmt_d (j_Total job))]%string, ())));
  _ ← lift (redis (λ r now, (rdb_expire r now key (24 * hour), ())));
  mret job.
Definition warm_and_reply (rq : Request) (tid : string) (domains ecs : list string) : api S R Resp :=
  r ← api_try (start_warm tid domains ecs);
  match r with
  | Ok job =>
      _ ← lift (auditAction cfg rq "cache.warm" ("tenant:" +:+ tid)
                  (DFields [("job", j_ID job); ("domains", fmt_d (Z.of_nat (length domains)));
                            ("ecs", fmt_d (Z.of_nat (length (j_ECSs job))))]%string));
      reply StatusAccepted (BJob job)
  | Err e => reply_err StatusInternalServerError e
  | Panic => lift panic
  end.
(** The hot domains of a tenant and those of all tenants. *)
Definition tenant_hots (tid : string) (hots : list HotDomain) : list string :=
  h_Domain <$> filter (λ h, (h_Enabled h && ((h_TenantID h =? "")%string || (h_TenantID h =? tid)%string)) = true) hots.
Definition warmTenant : handler := λ rq,
  or_else (GetTenant (rq_id rq)) StatusNotFound "tenant not found" (λ t,
  or_500 ListHotDomains (λ hots,
  match tenant_hots (t_ID t) hots with
  | [] => reply_err StatusBadRequest "no hot domains configured for this tenant"
  | domains => warm_and_reply rq (t_ID t) domains []
  end)).
Definition cacheWarm : handler := λ rq,
  readJSON Decode_warm rq (λ in_,
  if (wq_TenantID in_ =? "")%string then reply_err StatusBadRequest "tenant_id required"
  else match wq_Domains in_ with
       | [] => reply_err StatusBadRequest "domains required"
       | _ => if 200 <? Z.of_nat (length (wq_Domains in_)) then reply_err StatusBadRequest "max 200 domains per job"
              else warm_and_reply rq (wq_TenantID in_) (wq_Domains in_) (wq_ECS in_)
       end).
(** Newest first; the order of jobs started at the same instant is that of
    a map iteration. *)
Definition Jobs (jobs : gmap string WarmJob) : list WarmJob :=
  order_by (λ a b, j_StartedAt b <=? j_StartedAt a) (map_to_list jobs).*2.
Definition warmJobs : handler := λ rq st, (Ok {| rs_code := StatusOK; rs_body := BJobs (Jobs (a_jobs st)) |}, st).

(** ** Caches *)

Definition activeECSCount (r : R) (now : Time) : Z :=
  foldl (λ n k, n + match rdb_scard r now k with Ok n => n | _ => 0 end) 0 (rdb_scan r now "dns:ecs:*").1.
Definition cacheStats : handler := λ rq st,
  let '(f, q, d) := match a_logger st with Some l => (flushed l, queued l, dropped l) | None => (0, 0, 0) end in
  let '(ok, fail) := Dnssec.Stats (c_sec (a_core st)) in
  (Ok {| rs_code := StatusOK;
         rs_body := BCacheStats (CacheDriver cfg) f q d (activeECSCount (w_rdb (a_world st)) (w_now (a_world st))) ok fail |}, st).
Definition purge_prefix (in_ : PurgeReq) : string :=
  if (pq_TenantID in_ =? "")%string then "dns:cache:"
  else ("dns:cache:" +:+ Safe (pq_TenantID in_) +:+
        (if (pq_ECS in_ =? "")%string then "" else ":" +:+ Safe (pq_ECS in_)) +:+
        (if (pq_QName in_ =? "")%string then "" else ":" +:+ Safe (pq_QName in_)))%string.
Definition cachePurge : handler := λ rq,
  readJSON Decode_purge rq (λ in_,
  r ← core_do (λ c now, let '(s, n) := Purge (c_store c) now (purge_prefix in_) in Ok (set_store s c, n));
  match r with
  | Ok n => _ ← lift (auditAction cfg rq "cache.purge" (purge_prefix in_) (DFields [("deleted"%string, fmt_d n)]));
            reply StatusOK (BDeleted n)
  | Err e => reply_err StatusInternalServerError e
  | Panic => lift panic
  end).

(** ** Simulated queries *)

Definition tab : string := String (ascii_of 9) EmptyString.
Definition rrString (rr : RR) : string :=
  match SplitN (rr_String rr) tab 5 with [_; _; _; _; data] => data | _ => rr_String rr end.
Definition rrToBrief (rr : RR) : AnswerBrief :=
  {| ab_Name := Name (Hdr rr); ab_Type := TypeToString (Rrtype (Hdr rr)); ab_TTL := Ttl (Hdr rr); ab_Data := rrString rr |}.
Definition briefAnswers (m : Msg) : list AnswerBrief :=
  match m_Answer m with [] => rrToBrief <$> m_Ns m | _ => rrToBrief <$> m_Answer m end.
Definition simulate_result (in_ : SimulateReq) (qname qtype : string) (tenant : option Tenant) (ecs : option ECSInfo)
    (resp : Msg) (rm : RespMeta) : SimulateResult :=
  {| sr_QName := ToLower qname; sr_QType := qtype; sr_ECSRequested := sq_ECS in_; sr_ECSUsed := ecsString ecs;
     sr_TenantID := match tenant with Some t => t_ID t | None => "" end;
     sr_TenantName := match tenant with Some t => t_Name t | None => "" end;
     sr_CacheHit := CacheHit rm; sr_UpstreamGroup := UpstreamGroup_ rm; sr_Upstream := Upstream_ rm; sr_RTTMS := RTTMS rm;
     sr_RCode := RCode rm; sr_DNSSECValidated := DNSSECOK rm;
     sr_VIP := match tenant with Some t => t_VIP t | None => false end;
     sr_Answers := briefAnswers resp; sr_RuleMatched := RuleMatched rm |}.
(** The query goes through [Process] as the leader of its flight, all at
    one instant; its prefix is empty, so no tenant is looked up by prefix. *)
Definition simulate_query (in_ : SimulateReq) (ip qname qtype : string) (ty : Z) (tenant : option Tenant) (ecs : option ECSInfo) : api S R Resp :=
  _ ← (match tenant with
       | Some t => if sq_Flush in_
                   then core_do (λ c now, Ok (set_store (Del (c_store c) now [CacheKey (t_ID t) (ecsString ecs) (ToLower qname) qtype]).1 c, ()))
                   else mret ()
       | None => mret ()
       end);
  let req := SetEdns0 (SetQuestion (Fqdn qname) ty) 1232 true in
  let meta := {| Via := "simulate"; SNI := ""; Prefix := ""; MTenant := tenant; ClientIP := ParseIP ip; Internal := false;
                 SimulateECS := ecs; SkipRateLimit := false |} in
  r ← core_do (λ c now, match Process (λ _, Ok None) c (Some req) meta None now now with
                        | Ok (c, resp, rm) => Ok (c, (resp, rm))
                        | Err e => Err e
                        | Panic => Panic
                        end);
  reply StatusOK (BSimulate (simulate_result in_ qname qtype tenant ecs r.1 r.2)).
Definition simulate : handler := λ rq,
  readJSON Decode_simulate rq (λ in_,
  let qname := TrimSpace (sq_QName in_) in
  if (qname =? "")%string then reply_err StatusBadRequest "qname required" else
  let qtype := if (sq_QType in_ =? "")%string then "A"%string else sq_QType in_ in
  match StringToType qtype with
  | None => reply_err StatusBadRequest "invalid qtype"
  | Some ty =>
      c ← lift (claims_or_panic rq);
      let tenantID := if (sq_TenantID in_ =? "")%string then c_TID c else sq_TenantID in_ in
      if negb (isPlatformAdmin (c_Role c)) && negb (c_TID c =? tenantID)%string then reply_err StatusForbidden "not your tenant" else
      let with_tenant (tenant : option Tenant) :=
        match parseECSFromString (sq_ECS in_) with
        | Ok ecs => simulate_query in_ (clientIP (TrustProxyHeaders cfg) rq) qname qtype ty tenant ecs
        | Err e => reply_err StatusBadRequest e
        | Panic => lift panic
        end in
      if (tenantID =? "")%string then with_tenant None
      else or_else (GetTenant tenantID) StatusNotFound "tenant not found" (λ t, with_tenant (Some t))
  end).

(** ** Logs *)

(** The interval of a log query as MySQL text. *)
Definition log_window (now : Time) (from to : string) : Time * Time :=
  let defaultWindow := if LogQueryDefaultWindow cfg <=? 0 then 24 * hour else LogQueryDefaultWindow cfg in
  let parse (s : string) := if (s =? "")%string then None else ParseInLocation (replace_byte s "T" " ") in
  let ft := default (now - defaultWindow) (parse from) in
  let til := default now (parse to) in
  let ft := if (0 <? LogQueryMaxWindow cfg) && (LogQueryMaxWindow cfg <? til - ft) then til - LogQueryMaxWindow cfg else ft in
  if til <? ft then (til, ft) else (ft, til).
Definition windowBounds (now : Time) (from to : string) : string * string :=
  let '(ft, til) := log_window now from to in (Format_sec ft, Format_sec til).
(** The tenant whose log a caller sees ([""]: all), or the refusal. *)
Definition log_tenant (c : Claims) (requested : string) : string + string :=
  if (c_Role c =? RoleTenant)%string then
    if (c_TID c =? "")%string then inr "tenant user has no tenant binding"%string else inl (c_TID c)
  else if isPlatformAdmin (c_Role c) then inl (if (requested =? "")%string then c_TID c else requested)
  else inr "insufficient role"%string.
Definition log_offset (s : string) : Z :=
  let offset := Z.max 0 (Atoi_value s) in
  if (0 <? LogQueryMaxOffset cfg) && (LogQueryMaxOffset cfg <? offset) then LogQueryMaxOffset cfg else offset.
Definition queryLogs : handler := λ rq,
  c ← lift (claims_or_panic rq);
  match log_tenant c (query_get rq "tenant_id") with
  | inr msg => reply_err StatusForbidden msg
  | inl tenantID =>
      now ← lift time_Now;
      let '(from, to) := windowBounds now (query_get rq "from") (query_get rq "to") in
      let f := {| f_tenantID := tenantID; f_qname := query_get rq "qname"; f_qtype := query_get rq "qtype"; f_from := from; f_to := to |} in
      let '(count, page) := QueryLogs_sql f (Atoi_value (query_get rq "limit")) (log_offset (query_get rq "offset")) (LogQueryCountCap cfg) in
      match select_count count with
      | Ok total => match select_logs page with
                    | Ok rows => reply StatusOK (BLogs total rows)
                    | Err e => reply_err StatusInternalServerError e
                    | Panic => lift panic
                    end
      | Err e => reply_err StatusInternalServerError e
      | Panic => lift panic
      end
  end.

Abbreviation str := (default ""%string) (only parsing).
Definition scan_audit (r : AuditRec) : AuditRow :=
  {| a_TS := ad_ts r; a_ActorID := str (ad_actor_id r); a_ActorName := str (ad_actor_name r); a_Action := str (ad_action r);
     a_Target := str (ad_target r); a_Detail := str (ad_detail r); a_ClientIP := str (ad_client_ip r);
     a_PrevHash := str (ad_prev_hash r); a_EntryHash := str (ad_entry_hash r); a_Verifier := str (ad_verifier r) |}.
Definition QueryAudit (action : string) (limit : Z) : act R (list AuditRow) :=
  let limit := if (limit <=? 0) || (500 <? limit) then 200 else limit in
  query_audit (λ t, scan_audit <$> take (Z.to_nat limit) (order_by (λ a b, ad_ts b <=? ad_ts a)
    (filter (λ r, ((action =? "")%string || ceq_null (ad_action r) action) = true) t))).
Definition queryAudit : handler := λ rq,
  or_500 (QueryAudit (query_get rq "action") 200) (λ rows, reply StatusOK (BAudit rows)).
Definition verifyAuditChain : handler := λ rq,
  or_500 (query_audit (λ t, VerifyAuditChain DATE_FORMAT t 100000)) (λ v,
  now ← lift time_Now; reply StatusOK (BVerify v.1 v.2 now)).

(** ** Statistics *)

Definition TenantQueries (c : Core S R) (tid : string) : Z := CounterSet.Get (byTenantQ c) (tenantIDOr tid "default").
Definition tenantStats : handler := λ rq,
  _ ← lift (claims_or_panic rq);
  n ← core_get (λ c, TenantQueries c (rq_id rq));
  reply StatusOK (BQueries (rq_id rq) n).

Definition published_overview (instance : string) (m : Published) : Overview :=
  let rate (o : option Q) := match o with Some v => round2 v | None => 0%Q end in
  let total (o : option Q) := match o with Some v => Qtrunc v | None => 0 end in
  {| ov_instance_id := match pb_instance_id m with Some v => if (v =? "")%string then instance else v | None => instance end;
     ov_qps := rate (pb_qps m); ov_hit_rate_pct := rate (pb_hit_rate_pct m); ov_error_rate_pct := rate (pb_error_rate_pct m);
     ov_total_queries := total (pb_total_queries m); ov_total_hits := total (pb_total_hits m);
     ov_total_errors := total (pb_total_errors m); ov_tenant_queries := None |}.
Definition local_overview (instance : string) (s : Metrics.Stats) : Overview :=
  let '(qps, hitRate, errRate) := Snapshot s in
  let '(tq, th, te) := Totals s in
  {| ov_instance_id := instance; ov_qps := round2 qps; ov_hit_rate_pct := round2 hitRate; ov_error_rate_pct := round2 errRate;
     ov_total_queries := tq; ov_total_hits := th; ov_total_errors := te; ov_tenant_queries := None |}.
Definition no_overview (instance : string) : Overview :=
  {| ov_instance_id := instance; ov_qps := 0; ov_hit_rate_pct := 0; ov_error_rate_pct := 0; ov_total_queries := 0;
     ov_total_hits := 0; ov_total_errors := 0; ov_tenant_queries := None |}.
Definition set_tenant_queries (o : Overview) (n : Z) : Overview :=
  {| ov_instance_id := ov_instance_id o; ov_qps := ov_qps o; ov_hit_rate_pct := ov_hit_rate_pct o;
     ov_error_rate_pct := ov_error_rate_pct o; ov_total_queries := ov_total_queries o; ov_total_hits := ov_total_hits o;
     ov_total_errors := ov_total_errors o; ov_tenant_queries := Some n |}.
Definition statsOverview : handler := λ rq,
  val ← lift (redis_read (λ r now, rdb_get r now "dns:stats:overview"));
  o ← match val with
      | Ok (Some val) =>
          if (val =? "")%string then core_get (λ c, local_overview (InstanceID cfg) (c_stats c))
          else mret match Decode_published val with Some m => published_overview (InstanceID cfg) m | None => no_overview (InstanceID cfg) end
      | _ => core_get (λ c, local_overview (InstanceID cfg) (c_stats c))
      end;
  o ← match claimsFrom rq with
      | Some c => if (c_Role c =? RoleTenant)%string then n ← core_get (λ core, TenantQueries core (c_TID c)); mret (set_tenant_queries o n)
                  else mret o
      | None => mret o
      end;
  reply StatusOK (BOverview o).
Definition statsUpstreams : handler := λ rq,
  b ← core_get (λ c, (CounterSet.Snapshot (byUpstream c), HealthSnapshot (c_up c)));
  reply StatusOK (BUpstreams b.1 b.2).

Definition usage_window (v : string) : Z :=
  if (v =? "")%string then 24 * hour
  else match ParseDuration v with
       | Some d => if (0 <? d) && (d <=? 90 * 24 * hour) then d else 24 * hour
       | None => 24 * hour
       end.
Definition UsageByTenant_sql (since : Time) : string * list arg :=
  ("SELECT ql.tenant_id, MAX(COALESCE(t.name, '')) AS name, MAX(COALESCE(t.prefix, '')) AS prefix, MAX(COALESCE(t.base_domain, '')) AS base_domain, MAX(COALESCE(t.vip, ql.vip)) AS vip, COUNT(DISTINCT ql.client_ip) AS users, COUNT(*) AS queries FROM query_logs ql LEFT JOIN tenants t ON t.id = ql.tenant_id WHERE ql.ts >= ? AND ql.tenant_id IS NOT NULL AND ql.tenant_id <> '' GROUP BY ql.tenant_id ORDER BY users DESC"%string,
   [AStr (Format_sec since)]).
(** The totals, one row at a time. *)
Definition usage_step (u : Usage) (t : TenantUsage) : Usage :=
  if tu_VIP t then
    {| us_window_hours := us_window_hours u; us_since := us_since u; us_free_users := us_free_users u;
       us_vip_users := i64 (us_vip_users u + tu_Users t); us_total_users := us_total_users u; us_free_tenants := us_free_tenants u;
       us_vip_tenants := us_vip_tenants u + 1; us_free_queries := us_free_queries u;
       us_vip_queries := i64 (us_vip_queries u + tu_Queries t); us_tenants := us_tenants u ++ [t] |}
  else
    {| us_window_hours := us_window_hours u; us_since := us_since u; us_free_users := i64 (us_free_users u + tu_Users t);
       us_vip_users := us_vip_users u; us_total_users := us_total_users u; us_free_tenants := us_free_tenants u + 1;
       us_vip_tenants := us_vip_tenants u; us_free_queries := i64 (us_free_queries u + tu_Queries t);
       us_vip_queries := us_vip_queries u; us_tenants := us_tenants u ++ [t] |}.
Definition usage_of (window : Z) (since : string) (rows : list TenantUsage) : Usage :=
  let u := foldl usage_step
    {| us_window_hours := Z.quot window hour; us_since := since; us_free_users := 0; us_vip_users := 0; us_total_users := 0;
       us_free_tenants := 0; us_vip_tenants := 0; us_free_queries := 0; us_vip_queries := 0; us_tenants := [] |} rows in
  {| us_window_hours := us_window_hours u; us_since := us_since u; us_free_users := us_free_users u; us_vip_users := us_vip_users u;
     us_total_users := i64 (us_free_users u + us_vip_users u); us_free_tenants := us_free_tenants u;
     us_vip_tenants := us_vip_tenants u; us_free_queries := us_free_queries u; us_vip_queries := us_vip_queries u;
     us_tenants := us_tenants u |}.
Definition statsUsage : handler := λ rq,
  let window := usage_window (query_get rq "window") in
  now ← lift time_Now;
  let since := now - window in
  match select_usage (UsageByTenant_sql since) with
  | Ok rows => reply StatusOK (BUsage (usage_of window (Format_sec since) rows))
  | Err e => reply_err StatusInternalServerError e
  | Panic => lift panic
  end.

(** ** Public endpoints *)

Definition healthz : handler := λ rq, reply StatusOK (BObj [("status", "ok")]%string).
Definition readyz : handler := λ rq,
  err ← core_get (λ c, Ping (c_store c));
  match err with
  | None => reply StatusOK (BObj [("status", "ok"); ("instance", InstanceID cfg)]%string)
  | Some e => reply StatusServiceUnavailable (BObj [("status", "cache_down: " +:+ e); ("instance", InstanceID cfg)]%string)
  end.
Definition systemInfo : handler := λ rq,
  reply StatusOK (BInfo (BaseDomain cfg) (DNSSECMode cfg) (ECSPassthrough cfg) "1.0.0"
    ["udp"; "tcp"; "dot"; "doh"; "doq"; "ecs"; "dnssec"; "redis-cache"; "mysql-log"; "warmup"; "split"]%string).
End ops.

(** [MemoryCache.Ping] *)
#[global] Instance memory_ping : CachePing MemoryCache.t := { Ping _ := None }.

(** ** Instances for evaluation *)

#[global] Instance demo_redis_more : RedisMore DemoRedis := {
  rdb_scard r _ k := Ok (Z.of_nat (size (default ∅ (dr_set r !! k))));
  rdb_hset r _ _ _ := r;
}.
Definition demo_rule : SplitRule :=
  {| r_ID := ""; r_TenantID := ""; r_Name := "cn"; r_MatchType := "suffix"; r_MatchValue := "cn"; r_GroupID := "g1"; r_Priority := 5;
     r_Enabled := true; r_CreatedAt := zeroTime |}.
Definition demo_admin_json : AdminJSON := {|
  Decode_tenant _ := Some demo_tenant;
  Decode_dot _ := Some {| dq_Prefix := "acme-02"; dq_DoT := Some true; dq_DoH := None; dq_DoQ := None |};
  Decode_bootstrap _ := Some {| bq_Username := "root"; bq_Password := "Correct-Horse-7"; bq_Email := "" |};
  Decode_user _ := Some {| nu_TenantID := ""; nu_Username := "eve"; nu_Password := "Correct-Horse-7"; nu_Role := "admin"; nu_Email := "" |};
  Decode_user_update _ := Some {| uu_TenantID := None; uu_Role := "secadmin"; uu_Email := "" |};
  Decode_password s := Some s;
  Decode_domain _ := None;
  jsonDetail _ := "{}" |}.
Definition demo_ops_json : OpsJSON := {|
  Decode_group _ := None; Decode_upstream _ := None; Decode_rule _ := Some demo_rule; Decode_hot _ := None; Decode_purge _ := None;
  Decode_warm _ := None; Decode_simulate _ := None; Decode_published _ := None |}.
Definition demo_rand : RandRead := {| rand_bytes n := replicate 18 (Z.of_nat n) |}.
Definition demo_stdlib : Lib := {|
  ParseDuration _ := None; ParseInLocation _ := None; regexp_Compile _ := None; os_ReadFile _ := None; rr_String _ := "" |}.
Definition demo_logs : LogDB := {|
  select_count _ := Ok 0; select_logs _ := Ok []; select_usage _ := Ok []; DATE_FORMAT := fmt_d |}.
(** A super-administrator, an administrator and a user of tenant t1. *)
Definition demo_account (id name role : string) (tid : option string) : UserRow :=
  {| ur_id := id; ur_tenant_id := tid; ur_username := name; ur_password_hash := "$2a$Str0ng!Pass"; ur_role := role;
     ur_email := None; ur_failed_attempts := 0; ur_locked_until := None; ur_last_login := None;
     ur_must_change_pwd := false; ur_pwd_changed_at := None; ur_created_at := 0 |}.
Definition demo_api_db : DB :=
  {| users := [demo_account "u0" "root" "admin" None; demo_account "u1" "alice" "sysadmin" None; demo_account "u2" "bob" "tenant" (Some "t1")];
     password_history := []; tenants := [tenant_row "t1" demo_tenant 0 0]; tenant_domains := [];
     upstream_groups := [{| gr_id := "g1"; gr_tenant_id := None; gr_name := "main"; gr_strategy := "failover"; gr_health_domain := None; gr_created_at := 0 |}];
     upstreams := []; split_rules := []; hot_domains := []; dualstack_bindings := [] |}.
Definition demo_api_state : ApiState MemoryCache.t DemoRedis :=
  {| a_world := demo_world demo_api_db; a_core := demo_core None; a_jobs := ∅; a_logger := None |}.
(** The session of an account, as [issuePair] would sign it. *)
Definition demo_session (u : UserRow) : Claims := claims_of (scanUser u) "access" "" "uuid-0" (1000 * second) hour.
Definition demo_call (method path : string) (u : UserRow) : Request :=
  {| rq_method := method; rq_path := path; rq_id := ""; rq_query := []; rq_Authorization := "Bearer " +:+ enc_claims (demo_session u);
     rq_XRealIP := ""; rq_Origin := ""; rq_Bootstrap := ""; rq_RemoteAddr := "192.0.2.7:4711"; rq_body := ""; rq_claims := None |}.

Module Demo.
#[export] Instance demo_dns : DnsLib := demo_lib [].
#[export] Instance demo_seed : Rand := seeded 0.
#[export] Existing Instances ascii_case demo_collation demo_uuid demo_bcrypt demo_json demo_clock demo_jwt demo_auth_json
  demo_admin_json demo_ops_json demo_rand demo_stdlib demo_logs demo_network demo_api.
End Demo.
