(* ===== verification/Routes.v ===== *)
(** * The router of the management API (src/internal/api/server.go)

    The table of [Handler]: every pattern with its middlewares and its
    handler, the dispatch of [http.ServeMux] and the middleware around it.
    [serve] is one request to the API. The theorems are about whole
    requests: who may do what, and what a request does to the state. Paths
    with percent escapes are outside the model of the dispatch. *)

From S2P Require Import Prelude GoStrings GoNet Config Model DnsMsg Ecs Split StoreCache AnswerCache Dnssec RateLimit Metrics Upstream Dualstack Warmup Handler QueryLog Db World Repos Http Auth Admin Ops.

(** ** The table *)

Inductive Endpoint :=
| EHealthz | EReadyz | ESystemInfo | ELogin | ERefresh | EBootstrap
| ELogout | EChangePassword | EMe
| EListTenants | ECreateTenant | EGetTenant | EUpdateTenant | EDeleteTenant | ECustomizeDot | EEndpoints | EWarmTenant | ETenantStats
| EListUsers | ECreateUser | EUpdateUser | ESetPassword | EDeleteUser
| ELockUser | EUnlockUser | ERevokeSessions | ESecOverview
| EListGroups | ECreateGroup | EUpdateGroup | EDeleteGroup
| ECreateUpstream | EUpdateUpstream | EDeleteUpstream
| EListRules | ECreateRule | EUpdateRule | EDeleteRule | EReload
| EListHot | ECreateHot | EDeleteHot
| ECacheStats | ECachePurge | ECacheWarm | EWarmJobs
| ESimulate | EQueryLogs | EQueryAudit | EVerifyAudit
| EStatsOverview | EStatsUpstreams | EStatsUsage.
#[global] Instance Endpoint_eq_dec : EqDecision Endpoint.
Proof. solve_decision. Defined.

(** The middlewares of a route, outermost first. *)
Inductive Mw := MAuth | MRole (roles : list Role) | MScope.
#[global] Instance Mw_eq_dec : EqDecision Mw.
Proof. solve_decision. Defined.
Record Route := { rt_method : string; rt_pattern : string; rt_endpoint : Endpoint; rt_mws : list Mw }.
Definition route (m p : string) (e : Endpoint) (mws : list Mw) : Route :=
  {| rt_method := m; rt_pattern := p; rt_endpoint := e; rt_mws := mws |}.
Abbreviation sysadmin := [MAuth; MRole [RoleSysAdmin]].
Abbreviation secadmin := [MAuth; MRole [RoleSecAdmin]].
Abbreviation auditadmin := [MAuth; MRole [RoleAuditAdmin]].
Abbreviation own_tenant := [MAuth; MScope].
Definition routes : list Route := [
  route "GET" "/api/v1/healthz" EHealthz [];
  route "GET" "/api/v1/readyz" EReadyz [];
  route "GET" "/api/v1/system/info" ESystemInfo [];
  route "POST" "/api/v1/auth/login" ELogin [];
  route "POST" "/api/v1/auth/refresh" ERefresh [];
  route "POST" "/api/v1/bootstrap/admin" EBootstrap [];
  route "POST" "/api/v1/auth/logout" ELogout [MAuth];
  route "POST" "/api/v1/auth/change-password" EChangePassword [MAuth];
  route "GET" "/api/v1/me" EMe [MAuth];
  route "GET" "/api/v1/tenants" EListTenants sysadmin;
  route "POST" "/api/v1/tenants" ECreateTenant sysadmin;
  route "GET" "/api/v1/tenants/{id}" EGetTenant own_tenant;
  route "PUT" "/api/v1/tenants/{id}" EUpdateTenant own_tenant;
  route "DELETE" "/api/v1/tenants/{id}" EDeleteTenant sysadmin;
  route "POST" "/api/v1/tenants/{id}/dot" ECustomizeDot own_tenant;
  route "GET" "/api/v1/tenants/{id}/endpoints" EEndpoints own_tenant;
  route "POST" "/api/v1/tenants/{id}/warm" EWarmTenant own_tenant;
  route "GET" "/api/v1/tenants/{id}/stats" ETenantStats own_tenant;
  route "GET" "/api/v1/users" EListUsers sysadmin;
  route "POST" "/api/v1/users" ECreateUser sysadmin;
  route "PUT" "/api/v1/users/{id}" EUpdateUser sysadmin;
  route "POST" "/api/v1/users/{id}/password" ESetPassword sysadmin;
  route "DELETE" "/api/v1/users/{id}" EDeleteUser sysadmin;
  route "POST" "/api/v1/security/users/{id}/lock" ELockUser secadmin;
  route "POST" "/api/v1/security/users/{id}/unlock" EUnlockUser secadmin;
  route "POST" "/api/v1/security/users/{id}/revoke-sessions" ERevokeSessions secadmin;
  route "GET" "/api/v1/security/overview" ESecOverview secadmin;
  route "GET" "/api/v1/groups" EListGroups sysadmin;
  route "POST" "/api/v1/groups" ECreateGroup sysadmin;
  route "PUT" "/api/v1/groups/{id}" EUpdateGroup sysadmin;
  route "DELETE" "/api/v1/groups/{id}" EDeleteGroup sysadmin;
  route "POST" "/api/v1/upstreams" ECreateUpstream sysadmin;
  route "PUT" "/api/v1/upstreams/{id}" EUpdateUpstream sysadmin;
  route "DELETE" "/api/v1/upstreams/{id}" EDeleteUpstream sysadmin;
  route "GET" "/api/v1/rules" EListRules sysadmin;
  route "POST" "/api/v1/rules" ECreateRule sysadmin;
  route "PUT" "/api/v1/rules/{id}" EUpdateRule sysadmin;
  route "DELETE" "/api/v1/rules/{id}" EDeleteRule sysadmin;
  route "POST" "/api/v1/reload" EReload sysadmin;
  route "GET" "/api/v1/hot-domains" EListHot sysadmin;
  route "POST" "/api/v1/hot-domains" ECreateHot sysadmin;
  route "DELETE" "/api/v1/hot-domains/{id}" EDeleteHot sysadmin;
  route "GET" "/api/v1/cache/stats" ECacheStats sysadmin;
  route "POST" "/api/v1/cache/purge" ECachePurge sysadmin;
  route "POST" "/api/v1/cache/warm" ECacheWarm sysadmin;
  route "GET" "/api/v1/cache/warm-jobs" EWarmJobs sysadmin;
  route "POST" "/api/v1/dns/simulate" ESimulate [MAuth];
  route "GET" "/api/v1/logs/query" EQueryLogs [MAuth; MRole [RoleSysAdmin; RoleTenant]];
  route "GET" "/api/v1/logs/audit" EQueryAudit auditadmin;
  route "GET" "/api/v1/logs/audit/verify" EVerifyAudit auditadmin;
  route "GET" "/api/v1/stats/overview" EStatsOverview [MAuth];
  route "GET" "/api/v1/stats/upstreams" EStatsUpstreams sysadmin;
  route "GET" "/api/v1/stats/usage" EStatsUsage sysadmin ].

(** ** Dispatch *)

(** A wildcard stands for one segment that is not empty. *)
Fixpoint match_segments (pat path : list string) (id : string) : option string :=
  match pat, path with
  | [], [] => Some id
  | p :: pat, s :: path =>
      if (p =? "{id}")%string then if (s =? "")%string then None else match_segments pat path s
      else if (p =? s)%string then match_segments pat path id else None
  | _, _ => None
  end.
Definition path_match (r : Route) (path : string) : option string :=
  match_segments (Split (rt_pattern r) "/") (Split path "/") "".
(** A pattern with GET also serves HEAD. *)
Definition method_match (r : Route) (method : string) : bool :=
  (rt_method r =? method)%string || ((rt_method r =? "GET")%string && (method =? "HEAD")%string).
Fixpoint find_route (rs : list Route) (method path : string) : option (Route * string) :=
  match rs with
  | [] => None
  | r :: rs =>
      if method_match r method then
        match path_match r path with
        | Some id => Some (r, id)
        | None => find_route rs method path
        end
      else find_route rs method path
  end.
(** [cleanPath(p) == p] *)
Fixpoint clean_segments (l : list string) : bool :=
  match l with
  | [] => true
  | s :: l => negb (s =? ".")%string && negb (s =? "..")%string && (negb (s =? "")%string || match l with [] => true | _ => false end) && clean_segments l
  end.
Definition clean_path (p : string) : bool :=
  match Split p "/" with
  | s :: segs => (s =? "")%string && negb (match segs with [] => true | _ => false end) && clean_segments segs
  | [] => false
  end.

Section routes.
Context {S R : Type} `{UnicodeCase} `{Cache S} `{CachePing S} `{Redis R} `{RedisSets R} `{RedisCount R} `{RedisSession R}
  `{RedisMore R} `{Collation} `{UUID} `{Bcrypt} `{TenantJSON} `{Clock} `{JWT} `{AuthJSON} `{AdminJSON} `{OpsJSON} `{RandRead}
  `{Lib} `{LogDB} `{DnsLib} `{Network} `{Rand} `{MapAPI} (cfg : Config).
Abbreviation handler := (Request → api S R Resp).

Definition local (h : HandlerFunc R) : handler := λ rq, lift (h rq).
Definition handler_of (e : Endpoint) : handler :=
  match e with
  | EHealthz => healthz | EReadyz => readyz cfg | ESystemInfo => systemInfo cfg
  | ELogin => local (login cfg) | ERefresh => local (Auth.refresh cfg) | EBootstrap => local (bootstrapAdmin cfg)
  | ELogout => local (logout cfg) | EChangePassword => local (changePassword cfg) | EMe => local me
  | EListTenants => local listTenants | ECreateTenant => local (createTenant cfg) | EGetTenant => local getTenant
  | EUpdateTenant => local (updateTenant cfg) | EDeleteTenant => local (deleteTenant cfg)
  | ECustomizeDot => local (customizeDot cfg) | EEndpoints => local tenantEndpoints
  | EWarmTenant => warmTenant cfg | ETenantStats => tenantStats
  | EListUsers => local listUsers | ECreateUser => local (createUser cfg) | EUpdateUser => local (updateUser cfg)
  | ESetPassword => local (setPassword cfg) | EDeleteUser => local (deleteUser cfg)
  | ELockUser => local (secLockUser cfg) | EUnlockUser => local (secUnlockUser cfg)
  | ERevokeSessions => local (secRevokeSessions cfg) | ESecOverview => local secOverview
  | EListGroups => listGroups | ECreateGroup => createGroup cfg | EUpdateGroup => updateGroup cfg | EDeleteGroup => deleteGroup cfg
  | ECreateUpstream => createUpstream cfg | EUpdateUpstream => updateUpstream cfg | EDeleteUpstream => deleteUpstream cfg
  | EListRules => listRules | ECreateRule => createRule cfg | EUpdateRule => updateRule cfg | EDeleteRule => deleteRule cfg
  | EReload => reload cfg
  | EListHot => listHotDomains | ECreateHot => createHotDomain cfg | EDeleteHot => deleteHotDomain cfg
  | ECacheStats => cacheStats cfg | ECachePurge => cachePurge cfg | ECacheWarm => cacheWarm cfg | EWarmJobs => warmJobs
  | ESimulate => simulate cfg | EQueryLogs => queryLogs cfg | EQueryAudit => queryAudit | EVerifyAudit => verifyAuditChain
  | EStatsOverview => statsOverview cfg | EStatsUpstreams => statsUpstreams | EStatsUsage => statsUsage
  end.
Definition apply_mw (m : Mw) : handler → handler :=
  match m with
  | MAuth => authMiddleware cfg
  | MRole roles => requireRole roles
  | MScope => scopeTenant
  end.
Definition route_handler (r : Route) : handler := chain (handler_of (rt_endpoint r)) (apply_mw <$> rt_mws r).

(** The response of [ServeMux] itself. *)
Definition mux_reply (code : Z) : api S R Resp := reply code BNone.
Definition ServeHTTP : handler := λ rq,
  if negb (rq_method rq =? "CONNECT")%string && negb (clean_path (rq_path rq)) then mux_reply 301
  else match find_route routes (rq_method rq) (rq_path rq) with
       | Some (r, id) => route_handler r (with_id rq id)
       | None =>
           if existsb (λ r, bool_decide (is_Some (path_match r (rq_path rq)))) routes
           then mux_reply StatusMethodNotAllowed else mux_reply StatusNotFound
       end.
Definition serve (rq : Request) (st : ApiState S R) : outcome (list (string * string) * Resp) * ApiState S R :=
  middleware cfg ServeHTTP rq st.
End routes.

(** ** Lemmas *)

Section access.
Context {S R : Type} `{UnicodeCase} `{Cache S} `{CachePing S} `{Redis R} `{RedisSets R} `{RedisCount R} `{RedisSession R}
  `{RedisMore R} `{Collation} `{UUID} `{Bcrypt} `{TenantJSON} `{Clock} `{JWT} `{AuthJSON} `{AdminJSON} `{OpsJSON} `{RandRead}
  `{Lib} `{LogDB} `{DnsLib} `{Network} `{Rand} `{MapAPI} (cfg : Config).
Implicit Types (st : ApiState S R) (rq : Request).

(** A session: the request bears an access token that verifies now, has not
    been revoked, was not issued before the revocation of the user's
    sessions and, when restricted, is used for the password change. *)
Record valid_session (w : World R) (rq : Request) (c : Claims) : Prop := {
  vs_bearer : HasPrefix (rq_Authorization rq) "Bearer " = true;
  vs_token : ParseWithClaims (APIJWTSecret cfg) (w_now w) (TrimPrefix (rq_Authorization rq) "Bearer ") = Some c;
  vs_use : c_Use c = "access";
  vs_blacklist : ∀ n, rdb_exists (w_rdb w) (w_now w) (blacklist_key (c_ID c)) = Ok n → n ≤ 0;
  vs_revoked : ∀ ts iat, revoked_at (w_rdb w) (w_now w) (c_Subject c) = Some ts → c_IssuedAt c = Some iat → 0 < ts → ts ≤ iat;
  vs_scope : c_Scope c = "" ∨ rq_path rq = "/api/v1/auth/change-password"
}.
(** What the middlewares of a route ask of the claims. *)
Definition permits (c : Claims) (id : string) (m : Mw) : bool :=
  match m with
  | MAuth => true
  | MRole roles => role_allowed roles (c_Role c)
  | MScope => isPlatformAdmin (c_Role c) || (c_TID c =? id)%string
  end.

Lemma set_world_id st : set_world (a_world st) st = st.
Proof. by destruct st. Qed.
Lemma lift_run {A} (m : act R A) st a w : m (a_world st) = (Ok a, w) → lift (M := api S R) m st = (Ok a, set_world w st).
Proof. unfold lift, api_lift. by intros ->. Qed.
Lemma api_bind_run {A B} (m : api S R A) (f : A → api S R B) st a st' : m st = (Ok a, st') → (m ≫= f) st = f a st'.
Proof. unfold mbind, api_bind. by intros ->. Qed.
Lemma lift_read {A B} (m : act R A) (f : A → api S R B) st a :
  m (a_world st) = (Ok a, a_world st) → (lift m ≫= f) st = f a st.
Proof. intros Hm. erewrite api_bind_run by (by apply lift_run). by rewrite set_world_id. Qed.
Lemma lift_err code msg st : lift (M := api S R) (writeErr code msg) st = (Ok {| rs_code := code; rs_body := BErr msg |}, st).
Proof. unfold lift, api_lift. simpl. by rewrite set_world_id. Qed.

Definition session (w : World R) (rq : Request) : option Claims :=
  if HasPrefix (rq_Authorization rq) "Bearer " then
    c ← ParseWithClaims (APIJWTSecret cfg) (w_now w) (TrimPrefix (rq_Authorization rq) "Bearer ");
    match refused c w (rq_path rq) with None => Some c | Some _ => None end
  else None.
Lemma refused_code c (w : World R) path code msg : refused c w path = Some (code, msg) → code = 401 ∨ code = 403.
Proof. unfold refused. repeat case_match; intros [= <- <-]; auto. Qed.
Lemma auth_api_run (next : Request → api S R Resp) rq st :
  match session (a_world st) rq with
  | Some c => authMiddleware cfg next rq st = next (with_claims rq c) st
  | None => ∃ code msg, authMiddleware cfg next rq st = (Ok {| rs_code := code; rs_body := BErr msg |}, st) ∧ (code = 401 ∨ code = 403)
  end.
Proof.
  unfold session, authMiddleware. cbv zeta. destruct (HasPrefix _ _); cbn [negb]; cbv iota; [|rewrite lift_err; eauto].
  erewrite lift_read by (rewrite parse_run; unfold parse_result; reflexivity). destruct (ParseWithClaims _ _ _) as [c|]; simpl; [|rewrite lift_err; eauto].
  unfold refused. destruct (negb (c_Use c =? "access")%string); [rewrite lift_err; eauto|]. cbv beta iota.
  erewrite lift_read by reflexivity.
  destruct (match rdb_exists _ _ _ with Ok n => 0 <? n | _ => false end); [rewrite lift_err; eauto|]. cbv beta iota.
  erewrite lift_read by reflexivity.
  destruct (match revoked_at _ _ _, c_IssuedAt c with Some _, Some _ => _ | _, _ => _ end); [rewrite lift_err; eauto|].
  destruct (negb (c_Scope c =? "")%string && _); [rewrite lift_err; eauto|]. done.
Qed.
Lemma session_valid w rq c : session w rq = Some c ↔ valid_session w rq c.
Proof.
  unfold session, refused. split.
  - destruct (HasPrefix _ _) eqn:Hp; [|done]. destruct (ParseWithClaims _ _ _) as [c'|] eqn:Hc; simpl; [|done].
    destruct (String.eqb_spec (c_Use c') "access") as [Hu|]; [|done]. cbn [negb]. cbv iota.
    destruct (match rdb_exists _ _ _ with Ok n => 0 <? n | _ => false end) eqn:Hb; [done|].
    destruct (match revoked_at _ _ _, c_IssuedAt c' with Some _, Some _ => _ | _, _ => _ end) eqn:Hr; [done|].
    destruct (negb (c_Scope c' =? "")%string && _) eqn:Hs; [done|]. intros [= <-]. split; [done..| | |].
    + intros n Hn. rewrite Hn in Hb. lia.
    + intros ts iat Ht Hi ?. rewrite Ht, Hi in Hr. lia.
    + destruct (String.eqb_spec (c_Scope c') "") as [?|?]; [by left|right].
      destruct (String.eqb_spec (rq_path rq) "/api/v1/auth/change-password") as [?|?]; done.
  - intros [-> -> Hu Hb Hr Hs]. simpl. rewrite Hu. simpl.
    assert (match rdb_exists (w_rdb w) (w_now w) (blacklist_key (c_ID c)) with Ok n => 0 <? n | _ => false end = false) as ->.
    { destruct (rdb_exists _ _ _) as [n| |]; [|done..]. specialize (Hb n eq_refl). lia. }
    assert (match revoked_at (w_rdb w) (w_now w) (c_Subject c), c_IssuedAt c with
            | Some ts, Some iat => (0 <? ts) && (iat <? ts) | _, _ => false end = false) as ->.
    { destruct (revoked_at _ _ _) as [ts|]; [|done]. destruct (c_IssuedAt c) as [iat|]; [|done]. specialize (Hr ts iat eq_refl eq_refl). lia. }
    destruct Hs as [-> | ->]; [done|]. by rewrite String.eqb_refl, andb_false_r.
Qed.

(** The middlewares behind the authentication only look at the claims. *)
Lemma guards_run (h : Request → api S R Resp) ms rq c st :
  forallb (λ m, match m with MAuth => false | _ => true end) ms = true → claimsFrom rq = Some c →
  if forallb (permits c (rq_id rq)) ms then chain h (apply_mw cfg <$> ms) rq st = h rq st
  else ∃ msg, chain h (apply_mw cfg <$> ms) rq st = (Ok {| rs_code := 403; rs_body := BErr msg |}, st).
Proof.
  intros Hms Hc. induction ms as [|m ms IH]; [done|]. cbn [forallb] in *. apply andb_prop in Hms as [Hm Hms]. specialize (IH Hms).
  destruct m as [|roles|]; [done|..]; cbn [permits fmap list_fmap chain foldr apply_mw] in *.
  - unfold requireRole. rewrite Hc. destruct (role_allowed _ _); cbn [andb]; [exact IH|]. rewrite lift_err. eauto.
  - unfold scopeTenant. rewrite Hc. destruct (isPlatformAdmin _); cbn [orb negb andb]; [exact IH|].
    destruct (c_TID c =? rq_id rq)%string; cbn [negb andb]; [exact IH|]. rewrite lift_err. eauto.
Qed.
Lemma find_route_Some rs m p r id :
  find_route rs m p = Some (r, id) → r ∈ rs ∧ method_match r m = true ∧ path_match r p = Some id.
Proof.
  induction rs as [|r' rs IH]; [done|]. cbn [find_route]. destruct (method_match r' m) eqn:Hm; [|intros ?%IH; set_solver].
  destruct (path_match r' p) as [id'|] eqn:Hp; [|intros ?%IH; set_solver]. intros [= <- <-]. set_solver.
Qed.
Definition guarded (r : Route) : bool :=
  match rt_mws r with
  | [] => true
  | MAuth :: ms => forallb (λ m, match m with MAuth => false | _ => true end) ms
  | _ => false
  end.
Lemma routes_guarded r : r ∈ routes → guarded r = true.
Proof.
  intros Hr. assert (forallb guarded routes = true) as Hg by reflexivity.
  rewrite forallb_forall in Hg. by apply Hg, list_elem_of_In.
Qed.
(** A request to a protected route. *)
Lemma route_run r rq st :
  r ∈ routes → rt_mws r ≠ [] →
  match session (a_world st) rq with
  | Some c => if forallb (permits c (rq_id rq)) (rt_mws r)
              then route_handler cfg r rq st = handler_of cfg (rt_endpoint r) (with_claims rq c) st
              else ∃ msg, route_handler cfg r rq st = (Ok {| rs_code := 403; rs_body := BErr msg |}, st)
  | None => ∃ code msg, route_handler cfg r rq st = (Ok {| rs_code := code; rs_body := BErr msg |}, st) ∧ (code = 401 ∨ code = 403)
  end.
Proof.
  intros Hr%routes_guarded Hne. unfold guarded in Hr. unfold route_handler.
  destruct (rt_mws r) as [|[| |] ms]; [done| |done..]. cbn [fmap list_fmap chain foldr apply_mw].
  pose proof (auth_api_run (chain (handler_of cfg (rt_endpoint r)) (apply_mw cfg <$> ms)) rq st) as Ha.
  destruct (session (a_world st) rq) as [c|]; [|exact Ha]. cbn [forallb permits andb].
  pose proof (guards_run (handler_of cfg (rt_endpoint r)) ms (with_claims rq c) c st Hr eq_refl) as Hg.
  change (rq_id (with_claims rq c)) with (rq_id rq) in Hg.
  destruct (forallb (permits c (rq_id rq)) ms); cbv iota in Hg |- *; [by etrans; [exact Ha|exact Hg]|].
  destruct Hg as [msg Hg]. exists msg. by etrans; [exact Ha|exact Hg].
Qed.
End access.

(** ** The duties of the three officers *)

Inductive Duty := DSystem | DSecurity | DAudit.
#[global] Instance Duty_eq_dec : EqDecision Duty.
Proof. solve_decision. Defined.
(** System administration, security administration and auditing; [None]:
    endpoints for everybody or for the tenants. *)
Definition duty (e : Endpoint) : option Duty :=
  match e with
  | EListTenants | ECreateTenant | EDeleteTenant | EListUsers | ECreateUser | EUpdateUser | ESetPassword | EDeleteUser
  | EListGroups | ECreateGroup | EUpdateGroup | EDeleteGroup | ECreateUpstream | EUpdateUpstream | EDeleteUpstream
  | EListRules | ECreateRule | EUpdateRule | EDeleteRule | EReload | EListHot | ECreateHot | EDeleteHot
  | ECacheStats | ECachePurge | ECacheWarm | EWarmJobs | EStatsUpstreams | EStatsUsage => Some DSystem
  | ELockUser | EUnlockUser | ERevokeSessions | ESecOverview => Some DSecurity
  | EQueryAudit | EVerifyAudit => Some DAudit
  | _ => None
  end.
Definition officers (d : Duty) : list Role :=
  match d with
  | DSystem => [RoleAdmin; RoleSysAdmin]
  | DSecurity => [RoleSecAdmin]
  | DAudit => [RoleAuditAdmin]
  end.
Definition duty_mws (d : Duty) : list Mw :=
  match d with DSystem => sysadmin | DSecurity => secadmin | DAudit => auditadmin end.
Lemma duty_routes r d : r ∈ routes → duty (rt_endpoint r) = Some d → rt_mws r = duty_mws d.
Proof.
  intros Hr Hd.
  assert (forallb (λ r, match duty (rt_endpoint r) with Some d => bool_decide (rt_mws r = duty_mws d) | None => true end) routes = true)
    as Ht by reflexivity.
  rewrite forallb_forall in Ht. specialize (Ht r (proj1 (list_elem_of_In _ _) Hr)). rewrite Hd in Ht. by apply bool_decide_eq_true in Ht.
Qed.
Lemma duty_permits c id d : forallb (permits c id) (duty_mws d) = true ↔ c_Role c ∈ officers d.
Proof.
  destruct d; cbn [duty_mws forallb permits officers]; rewrite andb_true_l, andb_true_r; unfold role_allowed;
    destruct (String.eqb_spec (c_Role c) RoleAdmin) as [->|Hne]; rewrite !elem_of_cons, elem_of_nil; simpl;
    rewrite ?orb_false_r, ?String.eqb_eq; naive_solver.
Qed.

(** ** Dispatch is exact *)

(** No path matches both patterns. *)
Fixpoint segments_apart (p q : list string) : bool :=
  match p, q with
  | [], [] => false
  | x :: p, y :: q =>
      (negb (x =? "{id}")%string && negb (y =? "{id}")%string && negb (x =? y)%string) || segments_apart p q
  | _, _ => true
  end.
Lemma segments_apart_match p q path i j k l :
  segments_apart p q = true → match_segments p path i = Some k → match_segments q path j = Some l → False.
Proof.
  revert q path i j. induction p as [|x p IH]; intros [|y q] [|s path] i j Ha Hp Hq; cbn [match_segments segments_apart] in *; try done.
  apply orb_true_iff in Ha as [Ha|Ha].
  - destruct (x =? "{id}")%string; [done|]. destruct (y =? "{id}")%string; [done|]. simpl in Ha.
    destruct (String.eqb_spec x s) as [->|]; [|done]. destruct (String.eqb_spec y s) as [->|]; [|done]. by rewrite String.eqb_refl in Ha.
  - repeat case_match; try done; by eapply IH.
Qed.
Definition routes_apart (r r' : Route) : bool :=
  (negb (rt_method r =? rt_method r')%string && negb (rt_method r =? "HEAD")%string && negb (rt_method r' =? "HEAD")%string) ||
  segments_apart (Split (rt_pattern r) "/") (Split (rt_pattern r') "/").
Lemma routes_apart_match r r' m p k l :
  routes_apart r r' = true → method_match r m = true → method_match r' m = true →
  path_match r p = Some k → path_match r' p = Some l → False.
Proof.
  unfold routes_apart. intros [Ha|Ha]%orb_true_iff Hm Hm' Hp Hp'; [|by eapply segments_apart_match].
  unfold method_match in *. repeat (apply andb_true_iff in Ha as [Ha ?]). zbool.
  repeat match goal with H : _ || _ = true |- _ => apply orb_true_iff in H as [H|H] end;
    repeat match goal with H : _ && _ = true |- _ => apply andb_true_iff in H as [? ?] end;
    repeat match goal with H : (_ =? _)%string = true |- _ => apply String.eqb_eq in H end;
    repeat match goal with H : negb (_ =? _)%string = true |- _ => apply negb_true_iff, String.eqb_neq in H end; congruence.
Qed.
(** The routes before a route of the table are apart from it. *)
Fixpoint ordered_apart (rs : list Route) : bool :=
  match rs with
  | [] => true
  | r :: rs => forallb (routes_apart r) rs && ordered_apart rs
  end.
Lemma find_route_exact rs r m p id :
  ordered_apart rs = true → r ∈ rs → method_match r m = true → path_match r p = Some id → find_route rs m p = Some (r, id).
Proof.
  induction rs as [|r' rs IH]; [by intros _ ?%elem_of_nil|]. cbn [ordered_apart find_route]. intros [Ha Hrs]%andb_true_iff Hr Hm Hp.
  apply elem_of_cons in Hr as [<-|Hr]; [by rewrite Hm, Hp|]. rewrite forallb_forall in Ha.
  specialize (Ha r (proj1 (list_elem_of_In _ _) Hr)). destruct (method_match r' m) eqn:Hm'; [|by apply IH].
  destruct (path_match r' p) eqn:Hp'; [|by apply IH]. exfalso. by eapply routes_apart_match.
Qed.

(** ** Properties *)

Section theorems.
Context {S R : Type} `{UnicodeCase} `{Cache S} `{CachePing S} `{Redis R} `{RedisSets R} `{RedisCount R} `{RedisSession R}
  `{RedisMore R} `{Collation} `{UUID} `{Bcrypt} `{TenantJSON} `{Clock} `{JWT} `{AuthJSON} `{AdminJSON} `{OpsJSON} `{RandRead}
  `{Lib} `{LogDB} `{DnsLib} `{Network} `{Rand} `{MapAPI} (cfg : Config).
Implicit Types (st : ApiState S R) (rq : Request).

Lemma ServeHTTP_route rq st r id :
  clean_path (rq_path rq) = true → find_route routes (rq_method rq) (rq_path rq) = Some (r, id) →
  ServeHTTP cfg rq st = route_handler cfg r (with_id rq id) st.
Proof. intros Hc Hf. unfold ServeHTTP. rewrite Hc, Hf, andb_false_r. done. Qed.

(** C1: complete mediation: a request to a route that is not public runs
    its handler exactly when it bears a valid session whose role and tenant
    the route accepts, and the handler sees that session; otherwise it is
    answered with 401 or 403 and has no effect at all. *)
Theorem complete_mediation rq st r id :
  rq_method rq ≠ "OPTIONS" → clean_path (rq_path rq) = true →
  find_route routes (rq_method rq) (rq_path rq) = Some (r, id) → rt_mws r ≠ [] →
  (∀ c, valid_session cfg (a_world st) rq c → forallb (permits c id) (rt_mws r) = true →
     ServeHTTP cfg rq st = handler_of cfg (rt_endpoint r) (with_claims (with_id rq id) c) st) ∧
  ((∀ c, valid_session cfg (a_world st) rq c → forallb (permits c id) (rt_mws r) = false) →
     ∃ hs resp, serve cfg rq st = (Ok (hs, resp), st) ∧ (rs_code resp = 401 ∨ rs_code resp = 403)).
Proof.
  intros Hm Hc Hf Hne. rewrite <-(String.eqb_neq) in Hm. unfold serve, middleware. rewrite Hm.
  rewrite (ServeHTTP_route rq st r id Hc Hf). apply find_route_Some in Hf as (Hr & _).
  pose proof (route_run cfg r (with_id rq id) st Hr Hne) as Hrun. change (rq_id (with_id rq id)) with id in Hrun.
  split.
  - intros c Hv Hp. rewrite (proj2 (session_valid cfg (a_world st) (with_id rq id) c)) in Hrun by (by destruct Hv; split).
    by rewrite Hp in Hrun.
  - intros Hno. destruct (session cfg (a_world st) (with_id rq id)) as [c|] eqn:Hs.
    + apply session_valid in Hs. rewrite (Hno c) in Hrun by (by destruct Hs; split). destruct Hrun as [msg ->]. eauto.
    + destruct Hrun as (code & msg & -> & Hcode). eauto.
Qed.
End theorems.

(** Dispatch is exact: no request matches two patterns of the table,
    so every request that matches a pattern is served by the handler
    registered for it, whatever the order of registration. *)
Theorem dispatch_exact r method path id :
  r ∈ routes → method_match r method = true → path_match r path = Some id →
  find_route routes method path = Some (r, id).
Proof. apply find_route_exact. reflexivity. Qed.
Lemma dispatch_exact_witness :
  find_route routes "HEAD" "/api/v1/tenants/t1/stats" = Some (route "GET" "/api/v1/tenants/{id}/stats" ETenantStats own_tenant, "t1").
Proof. apply dispatch_exact; [apply list_elem_of_In; simpl; tauto|reflexivity|reflexivity]. Defined.


Import Demo.
Lemma demo_valid method u path :
  dec_claims (enc_claims (demo_session u)) = Some (demo_session u) →
  valid_session demo_config (demo_world demo_api_db) (demo_call method path u) (demo_session u).
Proof.
  intros Hd. split; simpl; [done| |done| | |by left].
  - change (TrimPrefix _ "Bearer ") with (enc_claims (demo_session u)). by rewrite Hd.
  - intros n [= <-]. done.
  - done.
Qed.
Lemma complete_mediation_witness :
  let rq := demo_call "GET" "/api/v1/tenants/t1" (demo_account "u2" "bob" "tenant" (Some "t1")) in
  ∃ w, ServeHTTP demo_config rq demo_api_state = (Ok {| rs_code := 200; rs_body := BTenant (scanTenant (tenant_row "t1" demo_tenant 0 0)) |}, w).
Proof.
  intros rq.
  destruct (complete_mediation demo_config rq demo_api_state (route "GET" "/api/v1/tenants/{id}" EGetTenant own_tenant) "t1") as [Hok _].
  - discriminate.
  - reflexivity.
  - reflexivity.
  - discriminate.
  - rewrite (Hok (demo_session (demo_account "u2" "bob" "tenant" (Some "t1"))));
      [eexists; vm_compute; reflexivity|apply demo_valid; vm_compute; reflexivity|reflexivity].
Defined.
