(* ===== verification/LogSearch.v ===== *)
(** * The query log as a table (src/internal/store/querylog.go, src/db/schema.sql)

    The rows of [query_logs], the INSERT of the log writer with the widths
    of the columns, and what MySQL answers to the statements the log search
    and the usage report send: [eval_count], [eval_page] and [eval_usage]
    read the text of a statement and its bound arguments. The search and the
    report are then shown to answer what their filters mean. *)

From stdpp Require Import sorting.
From S2P Require Import Prelude GoStrings GoNet Config Model DnsMsg Ecs Split StoreCache AnswerCache Dnssec RateLimit Metrics Upstream Dualstack Warmup Handler QueryLog Db World Repos Http Auth Admin Ops Routes.

(** ** The table *)

Record LogRow := {
  lr_id : Z; lr_ts : Time; lr_tenant_id : option string; lr_client_ip : string; lr_ecs : option string; lr_qname : string;
  lr_qtype : string; lr_rcode : string; lr_cache_hit : bool; lr_upstream_group : option string; lr_upstream : option string;
  lr_rtt_ms : Z; lr_dnssec_ok : bool; lr_vip : bool; lr_via : string
}.
(** The values an INSERT binds. *)
Definition log_row (id : Z) (r : QueryLogRow) : LogRow :=
  {| lr_id := id; lr_ts := dt3 (ql_TS r); lr_tenant_id := nullStr (ql_TenantID r); lr_client_ip := ql_ClientIP r;
     lr_ecs := nullStr (ql_ECS r); lr_qname := ql_QName r; lr_qtype := ql_QType r; lr_rcode := ql_RCode r;
     lr_cache_hit := ql_CacheHit r; lr_upstream_group := nullStr (ql_UpstreamGrp r); lr_upstream := nullStr (ql_Upstream r);
     lr_rtt_ms := ql_RTTMS r; lr_dnssec_ok := ql_DNSSECOK r; lr_vip := ql_VIP r; lr_via := ql_Via r |}.
(** The columns refuse longer texts (strict mode). *)
Definition fits (r : LogRow) : bool :=
  let within (n : Z) (s : string) := Z.of_nat (len s) <=? n in
  let within_null (n : Z) (s : option string) := match s with Some s => within n s | None => true end in
  within_null 36 (lr_tenant_id r) && within 45 (lr_client_ip r) && within_null 45 (lr_ecs r) && within 255 (lr_qname r) &&
  within 16 (lr_qtype r) && within 16 (lr_rcode r) && within_null 64 (lr_upstream_group r) &&
  within_null 128 (lr_upstream r) && within 8 (lr_via r).
(** [insert]: the rows of a batch in one transaction; [next] is the next
    automatic id. *)
Fixpoint insert_rows (next : Z) (rows : list QueryLogRow) : outcome (list LogRow) :=
  match rows with
  | [] => Ok []
  | r :: rows =>
      let row := log_row next r in
      if fits row then match insert_rows (next + 1) rows with Ok t => Ok (row :: t) | e => e end
      else Err "Error 1406 (22001): Data too long for column"
  end.
Definition insert (table : list LogRow) (next : Z) (rows : list QueryLogRow) : outcome (list LogRow) :=
  match insert_rows next rows with Ok t => Ok (table ++ t) | e => e end.

(** [rows.Scan] of a search. *)
Definition scan_log (r : LogRow) : QueryLogRow :=
  {| ql_TS := lr_ts r; ql_TenantID := default "" (lr_tenant_id r); ql_ClientIP := lr_client_ip r; ql_ECS := default "" (lr_ecs r);
     ql_QName := lr_qname r; ql_QType := lr_qtype r; ql_RCode := lr_rcode r; ql_CacheHit := lr_cache_hit r;
     ql_UpstreamGrp := default "" (lr_upstream_group r); ql_Upstream := default "" (lr_upstream r); ql_RTTMS := lr_rtt_ms r;
     ql_DNSSECOK := lr_dnssec_ok r; ql_VIP := lr_vip r; ql_Via := lr_via r |}.

(** ** The statements *)

(** The pieces of a text between occurrences of a separator; [skip]
    characters of a separator are still to be dropped. *)
Fixpoint split_text (sep : string) (skip : nat) (s : string) : list string :=
  match s with
  | EmptyString => [EmptyString]
  | String c s' =>
      match skip with
      | S k => split_text sep k s'
      | O => if HasPrefix s sep then EmptyString :: split_text sep (len sep - 1) s'
             else match split_text sep 0 s' with
                  | [] => [String c EmptyString]
                  | x :: l => String c x :: l
                  end
      end
  end.
(** The text between a fixed beginning and a fixed end. *)
Definition between (pre suf s : string) : option string :=
  if HasPrefix s pre && HasSuffix s suf then Some (TrimSuffix (TrimPrefix s pre) suf) else None.
Definition err_syntax : string := "Error 1064 (42000): You have an error in your SQL syntax".

(** The instant a text denotes that is compared with a DATETIME column. *)
Class SqlTime := { datetime : string → Time }.

Section eval.
Context `{Collation} `{SqlTime}.

(** What a conjunct says of a row, given the argument it is bound to. *)
Definition clause (c : string) : option (arg → LogRow → bool) :=
  let text (f : LogRow → string → bool) (a : arg) (r : LogRow) := match a with AStr s => f r s | AInt _ => false end in
  if (c =? "tenant_id = ?")%string then Some (text (λ r s, ceq_null (lr_tenant_id r) s))
  else if (c =? "qname LIKE ?")%string then Some (text (λ r s, like s (lr_qname r)))
  else if (c =? "qtype = ?")%string then Some (text (λ r s, ceq (lr_qtype r) s))
  else if (c =? "ts >= ?")%string then Some (text (λ r s, datetime s <=? lr_ts r))
  else if (c =? "ts <= ?")%string then Some (text (λ r s, lr_ts r <=? datetime s))
  else None.
(** A conjunction, each placeholder bound to the next argument; the
    arguments left over. *)
Fixpoint eval_where (cs : list string) (args : list arg) : option ((LogRow → bool) * list arg) :=
  match cs with
  | [] => Some (λ _, true, args)
  | c :: cs =>
      if (c =? "1=1")%string then eval_where cs args
      else match clause c, args with
           | Some f, a :: args =>
               match eval_where cs args with
               | Some (g, args) => Some (λ r, f a r && g r, args)
               | None => None
               end
           | _, _ => None
           end
  end.
Definition eval_filter (pre suf : string) (stmt : string * list arg) : option ((LogRow → bool) * list arg) :=
  match between pre suf stmt.1 with
  | Some w => eval_where (split_text " AND " 0 w) stmt.2
  | None => None
  end.
Definition eval_count (stmt : string * list arg) (T : list LogRow) : outcome Z :=
  match eval_filter "SELECT COUNT(*) FROM (SELECT 1 FROM query_logs WHERE " " LIMIT ?) t" stmt with
  | Some (p, [AInt n]) =>
      if n <? 0 then Err err_syntax
      else Ok (Z.of_nat (length (take (Z.to_nat n) (filter (λ r, p r = true) T))))
  | _ => Err err_syntax
  end.
Definition newest (a b : LogRow) : bool := (lr_ts b <? lr_ts a) || ((lr_ts b =? lr_ts a) && (lr_id b <=? lr_id a)).
Definition eval_page (stmt : string * list arg) (T : list LogRow) : outcome (list QueryLogRow) :=
  match eval_filter "SELECT ts, tenant_id, client_ip, ecs, qname, qtype, rcode, cache_hit, upstream_group, upstream, rtt_ms, dnssec_ok, vip, via FROM query_logs WHERE "
          " ORDER BY ts DESC, id DESC LIMIT ? OFFSET ?" stmt with
  | Some (p, [AInt n; AInt k]) =>
      if (n <? 0) || (k <? 0) then Err err_syntax
      else Ok (scan_log <$> take (Z.to_nat n) (drop (Z.to_nat k) (order_by newest (filter (λ r, p r = true) T))))
  | _ => Err err_syntax
  end.

(** Different values under the collation: the first of each class. *)
Fixpoint distinct (l : list string) : list string :=
  match l with
  | [] => []
  | x :: l => x :: filter (λ y, ceq x y = false) (distinct l)
  end.
Definition usage_rows (since : string) (T : list LogRow) : list LogRow :=
  filter (λ r, (datetime since <=? lr_ts r) && match lr_tenant_id r with Some t => negb (ceq t "") | None => false end = true) T.
Definition row_tenant (r : LogRow) : string := default "" (lr_tenant_id r).
Definition usage_group (ts : list TenantRow) (rows : list LogRow) (tid : string) : TenantUsage :=
  let g := filter (λ r, ceq tid (row_tenant r) = true) rows in
  let t := first_match (λ t, ceq (tr_id t) tid) ts in
  let col (f : TenantRow → string) := match t with Some t => f t | None => ""%string end in
  {| tu_TenantID := tid; tu_Name := col tr_name; tu_Prefix := col tr_prefix; tu_BaseDomain := col tr_base_domain;
     tu_VIP := match t with Some t => tr_vip t | None => existsb lr_vip g end;
     tu_Users := Z.of_nat (length (distinct (lr_client_ip <$> g))); tu_Queries := Z.of_nat (length g) |}.
Definition eval_usage `{Clock} (stmt : string * list arg) (T : list LogRow) (ts : list TenantRow) : outcome (list TenantUsage) :=
  match stmt.2 with
  | [AStr since] =>
      if (stmt.1 =? (UsageByTenant_sql 0).1)%string
      then let rows := usage_rows since T in
           Ok (order_by (λ a b, tu_Users b <=? tu_Users a) (usage_group ts rows <$> distinct (row_tenant <$> rows)))
      else Err err_syntax
  | _ => Err err_syntax
  end.

(** ** What a search asks for *)

(** A text somewhere inside another, byte by byte under the collation. *)
Fixpoint same_start (t s : string) : bool :=
  match t, s with
  | EmptyString, _ => true
  | String c t, String d s => ceq (String c EmptyString) (String d EmptyString) && same_start t s
  | _, EmptyString => false
  end.
Fixpoint occurs (t s : string) : bool :=
  same_start t s || match s with EmptyString => false | String _ s => occurs t s end.
Definition asked (f : LogFilter) (r : LogRow) : bool :=
  ((f_tenantID f =? "")%string || ceq_null (lr_tenant_id r) (f_tenantID f)) &&
  ((f_qname f =? "")%string || occurs (f_qname f) (lr_qname r)) &&
  ((f_qtype f =? "")%string || ceq (lr_qtype r) (f_qtype f)) &&
  ((f_from f =? "")%string || (datetime (f_from f) <=? lr_ts r)) &&
  ((f_to f =? "")%string || (lr_ts r <=? datetime (f_to f))).
End eval.

(** ** Lemmas *)

Section search.
Context `{Collation} `{SqlTime}.

Lemma like_literal c p s :
  like (escapeLike (String c "") +:+ p) s =
  match s with EmptyString => false | String d s => ceq (String c EmptyString) (String d EmptyString) && like p s end.
Proof. destruct c as [[] [] [] [] [] [] [] []]; reflexivity. Qed.
Lemma like_any p s : like (String "%" p) s = like p s || match s with EmptyString => false | String _ s => like (String "%" p) s end.
Proof. by destruct s. Qed.
Lemma like_rest s : like "%" s = true.
Proof. induction s as [|c s IH]; [done|]. rewrite like_any, IH. apply orb_true_r. Qed.
Lemma like_start t s : like (escapeLike t +:+ "%") s = same_start t s.
Proof.
  revert s. induction t as [|c t IH]; intros s; [exact (like_rest s)|].
  rewrite escapeLike_cons, append_assoc_str, like_literal. destruct s as [|d s]; [done|]. by rewrite IH.
Qed.
(** The pattern of a search finds the text the user gave, anywhere. *)
Lemma like_occurs t s : like ("%" +:+ escapeLike t +:+ "%") s = occurs t s.
Proof.
  change ("%" +:+ ?p)%string with (String "%" p). induction s as [|c s IH]; rewrite like_any, like_start; [done|].
  by rewrite IH.
Qed.
Lemma occurs_spec t s : occurs t s = true ↔ ∃ a b, s = (a +:+ b)%string ∧ same_start t b = true.
Proof.
  induction s as [|c s IH]; simpl.
  - rewrite orb_false_r. split; [by exists "", ""|]. by intros ([] & b & [= <-] & ?).
  - rewrite orb_true_iff, IH. split.
    + intros [Hs|(a & b & -> & Hs)]; [by exists "", (String c s)|by exists (String c a), b].
    + intros ([|d a] & b & Heq & Hs); [left; by simplify_eq/=|right]. simplify_eq/=. eauto.
Qed.

(** The two statements read back: their conjuncts are the filter's. *)
Ltac cases f :=
  destruct (String.eqb_spec (f_tenantID f) ""), (String.eqb_spec (f_qname f) ""), (String.eqb_spec (f_qtype f) ""),
    (String.eqb_spec (f_from f) ""), (String.eqb_spec (f_to f) "").
Definition where_text (f : LogFilter) : string := joinWhere (filter_parts f).1.
Lemma where_read f : split_text " AND " 0 (where_text f) = (filter_parts f).1.
Proof. unfold where_text, filter_parts, filter_part. cases f; vm_compute; reflexivity. Qed.
Lemma between_app pre mid suf : between pre suf (pre +:+ mid +:+ suf) = Some mid.
Proof.
  unfold between. rewrite HasPrefix_app, TrimPrefix_app, TrimSuffix_app, <-append_assoc_str, HasSuffix_app. done.
Qed.
Lemma eval_where_asked f rest :
  ∃ p, eval_where (filter_parts f).1 ((filter_parts f).2 ++ rest) = Some (p, rest) ∧ ∀ r, p r = asked f r.
Proof.
  unfold filter_parts, filter_part, asked. cases f; cbn [fmap list_fmap fst snd app concat orb]; eexists; (split; [reflexivity|]);
    intros r; cbv beta iota; rewrite ?like_occurs, ?andb_true_l, ?andb_true_r, ?andb_assoc; reflexivity.
Qed.
(** The statements of a search, with the limits the code puts. *)
Definition page_limit (n : Z) : Z := if (n <=? 0) || (500 <? n) then 100 else n.
Definition count_limit (n : Z) : Z := if n <=? 0 then 100000 else n.
Lemma eval_filter_asked f pre suf rest :
  ∃ p, eval_filter pre suf (pre +:+ where_text f +:+ suf, (filter_parts f).2 ++ rest) = Some (p, rest) ∧ ∀ r, p r = asked f r.
Proof. unfold eval_filter. cbn [fst snd]. rewrite between_app, where_read. apply eval_where_asked. Qed.
Lemma filter_bool_ext {A} (p q : A → bool) (l : list A) : (∀ x, p x = q x) → filter (λ x, p x = true) l = filter (λ x, q x = true) l.
Proof. intros Hpq. apply list_filter_iff. intros x. by rewrite Hpq. Qed.
Lemma eval_search f limit offset cap T :
  0 ≤ offset →
  let '(count, page) := QueryLogs_sql f limit offset cap in
  let rows := filter (λ r, asked f r = true) T in
  eval_count count T = Ok (Z.min (count_limit cap) (Z.of_nat (length rows))) ∧
  eval_page page T = Ok (scan_log <$> take (Z.to_nat (page_limit limit)) (drop (Z.to_nat offset) (order_by newest rows))).
Proof.
  intros Ho. unfold QueryLogs_sql. destruct (filter_parts f) as [ws args] eqn:Hf. cbv zeta.
  assert (joinWhere ws = where_text f ∧ args = (filter_parts f).2) as [-> ->] by (unfold where_text; by rewrite Hf).
  assert (0 < page_limit limit ∧ 0 < count_limit cap) as [Hl Hc].
  { unfold page_limit, count_limit. split; repeat case_match; rewrite ?orb_false_iff, ?Z.leb_gt in *; lia. }
  split.
  - unfold eval_count. destruct (eval_filter_asked f "SELECT COUNT(*) FROM (SELECT 1 FROM query_logs WHERE " " LIMIT ?) t" [AInt (count_limit cap)]) as (p & Hp & Hpa).
    rewrite <-!append_assoc_str in *. cbn [String.append] in *. fold (count_limit cap). rewrite Hp.
    destruct (Z.ltb_spec (count_limit cap) 0); [lia|]. rewrite length_take, (filter_bool_ext p (asked f)) by done. f_equal. lia.
  - unfold eval_page.
    destruct (eval_filter_asked f "SELECT ts, tenant_id, client_ip, ecs, qname, qtype, rcode, cache_hit, upstream_group, upstream, rtt_ms, dnssec_ok, vip, via FROM query_logs WHERE "
      " ORDER BY ts DESC, id DESC LIMIT ? OFFSET ?" [AInt (page_limit limit); AInt offset]) as (p & Hp & Hpa).
    rewrite <-!append_assoc_str in *. cbn [String.append] in *. fold (page_limit limit). rewrite Hp.
    destruct (Z.ltb_spec (page_limit limit) 0); [lia|]. destruct (Z.ltb_spec offset 0); [lia|]. cbn [orb].
    by rewrite (filter_bool_ext p (asked f)).
Qed.

(** Pages of a sorted result. *)
Lemma newest_total a b : newest a b = true ∨ newest b a = true.
Proof. unfold newest. rewrite !orb_true_iff, !andb_true_iff, !Z.ltb_lt, !Z.eqb_eq, !Z.leb_le. lia. Qed.

(** *** Counting by groups *)

Lemma distinct_elem l x : x ∈ distinct l → x ∈ l.
Proof.
  revert x. induction l as [|y l IH]; intros x; simpl; [done|].
  rewrite !elem_of_cons. intros [->|[_ Hx]%list_elem_of_filter]; auto.
Qed.
Lemma distinct_covers l x : x ∈ l → ∃ y, y ∈ distinct l ∧ weight y = weight x.
Proof.
  induction l as [|z l IH]; simpl; [by intros ?%elem_of_nil|]. intros [->|Hx]%elem_of_cons; [exists z; set_solver|].
  destruct (IH Hx) as (y & Hy & Hw). destruct (decide (weight z = weight y)) as [E|E].
  - exists z. split; [set_solver|congruence].
  - exists y. split; [|done]. apply elem_of_cons. right. apply list_elem_of_filter. split; [|done].
    by apply bool_decide_eq_false.
Qed.
Lemma distinct_NoDup l : NoDup (weight <$> distinct l).
Proof.
  induction l as [|x l IH]; simpl; [constructor|]. constructor.
  - intros (y & Hw & [Hy _]%list_elem_of_filter)%list_elem_of_fmap. unfold ceq in Hy. apply bool_decide_eq_false in Hy. done.
  - clear -IH. induction (distinct l) as [|y d IHd]; [done|]. inversion_clear IH as [|?? Hn Hd].
    rewrite filter_cons. case_decide; [|auto]. simpl. constructor; [|auto].
    intros (z & Hw & [_ Hz]%list_elem_of_filter)%list_elem_of_fmap. apply Hn. rewrite Hw. by apply (list_elem_of_fmap_2 weight).
Qed.
Lemma distinct_length l : (length (distinct l) ≤ length l)%nat.
Proof.
  induction l as [|x l IH]; simpl; [lia|].
  pose proof (length_filter (λ y, ceq x y = false) (distinct l)). lia.
Qed.
(** Rows counted group by group. *)
Lemma groups_count {A} (key : A → string) X (rows : list A) :
  NoDup (weight <$> X) →
  sum_list_with (λ x, length (filter (λ r, ceq x (key r) = true) rows)) X =
  length (filter (λ r, existsb (λ x, ceq x (key r)) X = true) rows).
Proof.
  induction X as [|x X IH]; intros Hn; simpl.
  - induction rows as [|r rows IHr]; [done|]. by rewrite filter_cons_False.
  - inversion_clear Hn as [|?? Hx HX]. rewrite IH by done. clear IH.
    induction rows as [|r rows IHr]; [done|]. rewrite !filter_cons.
    destruct (ceq x (key r)) eqn:E; cbn [orb].
    + assert (existsb (λ x, ceq x (key r)) X = false) as HE.
      { apply not_true_iff_false. intros (y & Hy & Hc)%existsb_exists. apply list_elem_of_In in Hy.
        unfold ceq in E, Hc. apply bool_decide_eq_true in E, Hc. apply Hx. rewrite E, <-Hc. by apply (list_elem_of_fmap_2 weight). }
      rewrite HE. rewrite !decide_True, decide_False by done. simpl. lia.
    + rewrite decide_False by done. destruct (existsb _ X); [rewrite !decide_True by done|rewrite !decide_False by done]; simpl; lia.
Qed.
Lemma usage_groups (key : LogRow → string) rows :
  sum_list_with (λ x, length (filter (λ r, ceq x (key r) = true) rows)) (distinct (key <$> rows)) = length rows.
Proof.
  rewrite groups_count by apply distinct_NoDup. f_equal. apply filter_all, Forall_forall. intros r Hr.
  destruct (distinct_covers (key <$> rows) (key r)) as (y & Hy & Hw); [by apply list_elem_of_fmap_2|].
  apply existsb_exists. exists y. split; [by apply list_elem_of_In|]. by apply bool_decide_eq_true.
Qed.
(** The totals of the report. *)
Definition queries_of (l : list TenantUsage) : Z := foldr (λ u n, tu_Queries u + n) 0 l.
Lemma usage_fold l u :
  Forall (λ t, 0 ≤ tu_Queries t) l → 0 ≤ us_free_queries u → 0 ≤ us_vip_queries u →
  us_free_queries u + us_vip_queries u + queries_of l < 2 ^ 63 →
  us_free_queries (foldl usage_step u l) + us_vip_queries (foldl usage_step u l) =
  us_free_queries u + us_vip_queries u + queries_of l.
Proof.
  revert u. induction l as [|t l IH]; intros u Hl Hf Hv Hb; simpl; [lia|]. inversion_clear Hl as [|?? Ht Hl'].
  assert (0 ≤ queries_of l) as Hq by (clear -Hl'; induction Hl'; simpl; lia). simpl in Hb.
  unfold usage_step at 2 4. destruct (tu_VIP t); rewrite IH; cbn [us_free_queries us_vip_queries]; rewrite ?i64_small by lia; try done; lia.
Qed.
End search.

(** ** Properties *)

(** The database answers the statements on the log by its tables, and a
    time in the layout of the search denotes its whole second. *)
Class LogTable `{Collation} `{SqlTime} `{Clock} `{LogDB} (T : list LogRow) (ts : list TenantRow) : Prop := {
  count_table : ∀ q, select_count q = eval_count q T;
  logs_table : ∀ q, select_logs q = eval_page q T;
  usage_table : ∀ q, select_usage q = eval_usage q T ts;
}.
Class SqlTimeLaws `{SqlTime} `{Clock} : Prop := {
  datetime_sec : ∀ t, datetime (Format_sec t) = t / second * second;
  Format_sec_ne : ∀ t, Format_sec t ≠ ""%string;
}.

Lemma bind_ret {S R A B} (a : A) (k : A → api S R B) st : (lift (mret a) ≫= k) st = k a st.
Proof. by destruct st. Qed.
Lemma bind_now {S R B} (k : Time → api S R B) st : (lift time_Now ≫= k) st = k (w_now (a_world st)) st.
Proof. by destruct st. Qed.

(** C31: the log search of a tenant user: whatever the request asks for,
    the answer is the page of the newest rows that match it, at most 500,
    each of them a row of the user's own tenant in the queried interval,
    and the total is the number of all matching rows up to the cap. *)
Theorem log_search_confined {S R} `{UnicodeCase} `{Cache S} `{Redis R} `{RedisSets R} `{RedisCount R} `{Collation} `{Clock} `{Lib} `{LogDB}
    `{SqlTime} `{!SqlTimeLaws} T ts `{!LogTable T ts} cfg rq c (st : ApiState S R) :
  rq_claims rq = Some c → c_Role c = RoleTenant → c_TID c ≠ "" →
  let now := w_now (a_world st) in
  let '(ft, til) := log_window cfg now (query_get rq "from") (query_get rq "to") in
  let f := {| f_tenantID := c_TID c; f_qname := query_get rq "qname"; f_qtype := query_get rq "qtype";
              f_from := Format_sec ft; f_to := Format_sec til |} in
  let found := filter (λ r, asked f r = true) T in
  ∃ page, queryLogs cfg rq st =
      (Ok {| rs_code := StatusOK;
             rs_body := BLogs (Z.min (count_limit (LogQueryCountCap cfg)) (Z.of_nat (length found))) (scan_log <$> page) |}, st) ∧
    page = take (Z.to_nat (page_limit (Atoi_value (query_get rq "limit"))))
             (drop (Z.to_nat (log_offset cfg (query_get rq "offset"))) (order_by newest found)) ∧
    (length page ≤ 500)%nat ∧ Sorted (λ a b, newest a b = true) (order_by newest found) ∧
    ∀ r, r ∈ page → r ∈ T ∧ ceq_null (lr_tenant_id r) (c_TID c) = true ∧ ft / second * second ≤ lr_ts r ≤ til / second * second.
Proof.
  intros Hc Hrole Htid now. destruct (log_window cfg now _ _) as [ft til] eqn:Hw. set (f := Build_LogFilter _ _ _ _ _). cbv zeta.
  assert (0 ≤ log_offset cfg (query_get rq "offset")) as Ho.
  { unfold log_offset. case_match eqn:E; [apply andb_prop in E as [E _]; apply Z.ltb_lt in E|]; lia. }
  pose proof (eval_search f (Atoi_value (query_get rq "limit")) _ (LogQueryCountCap cfg) T Ho) as He.
  destruct (QueryLogs_sql f _ _ _) as [count page] eqn:Hq. destruct He as [Hcount Hpage].
  eexists. split; [|split; [reflexivity|]].
  - unfold queryLogs, claims_or_panic, claimsFrom, log_tenant. rewrite Hc, bind_ret, Hrole.
    change ((RoleTenant =? RoleTenant)%string) with true. cbv iota. rewrite (proj2 (String.eqb_neq _ _) Htid), bind_now.
    unfold windowBounds. fold now. rewrite Hw. fold f. rewrite Hq, count_table, Hcount, logs_table, Hpage. by destruct st.
  - split_and!.
    + rewrite length_take. unfold page_limit. case_match eqn:E; [lia|]. apply orb_false_iff in E as [_ E%Z.ltb_ge]. lia.
    + apply order_by_Sorted, newest_total.
    + intros r Hr. apply (subseteq_take _ _ _), (subseteq_drop _ _ _), order_by_elem, list_elem_of_filter in Hr as [Ha Hr].
      unfold asked, f in Ha. cbn [f_tenantID f_from f_to] in Ha. rewrite !datetime_sec in Ha.
      rewrite (proj2 (String.eqb_neq _ _) Htid), !(proj2 (String.eqb_neq _ _) (Format_sec_ne _)) in Ha. cbn [orb] in Ha.
      rewrite !andb_true_iff, !Z.leb_le in Ha. naive_solver.
Qed.

(** The groups of the usage report. *)
Lemma queries_of_groups `{Collation} ts rows X :
  queries_of (usage_group ts rows <$> X) =
  Z.of_nat (sum_list_with (λ x, length (filter (λ r, ceq x (row_tenant r) = true) rows)) X).
Proof. induction X as [|x X IH]; [done|]. cbn [fmap list_fmap queries_of foldr sum_list_with]. fold (queries_of (usage_group ts rows <$> X)). rewrite IH. cbn [usage_group tu_Queries]. lia. Qed.
#[global] Instance queries_of_perm : Proper ((≡ₚ) ==> (=)) queries_of.
Proof. intros l l' Hp. induction Hp; simpl; lia. Qed.
Lemma usage_tenants l u : us_tenants (foldl usage_step u l) = us_tenants u ++ l.
Proof.
  revert u. induction l as [|t l IH]; intros u; simpl; [by rewrite app_nil_r|]. rewrite IH. unfold usage_step.
  destruct (tu_VIP t); cbn [us_tenants]; by rewrite <-app_assoc.
Qed.
(** The usage report counts every logged query of a tenant since
    the start of its window exactly once, as a query of a free or of a
    paying tenant, lists every such tenant once, and gives none more users
    than queries. *)
Theorem usage_accounts {S R} `{Collation} `{Clock} `{Lib} `{LogDB} `{SqlTime} T ts `{!LogTable T ts} rq (st : ApiState S R) :
  let since := w_now (a_world st) - usage_window (query_get rq "window") in
  let rows := usage_rows (Format_sec since) T in
  Z.of_nat (length rows) < 2 ^ 63 →
  ∃ u, statsUsage rq st = (Ok {| rs_code := StatusOK; rs_body := BUsage u |}, st) ∧
    us_free_queries u + us_vip_queries u = Z.of_nat (length rows) ∧
    tu_TenantID <$> us_tenants u ≡ₚ distinct (row_tenant <$> rows) ∧
    Forall (λ t, 0 < tu_Users t ≤ tu_Queries t) (us_tenants u).
Proof.
  intros since rows Hb. unfold statsUsage. rewrite bind_now. fold since. rewrite usage_table.
  unfold eval_usage, UsageByTenant_sql. cbn [fst snd]. rewrite String.eqb_refl. fold rows.
  set (groups := usage_group ts rows <$> distinct (row_tenant <$> rows)). set (listed := order_by _ groups).
  assert (listed ≡ₚ groups) as Hperm by apply order_by_perm.
  assert (queries_of listed = Z.of_nat (length rows)) as Hq.
  { rewrite Hperm. unfold groups. by rewrite queries_of_groups, usage_groups. }
  assert (Forall (λ t, 0 < tu_Users t ≤ tu_Queries t) listed) as Hall.
  { rewrite Hperm. apply Forall_fmap, Forall_forall. intros x Hx. cbn [compose usage_group tu_Users tu_Queries].
    apply distinct_elem in Hx. pose proof Hx as (r & -> & Hr)%list_elem_of_fmap.
    set (g := filter _ rows). assert (r ∈ g) as Hg by (apply list_elem_of_filter; split; [by apply bool_decide_eq_true|done]).
    pose proof (distinct_length (lr_client_ip <$> g)) as Hd. rewrite length_fmap in Hd.
    destruct g as [|r' g]; [by apply elem_of_nil in Hg|]. cbn [fmap list_fmap distinct length] in *. lia. }
  eexists. split; [by destruct st|]. unfold usage_of. cbv zeta. cbn [us_free_queries us_vip_queries us_tenants].
  rewrite usage_tenants. cbn [us_tenants app]. split_and!; [| |done].
  - rewrite usage_fold; cbn [us_free_queries us_vip_queries]; [lia| |lia|lia|rewrite Hq; lia].
    eapply Forall_impl; [exact Hall|]. cbn. lia.
  - rewrite Hperm. unfold groups. rewrite <-list_fmap_compose. by erewrite (list_fmap_ext _ id), list_fmap_id.
Qed.

(** The interval of a search with both ends given: in order it is cut to the
    configured maximum, in reverse it is swapped after the check, so that
    any length passes. *)
Theorem log_window_reversed `{Lib} cfg now from to a b :
  from ≠ "" → to ≠ "" → ParseInLocation (replace_byte from "T" " ") = Some a → ParseInLocation (replace_byte to "T" " ") = Some b →
  0 < LogQueryMaxWindow cfg →
  log_window cfg now from to =
  (if b <? a then (b, a) else (Z.max a (b - LogQueryMaxWindow cfg), b)).
Proof.
  intros Hf Ht Ha Hb Hm. unfold log_window. rewrite (proj2 (String.eqb_neq _ _) Hf), (proj2 (String.eqb_neq _ _) Ht), Ha, Hb.
  cbn [default from_option]. unfold id. rewrite (proj2 (Z.ltb_lt 0 _) Hm). cbn [andb].
  destruct (Z.ltb_spec (LogQueryMaxWindow cfg) (b - a)).
  - rewrite (proj2 (Z.ltb_ge b a)), (proj2 (Z.ltb_ge b (b - LogQueryMaxWindow cfg))) by lia. f_equal. lia.
  - destruct (Z.ltb_spec b a); [done|]. f_equal. lia.
Qed.

(** What the writer stores is what a search returns, its times in
    milliseconds. *)
Definition in_ms (r : QueryLogRow) : QueryLogRow :=
  {| ql_TS := dt3 (ql_TS r); ql_TenantID := ql_TenantID r; ql_ClientIP := ql_ClientIP r; ql_ECS := ql_ECS r; ql_QName := ql_QName r;
     ql_QType := ql_QType r; ql_RCode := ql_RCode r; ql_CacheHit := ql_CacheHit r; ql_UpstreamGrp := ql_UpstreamGrp r;
     ql_Upstream := ql_Upstream r; ql_RTTMS := ql_RTTMS r; ql_DNSSECOK := ql_DNSSECOK r; ql_VIP := ql_VIP r; ql_Via := ql_Via r |}.
Theorem insert_scan table next rows :
  match insert table next rows with
  | Ok table' => ∃ new, table' = table ++ new ∧ scan_log <$> new = in_ms <$> rows
  | Err _ => Exists (λ r, fits (log_row 0 r) = false) rows
  | Panic => False
  end.
Proof.
  unfold insert. assert (match insert_rows next rows with
    | Ok new => scan_log <$> new = in_ms <$> rows | Err _ => Exists (λ r, fits (log_row 0 r) = false) rows | Panic => False end) as Hr.
  { revert next. induction rows as [|r rows IH]; intros next; [done|]. cbn [insert_rows].
    destruct (fits (log_row next r)) eqn:Hf; [|by apply Exists_cons_hd]. specialize (IH (next + 1)).
    destruct (insert_rows (next + 1) rows); [|by apply Exists_cons_tl|done]. cbn. rewrite IH. f_equal.
    unfold scan_log, log_row, in_ms. cbn. by rewrite !nullStr_str. }
  destruct (insert_rows next rows); [eauto|done|done].
Qed.
(** One name of more than 255 bytes keeps its whole batch out of the log. *)
Theorem long_name_drops_batch table next before r after :
  255 < Z.of_nat (len (ql_QName r)) → ∃ e, insert table next (before ++ r :: after) = Err e.
Proof.
  intros Hl. unfold insert. assert (∀ n, ∃ e, insert_rows n (before ++ r :: after) = Err e) as Hr; [|by destruct (Hr next) as [e ->]; eauto].
  induction before as [|b before IH]; intros n; cbn [app insert_rows].
  - assert (fits (log_row n r) = false) as ->; [|eauto]. unfold fits. cbn [log_row lr_qname].
    rewrite (proj2 (Z.leb_gt _ _) Hl), !andb_false_r. done.
  - destruct (fits _); [|eauto]. destruct (IH (n + 1)) as [e ->]. eauto.
Qed.

(** ** Demonstration *)

(** Times as texts: the seconds in binary, lowest digit first, after a sign. *)
Fixpoint enc_pos (p : positive) : string :=
  match p with xH => "1" | xO p => String "0" (enc_pos p) | xI p => String "i" (enc_pos p) end.
Fixpoint dec_pos (s : string) : positive :=
  match s with
  | String "0" s => xO (dec_pos s)
  | String "i" s => xI (dec_pos s)
  | _ => xH
  end.
Lemma dec_enc_pos p : dec_pos (enc_pos p) = p.
Proof. induction p as [p IH|p IH|]; simpl; by rewrite ?IH. Qed.
Definition enc_sec (t : Time) : string :=
  match t / second with Z0 => "=" | Zpos p => String "+" (enc_pos p) | Zneg p => String "-" (enc_pos p) end.
Definition demo_sql_time : SqlTime := {|
  datetime s := match s with String "+" s => Zpos (dec_pos s) | String "-" s => Zneg (dec_pos s) | _ => 0 end * second |}.
Definition demo_sec_clock : Clock := {| Format_micro := fmt_d; Format_sec := enc_sec; url_valid _ := true |}.
#[global] Instance demo_sql_time_laws : @SqlTimeLaws demo_sql_time demo_sec_clock.
Proof.
  split; intros t; simpl; unfold enc_sec.
  - by destruct (t / second) as [|p|p]; rewrite ?dec_enc_pos.
  - by destruct (t / second).
Qed.
Definition demo_log (tid name ip : string) (ts : Time) : QueryLogRow :=
  {| ql_TS := ts; ql_TenantID := tid; ql_ClientIP := ip; ql_ECS := ""; ql_QName := name; ql_QType := "A"; ql_RCode := "NOERROR";
     ql_CacheHit := false; ql_UpstreamGrp := ""; ql_Upstream := ""; ql_RTTMS := 3; ql_DNSSECOK := false; ql_VIP := false; ql_Via := "udp" |}.
Definition demo_log_table : list LogRow :=
  match insert [] 1 [demo_log "t1" "www.a_b.example." "10.0.0.1" (900 * second); demo_log "t2" "www.a_b.example." "10.0.0.2" (901 * second);
                     demo_log "t1" "axb.example." "10.0.0.1" (902 * second); demo_log "" "x." "10.0.0.3" (903 * second)] with
  | Ok t => t
  | _ => []
  end.
Definition demo_log_tenants : list TenantRow := [tenant_row "t1" demo_tenant 0 0].
Definition demo_log_db : LogDB := {|
  select_count q := @eval_count demo_collation demo_sql_time q demo_log_table;
  select_logs q := @eval_page demo_collation demo_sql_time q demo_log_table;
  select_usage q := @eval_usage demo_collation demo_sql_time demo_sec_clock q demo_log_table demo_log_tenants;
  DATE_FORMAT := fmt_d |}.
#[global] Instance demo_log_laws : @LogTable demo_collation demo_sql_time demo_sec_clock demo_log_db demo_log_table demo_log_tenants.
Proof. by split. Qed.
Definition demo_log_request : Request :=
  {| rq_method := "GET"; rq_path := "/api/v1/logs/query"; rq_id := ""; rq_query := [("qname", "a_b"); ("tenant_id", "t2")]%string;
     rq_Authorization := ""; rq_XRealIP := ""; rq_Origin := ""; rq_Bootstrap := ""; rq_RemoteAddr := "192.0.2.7:4711"; rq_body := "";
     rq_claims := Some (demo_session (demo_account "u2" "bob" "tenant" (Some "t1"))) |}.
Definition demo_search (rq : Request) : outcome Resp * ApiState MemoryCache.t DemoRedis :=
  @queryLogs _ _ demo_sec_clock demo_stdlib demo_log_db demo_config rq demo_api_state.
(** The search of tenant t1's user for "a_b" finds the row of t1 with that
    text, not the one where "_" would match any letter, nor t2's. *)
Lemma log_search_confined_witness :
  demo_search demo_log_request =
  (Ok {| rs_code := 200; rs_body := BLogs 1 [demo_log "t1" "www.a_b.example." "10.0.0.1" (900 * second)] |}, demo_api_state).
Proof.
  edestruct (@log_search_confined MemoryCache.t DemoRedis ascii_case _ _ _ _ demo_collation demo_sec_clock demo_stdlib demo_log_db
    demo_sql_time demo_sql_time_laws demo_log_table demo_log_tenants demo_log_laws demo_config demo_log_request
    (demo_session (demo_account "u2" "bob" "tenant" (Some "t1"))) demo_api_state)
    as (page & Hq & Hp & _); [reflexivity|reflexivity|vm_compute; discriminate|].
  unfold demo_search. rewrite Hq, Hp. vm_compute. reflexivity.
Defined.
Lemma usage_accounts_witness :
  ∃ u, @statsUsage MemoryCache.t DemoRedis demo_sec_clock demo_stdlib demo_log_db demo_log_request demo_api_state =
       (Ok {| rs_code := 200; rs_body := BUsage u |}, demo_api_state) ∧
    us_free_queries u + us_vip_queries u = 3 ∧ tu_TenantID <$> us_tenants u ≡ₚ ["t1"; "t2"]%string.
Proof.
  destruct (@usage_accounts MemoryCache.t DemoRedis demo_collation demo_sec_clock demo_stdlib demo_log_db demo_sql_time
    demo_log_table demo_log_tenants demo_log_laws demo_log_request demo_api_state) as (u & Hu & Hq & Ht & _); [vm_compute; reflexivity|].
  exists u. split; [exact Hu|]. split; [rewrite Hq|rewrite Ht]; vm_compute; reflexivity.
Defined.
