(* ===== verification/Guarantees.v ===== *)
(** * What requests do to the database

    Guarantees about whole requests to the management API: the database
    stays well formed, tenants are confined to their own records, only the
    bootstrap creates a super-administrator, and a configuration change
    reaches the DNS core with the answer to the request. *)

From S2P Require Import Prelude GoStrings GoNet Config Model DnsMsg Ecs Split StoreCache AnswerCache Dnssec RateLimit Metrics Upstream Dualstack Warmup Handler QueryLog Db World Repos Http Auth Admin Ops Routes.

(** ** Actions that keep a property of the database *)

Section keeps_more.
Context {R : Type} `{UnicodeCase} `{Redis R} `{RedisSets R} `{RedisCount R} `{RedisSession R}
  `{Collation} `{UUID} `{Bcrypt} `{TenantJSON} `{JWT} `{Clock} `{AdminJSON} `{RandRead} (cfg : Config) (P : DB → Prop).
Abbreviation I := (λ w : World R, P (w_db w)).

(** An action that leaves the database alone. *)
Lemma keeps_same {A} (m : act R A) : (∀ w, w_db (m w).2 = w_db w) → keeps I m.
Proof. intros Hm w Hw. by rewrite Hm. Qed.
Lemma keeps_panic {A} : keeps I (panic (A := A)).
Proof. by intros w Hw. Qed.
Lemma keeps_hash_db pw : keeps I (HashPassword pw).
Proof. apply keeps_same. intros w. by destruct w. Qed.
Lemma write_audit_db a (w : World R) : w_db (write_audit a w).2 = w_db w.
Proof.
  unfold write_audit. pose proof (w_db_next_fault w) as E1. destruct (next_fault w) as [f1 w1].
  pose proof (w_db_next_fault w1) as E2. destruct (next_fault w1) as [f2 w2].
  pose proof (w_db_next_fault w2) as E3. destruct (next_fault w2) as [f3 w3].
  pose proof (w_db_next_fault w3) as E4. destruct (next_fault w3) as [f4 w4]. simpl in *.
  destruct (WriteAudit _ _ _ _ _ _) as [t [e|]]; simpl; destruct w4; simpl in *; congruence.
Qed.
Lemma keeps_write_audit a : keeps I (write_audit a).
Proof. apply keeps_same, write_audit_db. Qed.
Lemma put_limiter_db l (w : World R) : w_db (put_limiter l w) = w_db w.
Proof. unfold put_limiter. destruct (l_rdb l), w; done. Qed.
Lemma keeps_allow_login ip : keeps I (allow_login cfg ip).
Proof.
  apply keeps_same. intros w. unfold allow_login. destruct (AllowLogin _ _ _ _ _) as [[l b]| |]; [|done..].
  apply put_limiter_db.
Qed.
Lemma keeps_reset_login ip : keeps I (reset_login cfg ip).
Proof. apply keeps_same. intros w. apply put_limiter_db. Qed.
Lemma keeps_post_alert url text : keeps I (post_alert url text).
Proof. apply keeps_same. intros w. by destruct w. Qed.
Lemma keeps_lambda {A} (f : World R → outcome A * World R) : (∀ w, w_db (f w).2 = w_db w) → keeps I f.
Proof. apply keeps_same. Qed.
End keeps_more.

(** Steps through an action; [stmt] proves that a statement keeps the
    property. *)
Ltac keeps_step stmt :=
  lazymatch goal with
  | |- keeps _ (mret _) => apply keeps_ret
  | |- keeps _ (fail _) => apply keeps_fail
  | |- keeps _ panic => apply keeps_panic
  | |- keeps _ time_Now => apply keeps_time
  | |- keeps _ (redis_read _) => apply keeps_redis_read
  | |- keeps _ (HashPassword _) => apply keeps_hash_db
  | |- keeps _ uuid_NewString => apply keeps_uuid
  | |- keeps _ (query _) => apply keeps_query
  | |- keeps _ (query_audit _) => apply keeps_query_audit
  | |- keeps _ (redis _) => apply keeps_redis
  | |- keeps _ (write_audit _) => apply keeps_write_audit
  | |- keeps _ (allow_login _ _) => apply keeps_allow_login
  | |- keeps _ (reset_login _ _) => apply keeps_reset_login
  | |- keeps _ (post_alert _ _) => apply keeps_post_alert
  | |- keeps _ (mbind _ _) => apply keeps_bind; [|intros ?]
  | |- keeps _ (try_ _) => apply keeps_try
  | |- keeps _ (ignore _) => apply keeps_ignore
  | |- keeps _ (exec _) => stmt
  | |- keeps _ (match _ with _ => _ end) => case_match
  | |- keeps _ (λ w, (_, set_fresh _ _)) => apply keeps_lambda; intros []; reflexivity
  end.
Ltac unfold_actions :=
  unfold login, Auth.refresh, logout, changePassword, me, listTenants, getTenant, createTenant, updateTenant, deleteTenant,
    customizeDot, tenantEndpoints, bootstrapAdmin, listUsers, createUser, updateUser, setPassword, deleteUser, secLockUser,
    secUnlockUser, secRevokeSessions, secOverview;
  unfold store_dot, bound_tenant; unfold auditActor; unfold auditAction, audit;
  unfold or_500, or_fail, or_else, readJSON, deleted, sec_done, claims_or_panic, bumpConfig, parse, issuePair,
    issueRestrictedPair, sendSecurityAlert;
  unfold exists_key, signed, as_error, writeErr, writeJSON, DeleteTenant, TenantByPrefix, CreateUser, CreateTenant;
  unfold GetUserByUsername, GetUserByID, SetPassword, CheckPasswordHistory, RevokeAllSessions, UpdateUser, DeleteUser,
    RecordLoginFailure, RecordLoginSuccess, ListUsers, LockUser, UnlockUser, CountLockedUsers, CountMustChangePwd,
    RecentLoginFailures, cache_tenant, GetTenant, ListTenants, UpdateTenant, PurgeMetaCache, fresh_id, lift, lift_act; cbv zeta.
#[local] Ltac keeps_db stmt := unfold_actions; repeat keeps_step stmt.

(** ** Handlers that write *)

Section api_keeps.
Context {S R : Type} (P : DB → Prop).
Definition db_of (st : ApiState S R) : DB := w_db (a_world st).
Definition akeeps {A} (m : api S R A) : Prop := ∀ st, P (db_of st) → P (db_of (m st).2).
Lemma akeeps_ret {A} (a : A) : akeeps (mret a).
Proof. by intros st Hst. Qed.
Lemma akeeps_bind {A B} (m : api S R A) (f : A → api S R B) : akeeps m → (∀ a, akeeps (f a)) → akeeps (m ≫= f).
Proof.
  intros Hm Hf st Hst. unfold mbind, api_bind. specialize (Hm st Hst). destruct (m st) as [[a|e|] st']; simpl in *; try done. by apply Hf.
Qed.
Lemma akeeps_try {A} (m : api S R A) : akeeps m → akeeps (api_try m).
Proof. intros Hm st Hst. specialize (Hm st Hst). unfold api_try. by destruct (m st) as [[a|e|] st']. Qed.
Lemma akeeps_lift {A} (m : act R A) : keeps (λ w, P (w_db w)) m → akeeps (lift m).
Proof. intros Hm st Hst. unfold lift, api_lift. specialize (Hm (a_world st) Hst). by destruct (m (a_world st)). Qed.
Lemma akeeps_core_do {A} (f : Core S R → Time → outcome (Core S R * A)) : akeeps (core_do f).
Proof.
  intros st Hst. unfold core_do. destruct (f _ _) as [[c a]| |]; [|done..]. unfold db_of in *. simpl. by rewrite w_db_set_rdb.
Qed.
Lemma akeeps_core_get {A} (f : Core S R → A) : akeeps (core_get f).
Proof. by intros st Hst. Qed.
Lemma akeeps_register j : akeeps (register_job j).
Proof. by intros st Hst. Qed.
End api_keeps.
Ltac unfold_ops :=
  unfold listGroups, createGroup, updateGroup, deleteGroup, createUpstream, updateUpstream, deleteUpstream, listRules, createRule,
    updateRule, deleteRule, reload, listHotDomains, createHotDomain, deleteHotDomain, warmTenant, cacheWarm, cachePurge,
    simulate, queryLogs, queryAudit, verifyAuditChain, tenantStats, statsOverview, statsUpstreams, statsUsage, healthz, readyz, systemInfo;
  unfold warm_and_reply, simulate_query, afterConfigChange, afterConfigChangeSnap; unfold config_changed, start_warm;
  unfold core_ReloadAll, or_500, or_fail, or_else, readJSON, ok_deleted, QueryAudit; unfold reply, reply_err; cbv zeta.
#[local] Ltac akeeps_step stmt :=
  lazymatch goal with
  | |- akeeps _ (mret _) => apply akeeps_ret
  | |- akeeps _ (mbind _ _) => apply akeeps_bind; [|intros ?]
  | |- akeeps _ (api_try _) => apply akeeps_try
  | |- akeeps _ (core_do _) => apply akeeps_core_do
  | |- akeeps _ (core_get _) => apply akeeps_core_get
  | |- akeeps _ (register_job _) => apply akeeps_register
  | |- akeeps _ (match _ with _ => _ end) => case_match
  | |- akeeps _ (lift _) => apply akeeps_lift;
      unfold CreateGroup, UpdateGroup, DeleteGroup, CreateUpstream, UpdateUpstream, DeleteUpstream, CreateRule, UpdateRule,
        DeleteRule, CreateHotDomain, DeleteHotDomain, ListGroups, ListRules, ListHotDomains, ListDualstackBindings, GetUpstream;
      unfold ListUpstreams; unfold_actions; repeat keeps_step stmt
  end.

Section integrity.
Context {R : Type} `{UnicodeCase} `{Redis R} `{RedisSets R} `{RedisCount R} `{RedisSession R}
  `{Collation} `{UUID} `{Bcrypt} `{TenantJSON} `{JWT} `{AuthJSON} `{Clock} `{AdminJSON} `{RandRead} (cfg : Config).
Abbreviation Wf := (λ w : World R, wf_db (w_db w)).
#[local] Ltac wf_stmt := apply keeps_stmt; eauto with tables.

Definition changes_accounts (h : HandlerFunc R) : Prop :=
  h = createTenant cfg ∨ h = updateTenant cfg ∨ h = deleteTenant cfg ∨ h = customizeDot cfg ∨ h = bootstrapAdmin cfg ∨
  h = createUser cfg ∨ h = updateUser cfg ∨ h = setPassword cfg ∨ h = deleteUser cfg ∨ h = secLockUser cfg ∨
  h = secUnlockUser cfg ∨ h = login cfg ∨ h = changePassword cfg.
Lemma admin_wf h rq : changes_accounts h → keeps Wf (h rq).
Proof. intros Hh. repeat (destruct Hh as [->|Hh]; [keeps_db wf_stmt|]). subst h. keeps_db wf_stmt. Qed.
End integrity.

(** The endpoints whose handler writes to the database. *)
Definition writes (e : Endpoint) : bool :=
  match e with
  | ELogin | EBootstrap | EChangePassword | ECreateTenant | EUpdateTenant | EDeleteTenant | ECustomizeDot
  | ECreateUser | EUpdateUser | ESetPassword | EDeleteUser | ELockUser | EUnlockUser
  | ECreateGroup | EUpdateGroup | EDeleteGroup | ECreateUpstream | EUpdateUpstream | EDeleteUpstream
  | ECreateRule | EUpdateRule | EDeleteRule | ECreateHot | EDeleteHot => true
  | _ => false
  end.

Section api_integrity.
Context {S R : Type} `{UnicodeCase} `{Cache S} `{CachePing S} `{Redis R} `{RedisSets R} `{RedisCount R} `{RedisSession R}
  `{RedisMore R} `{Collation} `{UUID} `{Bcrypt} `{TenantJSON} `{Clock} `{JWT} `{AuthJSON} `{AdminJSON} `{OpsJSON} `{RandRead}
  `{Lib} `{LogDB} `{DnsLib} `{Network} `{Rand} `{MapAPI} (cfg : Config).

(** The other handlers leave the database alone. *)
Lemma reads_keep (P : DB → Prop) e rq : writes e = false → akeeps (S := S) (R := R) P (handler_of cfg e rq).
Proof.
  destruct e; intros He; try discriminate He; unfold handler_of, local; unfold_ops; repeat akeeps_step idtac;
    intros st Hst; unfold cacheStats, warmJobs; repeat case_match; exact Hst.
Qed.
#[local] Ltac wf_stmt := apply keeps_stmt; eauto with tables.
Lemma handler_wf e rq : akeeps (S := S) (R := R) wf_db (handler_of cfg e rq).
Proof.
  destruct (writes e) eqn:He; [|by apply reads_keep].
  destruct e; try discriminate He; unfold handler_of, local;
    try (apply akeeps_lift, admin_wf; unfold changes_accounts; tauto); unfold_ops; repeat akeeps_step wf_stmt.
Qed.

(** The state after a request is that of its handler, run with the session
    of the request unless the route is public; or nothing happened. *)
Definition runs (r : Route) (id : string) (rq : Request) (st : ApiState S R) (rq' : Request) : Prop :=
  (rt_mws r = [] ∧ rq' = with_id rq id) ∨
  (∃ c, valid_session cfg (a_world st) rq c ∧ forallb (permits c id) (rt_mws r) = true ∧ rq' = with_claims (with_id rq id) c).
Lemma serve_cases rq (st : ApiState S R) :
  (serve cfg rq st).2 = st ∨
  ∃ r id rq', find_route routes (rq_method rq) (rq_path rq) = Some (r, id) ∧ runs r id rq st rq' ∧
    (serve cfg rq st).2 = (handler_of cfg (rt_endpoint r) rq' st).2.
Proof.
  unfold serve, middleware. destruct (rq_method rq =? "OPTIONS")%string; [by left|].
  assert (∀ o : outcome Resp * ApiState S R, (match o with (Ok r, w) => (Ok (security_headers ++ cors_headers cfg (rq_Origin rq), r), w)
    | (_, w) => (Ok (security_headers ++ cors_headers cfg (rq_Origin rq), {| rs_code := 500; rs_body := BErr "internal error" |}), w) end).2 = o.2) as Ho
    by (by intros [[| |] ?]).
  cbv zeta. rewrite Ho. clear Ho. unfold ServeHTTP.
  assert (∀ code, (mux_reply (S := S) (R := R) code st).2 = st) as Hm by (intros; destruct st; done).
  destruct (_ && _); [left; apply Hm|]. destruct (find_route _ _ _) as [[r id]|] eqn:Hf; [|left; case_match; apply Hm].
  destruct (decide (rt_mws r = [])) as [He|Hne].
  { right. exists r, id, (with_id rq id). split; [done|]. split; [by left|]. unfold route_handler. by rewrite He. }
  pose proof Hf as (Hr & _)%find_route_Some.
  pose proof (route_run cfg r (with_id rq id) st Hr Hne) as Hrun. change (rq_id (with_id rq id)) with id in Hrun.
  destruct (session cfg (a_world st) (with_id rq id)) as [c|] eqn:Hs.
  - destruct (forallb (permits c id) (rt_mws r)) eqn:Hp; [|destruct Hrun as [msg ->]; by left].
    right. exists r, id, (with_claims (with_id rq id) c). split; [done|]. split; [|by rewrite Hrun]. right. exists c.
    split; [|done]. apply session_valid in Hs. by destruct Hs; split.
  - destruct Hrun as (code & msg & -> & _). by left.
Qed.
End api_integrity.

(** ** Tenants and their users are confined *)

(** What the operator sells: everything of a tenant except its prefix and
    its protocol switches. *)
Definition plan (t : Tenant) :=
  (t_Name t, t_BaseDomain t, t_Enabled t, t_VIP t, t_RateLimitQPS t, t_CacheMaxTTL t, t_DefaultECS t, t_AllowECS t, t_UpstreamGroup t).
Definition tenant_kept `{Collation} (tid : string) (r r' : TenantRow) : Prop :=
  tr_id r' = tr_id r ∧ plan (scanTenant r') = plan (scanTenant r) ∧ (weight (tr_id r) ≠ weight tid → r' = r).
Definition user_kept `{Collation} (uid : string) (r r' : UserRow) : Prop :=
  ur_id r' = ur_id r ∧ ur_username r' = ur_username r ∧ ur_role r' = ur_role r ∧ ur_tenant_id r' = ur_tenant_id r ∧
  (weight (ur_id r) ≠ weight uid → r' = r).
Definition others_history `{Collation} (uid : string) (d : DB) : list HistRow :=
  filter (λ h, weight (ph_user_id h) ≠ weight uid) (password_history d).
(** From [d] to [d'] the only changes are to the prefix and the protocol
    switches of tenant [tid] and to the password and lock of user [uid]. *)
Record confined `{Collation} (tid uid : string) (d d' : DB) : Prop := {
  cf_tenants : Forall2 (tenant_kept tid) (tenants d) (tenants d');
  cf_users : Forall2 (user_kept uid) (users d) (users d');
  cf_history : others_history uid d' = others_history uid d;
  cf_domains : tenant_domains d' = tenant_domains d;
  cf_groups : upstream_groups d' = upstream_groups d;
  cf_upstreams : upstreams d' = upstreams d;
  cf_rules : split_rules d' = split_rules d;
  cf_hots : hot_domains d' = hot_domains d;
  cf_bindings : dualstack_bindings d' = dualstack_bindings d
}.

Section confinement.
Context {R : Type} `{UnicodeCase} `{Redis R} `{RedisSets R} `{RedisCount R} `{RedisSession R}
  `{Collation} `{UUID} `{Bcrypt} `{TenantJSON} `{JWT} `{AuthJSON} `{Clock} `{AdminJSON} `{RandRead} (cfg : Config).
Context (tid uid : string) (d0 : DB) (ids : NoDup (keys tr_id (tenants d0))).
Abbreviation Cf := (confined tid uid d0).
Abbreviation I := (λ w : World R, Cf (w_db w)).

Lemma confined_refl d : confined tid uid d d.
Proof. split; try done; apply Forall_Forall2_diag, Forall_forall; by intros. Qed.
Lemma keeps_bind_post {A B} (J : World R → Prop) (m : act R A) (f : A → act R B) (Q : A → Prop) :
  keeps J m → (∀ w a w', J w → m w = (Ok a, w') → Q a) → (∀ a, Q a → keeps J (f a)) → keeps J (m ≫= f).
Proof.
  intros Hm Hq Hf w Hw. apply keeps_from; [by apply Hm|]. intros a w' Ha. apply Hf; [by eapply Hq|].
  specialize (Hm w Hw). by rewrite Ha in Hm.
Qed.
(** A tenant read from the table, possibly with new switches or prefix. *)
Definition own (t : Tenant) : Prop :=
  ∃ r0, r0 ∈ tenants d0 ∧ weight (tr_id r0) = weight tid ∧ t_ID t = tr_id r0 ∧ plan t = plan (scanTenant r0).
Lemma query_post {A} (f : DB → A) (w w' : World R) o : try_ (query f) w = (Ok o, w') → ∀ a, o = Ok a → a = f (w_db w).
Proof.
  unfold try_. destruct (query f w) as [[a|e|] w1] eqn:Hq; intros [= <- <-] a' [= <-].
  by apply query_Ok in Hq as (fl & -> & _).
Qed.
Lemma GetTenant_own id (w : World R) o w' :
  weight id = weight tid → Cf (w_db w) → try_ (GetTenant id) w = (Ok o, w') → ∀ t, o = Ok (Some t) → own t.
Proof.
  intros Hid Hc. unfold try_, GetTenant, mbind, act_bind. destruct (query _ w) as [[row|e|] w1] eqn:Hq; intros [= <- <-] t [= Ht].
  apply query_Ok in Hq as (fl & -> & _). apply fmap_Some in Ht as (r & Hr & ->).
  apply first_match_Some in Hr as (l1 & l2 & Hl & Hw & _). unfold ceq in Hw. apply bool_decide_eq_true in Hw.
  destruct Hc as [Ht _ _ _ _ _ _ _ _]. apply Forall2_flip in Ht.
  eapply Forall2_lookup_l with (i := length l1) in Ht as (r0 & Hr0 & Hid0 & Hp & _); [|by rewrite Hl, list_lookup_middle].
  exists r0. split; [by eapply list_elem_of_lookup_2|]. split; [congruence|]. split; [done|]. exact Hp.
Qed.
Lemma Forall2_update {A} (Q : A → A → Prop) q u (l l' : list A) :
  Forall2 Q l l' → (∀ x y, x ∈ l → Q x y → q y = true → Q x (u y)) → Forall2 Q l (update_where q u l').
Proof.
  induction 1 as [|x y l l' Hxy Hl IH]; intros Hu; [constructor|]. constructor; [|apply IH; intros; apply Hu; [by right|done..]].
  destruct (q y) eqn:Hq; [|done]. apply Hu; [by left|done..].
Qed.
Lemma UpdateTenant_confined t : own t → keeps I (UpdateTenant t).
Proof.
  intros (r0 & Hr0 & Hw & Hid & Hp). unfold UpdateTenant. apply keeps_if; [apply keeps_fail|].
  apply keeps_bind; [apply keeps_time|]. intros now. apply keeps_bind; [|intros; apply keeps_redis].
  apply keeps_exec. intros d d' [Ht Hus Hh Hd Hg Hup Hru Hho Hb] Hup'. unfold update_tenant in Hup'.
  destruct (negb _); [by injection Hup' as <-|]. unfold Db.guarded in Hup'. destruct (existsb _ _); [done|]. injection Hup' as <-.
  destruct d as [us hi te do gr up ru ho bi]. simpl in *. split; simpl; try done.
  apply Forall2_update; [done|]. intros r r' Hr (Hi & Hpl & Hsame) Hq. apply bool_decide_eq_true in Hq.
  assert (weight (tr_id r) = weight (tr_id r0)) as Hwr by congruence.
  assert (r = r0) as -> by (by eapply (NoDup_keys_inj tr_id)).
  split; [simpl; congruence|]. split; [|intros ?; congruence].
  rewrite <-Hp. unfold plan, scanTenant. simpl. by rewrite !nullStr_str.
Qed.
(** An account read by the identifier [uid]. *)
Lemma GetUserByID_own id (w : World R) o w' :
  weight id = weight uid → try_ (GetUserByID id) w = (Ok o, w') → ∀ u, o = Ok (Some u) → weight (u_ID u) = weight uid.
Proof.
  intros Hid. unfold try_, GetUserByID, mbind, act_bind. destruct (query _ w) as [[row|e|] w1] eqn:Hq; intros [= <- <-] u [= Hu].
  apply query_Ok in Hq as (fl & -> & _). apply fmap_Some in Hu as (r & Hr & ->).
  apply first_match_Some in Hr as (l1 & l2 & _ & Hw & _). apply bool_decide_eq_true in Hw. simpl. congruence.
Qed.
Lemma update_users_confined id f :
  weight id = weight uid →
  (∀ r, ur_id (f r) = ur_id r ∧ ur_username (f r) = ur_username r ∧ ur_role (f r) = ur_role r ∧ ur_tenant_id (f r) = ur_tenant_id r) →
  keeps I (exec (update_users id f)).
Proof.
  intros Hid Hf. apply keeps_exec. intros d d' [Ht Hus Hh Hd Hg Hup Hru Hho Hb] [= <-].
  destruct d as [us hi te do gr up ru ho bi]. simpl in *. split; simpl; try done.
  apply Forall2_update; [done|]. intros r r' _ (Hi & Hn & Hr & Htn & Hsame) Hq. apply bool_decide_eq_true in Hq.
  destruct (Hf r') as (? & ? & ? & ?). split_and!; congruence.
Qed.
Lemma insert_history_confined h : weight (ph_user_id h) = weight uid → keeps I (exec (insert_history h)).
Proof.
  intros Hid. apply keeps_exec. intros d d' [Ht Hus Hh Hd Hg Hup Hru Hho Hb]. unfold insert_history, Db.guarded.
  destruct (has_id _ _ _); [|done]. intros [= <-]. destruct d as [us hi te do gr up ru ho bi]. simpl in *. split; simpl; try done.
  unfold others_history in *. simpl in *. rewrite <-Hh, filter_app, filter_cons_False, filter_nil, app_nil_r by (intros []; done). done.
Qed.
Lemma keeps_ret_bind {A B} (J : World R → Prop) (a : A) (f : A → act R B) : keeps J (f a) → keeps J (mret a ≫= f).
Proof. done. Qed.
Lemma edit_own t t' : own t → t_ID t' = t_ID t → plan t' = plan t → own t'.
Proof. intros (r0 & ? & ? & ? & ?) ? ?. exists r0. split_and!; congruence. Qed.
(** The statement of [UpdateTenant] is behind [or_500]. *)
Lemma or_500_confined t (k : act R Resp) : own t → keeps I k → keeps I (or_500 (UpdateTenant t) (λ _, k)).
Proof.
  intros Ht Hk. unfold or_500, lift, lift_act. apply keeps_bind; [by apply keeps_try, UpdateTenant_confined|]. intros o.
  apply keeps_match_outcome; [done|intros; apply keeps_ret|apply keeps_panic].
Qed.
Lemma changePassword_confined rq c : claimsFrom rq = Some c → weight (c_Subject c) = weight uid → keeps I (changePassword cfg rq).
Proof.
  intros Hc Hs. unfold changePassword. rewrite Hc. apply keeps_match_option; [intros in_|apply keeps_ret].
  eapply keeps_bind_post; [keeps_db idtac| |].
  { intros w o w' _ Ho. exact (GetUserByID_own _ _ _ _ Hs Ho). }
  intros [[u|]| |] Hu; cbv beta iota; try apply keeps_ret. specialize (Hu u eq_refl). cbv zeta.
  unfold SetPassword. keeps_db ltac:(first [by apply insert_history_confined|by apply update_users_confined]).
Qed.
Lemma updateTenant_confined rq c :
  claimsFrom rq = Some c → isPlatformAdmin (c_Role c) = false → weight (rq_id rq) = weight tid → keeps I (updateTenant cfg rq).
Proof.
  intros Hc Hr Hid. unfold updateTenant, or_else. eapply keeps_bind_post; [keeps_db idtac| |].
  { intros w o w' Hw Ho. exact (GetTenant_own _ _ _ _ Hid Hw Ho). }
  intros [[t|]| |] Ht; cbv beta iota; try apply keeps_ret. specialize (Ht t eq_refl).
  unfold readJSON. apply keeps_match_option; [intros in_|apply keeps_ret].
  unfold claims_or_panic. rewrite Hc. apply keeps_ret_bind. rewrite Hr. apply or_500_confined; [by eapply edit_own|]. keeps_db idtac.
Qed.
Lemma store_dot_confined rq t : own t → keeps I (store_dot cfg rq t).
Proof. intros Ht. unfold store_dot. apply or_500_confined; [done|]. keeps_db idtac. Qed.
Lemma customizeDot_confined rq : weight (rq_id rq) = weight tid → keeps I (customizeDot cfg rq).
Proof.
  intros Hid. unfold customizeDot, or_else. eapply keeps_bind_post; [keeps_db idtac| |].
  { intros w o w' Hw Ho. exact (GetTenant_own _ _ _ _ Hid Hw Ho). }
  intros [[t|]| |] Ht; cbv beta iota; try apply keeps_ret. specialize (Ht t eq_refl).
  unfold readJSON. apply keeps_match_option; [intros in_|apply keeps_ret]. cbv zeta.
  apply keeps_if; [apply store_dot_confined; by eapply edit_own|]. apply keeps_if; [apply keeps_ret|].
  unfold or_500, lift, lift_act. apply keeps_bind; [keeps_db idtac|]. intros o.
  apply keeps_match_outcome; [|intros; apply keeps_ret|apply keeps_panic]. intros ex.
  apply keeps_if; [apply keeps_ret|]. apply store_dot_confined. by eapply edit_own.
Qed.
End confinement.

(** The writing routes open to the role of a tenant. *)
Definition tenant_route (r : Route) : bool :=
  negb (writes (rt_endpoint r)) || bool_decide (rt_mws r = []) ||
  existsb (λ m, match m with MRole roles => negb (role_allowed roles RoleTenant) | _ => false end) (rt_mws r) ||
  bool_decide (rt_endpoint r = EChangePassword) ||
  (bool_decide (rt_endpoint r = EUpdateTenant ∨ rt_endpoint r = ECustomizeDot) && existsb (λ m, bool_decide (m = MScope)) (rt_mws r)).
Lemma tenant_routes r c id :
  r ∈ routes → rt_mws r ≠ [] → forallb (permits c id) (rt_mws r) = true → c_Role c = RoleTenant → writes (rt_endpoint r) = true →
  rt_endpoint r = EChangePassword ∨ (rt_endpoint r = EUpdateTenant ∨ rt_endpoint r = ECustomizeDot) ∧ c_TID c = id.
Proof.
  intros Hr Hne Hp Hrole Hw. assert (forallb tenant_route routes = true) as Ht by reflexivity.
  rewrite forallb_forall in Ht. specialize (Ht r (proj1 (list_elem_of_In _ _) Hr)). rewrite forallb_forall in Hp.
  unfold tenant_route in Ht. rewrite Hw, (bool_decide_eq_false_2 (rt_mws r = [])) in Ht by done. simpl in Ht.
  repeat (apply orb_true_iff in Ht as [Ht|Ht]).
  - apply existsb_exists in Ht as ([|roles|] & Hin & Hm); [done| |done]. specialize (Hp _ Hin). simpl in Hp. rewrite Hrole in Hp.
    by rewrite Hp in Hm.
  - left. by apply bool_decide_eq_true in Ht.
  - right. apply andb_true_iff in Ht as [He Hs]. split; [by apply bool_decide_eq_true in He|].
    apply existsb_exists in Hs as (m & Hin & ->%bool_decide_eq_true). specialize (Hp _ Hin). simpl in Hp. rewrite Hrole in Hp.
    by apply String.eqb_eq in Hp.
Qed.

(** ** Super-administrators *)

(** The collation tells the roles apart. *)
Class RoleWeights `{Collation} : Prop := {
  weight_role : ∀ a b, a ∈ role_values → b ∈ role_values → weight a = weight b → a = b;
}.

Section admins.
Context {S R : Type} `{UnicodeCase} `{Cache S} `{CachePing S} `{Redis R} `{RedisSets R} `{RedisCount R} `{RedisSession R}
  `{RedisMore R} `{Collation} `{UUID} `{Bcrypt} `{TenantJSON} `{Clock} `{JWT} `{AuthJSON} `{AdminJSON} `{OpsJSON} `{RandRead}
  `{Lib} `{LogDB} `{DnsLib} `{Network} `{Rand} `{MapAPI} `{!RoleWeights} (cfg : Config) (d0 : DB).

(** The account was a super-administrator in [d0]. *)
Definition was_admin (id : string) : Prop := ∃ r, r ∈ users d0 ∧ ur_role r = RoleAdmin ∧ weight (ur_id r) = weight id.
Definition old_admins (d : DB) : Prop := ∀ r, r ∈ users d → ur_role r = RoleAdmin → was_admin (ur_id r).
Abbreviation I := (λ w : World R, old_admins (w_db w)).

Lemma keeps_users f : (∀ d d', f d = Ok d' → users d' ⊆ users d) → keeps I (exec f).
Proof. intros Hf. apply keeps_exec. intros d d' Hd Hok r Hr. apply Hd. by eapply Hf. Qed.
Lemma users_set_others d :
  (∀ x, users (set_password_history x d) = users d) ∧ (∀ x, users (set_tenants x d) = users d) ∧
  (∀ x, users (set_tenant_domains x d) = users d) ∧ (∀ x, users (set_upstream_groups x d) = users d) ∧
  (∀ x, users (set_upstreams x d) = users d) ∧ (∀ x, users (set_split_rules x d) = users d) ∧
  (∀ x, users (set_hot_domains x d) = users d) ∧ (∀ x, users (set_users x d) = x).
Proof. by destruct d. Qed.
Lemma enum_role v role : v ∈ role_values → enum_value role_values v = Some role → role = v.
Proof.
  intros Hv. rewrite enum_value_self; [by intros [= <-]|done|]. intros x Hx Hw. by apply weight_role.
Qed.
Lemma keeps_insert_user u : ur_role u ∈ role_values → ur_role u ≠ RoleAdmin → keeps I (exec (insert_user u)).
Proof.
  intros Hv Hne. apply keeps_exec. intros d d' Hd. unfold insert_user, with_enum.
  destruct (enum_value _ _) as [role|] eqn:He; [|done]. apply enum_role in He as ->; [|done]. unfold Db.guarded.
  repeat case_match; try done. intros [= <-] r. destruct (users_set_others d) as (_ & _ & _ & _ & _ & _ & _ & ->).
  intros [Hr|Hr]%elem_of_app; [by apply Hd|]. apply list_elem_of_singleton in Hr as ->. simpl. done.
Qed.
Lemma keeps_update_users id f : (∀ r, ur_id (f r) = ur_id r ∧ ur_role (f r) = ur_role r) → keeps I (exec (update_users id f)).
Proof.
  intros Hf. apply keeps_exec. intros d d' Hd [= <-] r. destruct (users_set_others d) as (_ & _ & _ & _ & _ & _ & _ & ->).
  unfold update_where. intros (r0 & -> & Hr0)%list_elem_of_fmap. specialize (Hf r0). destruct (ceq _ _); [|by apply Hd].
  destruct Hf as [-> ->]. by apply Hd.
Qed.
(** A role written to an account is none of a super-administrator unless
    the account is one. *)
Lemma keeps_binding id tid role email :
  role ∈ role_values → (role = RoleAdmin → was_admin id) → keeps I (exec (update_user_binding id tid role email)).
Proof.
  intros Hv Hrole. apply keeps_exec. intros d d' Hd. unfold update_user_binding, with_enum.
  destruct (negb _); [by intros [= <-]|]. destruct (enum_value _ _) as [v|] eqn:He; [|done]. apply enum_role in He as ->; [|done].
  unfold Db.guarded. destruct (fk_ok _ _ _); [|done]. intros [= <-] r.
  destruct (users_set_others d) as (_ & _ & _ & _ & _ & _ & _ & ->). unfold update_where.
  intros (r0 & -> & Hr0)%list_elem_of_fmap. destruct (ceq (ur_id r0) id) eqn:Hq; [|by apply Hd]. simpl. intros Ha.
  destruct (Hrole Ha) as (a & Ha1 & Ha2 & Ha3). exists a. apply bool_decide_eq_true in Hq. split_and!; congruence.
Qed.
Lemma delete_where_subset {A} (p : A → bool) l : delete_where p l ⊆ l.
Proof. intros x Hx. by apply list_elem_of_filter in Hx as [_ Hx]. Qed.
Lemma keeps_assignable role : assignable role = true → role ∈ role_values ∧ role ≠ RoleAdmin.
Proof.
  unfold assignable. rewrite existsb_exists. intros (x & Hx & ->%String.eqb_eq).
  repeat (destruct Hx as [<-|Hx]; [split; [by apply list_elem_of_In; simpl; tauto|done]|]). done.
Qed.
Lemma new_role_plain role : new_role role ∈ role_values ∧ new_role role ≠ RoleAdmin.
Proof.
  unfold new_role. destruct (assignable role) eqn:Ha; [by apply keeps_assignable|].
  case_match; (split; [by apply list_elem_of_In; simpl; tauto|done]).
Qed.
#[local] Ltac other_tables :=
  apply keeps_users; intros [us hi te do gr up ru ho bi] d';
  unfold insert_history, insert_tenant, update_tenant, insert_group, update_group, insert_upstream, update_upstream, insert_rule,
    update_rule, insert_hot, delete_tenant, delete_groups, delete_users, with_enum, Db.guarded; cbv zeta; simpl;
  repeat case_match; intros ?; simplify_eq/=; rewrite ?delete_where_subset; done.
#[local] Ltac admins_stmt :=
  first [ apply keeps_update_users; intros r; by destruct r
        | apply keeps_insert_user; [apply new_role_plain|apply new_role_plain]
        | apply keeps_insert_user; [by apply list_elem_of_In; simpl; tauto|done]
        | other_tables ].
Lemma handler_admins e rq :
  e ≠ EBootstrap → e ≠ EUpdateUser → akeeps (S := S) (R := R) old_admins (handler_of cfg e rq).
Proof.
  intros Hb Hu. destruct (writes e) eqn:He; [|by apply reads_keep].
  destruct e; try done; unfold handler_of, local; unfold_ops; repeat akeeps_step admins_stmt.
Qed.
Lemma keeps_conj {A} (I1 I2 : World R → Prop) (m : act R A) : keeps I1 m → keeps I2 m → keeps (λ w, I1 w ∧ I2 w) m.
Proof. intros K1 K2 w [? ?]. auto. Qed.
#[local] Ltac wf_stmt := apply keeps_stmt; eauto with tables.
Lemma updateUser_admins rq : keeps (λ w : World R, old_admins (w_db w) ∧ wf_db (w_db w)) (updateUser cfg rq).
Proof.
  unfold updateUser, or_else.
  eapply (keeps_bind_post _ _ _ (λ o, ∀ u, o = Ok (Some u) → u_Role u ∈ role_values ∧ (u_Role u = RoleAdmin → was_admin (u_ID u)))).
  { apply keeps_conj; keeps_db idtac. }
  { intros w o w' [Ha Hw]. unfold lift, lift_act, try_, GetUserByID, mbind, act_bind.
    destruct (query _ w) as [[row|e|] w1] eqn:Hq; intros [= <- <-] u [= Hu]. apply query_Ok in Hq as (fl & -> & _).
    apply fmap_Some in Hu as (r & (l1 & l2 & Hl & _)%first_match_Some & ->).
    assert (r ∈ users (w_db w)) as Hr by (rewrite Hl; set_solver). split; [|by apply Ha].
    pose proof (wf_roles _ Hw) as Hroles. rewrite Forall_forall in Hroles. by apply Hroles. }
  intros [[u|]| |] Hu; cbv beta iota; try apply keeps_ret. destruct (Hu u eq_refl) as [Hv Hold].
  unfold readJSON. apply keeps_match_option; [intros in_|apply keeps_ret].
  destruct (edited_role (u_Role u) (uu_Role in_)) as [role|] eqn:He; [|apply keeps_ret].
  assert (role ∈ role_values ∧ (role = RoleAdmin → was_admin (u_ID u))) as [Hrv Hra].
  { unfold edited_role in He. destruct (_ =? "")%string; [by injection He as <-|].
    destruct (assignable _) eqn:Hs; [injection He as <-; apply keeps_assignable in Hs as [? ?]; done|].
    destruct (_ =? RoleAdmin)%string; [|done]. injection He as <-. split; [by apply list_elem_of_In; simpl; tauto|done]. }
  apply keeps_conj; [keeps_db ltac:(by apply keeps_binding)|keeps_db wf_stmt].
Qed.
(** The bootstrap does nothing while there is a super-administrator. *)
Definition unchanged (d : DB) : Prop := d = d0.
Lemma bootstrap_closed rq r : r ∈ users d0 → ur_role r = RoleAdmin → keeps (λ w : World R, unchanged (w_db w)) (bootstrapAdmin cfg rq).
Proof.
  intros Hr Ha. unfold bootstrapAdmin. apply keeps_if; [apply keeps_ret|]. apply keeps_if; [apply keeps_ret|]. unfold or_500.
  eapply (keeps_bind_post _ _ _ (λ o, ∀ us, o = Ok us → existsb (λ u, (u_Role u =? RoleAdmin)%string) us = true)).
  { keeps_db idtac. }
  { intros w o w' Hw Ho us Hus. eapply query_post in Ho as ->; [|done]. rewrite Hw. apply existsb_exists.
    exists (set_u_PasswordHash (scanUser r) ""). split; [|simpl; rewrite Ha; done].
    apply list_elem_of_In, list_elem_of_fmap. exists r. split; [done|]. by apply order_by_elem. }
  intros [us|e|] Hus; cbv beta iota; [|apply keeps_ret|apply keeps_panic]. rewrite (Hus us eq_refl). apply keeps_ret.
Qed.
End admins.

(** ** Configuration changes reach the core *)

(** What the repositories list. *)
Definition list_upstreams `{Collation} (d : DB) : list Upstream := scan_upstream <$> order_by upstream_le (upstreams d).
Definition list_groups `{Collation} (d : DB) : list UpstreamGroup :=
  (λ r, scan_group r (list_upstreams d)) <$> order_by (λ a b, cle (gr_name a) (gr_name b)) (upstream_groups d).
Definition list_tenants (d : DB) : list Tenant := scanTenants (order_by (λ a b, tr_created_at b <=? tr_created_at a) (tenants d)).
Definition list_bindings (d : DB) : list DualstackBinding := scan_binding <$> filter (λ r, br_enabled r = true) (dualstack_bindings d).

Section live.
Context {S R : Type} `{UnicodeCase} `{Cache S} `{CachePing S} `{Redis R} `{RedisSets R} `{RedisCount R} `{RedisSession R}
  `{RedisMore R} `{Collation} `{UUID} `{Bcrypt} `{TenantJSON} `{Clock} `{JWT} `{AuthJSON} `{AdminJSON} `{OpsJSON} `{RandRead}
  `{Lib} `{LogDB} `{DnsLib} `{Network} `{Rand} `{MapAPI} (cfg : Config).
Implicit Types st : ApiState S R.

(** The core works with the contents of the database; [c0] is the core
    before, whose health states and client connections it takes over. *)
Definition synced (c0 : Core S R) (st : ApiState S R) : Prop :=
  let d := db_of st in
  c_up (a_core st) = Upstream.Reload (c_up c0) (list_groups d) (list_upstreams d) (list_tenants d) ∧
  c_split (a_core st) = Split.Reload regexp_Compile (listed_rules d) ∧
  c_dualstack (a_core st) = Dualstack.Reload os_ReadFile (c_dualstack c0) (list_bindings d).
Definition calm (w : World R) : Prop := w_faults w = [].

Lemma core_ReloadAll_run st : calm (a_world st) → ∃ st', core_ReloadAll st = (Ok (), st') ∧ synced (a_core st) st'.
Proof.
  intros Hf. unfold core_ReloadAll.
  erewrite lift_read by (unfold ListGroups, mbind, act_bind; rewrite query_nil by done; unfold ListUpstreams; by rewrite query_nil).
  erewrite lift_read by (unfold ListUpstreams; by rewrite query_nil).
  erewrite lift_read by (unfold ListTenants; by rewrite query_nil).
  erewrite lift_read by (unfold ListRules; by rewrite query_nil).
  erewrite lift_read by (unfold ListHotDomains; by rewrite query_nil).
  erewrite lift_read by (unfold try_, ListDualstackBindings; by rewrite query_nil).
  unfold core_do. destruct st as [w c jobs lg]. simpl. destruct c. simpl.
  eexists. split; [reflexivity|]. unfold synced, db_of. simpl. rewrite w_db_set_rdb. done.
Qed.
(** A success means that the core is in step. *)
Definition live (m : api S R Resp) : Prop :=
  ∀ st resp st', calm (a_world st) → m st = (Ok resp, st') → rs_code resp < 300 → synced (a_core st) st'.
Lemma live_refuse code b : 300 ≤ code → live (reply code b).
Proof. intros Hc st resp st' _ [= <- <-]. simpl. lia. Qed.
Lemma live_panic : live (lift panic).
Proof. by intros st resp st' _ [=]. Qed.
Lemma live_lift {A} (m : act R A) (f : A → api S R Resp) : keeps calm m → (∀ a, live (f a)) → live (lift m ≫= f).
Proof.
  intros Hm Hf st resp st' Hc. unfold mbind, api_bind, lift, api_lift. specialize (Hm (a_world st) Hc).
  destruct (m (a_world st)) as [[a|e|] w]; simpl in *; [|done..]. intros Hrun Hok. exact (Hf a (set_world w st) resp st' Hm Hrun Hok).
Qed.
Lemma synced_world c0 w st : w_db w = db_of st → synced c0 st → synced c0 (set_world w st).
Proof. intros Hw. unfold synced, db_of. simpl. by rewrite Hw. Qed.
Lemma api_bind_Ok {A B} (m : api S R A) (f : A → api S R B) st b st' :
  (m ≫= f) st = (Ok b, st') → ∃ a st1, m st = (Ok a, st1) ∧ f a st1 = (Ok b, st').
Proof. unfold mbind, api_bind. destruct (m st) as [[a|e|] st1]; naive_solver. Qed.
Lemma lift_synced {A} (m : act R A) c0 st a st' :
  keeps (λ w, unchanged (db_of st) (w_db w)) m → lift m st = (Ok a, st') → synced c0 st → synced c0 st'.
Proof.
  intros Hm. unfold lift, api_lift. specialize (Hm (a_world st) eq_refl). destruct (m (a_world st)) as [o w]. intros [= -> <-].
  by apply synced_world.
Qed.
Lemma reply_inv code b st resp st' : reply (S := S) (R := R) code b st = (Ok resp, st') → st' = st.
Proof. intros [= _ <-]. apply set_world_id. Qed.
Lemma live_config rq a t d code b : live (_ ← config_changed cfg rq a t d; reply code b).
Proof.
  intros st resp st' Hc ([] & st3 & Hrun & ->%reply_inv)%api_bind_Ok _. unfold config_changed in Hrun.
  destruct (core_ReloadAll_run st Hc) as (st1 & Hr & Hs).
  erewrite api_bind_run in Hrun by (unfold api_try; rewrite Hr; reflexivity).
  apply api_bind_Ok in Hrun as ([] & st2 & Hb & Ha).
  eapply lift_synced; [|exact Ha|eapply lift_synced; [|exact Hb|exact Hs]]; keeps_db idtac.
Qed.
Lemma calm_same {A} (m : act R A) : (∀ w, w_faults (m w).2 = w_faults w) → keeps calm m.
Proof. intros Hm w Hw. unfold calm in *. by rewrite Hm. Qed.
Lemma calm_query {A} (f : DB → A) : keeps calm (query f).
Proof. intros w Hw. by rewrite query_nil. Qed.
Lemma calm_exec f : keeps calm (exec f).
Proof. intros w Hw. unfold exec. rewrite next_fault_nil by done. destruct (f (w_db w)); [|done..]. by destruct w. Qed.
Lemma calm_uuid : keeps calm uuid_NewString.
Proof. apply calm_same. intros w. by destruct w. Qed.
#[local] Ltac calm_step :=
  lazymatch goal with
  | |- keeps _ (mret _) => apply keeps_ret
  | |- keeps _ (fail _) => apply keeps_fail
  | |- keeps _ time_Now => apply keeps_time
  | |- keeps _ uuid_NewString => apply calm_uuid
  | |- keeps _ (query _) => apply calm_query
  | |- keeps _ (exec _) => apply calm_exec
  | |- keeps _ (mbind _ _) => apply keeps_bind; [|intros ?]
  | |- keeps _ (try_ _) => apply keeps_try
  | |- keeps _ (match _ with _ => _ end) => case_match
  end.
#[local] Ltac live_step :=
  lazymatch goal with
  | |- live (reply _ _) => by apply live_refuse
  | |- live (reply_err _ _) => by apply live_refuse
  | |- live (lift panic) => apply live_panic
  | |- live (lift (writeErr _ _)) => by apply live_refuse
  | |- live (mbind (λ _, reply _ _) (config_changed _ _ _ _ _)) => apply live_config
  | |- live (mbind _ (lift _)) => apply live_lift;
      [unfold CreateGroup, UpdateGroup, DeleteGroup, CreateUpstream, UpdateUpstream, DeleteUpstream, CreateRule, UpdateRule,
         DeleteRule, CreateHotDomain, DeleteHotDomain, GetUpstream, ListUpstreams, fresh_id; cbv zeta; repeat calm_step|intros ?]
  | |- live (match _ with _ => _ end) => case_match
  end.
(** The endpoints that change what the core works with. *)
Definition configures (e : Endpoint) : bool :=
  match e with
  | ECreateGroup | EUpdateGroup | EDeleteGroup | ECreateUpstream | EUpdateUpstream | EDeleteUpstream
  | ECreateRule | EUpdateRule | EDeleteRule | ECreateHot | EDeleteHot => true
  | _ => false
  end.
Lemma configures_live e rq : configures e = true → live (handler_of cfg e rq).
Proof.
  destruct e; intros He; try discriminate He;
    unfold handler_of, createGroup, updateGroup, deleteGroup, createUpstream, updateUpstream, deleteUpstream, createRule, updateRule,
      deleteRule, createHotDomain, deleteHotDomain, readJSON, or_500, afterConfigChange, afterConfigChangeSnap, ok_deleted; cbv zeta;
    repeat live_step.
Qed.
End live.

(** ** Properties *)

(** A history of requests, each with the instant and the fault schedule it
    meets. *)
Definition run_requests {S R : Type} `{UnicodeCase} `{Cache S} `{CachePing S} `{Redis R} `{RedisSets R} `{RedisCount R}
    `{RedisSession R} `{RedisMore R} `{Collation} `{UUID} `{Bcrypt} `{TenantJSON} `{Clock} `{JWT} `{AuthJSON} `{AdminJSON}
    `{OpsJSON} `{RandRead} `{Lib} `{LogDB} `{DnsLib} `{Network} `{Rand} `{MapAPI} (cfg : Config)
    (rqs : list (Time * list (option string) * Request)) (st : ApiState S R) : ApiState S R :=
  foldl (λ st rq, (serve cfg rq.2 (set_world (set_faults rq.1.2 (set_now rq.1.1 (a_world st))) st)).2) st rqs.


(** C2: tenants are confined: whatever a user with the role of a tenant
    requests on a protected route, the only changes to the database are to
    the prefix and the protocol switches of the user's own tenant and to
    the user's own password and lock; no other tenant, account, group,
    upstream, rule, hot domain, bound domain or binding changes, nor does
    the plan of the tenant (name, limits, VIP, default subnet, group) or the
    role and binding of any account. *)
Theorem tenant_confined {S R : Type} `{UnicodeCase} `{Cache S} `{CachePing S} `{Redis R} `{RedisSets R} `{RedisCount R}
    `{RedisSession R} `{RedisMore R} `{Collation} `{UUID} `{Bcrypt} `{TenantJSON} `{Clock} `{JWT} `{AuthJSON} `{AdminJSON}
    `{OpsJSON} `{RandRead} `{Lib} `{LogDB} `{DnsLib} `{Network} `{Rand} `{MapAPI} cfg rq (st : ApiState S R) r id c :
  wf_db (db_of st) → find_route routes (rq_method rq) (rq_path rq) = Some (r, id) → rt_mws r ≠ [] →
  valid_session cfg (a_world st) rq c → c_Role c = RoleTenant →
  confined (c_TID c) (c_Subject c) (db_of st) (db_of (serve cfg rq st).2).
Proof.
  intros Hwf Hf Hne Hv Hrole. destruct (serve_cases cfg rq st) as [->|(r' & id' & rq' & Hf' & Hrun & ->)]; [apply confined_refl|].
  rewrite Hf in Hf'. injection Hf' as <- <-. destruct Hrun as [[He _]|(c' & Hv' & Hp & ->)]; [done|].
  assert (c' = c) as -> by (apply session_valid in Hv, Hv'; congruence).
  pose proof Hf as (Hr & _)%find_route_Some. pose proof (wf_tenant_id _ Hwf) as Hids.
  assert (akeeps (confined (c_TID c) (c_Subject c) (db_of st)) (handler_of cfg (rt_endpoint r) (with_claims (with_id rq id) c))) as Hk.
  { destruct (writes (rt_endpoint r)) eqn:Hw; [|by apply reads_keep].
    destruct (tenant_routes r c id Hr Hne Hp Hrole Hw) as [->|[[-> | ->] Hid]]; apply akeeps_lift.
    - by eapply changePassword_confined.
    - eapply updateTenant_confined; [done|done|by rewrite Hrole|by rewrite Hid].
    - apply customizeDot_confined; [done|by rewrite Hid]. }
  apply Hk, confined_refl.
Qed.

(** C15: once the installation has a super-administrator no other can
    come into being: whoever sends whatever request, every account with the
    role admin afterwards was one before. *)
Theorem no_new_admin {S R : Type} `{UnicodeCase} `{Cache S} `{CachePing S} `{Redis R} `{RedisSets R} `{RedisCount R}
    `{RedisSession R} `{RedisMore R} `{Collation} `{UUID} `{Bcrypt} `{TenantJSON} `{Clock} `{JWT} `{AuthJSON} `{AdminJSON}
    `{OpsJSON} `{RandRead} `{Lib} `{LogDB} `{DnsLib} `{Network} `{Rand} `{MapAPI} `{!RoleWeights} cfg rq (st : ApiState S R) r r' :
  wf_db (db_of st) → r ∈ users (db_of st) → ur_role r = RoleAdmin →
  r' ∈ users (db_of (serve cfg rq st).2) → ur_role r' = RoleAdmin → was_admin (db_of st) (ur_id r').
Proof.
  intros Hwf Hr Ha Hr' Ha'.
  assert (∀ r, r ∈ users (db_of st) → ur_role r = RoleAdmin → was_admin (db_of st) (ur_id r)) as Hold by (intros x ? ?; by exists x).
  assert (old_admins (db_of st) (db_of (serve cfg rq st).2)) as Hk; [|by apply Hk].
  destruct (serve_cases cfg rq st) as [->|(rt & id & rq' & _ & _ & ->)]; [exact Hold|].
  destruct (decide (rt_endpoint rt = EBootstrap)) as [->|Hb].
  { assert (akeeps (unchanged (db_of st)) (handler_of (S := S) (R := R) cfg EBootstrap rq')) as Hk
      by (apply akeeps_lift; by eapply bootstrap_closed). by rewrite (Hk st eq_refl). }
  destruct (decide (rt_endpoint rt = EUpdateUser)) as [->|Hu]; [|by apply handler_admins].
  destruct (akeeps_lift (λ d, old_admins (db_of st) d ∧ wf_db d) _ (updateUser_admins cfg (db_of st) rq') st) as [Hk _]; done.
Qed.


Import Demo.
#[global] Instance demo_role_weights : @RoleWeights demo_collation.
Proof. by split. Qed.
Lemma demo_api_wf : wf_db demo_api_db.
Proof.
  split; simpl; repeat first [apply NoDup_nil_2 | apply NoDup_cons_2 | apply Forall_nil_2 | apply Forall_cons_2]; set_solver.
Qed.
Definition demo_admin : UserRow := demo_account "u0" "root" "admin" None.
Definition demo_sysadmin : UserRow := demo_account "u1" "alice" "sysadmin" None.
Definition demo_bob : UserRow := demo_account "u2" "bob" "tenant" (Some "t1").
(** Bob changes the prefix of his tenant. *)
Lemma tenant_confined_witness :
  confined "t1" "u2" demo_api_db (db_of (serve demo_config (demo_call "POST" "/api/v1/tenants/t1/dot" demo_bob) demo_api_state).2).
Proof.
  apply (tenant_confined demo_config (demo_call "POST" "/api/v1/tenants/t1/dot" demo_bob) demo_api_state
    (route "POST" "/api/v1/tenants/{id}/dot" ECustomizeDot own_tenant) "t1" (demo_session demo_bob)).
  - exact demo_api_wf.
  - reflexivity.
  - discriminate.
  - apply demo_valid. vm_compute. reflexivity.
  - reflexivity.
Defined.
(** Alice asks for a new super-administrator and gets a system administrator. *)
Lemma no_new_admin_witness :
  ∃ r', r' ∈ users (db_of (serve demo_config (demo_call "POST" "/api/v1/users" demo_sysadmin) demo_api_state).2) ∧
        was_admin demo_api_db (ur_id r').
Proof.
  exists demo_admin.
  assert (demo_admin ∈ users (db_of (serve demo_config (demo_call "POST" "/api/v1/users" demo_sysadmin) demo_api_state).2)) as Hr
    by (apply (list_elem_of_lookup_2 _ 0); vm_compute; reflexivity).
  split; [exact Hr|].
  apply (no_new_admin demo_config (demo_call "POST" "/api/v1/users" demo_sysadmin) demo_api_state demo_admin demo_admin);
    [exact demo_api_wf|left|reflexivity|exact Hr|reflexivity].
Defined.
