(* ===== verification/Interleave.v ===== *)
(** * Programs as trees of statements, and their interleavings

    The handlers of [Auth], [Admin] and [Ops] are functions on the state: a
    request runs alone. Here a handler is taken apart into a tree whose
    nodes are the statements it sends, SQL, Redis commands and the like,
    each atomic, so that the requests of several clients can be interleaved
    statement by statement. A tree comes with the proof that running it
    alone is the handler. *)

From S2P Require Import Prelude.

Section trees.
Context {St : Type}.

(** A statement, and how to go on with its outcome. *)
Inductive prog (A : Type) : Type :=
| Leaf (o : outcome A)
| Step (X : Type) (m : St → outcome X * St) (k : outcome X → prog A).
Arguments Leaf {A}. Arguments Step {A X}.

(** Running alone. *)
Fixpoint run {A} (p : prog A) (s : St) : outcome A * St :=
  match p with
  | Leaf o => (o, s)
  | Step m k => let '(o, s) := m s in run (k o) s
  end.
Fixpoint pbind {A B} (p : prog A) (f : A → prog B) : prog B :=
  match p with
  | Leaf (Ok a) => f a
  | Leaf (Err e) => Leaf (Err e)
  | Leaf Panic => Leaf Panic
  | Step m k => Step m (λ o, pbind (k o) f)
  end.
(** [g] turns the outcome into that of the whole. *)
Fixpoint pmap {A B} (g : outcome A → outcome B) (p : prog A) : prog B :=
  match p with
  | Leaf o => Leaf (g o)
  | Step m k => Step m (λ o, pmap g (k o))
  end.
Definition tried {A} (o : outcome A) : outcome (outcome A) := match o with Panic => Panic | o => Ok o end.

(** Every statement of the tree is one of [op]. *)
Fixpoint made_of (op : ∀ X, (St → outcome X * St) → Prop) {A} (p : prog A) : Prop :=
  match p with Leaf _ => True | Step m k => op _ m ∧ ∀ o, made_of op (k o) end.
(** Every statement that starts in [I] ends in [I] and moves within [G],
    whatever happens between the statements, as long as that keeps [I]
    too. *)
Fixpoint psafe (I : St → Prop) (G : St → St → Prop) {A} (p : prog A) : Prop :=
  match p with Leaf _ => True | Step m k => ∀ s, I s → I (m s).2 ∧ G s (m s).2 ∧ psafe I G (k (m s).1) end.

(** A decomposition of an action. *)
Record decomp (op : ∀ X, (St → outcome X * St) → Prop) (I : St → Prop) (G : St → St → Prop) {A} (m : St → outcome A * St) : Type := {
  dc_prog : prog A;
  dc_run : ∀ s, run dc_prog s = m s;
  dc_made : made_of op dc_prog;
  dc_safe : psafe I G dc_prog;
}.

(** ** Pools *)

(** Programs on one state. [ev] are events of the outside, such as the
    passing of time. *)
Definition pool (A : Type) : Type := list (prog A) * St.
Definition pool_step {A} (i : nat) (x : pool A) : pool A :=
  match x.1 !! i with
  | Some (Step m k) => let '(o, s) := m x.2 in (<[i := k o]> x.1, s)
  | _ => x
  end.
Definition run_pool {E A} (env : E → St → St) (sched : list (nat + E)) (x : pool A) : pool A :=
  foldl (λ x ev, match ev with inl i => pool_step i x | inr e => (x.1, env e x.2) end) x sched.

(** ** Lemmas *)

Lemma run_pbind {A B} (p : prog A) (f : A → prog B) s :
  run (pbind p f) s = match run p s with
                      | (Ok a, s) => run (f a) s
                      | (Err e, s) => (Err e, s)
                      | (Panic, s) => (Panic, s)
                      end.
Proof. revert s. induction p as [[a|e|]|X m k IH]; intros s; simpl; [done..|]. destruct (m s) as [o s']. apply IH. Qed.
Lemma run_pmap {A B} (g : outcome A → outcome B) p s : run (pmap g p) s = (g (run p s).1, (run p s).2).
Proof. revert s. induction p as [o|X m k IH]; intros s; simpl; [done|]. destruct (m s) as [o s']. apply IH. Qed.
Section made_safe.
Context (op : ∀ X, (St → outcome X * St) → Prop) (I : St → Prop) (G : St → St → Prop).
Lemma made_pbind {A B} (p : prog A) (f : A → prog B) : made_of op p → (∀ a, made_of op (f a)) → made_of op (pbind p f).
Proof. intros Hp Hf. induction p as [[a|e|]|X m k IH]; simpl; [done..|]. destruct Hp as [Hm Hk]. split; [done|]. intros o. by apply IH. Qed.
Lemma made_pmap {A B} (g : outcome A → outcome B) p : made_of op p → made_of op (pmap g p).
Proof. intros Hp. induction p as [o|X m k IH]; simpl; [done|]. destruct Hp as [Hm Hk]. split; [done|]. intros o. by apply IH. Qed.
Lemma psafe_pbind {A B} (p : prog A) (f : A → prog B) : psafe I G p → (∀ a, psafe I G (f a)) → psafe I G (pbind p f).
Proof.
  intros Hp Hf. induction p as [[a|e|]|X m k IH]; simpl; [done..|]. intros s Hs. destruct (Hp s Hs) as (? & ? & Hk). split_and!; [done..|]. by apply IH.
Qed.
Lemma psafe_pmap {A B} (g : outcome A → outcome B) p : psafe I G p → psafe I G (pmap g p).
Proof. intros Hp. induction p as [o|X m k IH]; simpl; [done|]. intros s Hs. destruct (Hp s Hs) as (? & ? & Hk). split_and!; [done..|]. by apply IH. Qed.
(** A tree that is safe for weaker properties is safe for those they imply. *)
Lemma psafe_weaken {A} (I' : St → Prop) (G' : St → St → Prop) (p : prog A) :
  (∀ s s', I' s → I s ∧ (I s' → G s s' → I' s' ∧ G' s s')) → psafe I G p → psafe I' G' p.
Proof.
  intros Hw Hp. induction p as [o|X m k IH]; simpl; [done|]. intros s Hs. destruct (Hw s (m s).2 Hs) as [Hi Hg].
  destruct (Hp s Hi) as (H1 & H2 & H3). destruct (Hg H1 H2). split_and!; [done..|by apply IH].
Qed.

(** Building decompositions along the syntax of an action. *)
Definition dc_leaf {A} (o : outcome A) : decomp op I G (λ s, (o, s)).
Proof. by exists (Leaf o). Defined.
Definition dc_step {A} (m : St → outcome A * St) : op A m → (∀ s, I s → I (m s).2 ∧ G s (m s).2) → decomp op I G m.
Proof.
  intros Ho Hm. exists (Step m Leaf).
  - intros s. simpl. by destruct (m s).
  - by split.
  - intros s Hs. destruct (Hm s Hs). done.
Defined.
Definition dc_map {A B} (g : outcome A → outcome B) (m : St → outcome A * St) :
  decomp op I G m → decomp op I G (λ s, (g (m s).1, (m s).2)).
Proof.
  intros [p Hr Hm Hs]. exists (pmap g p).
  - intros s. by rewrite run_pmap, Hr.
  - by apply made_pmap.
  - by apply psafe_pmap.
Defined.
Definition dc_seq {A B} (m : St → outcome A * St) (f : A → St → outcome B * St) (mf : St → outcome B * St) :
  (∀ s, mf s = match m s with (Ok a, s) => f a s | (Err e, s) => (Err e, s) | (Panic, s) => (Panic, s) end) →
  decomp op I G m → (∀ a, decomp op I G (f a)) → decomp op I G mf.
Proof.
  intros Hmf [p Hr Hm Hs] Hf. exists (pbind p (λ a, dc_prog _ _ _ _ (Hf a))).
  - intros s. rewrite run_pbind, Hr, Hmf. destruct (m s) as [[a|e|] s']; [apply dc_run|done..].
  - apply made_pbind; [done|]. intros a. apply dc_made.
  - apply psafe_pbind; [done|]. intros a. apply dc_safe.
Defined.
Definition dc_ext {A} (m m' : St → outcome A * St) : (∀ s, m s = m' s) → decomp op I G m → decomp op I G m'.
Proof. intros He [p Hr Hm Hs]. exists p; [|done..]. intros s. by rewrite Hr, He. Defined.
End made_safe.

(** *** Pools *)

Lemma pool_step_safe {A} (I : St → Prop) G i (x : pool A) :
  Forall (psafe I G) x.1 → I x.2 → Forall (psafe I G) (pool_step i x).1 ∧ I (pool_step i x).2.
Proof.
  intros Hf Hi. unfold pool_step. destruct (x.1 !! i) as [[o|X m k]|] eqn:E; [done| |done].
  pose proof (Forall_lookup_1 _ _ _ _ Hf E) as Hp. destruct (Hp _ Hi) as (Hs & _ & Hk). destruct (m x.2) as [o s]. simpl in *.
  split; [|done]. by apply Forall_insert.
Qed.
Lemma run_pool_safe {E A} (env : E → St → St) (I : St → Prop) G sched (x : pool A) :
  (∀ e s, I s → I (env e s)) → Forall (psafe I G) x.1 → I x.2 →
  Forall (psafe I G) (run_pool env sched x).1 ∧ I (run_pool env sched x).2.
Proof.
  intros Henv. unfold run_pool. revert x. induction sched as [|[i|e] sched IH]; intros x Hf Hi; simpl; [done| |].
  - destruct (pool_step_safe I G i x Hf Hi). by apply IH.
  - apply IH; simpl; auto.
Qed.
(** A program that gets enough turns in a row does what it does alone. *)
Lemma run_pool_alone {E A} (env : E → St → St) (ps : list (prog A)) i p s :
  ps !! i = Some p → ∃ n, run_pool env (replicate n (inl i)) (ps, s) = (<[i := Leaf (run p s).1]> ps, (run p s).2).
Proof.
  revert ps s. induction p as [o|X m k IH]; intros ps s Hi; simpl.
  - exists O. simpl. by rewrite list_insert_id.
  - destruct (m s) as [o s'] eqn:Hm. pose proof (lookup_lt_Some _ _ _ Hi) as Hlt.
    destruct (IH o (<[i := k o]> ps) s') as [n Hn]; [by rewrite list_lookup_insert_eq|].
    exists (S n). unfold run_pool in *. simpl. unfold pool_step at 2. simpl. rewrite Hi. simpl. rewrite Hm, Hn.
    by rewrite list_insert_insert_eq.
Qed.
End trees.
Arguments Leaf {St A}. Arguments Step {St A X}. Arguments prog : clear implicits. Arguments pool : clear implicits.
Arguments dc_prog {St op I G A m}. Arguments dc_run {St op I G A m}. Arguments dc_made {St op I G A m}. Arguments dc_safe {St op I G A m}.
