(* ===== verification/Concurrent.v ===== *)
(** * Concurrent management requests

    The HTTP server runs every request in a goroutine of its own. Here the
    requests to the management API are interleaved statement by statement
    ([Interleave]): the SQL statements, the Redis commands, the audit
    transaction and the calls of the DNS core are atomic, nothing else. *)

From S2P Require Import Prelude GoStrings GoNet Config Model DnsMsg Ecs Split StoreCache AnswerCache Dnssec RateLimit Metrics Upstream Dualstack Warmup Handler QueryLog Db World Repos Http Auth Admin Ops Routes Guarantees Interleave.

(** ** Statements *)

Section ops.
Context {S R : Type} `{UnicodeCase} `{Redis R} `{RedisSets R} `{RedisCount R} `{RedisSession R}
  `{UUID} `{Bcrypt} `{Clock} `{RandRead} (cfg : Config).
(** What a handler does in one go. [write_audit] is one transaction, which
    locks the end of the table; [allow_login] and [reset_login] are the
    counter commands of the limiter. *)
Inductive world_op : ∀ X, act R X → Prop :=
| op_query A (f : DB → A) : world_op A (query f)
| op_query_audit A (f : list AuditRec → A) : world_op A (query_audit f)
| op_exec f : world_op unit (exec f)
| op_redis A (f : R → Time → R * A) : world_op A (redis f)
| op_redis_read A (f : R → Time → A) : world_op A (redis_read f)
| op_now : world_op Time time_Now
| op_uuid : world_op string uuid_NewString
| op_hash pw : world_op string (HashPassword pw)
| op_random : world_op string (λ w, (Ok (randomPassword (w_fresh w)), set_fresh (Datatypes.S (w_fresh w)) w))
| op_audit a : world_op unit (write_audit a)
| op_allow ip : world_op bool (allow_login cfg ip)
| op_reset ip : world_op unit (reset_login cfg ip)
| op_alert url text : world_op unit (post_alert url text).
(** A statement of the world, a call of the core, or a look at the state. *)
Inductive api_op : ∀ X, api S R X → Prop :=
| op_lift A (m : act R A) : world_op A m → api_op A (lift m)
| op_core A (f : Core S R → Time → outcome (Core S R * A)) : api_op A (core_do f)
| op_register j : api_op unit (register_job j)
| op_look A (f : ApiState S R → A) : api_op A (λ st, (Ok (f st), st)).
End ops.

(** ** Decomposing actions *)

Section decompose.
Context {R : Type} (op : ∀ X, act R X → Prop) (I : World R → Prop) (G : World R → World R → Prop).
Definition dc_ret {A} (a : A) : decomp op I G (mret (M := act R) a) := dc_leaf op I G (Ok a).
Definition dc_fail {A} e : decomp op I G (fail (R := R) (A := A) e) := dc_leaf op I G (Err e).
Definition dc_panic {A} : decomp op I G (panic (R := R) (A := A)) := dc_leaf op I G Panic.
Definition dc_bind {A B} (m : act R A) (f : A → act R B) : decomp op I G m → (∀ a, decomp op I G (f a)) → decomp op I G (m ≫= f).
Proof. by apply dc_seq. Defined.
Definition dc_try {A} (m : act R A) : decomp op I G m → decomp op I G (try_ m).
Proof. intros Hm. eapply dc_ext, (dc_map op I G tried), Hm. intros w. unfold try_. by destruct (m w) as [[a|e|] w']. Defined.
Definition dc_ignore {A} (m : act R A) : decomp op I G m → decomp op I G (ignore m).
Proof. intros Hm. apply dc_bind; [by apply dc_try|]. intros _. apply dc_ret. Defined.
(** An action that is one statement. *)
Definition dc_op {A} (m : act R A) : op A m → keeps I m → (∀ w, I w → G w (m w).2) → decomp op I G m.
Proof. intros Ho Hk Hg. apply dc_step; auto. Defined.
End decompose.

(** A property of the world, of the state of the API. *)
Definition on_world {S R} (I : World R → Prop) (st : ApiState S R) : Prop := I (a_world st).
Definition within {S R} (G : World R → World R → Prop) (st st' : ApiState S R) : Prop := G (a_world st) (a_world st').

Section decompose_api.
Context {S R : Type} (wop : ∀ X, act R X → Prop) (op : ∀ X, api S R X → Prop) (I : World R → Prop) (G : World R → World R → Prop).
Abbreviation J := (on_world (S := S) I).
Abbreviation K := (within (S := S) G).
Hypothesis op_lift_in : ∀ A (m : act R A), wop A m → op A (lift m).
Definition dc_aret {A} (a : A) : decomp op J K (mret (M := api S R) a) := dc_leaf op J K (Ok a).
Definition dc_abind {A B} (m : api S R A) (f : A → api S R B) : decomp op J K m → (∀ a, decomp op J K (f a)) → decomp op J K (m ≫= f).
Proof. by apply dc_seq. Defined.
Definition dc_atry {A} (m : api S R A) : decomp op J K m → decomp op J K (api_try m).
Proof. intros Hm. eapply dc_ext, (dc_map op J K tried), Hm. intros w. unfold api_try. by destruct (m w) as [[a|e|] w']. Defined.
(** A tree over the world as a tree over the state of the API. *)
Fixpoint lift_prog {A} (p : prog (World R) A) : prog (ApiState S R) A :=
  match p with
  | Leaf o => Leaf o
  | Step m k => Step (lift m : api S R _) (λ o, lift_prog (k o))
  end.
Lemma run_lift_prog {A} (p : prog (World R) A) st :
  run (lift_prog p) st = ((run p (a_world st)).1, set_world (run p (a_world st)).2 st).
Proof.
  revert st. induction p as [o|X m k IH]; intros st; simpl; [by destruct st|].
  unfold lift, api_lift. destruct (m (a_world st)) as [o w]. rewrite IH. by destruct st.
Qed.
Lemma made_lift_prog {A} (p : prog (World R) A) : made_of wop p → made_of op (lift_prog p).
Proof. induction p as [o|X n k IH]; simpl; [done|]. intros [Hn Hk]. split; [by apply op_lift_in|]. intros o. by apply IH. Qed.
Lemma psafe_lift_prog {A} (p : prog (World R) A) : psafe I G p → psafe J K (lift_prog p).
Proof.
  induction p as [o|X n k IH]; simpl; [done|]. intros Hs st Hst. destruct (Hs _ Hst) as (Hi & Hg & Hk).
  unfold lift, api_lift. destruct (n (a_world st)) as [o w]. split_and!; [done..|]. by apply IH.
Qed.
Definition dc_lift {A} (m : act R A) : decomp wop I G m → decomp op J K (lift m).
Proof.
  intros [p Hr Hm Hs]. exists (lift_prog p).
  - intros st. rewrite run_lift_prog, Hr. unfold lift, api_lift. by destruct (m (a_world st)).
  - by apply made_lift_prog.
  - by apply psafe_lift_prog.
Defined.
End decompose_api.

(** Steps through an action; [stmt] proves that a statement that writes
    keeps the property of the database. *)
Ltac dc_step_with stmt :=
  lazymatch goal with
  | |- decomp _ _ _ (mret _) => apply dc_ret
  | |- decomp _ _ _ (fail _) => apply dc_fail
  | |- decomp _ _ _ panic => apply dc_panic
  | |- decomp _ _ _ (mbind _ _) => apply dc_bind; [|intros ?]
  | |- decomp _ _ _ (try_ _) => apply dc_try
  | |- decomp _ _ _ (ignore _) => apply dc_ignore
  | |- decomp _ _ _ (match _ with _ => _ end) => case_match
  | |- decomp _ _ _ (exec _) => apply dc_op; [constructor|stmt|done]
  | |- decomp _ _ _ (λ w, (_, set_fresh _ _)) => apply dc_op; [constructor|apply keeps_lambda; intros []; reflexivity|done]
  | |- decomp _ _ _ _ => apply dc_op; [solve [constructor]|keeps_step stmt|done]
  end.
Ltac dca_step_with stmt :=
  lazymatch goal with
  | |- decomp _ _ _ (mret _) => apply dc_aret
  | |- decomp _ _ _ (mbind _ _) => apply dc_abind; [|intros ?]
  | |- decomp _ _ _ (api_try _) => apply dc_atry
  | |- decomp _ _ _ (core_do _) => apply dc_step; [constructor|intros st Hst; split; [revert st Hst; apply (akeeps_core_do wf_db)|done]]
  | |- decomp _ _ _ (core_get _) => apply dc_step; [constructor|done]
  | |- decomp _ _ _ (register_job _) => apply dc_step; [constructor|done]
  | |- decomp _ _ _ (match _ with _ => _ end) => case_match
  | |- decomp _ _ _ (lift _) => eapply dc_lift; [intros ?? Hop; exact (op_lift _ _ _ Hop)|];
      unfold CreateGroup, UpdateGroup, DeleteGroup, CreateUpstream, UpdateUpstream, DeleteUpstream, CreateRule, UpdateRule,
        DeleteRule, CreateHotDomain, DeleteHotDomain, ListGroups, ListRules, ListHotDomains, ListDualstackBindings, GetUpstream;
      unfold ListUpstreams; unfold_actions; repeat dc_step_with stmt
  end.

Section handlers.
Context {S R : Type} `{UnicodeCase} `{Cache S} `{CachePing S} `{Redis R} `{RedisSets R} `{RedisCount R} `{RedisSession R}
  `{RedisMore R} `{Collation} `{UUID} `{Bcrypt} `{TenantJSON} `{Clock} `{JWT} `{AuthJSON} `{AdminJSON} `{OpsJSON} `{RandRead}
  `{Lib} `{LogDB} `{DnsLib} `{Network} `{Rand} `{MapAPI} (cfg : Config).
Abbreviation Wf := (λ w : World R, wf_db (w_db w)).
Abbreviation anything := (λ _ _ : World R, True).
Abbreviation steps := (decomp (api_op (S := S) (R := R) cfg) (on_world Wf) (within anything)).
#[local] Ltac wf_stmt := apply keeps_stmt; eauto with tables.

Definition handler_steps e rq : steps (handler_of cfg e rq).
Proof.
  destruct e; unfold handler_of, local; unfold_ops; repeat dca_step_with wf_stmt.
  - eapply (dc_ext _ _ _ (λ st, (Ok (match (cacheStats cfg rq st).1 with Ok r => r | _ => {| rs_code := 0; rs_body := BNone |} end), st))).
    + intros st. unfold cacheStats. by destruct (a_logger st), (Dnssec.Stats _).
    + apply dc_step; [constructor|done].
  - apply dc_step; [|done]. exact (op_look cfg Resp (λ st, {| rs_code := StatusOK; rs_body := BJobs (Jobs (a_jobs st)) |})).
Defined.
Definition mw_steps mw (h : Request → api S R Resp) : (∀ rq, steps (h rq)) → ∀ rq, steps (apply_mw cfg mw h rq).
Proof.
  intros Hh rq. destruct mw; unfold apply_mw, authMiddleware, requireRole, scopeTenant; cbv zeta;
    repeat first [apply Hh | dca_step_with wf_stmt].
Defined.
Fixpoint mws_steps mws (h : Request → api S R Resp) (Hh : ∀ rq, steps (h rq)) rq : steps (chain h (apply_mw cfg <$> mws) rq) :=
  match mws with
  | [] => Hh rq
  | mw :: mws => mw_steps mw _ (mws_steps mws h Hh) rq
  end.
Definition ServeHTTP_steps rq : steps (ServeHTTP cfg rq).
Proof.
  unfold ServeHTTP. repeat case_match; unfold mux_reply, reply; [|apply mws_steps, handler_steps|..];
    repeat dca_step_with wf_stmt.
Defined.
Definition serve_steps rq : steps (serve cfg rq).
Proof.
  unfold serve, middleware. destruct (rq_method rq =? "OPTIONS")%string.
  - apply (dc_leaf _ _ _ (Ok (security_headers ++ cors_headers cfg (rq_Origin rq), {| rs_code := StatusNoContent; rs_body := BNone |}))).
  - eapply (dc_ext _ _ _ (λ st, (Ok (security_headers ++ cors_headers cfg (rq_Origin rq),
                                    match (ServeHTTP cfg rq st).1 with
                                    | Ok r => r
                                    | _ => {| rs_code := StatusInternalServerError; rs_body := BErr "internal error" |}
                                    end), (ServeHTTP cfg rq st).2))).
    + intros st. by destruct (ServeHTTP cfg rq st) as [[r|e|] st'].
    + apply (dc_map _ _ _ (λ o, Ok (security_headers ++ cors_headers cfg (rq_Origin rq),
                                   match o with
                                   | Ok r => r
                                   | _ => {| rs_code := StatusInternalServerError; rs_body := BErr "internal error" |}
                                   end))), ServeHTTP_steps.
Defined.
(** The goroutine of a request. *)
Definition goroutine (rq : Request) : prog (ApiState S R) (list (string * string) * Resp) := dc_prog (serve_steps rq).
End handlers.

(** ** Properties *)

(** What happens besides the requests: time passes, and statements to come
    fail. *)
Inductive Outside := SetClock (t : Time) | SetFaults (fl : list (option string)).
Definition outside {S R} (e : Outside) (st : ApiState S R) : ApiState S R :=
  set_world (match e with SetClock t => set_now t | SetFaults fl => set_faults fl end (a_world st)) st.
Lemma outside_db {S R} e (st : ApiState S R) : w_db (a_world (outside e st)) = w_db (a_world st).
Proof. destruct st as [[] c j l], e; done. Qed.


Import Demo.
(** Two bootstrap requests that both look before either writes create two
    super-administrators. *)
Definition race_json : AdminJSON := {|
  Decode_tenant := Decode_tenant; Decode_dot := Decode_dot;
  Decode_bootstrap s := Some {| bq_Username := s; bq_Password := "Correct-Horse-7"; bq_Email := "" |};
  Decode_user := Decode_user; Decode_user_update := Decode_user_update; Decode_password := Decode_password; Decode_domain := Decode_domain;
  jsonDetail := jsonDetail |}.
Definition race_token : string := "fedcba9876543210fedcba9876543210".
Definition race_config : Config := @config_of_env (λ _, None) "h1" (<["BOOTSTRAP_TOKEN"%string := race_token]> Config.demo_env).
Definition bootstrap_request (name : string) : Request :=
  {| rq_method := "POST"; rq_path := "/api/v1/bootstrap/admin"; rq_id := ""; rq_query := []; rq_Authorization := ""; rq_XRealIP := "";
     rq_Origin := ""; rq_Bootstrap := race_token; rq_RemoteAddr := "192.0.2.7:4711"; rq_body := name; rq_claims := None |}.
Definition bootstrap_race (sched : list nat) : list string :=
  let x := run_pool outside (inl <$> sched)
    (goroutine (H14 := race_json) race_config <$>
       [bootstrap_request "eve"; bootstrap_request "mallory"], {| a_world := boot (w_rdb (demo_world empty_db)) 0; a_core := demo_core None; a_jobs := ∅; a_logger := None |}) in
  ur_username <$> filter (λ u, ur_role u = RoleAdmin) (users (db_of x.2)).
Example bootstrap_alone : bootstrap_race (replicate 20 0%nat ++ replicate 20 1%nat) = ["eve"%string].
Proof. vm_compute. reflexivity. Qed.
Example bootstrap_twice : bootstrap_race ([0; 1] ++ replicate 20 0 ++ replicate 20 1)%nat = ["eve"; "mallory"]%string.
Proof. vm_compute. reflexivity. Qed.

(** Guesses that run side by side escape the lockout: all of them look at
    the account before a failure is counted, so the right password among
    them still opens a session after the account has been locked. One after
    the other the same requests are refused. *)
Definition guess (body : string) : Request := demo_request "/api/v1/auth/login" "" body.
Definition guesses (sched : list nat) : list Z :=
  let x := run_pool outside (inl <$> sched)
    ((λ body, goroutine Config.demo_config (guess body)) <$> replicate 5 "Alice|wrong"%string ++ ["Alice|Str0ng!Pass"%string],
     {| a_world := demo_world demo_user_db; a_core := demo_core None; a_jobs := ∅; a_logger := None |}) in
  (λ p, match p with Leaf (Ok (_, r)) => rs_code r | _ => 0 end) <$> x.1.
Example guesses_in_sequence : guesses (i ← seq 0 6; replicate 30 i) = [401; 401; 401; 401; 401; 401].
Proof. vm_compute. reflexivity. Qed.
Example guesses_in_parallel : guesses ((i ← seq 0 6; [i; i]) ++ (i ← seq 0 6; replicate 30 i)) = [401; 401; 401; 401; 401; 200].
Proof. vm_compute. reflexivity. Qed.

(** A tenant is edited by reading its row and writing all of its columns, so
    the last writer wins: a tenant user whose switch of a protocol runs
    beside the suspension of the tenant by an administrator undoes it, though
    alone the request could not ([tenant_confined]). *)
Definition suspend_json : AdminJSON := {|
  Decode_tenant s := Some {| t_ID := ""; t_Name := t_Name demo_tenant; t_Prefix := t_Prefix demo_tenant; t_BaseDomain := t_BaseDomain demo_tenant;
    t_Enabled := false; t_VIP := t_VIP demo_tenant; t_RateLimitQPS := t_RateLimitQPS demo_tenant; t_CacheMaxTTL := t_CacheMaxTTL demo_tenant;
    t_DefaultECS := t_DefaultECS demo_tenant; t_AllowECS := t_AllowECS demo_tenant; t_DoTEnabled := true; t_DoHEnabled := true;
    t_DoQEnabled := true; t_UpstreamGroup := t_UpstreamGroup demo_tenant; t_CreatedAt := 0; t_UpdatedAt := 0 |};
  Decode_dot := Decode_dot; Decode_bootstrap := Decode_bootstrap; Decode_user := Decode_user; Decode_user_update := Decode_user_update;
  Decode_password := Decode_password; Decode_domain := Decode_domain; jsonDetail := jsonDetail |}.
Definition suspension (sched : list nat) : list (string * bool) * list Z :=
  let x := run_pool outside (inl <$> sched)
    (goroutine (H14 := suspend_json) Config.demo_config <$>
       [demo_call "PUT" "/api/v1/tenants/t1" demo_sysadmin; demo_call "PUT" "/api/v1/tenants/t1" demo_bob], demo_api_state) in
  ((λ r, (tr_id r, tr_enabled r)) <$> tenants (db_of x.2), (λ p, match p with Leaf (Ok (_, r)) => rs_code r | _ => 0 end) <$> x.1).
Example suspended : suspension (replicate 30 1 ++ replicate 30 0)%nat = ([("t1"%string, false)], [200; 200]).
Proof. vm_compute. reflexivity. Qed.
Example suspension_undone : suspension (replicate 5 1 ++ replicate 30 0 ++ replicate 30 1)%nat = ([("t1"%string, true)], [200; 200]).
Proof. vm_compute. reflexivity. Qed.
