(* ===== verification/Sessions.v ===== *)
(** * Refresh tokens under concurrency

    The authentication requests as trees of statements, and what holds of a
    refresh token when several clients present it at the same time. *)

From S2P Require Import Prelude GoStrings GoNet Config Model StoreCache RateLimit Warmup QueryLog Db World Repos Http Auth Admin Ops Interleave Concurrent.

Section trees.
Context {R : Type} `{UnicodeCase} `{Redis R} `{RedisSets R} `{RedisCount R} `{RedisSession R}
  `{Collation} `{UUID} `{Bcrypt} `{JWT} `{AuthJSON} `{Clock} `{RandRead} (cfg : Config).
Abbreviation tree := (prog (World R)).

#[local] Instance tree_ret : MRet tree := λ A a, Leaf (Ok a).
#[local] Instance tree_bind : MBind tree := λ A B f p, pbind p f.
Definition stmt {A} (m : act R A) : tree A := Step m Leaf.
Definition leaf_of {A} (o : option A) (e : string) : tree A := match o with Some a => Leaf (Ok a) | None => Leaf (Err e) end.
Definition error_leaf (e : option string) : tree unit := match e with Some e => Leaf (Err e) | None => Leaf (Ok ()) end.
Definition issuePair_tree (u : User) : tree tokenPair :=
  now ← stmt time_Now;
  accessJTI ← stmt uuid_NewString;
  refreshJTI ← stmt uuid_NewString;
  at_ ← leaf_of (SignedString (claims_of u "access" "" accessJTI now (JWTExpiry cfg)) (APIJWTSecret cfg)) "sign";
  rt ← leaf_of (SignedString (claims_of u "refresh" "" refreshJTI now (JWTRefreshExp cfg)) (APIJWTSecret cfg)) "sign";
  e ← stmt (redis (λ r now, rdb_set r now (refresh_key refreshJTI) (u_ID u) (JWTRefreshExp cfg)));
  _ ← error_leaf e;
  e ← stmt (redis (λ r now, rdb_sadd r now (refresh_index (u_ID u)) [refreshJTI]));
  _ ← error_leaf e;
  _ ← stmt (redis (λ r now, (rdb_expire r now (refresh_index (u_ID u)) (JWTRefreshExp cfg), ())));
  mret {| AccessToken := at_; RefreshToken := rt; ExpiresIn := int_seconds (JWTExpiry cfg); TokenType := "Bearer" |}.
Lemma issuePair_tree_run u w : run (issuePair_tree u) w = issuePair cfg u w.
Proof.
  unfold issuePair_tree, issuePair, mbind, tree_bind, act_bind. simpl.
  destruct (SignedString _ _) as [a|]; simpl; [|done]. destruct (SignedString _ _) as [b|]; simpl; [|done].
  unfold redis. repeat (destruct (rdb_set _ _ _ _ _) as [r [e|]]; simpl; [done|]).
  by destruct (rdb_sadd _ _ _ _) as [r' [e|]].
Qed.

(** The rest of [refresh], once the stored session has been taken. *)
Definition refresh_rest (claims : Claims) (uid : outcome (option string)) : act R Resp :=
  match uid with
  | Ok None => writeErr StatusUnauthorized "refresh token already used or revoked"
  | Err _ | Panic => writeErr StatusUnauthorized "invalid refresh token"
  | Ok (Some uid) =>
      if negb (uid =? c_Subject claims)%string then writeErr StatusUnauthorized "invalid refresh token" else
      u ← try_ (GetUserByID (c_Subject claims));
      match u with
      | Ok (Some u) =>
          now ← time_Now;
          if is_locked u now then writeErr StatusUnauthorized "account locked"
          else if u_MustChangePwd u then writeErr StatusUnauthorized "password change required"
          else
            p ← try_ (issuePair cfg u);
            match p with
            | Ok p => writeJSON StatusOK (BTokens p)
            | _ => writeErr StatusInternalServerError "token issue failed"
            end
      | _ => writeErr StatusUnauthorized "user not found"
      end
  end.
End trees.

(** ** What the statements do to a token *)

Section tokens.
Context {R : Type} `{UnicodeCase} `{Redis R} `{RedisSets R} `{RedisCount R} `{RedisSession R}
  `{Collation} `{UUID} `{Bcrypt} `{JWT} `{AuthJSON} `{Clock} `{RandRead} `{!RedisLaws R} `{!RedisFrame R} `{!UUIDLaws} `{!UUIDShape}
  (cfg : Config) (n : nat).

Definition drawn (w : World R) : Prop := (n < w_fresh w)%nat.
(** A spent token stays spent. *)
Definition stays (w w' : World R) : Prop := spent n w → spent n w'.

Lemma next_fault_fresh (w : World R) : w_fresh (next_fault w).2 = w_fresh w.
Proof. unfold next_fault. destruct w as [? ? ? ? ? [|]]; done. Qed.
Lemma put_limiter_fresh l (w : World R) : w_fresh (put_limiter l w) = w_fresh w.
Proof. unfold put_limiter. destruct (l_rdb l), w; done. Qed.
(** No statement takes an identifier back. *)
Lemma op_fresh X (m : act R X) w : world_op cfg X m → (w_fresh w ≤ w_fresh (m w).2)%nat.
Proof.
  destruct 1 as [A f|A f|f|A f|A f| | |pw| |a|ip|ip|url text].
  - unfold query. pose proof (next_fault_fresh w). destruct (next_fault w) as [[e|] w']; simpl in *; lia.
  - unfold query_audit. pose proof (next_fault_fresh w). destruct (next_fault w) as [[e|] w']; simpl in *; lia.
  - unfold exec. pose proof (next_fault_fresh w). destruct (next_fault w) as [[e|] w']; simpl in *; [lia|].
    destruct (f (w_db w')), w'; simpl in *; lia.
  - unfold redis. destruct (f _ _), w; simpl. lia.
  - simpl. lia.
  - simpl. lia.
  - destruct w; simpl. lia.
  - unfold HashPassword. destruct w; simpl. lia.
  - destruct w; simpl. lia.
  - unfold write_audit. pose proof (next_fault_fresh w) as E1. destruct (next_fault w) as [f1 w1].
    pose proof (next_fault_fresh w1) as E2. destruct (next_fault w1) as [f2 w2].
    pose proof (next_fault_fresh w2) as E3. destruct (next_fault w2) as [f3 w3].
    pose proof (next_fault_fresh w3) as E4. destruct (next_fault w3) as [f4 w4]. simpl in *.
    destruct (WriteAudit _ _ _ _ _ _) as [t [e|]]; destruct w4; simpl in *; lia.
  - unfold allow_login. destruct (AllowLogin _ _ _ _ _) as [[l b]| |]; simpl; rewrite ?put_limiter_fresh; lia.
  - unfold reset_login. simpl. rewrite put_limiter_fresh. lia.
  - destruct w; simpl. lia.
Qed.
Lemma op_drawn X (m : act R X) : world_op cfg X m → keeps drawn m.
Proof. intros Ho w Hw. pose proof (op_fresh X m w Ho). unfold drawn in *. lia. Qed.
Abbreviation token_steps := (decomp (world_op cfg) drawn stays).
(** A statement that keeps a token spent. *)
Definition dc_spent {A} (m : act R A) : world_op cfg A m → keeps (spent n) m → token_steps m.
Proof. intros Ho Hk. apply dc_op; [done|by apply op_drawn|]. intros w _. exact (Hk w). Defined.

(** A statement that keeps a token spent, and the rest of the tree. *)
Lemma psafe_stmt {A B} (m : act R A) (f : A → prog (World R) B) :
  world_op cfg A m → keeps (spent n) m → (∀ w a, drawn w → (m w).1 = Ok a → psafe drawn stays (f a)) →
  psafe drawn stays (pbind (stmt m) f).
Proof.
  intros Ho Hk Hf w Hw. split_and!; [by apply (op_drawn A)|exact (Hk w)|]. specialize (Hf w). simpl.
  destruct (m w).1 as [a|e|]; simpl; auto.
Qed.
Lemma issuePair_made u : made_of (world_op cfg) (issuePair_tree cfg u).
Proof.
  unfold issuePair_tree, mbind, tree_bind. repeat (apply made_pbind; [|intros ?]);
    first [by split; [constructor|]|unfold leaf_of, error_leaf; by case_match|done].
Qed.
(** A new session is stored under an identifier drawn for it. *)
Lemma issuePair_tree_safe u : psafe drawn stays (issuePair_tree cfg u).
Proof.
  unfold issuePair_tree, mbind, tree_bind.
  apply psafe_stmt; [constructor|apply keeps_time|]. intros w now _ _.
  apply psafe_stmt; [constructor|apply keeps_spent_uuid|]. intros w1 a _ _.
  apply psafe_stmt; [constructor|apply keeps_spent_uuid|]. intros w2 j Hd [= <-].
  set (j := NewString _). assert (refresh_key j ≠ refresh_key (NewString n)) as Hj.
  { intros Hk%refresh_key_inj%NewString_inj. unfold drawn in Hd. lia. }
  apply psafe_pbind; [unfold leaf_of; by case_match|]. intros at_. apply psafe_pbind; [unfold leaf_of; by case_match|]. intros rt.
  apply psafe_stmt; [constructor| |].
  { apply keeps_spent_redis. intros r t Ha. by apply absent_set. }
  intros _ e _ _. apply psafe_pbind; [unfold error_leaf; by case_match|]. intros _. apply psafe_stmt; [constructor| |].
  { apply keeps_spent_redis. intros r t Ha t' Ht. rewrite get_sadd_ne by apply index_key_ne. by apply Ha. }
  intros _ e' _ _. apply psafe_pbind; [unfold error_leaf; by case_match|]. intros _. apply psafe_stmt; [constructor| |done].
  apply keeps_spent_redis. intros r t Ha t' Ht. simpl. rewrite get_expire_ne by apply index_key_ne. by apply Ha.
Qed.
Definition issuePair_steps u : token_steps (issuePair cfg u) :=
  {| dc_prog := issuePair_tree cfg u; dc_run := issuePair_tree_run cfg u; dc_made := issuePair_made u; dc_safe := issuePair_tree_safe u |}.

Lemma keeps_spent_write_audit a : keeps (spent n) (write_audit a).
Proof.
  intros w Hw. unfold write_audit. apply next_fault_spent in Hw. destruct (next_fault w) as [f1 w1]. simpl in Hw.
  apply next_fault_spent in Hw. destruct (next_fault w1) as [f2 w2]. simpl in Hw.
  apply next_fault_spent in Hw. destruct (next_fault w2) as [f3 w3]. simpl in Hw.
  apply next_fault_spent in Hw. destruct (next_fault w3) as [f4 w4]. simpl in Hw |- *.
  destruct (WriteAudit _ _ _ _ _ _) as [t [e|]]; simpl; by apply spent_audit_table.
Qed.
Lemma keeps_spent_post url text : keeps (spent n) (post_alert url text).
Proof. by intros []. Qed.
End tokens.

Ltac token_step :=
  lazymatch goal with
  | |- decomp _ _ _ (mret _) => apply dc_ret
  | |- decomp _ _ _ (writeErr _ _) => apply dc_ret
  | |- decomp _ _ _ (writeJSON _ _) => apply dc_ret
  | |- decomp _ _ _ (fail _) => apply dc_fail
  | |- decomp _ _ _ panic => apply dc_panic
  | |- decomp _ _ _ (issuePair _ _) => apply issuePair_steps
  | |- decomp _ _ _ (mbind _ _) => apply dc_bind; [|intros ?]
  | |- decomp _ _ _ (try_ _) => apply dc_try
  | |- decomp _ _ _ (ignore _) => apply dc_ignore
  | |- decomp _ _ _ (match _ with _ => _ end) => case_match
  | |- decomp _ _ _ (write_audit _) => apply dc_spent; [constructor|apply keeps_spent_write_audit]
  | |- decomp _ _ _ (post_alert _ _) => apply dc_spent; [constructor|apply keeps_spent_post]
  | |- decomp _ _ _ (redis _) => apply dc_spent; [constructor|apply keeps_spent_redis; intros r t]
  | |- decomp _ _ _ _ => apply dc_spent; [solve [constructor]|spent_step]
  end.

(** The early returns. *)
Ltac split_ifs := repeat match goal with |- _ (if ?b then _ else _) => destruct b; [done|] end.

Section handlers.
Context {R : Type} `{UnicodeCase} `{Redis R} `{RedisSets R} `{RedisCount R} `{RedisSession R}
  `{Collation} `{UUID} `{Bcrypt} `{JWT} `{AuthJSON} `{Clock} `{RandRead} `{!RedisLaws R} `{!RedisFrame R} `{!UUIDLaws} `{!UUIDShape}
  (cfg : Config) (n : nat).
Abbreviation token_steps := (decomp (world_op cfg) (drawn (R := R) n) (stays n)).

Definition login_steps rq : token_steps (login cfg rq).
Proof.
  unfold login, GetUserByUsername, RecordLoginFailure, RecordLoginSuccess, issueRestrictedPair, audit, sendSecurityAlert, exists_key, signed. cbv zeta.
  repeat token_step. all: by apply absent_set.
Defined.
Definition logout_steps rq : token_steps (logout cfg rq).
Proof.
  unfold logout, GetUserByID, audit, RevokeAllSessions. repeat token_step. all: first [apply absent_revoke|by apply absent_set].
Defined.
Definition change_steps rq : token_steps (changePassword cfg rq).
Proof.
  unfold changePassword, GetUserByID, CheckPasswordHistory, SetPassword, audit, RevokeAllSessions. cbv zeta. repeat token_step. all: apply absent_revoke.
Defined.
Definition rest_steps claims uid : token_steps (refresh_rest cfg claims uid).
Proof. unfold refresh_rest, GetUserByID. repeat token_step. Defined.

(** [refresh]: the time, the check that the session is stored, and the
    command that reads and removes it in one go. *)
Definition refresh_tree (rq : Request) : prog (World R) Resp :=
  match Decode_refresh (rq_body rq) with
  | None => Leaf (Ok {| rs_code := StatusBadRequest; rs_body := BErr "invalid body" |})
  | Some token =>
      let bad := Leaf (Ok {| rs_code := StatusUnauthorized; rs_body := BErr "invalid refresh token" |}) in
      pbind (stmt time_Now) (λ now,
      match ParseWithClaims (APIJWTSecret cfg) now token with
      | None => bad
      | Some claims =>
          pbind (stmt (exists_key (refresh_key (c_ID claims)))) (λ k,
          if match k with Ok k => k =? 0 | _ => true end then bad
          else if negb (c_Use claims =? "refresh")%string then bad
          else pbind (stmt (redis (λ r now, rdb_getdel r now (refresh_key (c_ID claims))))) (λ uid, dc_prog (rest_steps claims uid)))
      end)
  end.
Lemma refresh_tree_run rq w : run (refresh_tree rq) w = refresh cfg rq w.
Proof.
  unfold refresh_tree, refresh. destruct (Decode_refresh _) as [token|]; [|done].
  unfold mbind, act_bind. simpl. rewrite parse_run. unfold parse_result.
  destruct (ParseWithClaims _ _ _) as [c|]; simpl; [|done].
  destruct (rdb_exists _ _ _) as [k|e|]; simpl; [|done..]. destruct (k =? 0); simpl; [done|].
  destruct (negb (c_Use c =? "refresh")%string); [done|]. simpl.
  destruct (redis _ w) as [[uid|e|] w'] eqn:Hr; simpl; [|done..]. rewrite dc_run.
  unfold refresh_rest, mbind, act_bind. by destruct uid as [[]| |].
Qed.
Lemma getdel_spent claims : keeps (R := R) (spent n) (redis (λ r now, rdb_getdel r now (refresh_key (c_ID claims)))).
Proof.
  apply keeps_spent_redis. intros r now Ha t Ht.
  destruct (decide (refresh_key (c_ID claims) = refresh_key (NewString n))) as [Hk|Hk].
  - rewrite Hk. apply getdel_absent. by apply Ha.
  - rewrite get_getdel_ne by done. by apply Ha.
Qed.
Lemma refresh_safe rq : psafe (drawn n) (stays n) (refresh_tree rq).
Proof.
  unfold refresh_tree. destruct (Decode_refresh _) as [token|]; [|done].
  apply (psafe_stmt cfg); [constructor|apply keeps_time|]. intros _ now _ _. destruct (ParseWithClaims _ _ _) as [c|]; [|done].
  apply (psafe_stmt cfg); [constructor|apply keeps_redis_read|]. intros _ k _ _. split_ifs.
  apply (psafe_stmt cfg); [constructor|apply getdel_spent|]. intros _ uid _ _. apply dc_safe.
Qed.

(** A tree that ends with [succ] only after it has itself spent the token. *)
Fixpoint guarded {A} (succ : outcome A → Prop) (p : prog (World R) A) : Prop :=
  match p with
  | Leaf o => ¬ succ o
  | Step m k => ∀ w, drawn n w →
      drawn n (m w).2 ∧ stays n w (m w).2 ∧
      (guarded succ (k (m w).1) ∨ ¬ spent n w ∧ spent n (m w).2 ∧ psafe (drawn n) (stays n) (k (m w).1))
  end.
Lemma safe_guarded {A} (succ : outcome A → Prop) (p : prog (World R) A) :
  psafe (drawn n) (stays n) p → (∀ o, ¬ succ o) → guarded succ p.
Proof.
  intros Hp Hs. induction p as [o|X m k IH]; simpl; [done|]. intros w Hw. destruct (Hp w Hw) as (? & ? & ?). split_and!; [done..|].
  left. by apply IH.
Qed.
Lemma guarded_stmt {A B} (succ : outcome B → Prop) (m : act R A) (f : A → prog (World R) B) :
  world_op cfg A m → keeps (spent n) m → (∀ e, ¬ succ (Err e)) → ¬ succ Panic →
  (∀ w a, drawn n w → (m w).1 = Ok a → guarded succ (f a) ∨ ¬ spent n w ∧ spent n (m w).2 ∧ psafe (drawn n) (stays n) (f a)) →
  guarded succ (pbind (stmt m) f).
Proof.
  intros Ho Hk He Hp Hf w Hw. split_and!; [by apply (op_drawn cfg n A)|exact (Hk w)|]. specialize (Hf w). simpl.
  destruct (m w).1 as [a|e|]; simpl; auto.
Qed.
Definition granted (o : outcome Resp) : Prop := match o with Ok r => rs_code r = StatusOK | _ => False end.
Lemma refresh_guarded rq tok c0 t0 `{!JWTStable} :
  Decode_refresh (rq_body rq) = Some tok → ParseWithClaims (APIJWTSecret cfg) t0 tok = Some c0 → c_ID c0 = NewString n →
  guarded granted (refresh_tree rq).
Proof.
  intros Hd Hp Hid. unfold refresh_tree. rewrite Hd. cbv zeta.
  apply guarded_stmt; [constructor|apply keeps_time|auto..]. intros w0 now _ _. left.
  destruct (ParseWithClaims _ now _) as [c|] eqn:Hc; [|done]. assert (c = c0) as -> by (by eapply Parse_stable).
  apply guarded_stmt; [constructor|apply keeps_redis_read|auto..]. intros w1 k _ _. left. split_ifs.
  apply guarded_stmt; [constructor|apply getdel_spent|auto..]. intros w uid Hw Hu.
  unfold redis in Hu. destruct (rdb_getdel (w_rdb w) (w_now w) (refresh_key (c_ID c0))) as [r' o'] eqn:Hg. simpl in Hu. injection Hu as ->.
  destruct uid as [[uid|]|e|]; [right|left; done..]. split_and!; [| |apply dc_safe].
  - intros [_ Ha]. specialize (Ha (w_now w) (Z.le_refl _)). rewrite <-Hid in Ha.
    destruct (get_getdel (w_rdb w) (w_now w) (w_now w) (refresh_key (c_ID c0)) (Some uid)) as [He _]; [by rewrite Hg|congruence].
  - destruct w as [? ? r0 now' ? ? ? ?]. unfold redis. simpl in *. rewrite Hg. split; [done|]. intros t Ht. rewrite <-Hid. simpl.
    pose proof (get_getdel r0 now' t (refresh_key (c_ID c0)) (Some uid)) as Hgd. rewrite Hg in Hgd. by apply Hgd.
Qed.

(** ** The requests of several clients *)

Definition auth_tree (c : AuthCall) : prog (World R) Resp :=
  match c with
  | ALogin rq => dc_prog (login_steps rq)
  | ARefresh rq => refresh_tree rq
  | ALogout rq => dc_prog (logout_steps rq)
  | AChange rq => dc_prog (change_steps rq)
  end.
Lemma auth_tree_run c w : run (auth_tree c) w = auth_handler cfg c w.
Proof.
  destruct c as [rq|rq|rq|rq];
    [exact (dc_run (login_steps rq) w)|exact (refresh_tree_run rq w)|exact (dc_run (logout_steps rq) w)|exact (dc_run (change_steps rq) w)].
Qed.
Lemma auth_tree_safe c : psafe (drawn n) (stays n) (auth_tree c).
Proof.
  destruct c as [rq|rq|rq|rq];
    [exact (dc_safe (login_steps rq))|exact (refresh_safe rq)|exact (dc_safe (logout_steps rq))|exact (dc_safe (change_steps rq))].
Qed.

(** Between two statements time passes, or the database gets other
    failures to report. *)
Definition meanwhile (e : N + list (option string)) (w : World R) : World R :=
  match e with inl d => set_now (w_now w + Z.of_N d) w | inr fs => set_faults fs w end.
Lemma meanwhile_drawn e w : drawn n w → drawn n (meanwhile e w).
Proof. by destruct e, w. Qed.
Lemma meanwhile_stays e w : stays n w (meanwhile e w).
Proof. destruct e as [d|fs]; intros Hw; simpl; [apply spent_later; [lia|done]|by apply spent_faults]. Qed.

(** The state of a token that the requests in [T] present: nobody has had a
    new pair for it yet, or one of them took it and it is spent. *)
Definition one_winner {A} (succ : outcome A → Prop) (T : list nat) (x : pool (World R) A) : Prop :=
  drawn n x.2 ∧ Forall (psafe (drawn n) (stays n)) x.1 ∧
  ((∀ i p, i ∈ T → x.1 !! i = Some p → guarded succ p) ∨
   spent n x.2 ∧ ∃ j, ∀ i p, i ∈ T → i ≠ j → x.1 !! i = Some p → guarded succ p).
Lemma guarded_insert {A} (succ : outcome A → Prop) (P : nat → Prop) (ps : list (prog (World R) A)) i (q : prog (World R) A) :
  (∀ j p, P j → ps !! j = Some p → guarded succ p) → (P i → guarded succ q) →
  ∀ j p, P j → <[i := q]> ps !! j = Some p → guarded succ p.
Proof. intros Hps Hq j p HP [(-> & <- & _)|[_ Hj]]%list_lookup_insert_Some; [by apply Hq|by apply (Hps j)]. Qed.
Lemma one_winner_step {A} (succ : outcome A → Prop) T i (x : pool (World R) A) : one_winner succ T x → one_winner succ T (pool_step i x).
Proof.
  destruct x as [ps w]. intros (Hd & Hs & Hw). unfold pool_step. simpl in *. destruct (ps !! i) as [[o|X m k]|] eqn:E; [done| |done].
  destruct (Forall_lookup_1 _ _ _ _ Hs E w Hd) as (Hd' & Hst & Hk).
  assert (∀ P : nat → Prop, (∀ j p, P j → ps !! j = Some p → guarded succ p) → P i →
    guarded succ (k (m w).1) ∨ ¬ spent n w ∧ spent n (m w).2) as Hg.
  { intros P HP Hi. destruct (HP i _ Hi E w Hd) as (_ & _ & [?|(? & ? & _)]); auto. }
  destruct (m w) as [o w']. simpl in *. split_and!; [done|by apply Forall_insert|]. destruct Hw as [Hw|(Hsp & j & Hw)].
  - destruct (decide (i ∈ T)) as [Hi|Hi]; [|left; by apply (guarded_insert _ (.∈ T))].
    destruct (Hg (.∈ T) Hw Hi) as [|[_ Hsp]]; [left; by apply (guarded_insert _ (.∈ T))|]. right. split; [done|]. exists i.
    intros j p Hj Hne. simpl. rewrite list_lookup_insert_ne by done. by apply Hw.
  - right. split; [by apply Hst|]. exists j.
    assert (∀ a p, a ∈ T ∧ a ≠ j → ps !! a = Some p → guarded succ p) as Hw' by (intros a p [? ?]; by apply Hw).
    intros a p Ha Hne. apply (guarded_insert succ (λ a, a ∈ T ∧ a ≠ j)); [done| |done]. intros Hi.
    by destruct (Hg _ Hw' Hi) as [|[]].
Qed.
Lemma one_winner_run {A} (succ : outcome A → Prop) T sched (x : pool (World R) A) :
  one_winner succ T x → one_winner succ T (run_pool meanwhile sched x).
Proof.
  unfold run_pool. revert x. induction sched as [|[i|e] sched IH]; intros x Hx; simpl; [done| |]; apply IH; [by apply one_winner_step|].
  destruct Hx as (Hd & Hs & Hw). split_and!; [by apply meanwhile_drawn|done|]. destruct Hw as [Hw|(Hsp & Hw)]; [by left|right].
  split; [by apply meanwhile_stays|done].
Qed.
Lemma one_winner_end {A} (succ : outcome A → Prop) T (x : pool (World R) A) i j o o' :
  one_winner succ T x → i ∈ T → j ∈ T → i ≠ j → x.1 !! i = Some (Leaf o) → x.1 !! j = Some (Leaf o') → succ o → ¬ succ o'.
Proof.
  intros (_ & _ & Hw) Hi Hj Hne Ei Ej So. destruct Hw as [Hw|(_ & a & Hw)]; [exact (Hw _ _ Hj Ej)|].
  destruct (decide (j = a)) as [->|Ha]; [|exact (Hw _ _ Hj Ha Ej)]. by destruct (Hw _ _ Hi Hne Ei).
Qed.
Lemma auth_tree_made c : made_of (world_op cfg) (auth_tree c).
Proof.
  destruct c as [rq|rq|rq|rq]; [exact (dc_made (login_steps rq))| |exact (dc_made (logout_steps rq))|exact (dc_made (change_steps rq))].
  unfold auth_tree, refresh_tree. destruct (Decode_refresh _) as [token|]; [|done]. cbv zeta.
  apply made_pbind; [by split; [constructor|]|]. intros now. destruct (ParseWithClaims _ _ _) as [c|]; [|done].
  apply made_pbind; [by split; [constructor|]|]. intros k. split_ifs.
  apply made_pbind; [by split; [constructor|]|]. intros uid. apply dc_made.
Qed.
End handlers.

(** C6: a refresh token works once also when it is presented many times
    at once: however the statements of any logins, refreshes, logouts and
    password changes interleave, with time passing and the database failing
    in between, of the requests that present the same token at most one is
    answered with a new pair. The trees interleaved are the handlers, cut
    into single SQL statements and Redis commands. *)
Theorem refresh_once_concurrent {R} `{UnicodeCase} `{Redis R} `{RedisSets R} `{RedisCount R} `{RedisSession R}
    `{Collation} `{UUID} `{Bcrypt} `{JWT} `{AuthJSON} `{Clock} `{RandRead} `{!RedisLaws R} `{!RedisFrame R} `{!UUIDLaws}
    `{!UUIDShape} `{!JWTStable} cfg (w : World R) calls i j rq rq' tok t0 c n sched r r' :
  i ≠ j → calls !! i = Some (ARefresh rq) → calls !! j = Some (ARefresh rq') →
  Decode_refresh (rq_body rq) = Some tok → Decode_refresh (rq_body rq') = Some tok →
  ParseWithClaims (APIJWTSecret cfg) t0 tok = Some c → c_ID c = NewString n → (n < w_fresh w)%nat →
  let x := run_pool meanwhile sched (auth_tree cfg n <$> calls, w) in
  (∀ a, made_of (world_op cfg) (auth_tree (R := R) cfg n a) ∧ ∀ w, run (auth_tree cfg n a) w = auth_handler cfg a w) ∧
  (x.1 !! i = Some (Leaf (Ok r)) → x.1 !! j = Some (Leaf (Ok r')) → rs_code r = StatusOK → rs_code r' ≠ StatusOK).
Proof.
  intros Hne Hi Hj Hd Hd' Hp Hid Hn x. split; [split; [apply auth_tree_made|apply auth_tree_run]|]. intros Ei Ej Hr.
  apply (one_winner_end n granted [i; j] x i j (Ok r) (Ok r')); [|set_solver|set_solver|done..].
  apply one_winner_run. split_and!; [done| |].
  - apply Forall_fmap, Forall_true. intros a. apply auth_tree_safe.
  - left. intros a p Ha. simpl. rewrite list_lookup_fmap.
    assert (a = i ∨ a = j) as [-> | ->] by set_solver; [rewrite Hi|rewrite Hj]; intros [= <-]; by eapply refresh_guarded.
Qed.
(** Two clients present the token of [demo_login_world], statement by
    statement in turn, and both find it stored: one gets the new pair. *)
Abbreviation demo_tree :=
  (@auth_tree _ ascii_case _ _ _ _ demo_collation demo_uuid demo_bcrypt demo_jwt demo_auth_json demo_clock demo_rand _ _ _ _ demo_config 1).
Definition demo_again : Request := demo_request "/api/v1/auth/refresh" "" (enc_claims demo_refresh_claims).
Definition demo_turns : list (nat + (N + list (option string))) := mjoin (replicate 12 [inl 0%nat; inr (inl 1%N); inl 1%nat]).
Abbreviation demo_race := (run_pool meanwhile demo_turns (demo_tree <$> [ARefresh demo_again; ARefresh demo_again], demo_login_world)).
Definition answer_of (i : nat) : Resp := match demo_race.1 !! i with Some (Leaf (Ok r)) => r | _ => {| rs_code := 0; rs_body := BNone |} end.
Lemma race_ends :
  demo_race.1 !! 0%nat = Some (Leaf (Ok (answer_of 0))) ∧ demo_race.1 !! 1%nat = Some (Leaf (Ok (answer_of 1))) ∧
  rs_code (answer_of 0) = StatusOK.
Proof. vm_compute. done. Qed.
Lemma refresh_once_concurrent_witness :
  demo_race.1 !! 0%nat = Some (Leaf (Ok (answer_of 0))) ∧ demo_race.1 !! 1%nat = Some (Leaf (Ok (answer_of 1))) ∧
  rs_code (answer_of 0) = StatusOK ∧ rs_code (answer_of 1) ≠ StatusOK.
Proof.
  destruct race_ends as (E0 & E1 & Ec). split_and!; [exact E0|exact E1|exact Ec|].
  pose proof (@refresh_once_concurrent _ ascii_case _ _ _ _ demo_collation demo_uuid demo_bcrypt demo_jwt demo_auth_json demo_clock demo_rand
    _ _ _ _ _ demo_config demo_login_world [ARefresh demo_again; ARefresh demo_again] 0 1 demo_again demo_again
    (enc_claims demo_refresh_claims) (w_now demo_login_world) demo_refresh_claims 1 demo_turns (answer_of 0) (answer_of 1)
    ltac:(lia) eq_refl eq_refl eq_refl eq_refl ltac:(vm_compute; reflexivity) eq_refl ltac:(vm_compute; lia)) as [_ Honce].
  exact (Honce E0 E1 Ec).
Defined.
