(* ===== verification/Isolation.v ===== *)
(** * Tenants side by side

    The requests of tenant users as trees of statements, and what they can
    change together: however they interleave, the rows of other tenants and
    other accounts, and all configuration, stay as they were. *)

From S2P Require Import Prelude GoStrings GoNet Config Model DnsMsg Ecs Split StoreCache AnswerCache Dnssec RateLimit Metrics Upstream Dualstack Warmup Handler QueryLog Db World Repos Http Auth Admin Ops Routes Guarantees Interleave Concurrent.

(** ** What the requests of some tenants may touch *)

(** Rows whose key is none of [ks]. *)
Definition others `{Collation} {A} (key : A → string) (ks : list string) (l : list A) : list A :=
  filter (λ r, weight (key r) ∉ weight <$> ks) l.
(** From [d] to [d'] nothing changed but rows of the tenants [T], of the
    accounts [U] and of their password histories. *)
Record apart `{Collation} (T U : list string) (d d' : DB) : Prop := {
  ap_tenants : others tr_id T (tenants d') = others tr_id T (tenants d);
  ap_users : others ur_id U (users d') = others ur_id U (users d);
  ap_history : others ph_user_id U (password_history d') = others ph_user_id U (password_history d);
  ap_domains : tenant_domains d' = tenant_domains d;
  ap_groups : upstream_groups d' = upstream_groups d;
  ap_upstreams : upstreams d' = upstreams d;
  ap_rules : split_rules d' = split_rules d;
  ap_hots : hot_domains d' = hot_domains d;
  ap_bindings : dualstack_bindings d' = dualstack_bindings d
}.
Lemma others_update `{Collation} {A} (key : A → string) ks q u (l : list A) :
  (∀ r, q r = true → weight (key r) ∈ weight <$> ks ∧ key (u r) = key r) → others key ks (update_where q u l) = others key ks l.
Proof.
  intros Hq. unfold others, update_where. induction l as [|r l IH]; [done|]. rewrite fmap_cons, !filter_cons, IH.
  destruct (q r) eqn:E; [|done]. destruct (Hq r E) as [Hk ->]. by rewrite !decide_False by (by intros []).
Qed.

Section touching.
Context {R : Type} `{Collation} (T U : list string) (d0 : DB).
Abbreviation Ap := (λ w : World R, apart T U d0 (w_db w)).
Lemma update_tenant_apart id prefix f :
  weight id ∈ weight <$> T → (∀ r, tr_id (f r) = tr_id r) → keeps Ap (exec (update_tenant id prefix f)).
Proof.
  intros Hid Hf. apply keeps_exec. intros d d' [Ht Hu Hh Hd Hg Hup Hru Hho Hb] E. unfold update_tenant in E.
  destruct (negb _); [by injection E as <-|]. unfold Db.guarded in E. destruct (existsb _ _); [done|]. injection E as <-.
  destruct d as [us hi te do gr up ru ho bi]. simpl in *. split; simpl; try done. rewrite others_update; [done|].
  intros r Hr%bool_decide_eq_true. rewrite Hr. auto.
Qed.
Lemma update_users_apart id f : weight id ∈ weight <$> U → (∀ r, ur_id (f r) = ur_id r) → keeps Ap (exec (update_users id f)).
Proof.
  intros Hid Hf. apply keeps_exec. intros d d' [Ht Hu Hh Hd Hg Hup Hru Hho Hb] [= <-].
  destruct d as [us hi te do gr up ru ho bi]. simpl in *. split; simpl; try done. rewrite others_update; [done|].
  intros r Hr%bool_decide_eq_true. rewrite Hr. auto.
Qed.
Lemma insert_history_apart h : weight (ph_user_id h) ∈ weight <$> U → keeps Ap (exec (insert_history h)).
Proof.
  intros Hid. apply keeps_exec. intros d d' [Ht Hu Hh Hd Hg Hup Hru Hho Hb]. unfold insert_history, Db.guarded.
  destruct (has_id _ _ _); [|done]. intros [= <-]. destruct d as [us hi te do gr up ru ho bi]. simpl in *. split; simpl; try done.
  unfold others in *. rewrite <-Hh, filter_app, filter_cons_False, filter_nil, app_nil_r by (by intros []). done.
Qed.
End touching.

(** ** Statements that leave the database alone *)

Definition same_db {R} (w w' : World R) : Prop := w_db w' = w_db w.
Abbreviation always := (λ _, True).
Abbreviation anything := (λ _ _, True).

Section neutral.
Context {R : Type} (op : ∀ X, act R X → Prop).
Definition dc_neutral {A} (m : act R A) : op A m → (∀ P : DB → Prop, keeps (λ w, P (w_db w)) m) → decomp op always same_db m.
Proof. intros Ho Hk. apply dc_op; [done|done|]. intros w _. exact (Hk (λ d, d = w_db w) w eq_refl). Defined.
End neutral.
(** A tree that leaves the database alone keeps every property of it. *)
Lemma psafe_neutral {R A} (p : prog (World R) A) (P : DB → Prop) : psafe always same_db p → psafe (λ w, P (w_db w)) anything p.
Proof. apply psafe_weaken. intros w w' Hw. unfold same_db. split; [done|]. intros _ ->. done. Qed.
Lemma psafe_neutral_api {S R A} (p : prog (ApiState S R) A) (P : DB → Prop) :
  psafe (on_world always) (within same_db) p → psafe (on_world (λ w, P (w_db w))) anything p.
Proof. apply psafe_weaken. unfold on_world, within, same_db. intros st st' Hst. split; [done|]. intros _ ->. done. Qed.

Ltac neutral_step :=
  lazymatch goal with
  | |- decomp _ _ _ (mret _) => apply dc_ret
  | |- decomp _ _ _ (fail _) => apply dc_fail
  | |- decomp _ _ _ panic => apply dc_panic
  | |- decomp _ _ _ (mbind _ _) => apply dc_bind; [|intros ?]
  | |- decomp _ _ _ (try_ _) => apply dc_try
  | |- decomp _ _ _ (ignore _) => apply dc_ignore
  | |- decomp _ _ _ (match _ with _ => _ end) => case_match
  | |- decomp _ _ _ _ => apply dc_neutral; [solve [constructor]|intros ?; keeps_step fail]
  end.
Ltac neutral_api_step :=
  lazymatch goal with
  | |- decomp _ _ _ (mret _) => apply dc_aret
  | |- decomp _ _ _ (mbind _ _) => apply dc_abind; [|intros ?]
  | |- decomp _ _ _ (api_try _) => apply dc_atry
  | |- decomp _ _ _ (core_do ?f) =>
      apply dc_step; [constructor|intros st _; split; [exact Logic.I|exact (akeeps_core_do (λ d, d = db_of st) f st eq_refl)]]
  | |- decomp _ _ _ (core_get _) => apply dc_step; [constructor|done]
  | |- decomp _ _ _ (register_job _) => apply dc_step; [constructor|done]
  | |- decomp _ _ _ (match _ with _ => _ end) => case_match
  | |- decomp _ _ _ (lift _) => eapply dc_lift; [intros ?? Hop; exact (op_lift _ _ _ Hop)|];
      unfold ListGroups, ListRules, ListHotDomains, ListDualstackBindings, GetUpstream;
      unfold ListUpstreams; unfold_actions; repeat neutral_step
  end.

Section trees.
Context {S R : Type} `{UnicodeCase} `{Cache S} `{CachePing S} `{Redis R} `{RedisSets R} `{RedisCount R} `{RedisSession R}
  `{RedisMore R} `{Collation} `{UUID} `{Bcrypt} `{TenantJSON} `{Clock} `{JWT} `{AuthJSON} `{AdminJSON} `{OpsJSON} `{RandRead}
  `{Lib} `{LogDB} `{DnsLib} `{Network} `{Rand} `{MapAPI} (cfg : Config).
Abbreviation neutral := (decomp (api_op (S := S) (R := R) cfg) (on_world always) (within same_db)).
Abbreviation wneutral := (decomp (world_op (R := R) cfg) always same_db).

(** The endpoints that only read. *)
Definition read_steps e rq :
  neutral (if writes e then mret (M := api S R) {| rs_code := 0; rs_body := BNone |} else handler_of cfg e rq).
Proof.
  destruct e; unfold writes, handler_of, local; unfold_ops; repeat neutral_api_step.
  - eapply (dc_ext _ _ _ (λ st, (Ok (match (cacheStats cfg rq st).1 with Ok r => r | _ => {| rs_code := 0; rs_body := BNone |} end), st))).
    + intros st. unfold cacheStats. by destruct (a_logger st), (Dnssec.Stats _).
    + apply dc_step; [constructor|done].
  - apply dc_step; [|done]. exact (op_look cfg Resp (λ st, {| rs_code := StatusOK; rs_body := BJobs (Jobs (a_jobs st)) |})).
Defined.

(** *** Handlers that write *)

Abbreviation tree := (prog (World R)).
Definition one {A} (m : act R A) : tree A := Step m Leaf.
Definition says {St} (code : Z) (body : Body) : prog St Resp := Leaf (Ok {| rs_code := code; rs_body := body |}).
Definition or_500_tree {A} (p : tree A) (k : A → tree Resp) : tree Resp :=
  pbind (pmap tried p) (λ r, match r with Ok a => k a | Err e => says StatusInternalServerError (BErr e) | Panic => Leaf Panic end).
Definition or_else_tree {A} (p : tree (option A)) (code : Z) (msg : string) (k : A → tree Resp) : tree Resp :=
  pbind (pmap tried p) (λ r, match r with Ok (Some a) => k a | _ => says code (BErr msg) end).
Definition GetTenant_tree (id : string) : tree (option Tenant) :=
  pbind (one (query (λ d, first_match (λ r, ceq (tr_id r) id) (tenants d)))) (λ r, Leaf (Ok (scanTenant <$> r))).
Definition UpdateTenant_tree (t : Tenant) : tree unit :=
  if negb (t_Prefix t =? "")%string && negb (ValidPrefix (t_Prefix t)) then Leaf (Err "invalid prefix")
  else pbind (one time_Now) (λ now,
       pbind (one (exec (update_tenant (t_ID t) (t_Prefix t) (λ r, tenant_row (tr_id r) t (tr_created_at r) (NOW now))))) (λ _,
       one (redis (λ r now, ((rdb_del r now [prefix_cache_key (t_Prefix t)]).1, ()))))).

Definition stored_tail (rq : Request) (action : string) (detail : Detail) (body : Body) : act R Resp :=
  _ ← PurgeMetaCache; _ ← auditAction cfg rq action ("tenant:" +:+ rq_id rq) detail; writeJSON StatusOK body.
Definition stored_tail_steps rq action detail body : wneutral (stored_tail rq action detail body).
Proof. unfold stored_tail. unfold_actions. repeat neutral_step. Defined.
Definition updateTenant_tree (rq : Request) : tree Resp :=
  or_else_tree (GetTenant_tree (rq_id rq)) StatusNotFound "tenant not found" (λ before,
  match Decode_tenant (rq_body rq), claimsFrom rq with
  | None, _ => says StatusBadRequest (BErr "invalid body")
  | Some _, None => Leaf Panic
  | Some in_, Some c =>
      let t := edit_tenant (isPlatformAdmin (c_Role c)) before in_ in
      or_500_tree (UpdateTenant_tree t) (λ _, dc_prog (stored_tail_steps rq "tenant.update" (DTenants before t) (BTenant t)))
  end).

Lemma or_500_run {A} (p : tree A) (m : act R A) k (k' : A → act R Resp) w :
  (∀ w, run p w = m w) → (∀ a w, run (k a) w = k' a w) → run (or_500_tree p k) w = or_500 m k' w.
Proof.
  intros Hp Hk. unfold or_500_tree, or_500, lift, lift_act, mbind, act_bind, try_. rewrite run_pbind, run_pmap, Hp.
  destruct (m w) as [[a|e|] w']; simpl; [apply Hk|done..].
Qed.
Lemma or_else_run {A} (p : tree (option A)) (m : act R (option A)) code msg k (k' : A → act R Resp) w :
  (∀ w, run p w = m w) → (∀ a w, run (k a) w = k' a w) → run (or_else_tree p code msg k) w = or_else m code msg k' w.
Proof.
  intros Hp Hk. unfold or_else_tree, or_else, lift, lift_act, mbind, act_bind, try_. rewrite run_pbind, run_pmap, Hp.
  destruct (m w) as [[[a|]|e|] w']; simpl; [apply Hk|done..].
Qed.
Lemma GetTenant_run id w : run (GetTenant_tree id) w = GetTenant id w.
Proof. unfold GetTenant_tree, GetTenant, mbind, act_bind. simpl. by destruct (query _ w) as [[r|e|] w']. Qed.
Lemma UpdateTenant_run t w : run (UpdateTenant_tree t) w = UpdateTenant t w.
Proof.
  unfold UpdateTenant_tree, UpdateTenant. destruct (_ && _); [done|]. unfold mbind, act_bind. simpl.
  destruct (exec _ w) as [[u|e|] w']; simpl; [|done..]. done.
Qed.
Lemma updateTenant_run rq w : run (updateTenant_tree rq) w = updateTenant cfg rq w.
Proof.
  unfold updateTenant_tree, updateTenant. apply or_else_run; [apply GetTenant_run|]. intros before w'. unfold readJSON, claims_or_panic.
  destruct (Decode_tenant _) as [in_|]; [|done]. destruct (claimsFrom rq) as [c|]; [|done]. cbv zeta.
  unfold mbind at 1, act_bind at 1, mret at 1, act_ret at 1. cbv beta iota. apply or_500_run; [apply UpdateTenant_run|]. intros _ w2. apply dc_run.
Qed.

Definition store_dot_tree (rq : Request) (t : Tenant) : tree Resp :=
  or_500_tree (UpdateTenant_tree t) (λ _, dc_prog (stored_tail_steps rq "tenant.dot_customize"
    (DFields [("prefix", t_Prefix t); ("dot", show_bool (t_DoTEnabled t)); ("doh", show_bool (t_DoHEnabled t));
              ("doq", show_bool (t_DoQEnabled t))]%string) (BTenant t))).
Definition TenantByPrefix_steps prefix : wneutral (TenantByPrefix prefix).
Proof. unfold_actions. repeat neutral_step. Defined.
Definition customizeDot_tree (rq : Request) : tree Resp :=
  or_else_tree (GetTenant_tree (rq_id rq)) StatusNotFound "tenant not found" (λ t,
  match Decode_dot (rq_body rq) with
  | None => says StatusBadRequest (BErr "invalid body")
  | Some in_ =>
      let t' := set_proto t (default (t_DoTEnabled t) (dq_DoT in_)) (default (t_DoHEnabled t) (dq_DoH in_))
                            (default (t_DoQEnabled t) (dq_DoQ in_)) in
      if (dq_Prefix in_ =? "")%string then store_dot_tree rq t'
      else if negb (ValidPrefix (dq_Prefix in_))
      then says StatusBadRequest (BErr "invalid prefix: 3-32 lowercase alnum/hyphen, not reserved")
      else or_500_tree (dc_prog (TenantByPrefix_steps (dq_Prefix in_))) (λ existing,
           if match existing with Some e => negb (t_ID e =? t_ID t)%string | None => false end
           then says StatusConflict (BErr "prefix already taken")
           else store_dot_tree rq (set_t_prefix t' (dq_Prefix in_)))
  end).
Lemma store_dot_run rq t w : run (store_dot_tree rq t) w = store_dot cfg rq t w.
Proof. unfold store_dot_tree, store_dot. apply or_500_run; [apply UpdateTenant_run|]. intros _ w'. apply dc_run. Qed.
Lemma customizeDot_run rq w : run (customizeDot_tree rq) w = customizeDot cfg rq w.
Proof.
  unfold customizeDot_tree, customizeDot. apply or_else_run; [apply GetTenant_run|]. intros t w'. unfold readJSON.
  destruct (Decode_dot _) as [in_|]; [|done]. cbv zeta. destruct (_ =? "")%string; [apply store_dot_run|].
  destruct (negb _); [done|]. apply or_500_run; [apply dc_run|]. intros ex w2. destruct (match ex with Some _ => _ | None => _ end); [done|].
  apply store_dot_run.
Qed.

Definition GetUserByID_tree (id : string) : tree (option User) :=
  pbind (one (query (λ d, first_match (λ r, ceq (ur_id r) id) (users d)))) (λ r, Leaf (Ok (scanUser <$> r))).
Definition SetPassword_tree (userID plainPassword : string) : tree unit :=
  pbind (one (HashPassword plainPassword)) (λ hash,
  pbind (one time_Now) (λ now,
  pbind (one (exec (update_users userID (λ r,
        {| ur_id := ur_id r; ur_tenant_id := ur_tenant_id r; ur_username := ur_username r;
           ur_password_hash := hash; ur_role := ur_role r; ur_email := ur_email r; ur_failed_attempts := 0;
           ur_locked_until := None; ur_last_login := ur_last_login r; ur_must_change_pwd := false;
           ur_pwd_changed_at := Some (dt3 now); ur_created_at := ur_created_at r |})))) (λ _,
  one (exec (insert_history {| ph_user_id := userID; ph_password_hash := hash; ph_created_at := dt3 now |}))))).
Definition history_steps userID pw n : wneutral (CheckPasswordHistory userID pw n).
Proof. unfold_actions. repeat neutral_step. Defined.
Definition changed_tail (rq : Request) (u : User) : act R Resp :=
  _ ← RevokeAllSessions (u_ID u);
  _ ← audit cfg rq u "auth.password_changed" ("user:" +:+ u_Username u)%string "";
  writeJSON StatusOK (BObj [("status", "ok")]%string).
Definition changed_tail_steps rq u : wneutral (changed_tail rq u).
Proof. unfold changed_tail. unfold_actions. repeat neutral_step. Defined.
Definition changePassword_tree (rq : Request) : tree Resp :=
  match claimsFrom rq, Decode_change (rq_body rq) with
  | None, _ => says StatusUnauthorized (BErr "unauthorized")
  | Some _, None => says StatusBadRequest (BErr "invalid body")
  | Some c, Some in_ =>
      or_else_tree (GetUserByID_tree (c_Subject c)) StatusUnauthorized "user not found" (λ u,
      if negb (CheckPassword (u_PasswordHash u) (pc_Old in_)) then says StatusBadRequest (BErr "old password incorrect") else
      let msg := ValidatePasswordStrength (u_Username u) (pc_New in_) in
      if negb (msg =? "")%string then says StatusBadRequest (BErr msg) else
      or_500_tree (dc_prog (history_steps (u_ID u) (pc_New in_) 5)) (λ reused,
      if (reused : bool) then says StatusBadRequest (BErr "password was used recently, choose a new one")
      else or_500_tree (SetPassword_tree (u_ID u) (pc_New in_)) (λ _, dc_prog (changed_tail_steps rq u))))
  end.
Lemma GetUserByID_run id w : run (GetUserByID_tree id) w = GetUserByID id w.
Proof. unfold GetUserByID_tree, GetUserByID, mbind, act_bind. simpl. by destruct (query _ w) as [[r|e|] w']. Qed.
Lemma SetPassword_run id pw w : run (SetPassword_tree id pw) w = SetPassword id pw w.
Proof.
  unfold SetPassword_tree, SetPassword, mbind, act_bind, one. cbn [run pbind].
  destruct (HashPassword pw w) as [[h|e|] w1]; cbn [run pbind]; [|done..]. unfold time_Now. cbn [run pbind].
  destruct (exec _ w1) as [[u|e|] w2]; cbn [run pbind]; [|done..]. by destruct (exec _ w2).
Qed.
Lemma changePassword_run rq w : run (changePassword_tree rq) w = changePassword cfg rq w.
Proof.
  unfold changePassword_tree, changePassword. destruct (claimsFrom rq) as [c|]; [|done]. destruct (Decode_change _) as [in_|]; [|done].
  unfold or_else_tree. rewrite run_pbind, run_pmap, GetUserByID_run. unfold mbind at 1, act_bind at 1, try_ at 1.
  destruct (GetUserByID _ w) as [[[u|]|e|] w1]; cbn [fst snd tried]; [|done..]. destruct (negb _); [done|]. cbv zeta.
  destruct (negb _); [done|]. unfold or_500_tree. rewrite run_pbind, run_pmap, dc_run. unfold mbind at 1, act_bind at 1, try_ at 1.
  destruct (CheckPasswordHistory _ _ _ w1) as [[[]|e|] w2]; cbn [fst snd tried]; [done| |done..].
  rewrite run_pbind, run_pmap, SetPassword_run. unfold mbind at 1, act_bind at 1, try_ at 1.
  destruct (SetPassword _ _ w2) as [[a|e|] w3]; cbn [fst snd tried]; [|done..]. apply dc_run.
Qed.

(** Made of statements. *)
Lemma made_one {A} (m : act R A) : world_op cfg A m → made_of (world_op cfg) (one m).
Proof. by split. Qed.
Lemma made_or_500 {A} (p : tree A) k : made_of (world_op cfg) p → (∀ a, made_of (world_op cfg) (k a)) → made_of (world_op cfg) (or_500_tree p k).
Proof. intros Hp Hk. apply made_pbind; [by apply made_pmap|]. by intros [a|e|]. Qed.
Lemma made_or_else {A} (p : tree (option A)) code msg k :
  made_of (world_op cfg) p → (∀ a, made_of (world_op cfg) (k a)) → made_of (world_op cfg) (or_else_tree p code msg k).
Proof. intros Hp Hk. apply made_pbind; [by apply made_pmap|]. by intros [[a|]|e|]. Qed.
Lemma made_GetTenant id : made_of (world_op cfg) (GetTenant_tree id).
Proof. apply made_pbind; [apply made_one; constructor|done]. Qed.
Lemma made_UpdateTenant t : made_of (world_op cfg) (UpdateTenant_tree t).
Proof.
  unfold UpdateTenant_tree. destruct (_ && _); [done|]. repeat (apply made_pbind; [apply made_one; constructor|intros ?]). apply made_one. constructor.
Qed.
Lemma made_updateTenant rq : made_of (world_op cfg) (updateTenant_tree rq).
Proof.
  apply made_or_else; [apply made_GetTenant|]. intros t. destruct (Decode_tenant _); [|done]. destruct (claimsFrom rq); [|done].
  apply made_or_500; [apply made_UpdateTenant|]. intros _. apply dc_made.
Qed.
Lemma made_store_dot rq t : made_of (world_op cfg) (store_dot_tree rq t).
Proof. apply made_or_500; [apply made_UpdateTenant|]. intros _. apply dc_made. Qed.
Lemma made_customizeDot rq : made_of (world_op cfg) (customizeDot_tree rq).
Proof.
  apply made_or_else; [apply made_GetTenant|]. intros t. destruct (Decode_dot _) as [in_|]; [|done]. cbv zeta.
  destruct (_ =? "")%string; [apply made_store_dot|]. destruct (negb _); [done|]. apply made_or_500; [apply dc_made|]. intros ex.
  destruct (match ex with Some _ => _ | None => _ end); [done|]. apply made_store_dot.
Qed.
Lemma made_changePassword rq : made_of (world_op cfg) (changePassword_tree rq).
Proof.
  unfold changePassword_tree. destruct (claimsFrom rq); [|done]. destruct (Decode_change _); [|done].
  apply made_or_else; [apply made_pbind; [apply made_one; constructor|done]|]. intros u. destruct (negb _); [done|]. cbv zeta.
  destruct (negb _); [done|]. apply made_or_500; [apply dc_made|]. intros [|]; [done|]. apply made_or_500; [|intros _; apply dc_made].
  unfold SetPassword_tree. repeat (apply made_pbind; [apply made_one; constructor|intros ?]). apply made_one. constructor.
Qed.

(** *** From the listener to the handler *)

Abbreviation atree := (prog (ApiState S R)).
Definition handler_tree (e : Endpoint) (rq : Request) : atree Resp :=
  match e with
  | EUpdateTenant => lift_prog (updateTenant_tree rq)
  | ECustomizeDot => lift_prog (customizeDot_tree rq)
  | EChangePassword => lift_prog (changePassword_tree rq)
  | _ => if writes e then dc_prog (handler_steps cfg e rq) else dc_prog (read_steps e rq)
  end.
Definition aone {A} (m : act R A) : atree A := Step (lift m : api S R A) Leaf.
Definition auth_tree (next : Request → atree Resp) (rq : Request) : atree Resp :=
  let hdr := rq_Authorization rq in
  if negb (HasPrefix hdr "Bearer ") then says StatusUnauthorized (BErr "missing bearer token") else
  let token := TrimPrefix hdr "Bearer " in
  pbind (aone time_Now) (λ now,
  match ParseWithClaims (APIJWTSecret cfg) now token with
  | None => says StatusUnauthorized (BErr "invalid or expired token")
  | Some c =>
      if negb (c_Use c =? "access")%string then says StatusUnauthorized (BErr "invalid token type") else
      pbind (aone (exists_key (blacklist_key (c_ID c)))) (λ n,
      if match n with Ok n => 0 <? n | _ => false end then says StatusUnauthorized (BErr "token revoked") else
      pbind (aone (redis_read (λ r now, revoked_at r now (c_Subject c)))) (λ rev,
      if match rev, c_IssuedAt c with Some ts, Some iat => (0 <? ts) && (iat <? ts) | _, _ => false end
      then says StatusUnauthorized (BErr "token revoked")
      else if negb (c_Scope c =? "")%string && negb (rq_path rq =? "/api/v1/auth/change-password")%string
      then says StatusForbidden (BErr "restricted token cannot access this endpoint")
      else next (with_claims rq c)))
  end).
Definition mw_tree (mw : Mw) (next : Request → atree Resp) : Request → atree Resp :=
  match mw with
  | MAuth => auth_tree next
  | MRole roles => λ rq,
      match claimsFrom rq with
      | Some c => if role_allowed roles (c_Role c) then next rq else says StatusForbidden (BErr "insufficient role")
      | None => says StatusForbidden (BErr "insufficient role")
      end
  | MScope => λ rq,
      match claimsFrom rq with
      | None => says StatusUnauthorized (BErr "unauthorized")
      | Some c =>
          if negb (isPlatformAdmin (c_Role c)) && negb (c_TID c =? rq_id rq)%string
          then says StatusForbidden (BErr "not your tenant")
          else next rq
      end
  end.
Definition mws_tree (mws : list Mw) (h : Request → atree Resp) : Request → atree Resp := foldr mw_tree h mws.
Definition ServeHTTP_tree (rq : Request) : atree Resp :=
  if negb (rq_method rq =? "CONNECT")%string && negb (clean_path (rq_path rq)) then says 301 BNone
  else match find_route routes (rq_method rq) (rq_path rq) with
       | Some (r, id) => mws_tree (rt_mws r) (handler_tree (rt_endpoint r)) (with_id rq id)
       | None =>
           if existsb (λ r, bool_decide (is_Some (path_match r (rq_path rq)))) routes
           then says StatusMethodNotAllowed BNone else says StatusNotFound BNone
       end.
(** The goroutine of a request. *)
Definition tenant_goroutine (rq : Request) : atree (list (string * string) * Resp) :=
  let hs := security_headers ++ cors_headers cfg (rq_Origin rq) in
  if (rq_method rq =? "OPTIONS")%string then Leaf (Ok (hs, {| rs_code := StatusNoContent; rs_body := BNone |}))
  else pmap (λ o, Ok (hs, match o with
                          | Ok r => r
                          | _ => {| rs_code := StatusInternalServerError; rs_body := BErr "internal error" |}
                          end)) (ServeHTTP_tree rq).

Lemma run_aone {A B} (m : act R A) (f : A → atree B) st a :
  m (a_world st) = (Ok a, a_world st) → run (pbind (aone m) f) st = run (f a) st.
Proof. intros Hm. simpl. unfold lift, api_lift. rewrite Hm. simpl. by rewrite set_world_id. Qed.
Lemma auth_tree_is next h rq st : (∀ rq st, run (next rq) st = h rq st) → run (auth_tree next rq) st = authMiddleware cfg h rq st.
Proof.
  intros Hn. unfold auth_tree, authMiddleware. cbv zeta. destruct (HasPrefix _ _); cbn [negb]; cbv iota; [|by rewrite lift_err].
  erewrite lift_read by (rewrite parse_run; unfold parse_result; reflexivity). erewrite run_aone by reflexivity.
  destruct (ParseWithClaims _ _ _) as [c|]; [|by rewrite lift_err]. cbv iota.
  destruct (negb (c_Use c =? "access")%string); [by rewrite lift_err|].
  erewrite lift_read by reflexivity. erewrite run_aone by reflexivity.
  destruct (match rdb_exists _ _ _ with Ok n => 0 <? n | _ => false end); [by rewrite lift_err|].
  erewrite lift_read by reflexivity. erewrite run_aone by reflexivity.
  destruct (match revoked_at _ _ _, c_IssuedAt c with Some _, Some _ => _ | _, _ => _ end); [by rewrite lift_err|].
  destruct (negb (c_Scope c =? "")%string && _); [by rewrite lift_err|]. apply Hn.
Qed.
Lemma mws_tree_is mws next h rq st :
  (∀ rq st, run (next rq) st = h rq st) → run (mws_tree mws next rq) st = chain h (apply_mw cfg <$> mws) rq st.
Proof.
  intros Hn. revert rq st. induction mws as [|mw mws IH]; intros rq st; [apply Hn|]. cbn [mws_tree foldr fmap list_fmap chain].
  destruct mw as [|roles|]; cbn [mw_tree apply_mw]; [by apply auth_tree_is|..].
  - unfold requireRole. destruct (claimsFrom rq) as [c|]; [|by rewrite lift_err]. destruct (role_allowed _ _); [apply IH|by rewrite lift_err].
  - unfold scopeTenant. destruct (claimsFrom rq) as [c|]; [|by rewrite lift_err]. destruct (_ && _); [by rewrite lift_err|apply IH].
Qed.
Lemma handler_tree_is e rq st : run (handler_tree e rq) st = handler_of cfg e rq st.
Proof.
  assert (∀ (p : tree Resp) (m : act R Resp), (∀ w, run p w = m w) → run (lift_prog p) st = lift (M := api S R) m st) as Hl.
  { intros q m Hq. rewrite run_lift_prog, Hq. unfold lift, api_lift. by destruct (m (a_world st)). }
  pose proof (dc_run (read_steps e rq) st) as Hr. pose proof (dc_run (handler_steps cfg e rq) st) as Hh.
  destruct e;
    lazymatch goal with
    | |- run (handler_tree EUpdateTenant _) _ = _ => apply Hl; intros w; apply updateTenant_run
    | |- run (handler_tree ECustomizeDot _) _ = _ => apply Hl; intros w; apply customizeDot_run
    | |- run (handler_tree EChangePassword _) _ = _ => apply Hl; intros w; apply changePassword_run
    | |- run (handler_tree ?e _) _ = _ => lazymatch eval cbv in (writes e) with true => exact Hh | false => exact Hr end
    end.
Qed.
Lemma tenant_goroutine_is rq st : run (tenant_goroutine rq) st = serve cfg rq st.
Proof.
  unfold tenant_goroutine, serve, middleware. cbv zeta. destruct (_ =? "OPTIONS")%string; [done|]. rewrite run_pmap.
  assert (run (ServeHTTP_tree rq) st = ServeHTTP cfg rq st) as ->.
  { assert (∀ code, mux_reply (S := S) (R := R) code st = run (says code BNone) st) as Hm.
    { intros code. unfold mux_reply, reply, lift, api_lift. simpl. by rewrite set_world_id. }
    unfold ServeHTTP_tree, ServeHTTP. destruct (_ && _); [by rewrite Hm|].
    destruct (find_route _ _ _) as [[r id]|]; [|case_match; by rewrite Hm]. apply mws_tree_is. intros. apply handler_tree_is. }
  by destruct (ServeHTTP cfg rq st) as [[r|e|] st'].
Qed.
Lemma made_api {A} (p : tree A) : made_of (world_op cfg) p → made_of (api_op (S := S) cfg) (lift_prog p).
Proof. apply made_lift_prog. intros X m Hm. by constructor. Qed.
Lemma made_handler_tree e rq : made_of (api_op cfg) (handler_tree e rq).
Proof.
  pose proof (dc_made (read_steps e rq)) as Hr. pose proof (dc_made (handler_steps cfg e rq)) as Hh.
  destruct e;
    lazymatch goal with
    | |- made_of _ (handler_tree EUpdateTenant _) => apply made_api, made_updateTenant
    | |- made_of _ (handler_tree ECustomizeDot _) => apply made_api, made_customizeDot
    | |- made_of _ (handler_tree EChangePassword _) => apply made_api, made_changePassword
    | |- made_of _ (handler_tree ?e _) => lazymatch eval cbv in (writes e) with true => exact Hh | false => exact Hr end
    end.
Qed.
Lemma made_aone {A} (m : act R A) : world_op cfg A m → made_of (api_op cfg) (aone m).
Proof. split; [by constructor|done]. Qed.
Lemma made_mws_tree mws next rq : (∀ rq, made_of (api_op cfg) (next rq)) → made_of (api_op cfg) (mws_tree mws next rq).
Proof.
  intros Hn. revert rq. induction mws as [|mw mws IH]; intros rq; [apply Hn|]. cbn [mws_tree foldr].
  destruct mw as [|roles|]; cbn [mw_tree]; [|destruct (claimsFrom rq); [|done]; case_match; [apply IH|done]
                                           |destruct (claimsFrom rq); [|done]; case_match; [done|apply IH]].
  unfold auth_tree. cbv zeta. destruct (negb _); [done|]. apply made_pbind; [apply made_aone; constructor|]. intros now.
  destruct (ParseWithClaims _ _ _) as [c|]; [|done]. destruct (negb _); [done|].
  apply made_pbind; [apply made_aone; constructor|]. intros n. destruct (match n with Ok _ => _ | _ => _ end); [done|].
  apply made_pbind; [apply made_aone; constructor|]. intros rev. destruct (match rev with Some _ => _ | None => _ end); [done|].
  destruct (_ && _); [done|]. apply IH.
Qed.
Lemma made_tenant_goroutine rq : made_of (api_op cfg) (tenant_goroutine rq).
Proof.
  unfold tenant_goroutine. cbv zeta. destruct (_ =? "OPTIONS")%string; [done|]. apply made_pmap. unfold ServeHTTP_tree.
  destruct (_ && _); [done|]. destruct (find_route _ _ _) as [[r id]|]; [|by case_match]. apply made_mws_tree. intros. apply made_handler_tree.
Qed.
End trees.

(** ** What the trees touch *)

Section safe_trees.
Context {S R : Type} `{UnicodeCase} `{Cache S} `{CachePing S} `{Redis R} `{RedisSets R} `{RedisCount R} `{RedisSession R}
  `{RedisMore R} `{Collation} `{UUID} `{Bcrypt} `{TenantJSON} `{Clock} `{JWT} `{AuthJSON} `{AdminJSON} `{OpsJSON} `{RandRead}
  `{Lib} `{LogDB} `{DnsLib} `{Network} `{Rand} `{MapAPI} (cfg : Config) (T U : list string) (d0 : DB).
Abbreviation Ap := (λ w : World R, apart T U d0 (w_db w)).
Abbreviation safe := (psafe Ap anything).

Lemma safe_bind {A B} (m : act R A) (f : A → prog (World R) B) :
  keeps Ap m → (∀ a, safe (f a)) → safe (pbind (one m) f).
Proof. intros Hm Hf w Hw. split_and!; [by apply Hm|done|]. simpl. by destruct (m w).1. Qed.
Lemma safe_one {A} (m : act R A) : keeps Ap m → safe (one m).
Proof. intros Hm w Hw. split_and!; [by apply Hm|done|done]. Qed.
Lemma safe_dc {A} (m : act R A) (D : decomp (world_op cfg) always same_db m) : safe (dc_prog D).
Proof. apply psafe_neutral, dc_safe. Qed.
Lemma safe_or_500 {A} (p : prog (World R) A) k : safe p → (∀ a, safe (k a)) → safe (or_500_tree p k).
Proof. intros Hp Hk. apply psafe_pbind; [by apply psafe_pmap|]. by intros [a|e|]. Qed.
(** A row looked up by its key, then the rest. *)
Lemma safe_get {Row A} (f : DB → option Row) (scan : Row → A) code msg k :
  (∀ d r, f d = Some r → safe (k (scan r))) → safe (or_else_tree (pbind (one (query f)) (λ r, Leaf (Ok (scan <$> r)))) code msg k).
Proof.
  intros Hk w Hw. split_and!; [by apply keeps_query|done|]. destruct (query f w) as [[[r|]|e|] w'] eqn:Hq; simpl; try done.
  apply query_Ok in Hq as (fl & Hr & _). by apply (Hk (w_db w)).
Qed.
Lemma UpdateTenant_safe t : weight (t_ID t) ∈ weight <$> T → safe (UpdateTenant_tree t).
Proof.
  intros Ht. unfold UpdateTenant_tree. destruct (_ && _); [done|]. apply safe_bind; [apply keeps_time|]. intros now.
  apply safe_bind; [by apply update_tenant_apart|]. intros _. apply safe_one, keeps_redis.
Qed.
Lemma SetPassword_safe id pw : weight id ∈ weight <$> U → safe (SetPassword_tree id pw).
Proof.
  intros Hid. unfold SetPassword_tree. apply safe_bind; [apply keeps_hash_db|]. intros hash. apply safe_bind; [apply keeps_time|].
  intros now. apply safe_bind; [by apply update_users_apart|]. intros _. by apply safe_one, insert_history_apart.
Qed.
Lemma found_key {A} (key : A → string) id l r : first_match (λ r, ceq (key r) id) l = Some r → weight (key r) = weight id.
Proof. intros (l1 & l2 & _ & Hw & _)%first_match_Some. by apply bool_decide_eq_true in Hw. Qed.
Lemma updateTenant_safe rq : weight (rq_id rq) ∈ weight <$> T → safe (updateTenant_tree cfg rq).
Proof.
  intros Hid. apply safe_get. intros d r Hr%found_key. destruct (Decode_tenant _) as [in_|]; [|done]. destruct (claimsFrom rq) as [c|]; [|done].
  cbv zeta. apply safe_or_500; [|intros _; apply safe_dc]. apply UpdateTenant_safe.
  assert (t_ID (edit_tenant (isPlatformAdmin (c_Role c)) (scanTenant r) in_) = tr_id r) as -> by (unfold edit_tenant; by case_match). by rewrite Hr.
Qed.
Lemma store_dot_safe rq t : weight (t_ID t) ∈ weight <$> T → safe (store_dot_tree cfg rq t).
Proof. intros Ht. apply safe_or_500; [by apply UpdateTenant_safe|]. intros _. apply safe_dc. Qed.
Lemma customizeDot_safe rq : weight (rq_id rq) ∈ weight <$> T → safe (customizeDot_tree cfg rq).
Proof.
  intros Hid. apply safe_get. intros d r Hr%found_key. destruct (Decode_dot _) as [in_|]; [|done]. cbv zeta.
  destruct (_ =? "")%string; [apply store_dot_safe; simpl; by rewrite Hr|]. destruct (negb _); [done|].
  apply safe_or_500; [apply safe_dc|]. intros ex. destruct (match ex with Some _ => _ | None => _ end); [done|].
  apply store_dot_safe. simpl. by rewrite Hr.
Qed.
Lemma changePassword_safe rq c : claimsFrom rq = Some c → weight (c_Subject c) ∈ weight <$> U → safe (changePassword_tree cfg rq).
Proof.
  intros Hc Hid. unfold changePassword_tree. rewrite Hc. destruct (Decode_change _) as [in_|]; [|done].
  apply safe_get. intros d r Hr%found_key. destruct (negb _); [done|]. cbv zeta. destruct (negb _); [done|].
  apply safe_or_500; [apply safe_dc|]. intros [|]; [done|]. apply safe_or_500; [|intros _; apply safe_dc].
  apply SetPassword_safe. simpl. by rewrite Hr.
Qed.

Abbreviation asafe := (psafe (on_world (S := S) Ap) anything).
Lemma safe_lift {A} (p : prog (World R) A) : safe p → asafe (lift_prog p).
Proof. apply psafe_lift_prog. Qed.
Lemma asafe_read {A B} (m : act R A) (f : A → prog (ApiState S R) B) :
  keeps Ap m → (∀ w a, (m w).1 = Ok a → asafe (f a)) → asafe (pbind (aone m) f).
Proof.
  intros Hm Hf st Hst. specialize (Hm _ Hst). specialize (Hf (a_world st)). simpl. unfold lift, api_lift.
  destruct (m (a_world st)) as [o w]. simpl in *. split_and!; [done..|]. destruct o; simpl; auto.
Qed.
Lemma auth_safe next rq :
  (∀ now c, ParseWithClaims (APIJWTSecret cfg) now (TrimPrefix (rq_Authorization rq) "Bearer ") = Some c → asafe (next (with_claims rq c))) →
  asafe (auth_tree cfg next rq).
Proof.
  intros Hn. unfold auth_tree. cbv zeta. destruct (negb _); [done|]. apply asafe_read; [apply keeps_time|]. intros _ now _.
  destruct (ParseWithClaims _ _ _) as [c|] eqn:Hc; [|done]. destruct (negb _); [done|].
  apply asafe_read; [apply keeps_redis_read|]. intros _ n _. destruct (match n with Ok _ => _ | _ => _ end); [done|].
  apply asafe_read; [apply keeps_redis_read|]. intros _ rev _. destruct (match rev with Some _ => _ | None => _ end); [done|].
  destruct (_ && _); [done|]. by eapply Hn.
Qed.
Lemma guards_safe ms next rq c :
  forallb (λ m, match m with MAuth => false | _ => true end) ms = true → claimsFrom rq = Some c →
  (forallb (permits c (rq_id rq)) ms = true → asafe (next rq)) → asafe (mws_tree cfg ms next rq).
Proof.
  intros Hms Hc. induction ms as [|m ms IH]; intros Hn; [by apply Hn|]. cbn [forallb] in *. apply andb_prop in Hms as [Hm Hms].
  cbn [mws_tree foldr]. destruct m as [|roles|]; [done|..]; cbn [mw_tree permits] in *; rewrite Hc.
  - destruct (role_allowed _ _); [by apply IH|done].
  - destruct (isPlatformAdmin _); cbn [negb andb orb] in *; [by apply IH|]. destruct (_ =? _)%string; cbn [negb]; [by apply IH|done].
Qed.
Lemma handler_tree_safe r rq c :
  r ∈ routes → rt_mws r ≠ [] → forallb (permits c (rq_id rq)) (rt_mws r) = true → claimsFrom rq = Some c → c_Role c = RoleTenant →
  c_TID c ∈ T → c_Subject c ∈ U → asafe (handler_tree cfg (rt_endpoint r) rq).
Proof.
  intros Hr Hne Hp Hc Hrole HT HU. destruct (writes (rt_endpoint r)) eqn:Hw.
  - destruct (tenant_routes r c (rq_id rq) Hr Hne Hp Hrole Hw) as [->|[[-> | ->] Hid]]; apply safe_lift.
    + apply (changePassword_safe rq c); [done|]. by apply list_elem_of_fmap_2.
    + apply updateTenant_safe. rewrite <-Hid. by apply list_elem_of_fmap_2.
    + apply customizeDot_safe. rewrite <-Hid. by apply list_elem_of_fmap_2.
  - pose proof (psafe_neutral_api _ (apart T U d0) (dc_safe (read_steps cfg (rt_endpoint r) rq))) as Hs.
    destruct (rt_endpoint r); try discriminate Hw; exact Hs.
Qed.
End safe_trees.

(** ** Properties *)

Section theorem.
Context {S R : Type} `{UnicodeCase} `{Cache S} `{CachePing S} `{Redis R} `{RedisSets R} `{RedisCount R} `{RedisSession R}
  `{RedisMore R} `{Collation} `{UUID} `{Bcrypt} `{TenantJSON} `{Clock} `{JWT} `{AuthJSON} `{AdminJSON} `{OpsJSON} `{RandRead}
  `{Lib} `{LogDB} `{DnsLib} `{Network} `{Rand} `{MapAPI} `{!JWTStable} (cfg : Config).

(** A request that bears a token of a tenant user, as it verifies at some
    time, and is not for one of the public routes. *)
Definition tenant_request (rq : Request) (c : Claims) : Prop :=
  c_Role c = RoleTenant ∧ (∃ t, ParseWithClaims (APIJWTSecret cfg) t (TrimPrefix (rq_Authorization rq) "Bearer ") = Some c) ∧
  ∀ r id, find_route routes (rq_method rq) (rq_path rq) = Some (r, id) → rt_mws r ≠ [].

Lemma goroutine_safe T U d0 rq c :
  tenant_request rq c → c_TID c ∈ T → c_Subject c ∈ U →
  psafe (on_world (λ w, apart T U d0 (w_db w))) anything (tenant_goroutine (S := S) (R := R) cfg rq).
Proof.
  intros (Hrole & (t0 & Ht0) & Hroute) HT HU. unfold tenant_goroutine. cbv zeta. destruct (_ =? "OPTIONS")%string; [done|].
  apply psafe_pmap. unfold ServeHTTP_tree. destruct (_ && _); [done|].
  destruct (find_route _ _ _) as [[r id]|] eqn:Hf; [|by case_match]. specialize (Hroute r id eq_refl).
  apply find_route_Some in Hf as (Hr & _). pose proof (routes_guarded r Hr) as Hg. unfold Routes.guarded in Hg.
  destruct (rt_mws r) as [|[| |] ms] eqn:Hms; [done| |done..]. cbn [mws_tree foldr mw_tree].
  apply (auth_safe cfg T U d0 (mws_tree cfg ms (handler_tree cfg (rt_endpoint r)))). intros now c' Hc'.
  assert (c' = c) as -> by (by eapply Parse_stable). eapply guards_safe; [done|reflexivity|]. intros Hp.
  eapply handler_tree_safe; [done|by rewrite Hms| |reflexivity|done..]. by rewrite Hms.
Qed.

(** C3: tenants are isolated under concurrency: however the requests of
    tenant users interleave, statement by statement, with time passing and
    statements failing anywhere, afterwards every row of another tenant and
    of another account, every password history of another account, and all
    groups, upstreams, rules, hot domains, bound domains and bindings are
    what they were. The goroutines interleaved are the requests, cut into
    single statements. *)
Theorem tenants_isolated rqs cs sched (st : ApiState S R) :
  Forall2 tenant_request rqs cs →
  apart (c_TID <$> cs) (c_Subject <$> cs) (db_of st) (db_of (run_pool outside sched (tenant_goroutine cfg <$> rqs, st)).2) ∧
  ∀ rq, made_of (api_op cfg) (tenant_goroutine (S := S) (R := R) cfg rq) ∧ ∀ st : ApiState S R, run (tenant_goroutine cfg rq) st = serve cfg rq st.
Proof.
  intros Hrqs. split; [|intros rq; split; [apply made_tenant_goroutine|apply tenant_goroutine_is]].
  eapply (run_pool_safe outside (on_world (λ w, apart (c_TID <$> cs) (c_Subject <$> cs) (db_of st) (w_db w)))).
  - intros e st' Hst. unfold on_world. by rewrite outside_db.
  - apply Forall_fmap, Forall_forall. intros rq Hrq. apply list_elem_of_lookup_1 in Hrq as [i Hi].
    destruct (Forall2_lookup_l _ _ _ _ _ Hrqs Hi) as (c & Hc & Hq). apply list_elem_of_lookup_2 in Hc.
    eapply goroutine_safe; [exact Hq|by apply list_elem_of_fmap_2..].
  - by split.
Qed.
End theorem.

(** Users of two tenants at the same time, beside a third tenant. *)
Import Demo.
Definition iso_tenant (id prefix : string) : TenantRow :=
  tenant_row id (set_t_prefix demo_tenant prefix) 0 0.
Definition iso_bob : UserRow := demo_account "u2" "bob" "tenant" (Some "t1"%string).
Definition iso_carol : UserRow := demo_account "u3" "carol" "tenant" (Some "t2"%string).
Definition iso_db : DB :=
  set_tenants [iso_tenant "t1" "acme-01"; iso_tenant "t2" "zoo-01"; iso_tenant "t3" "bank-01"] (set_users [iso_bob; iso_carol] demo_api_db).
Definition iso_state : ApiState MemoryCache.t DemoRedis :=
  {| a_world := demo_world iso_db; a_core := demo_core None; a_jobs := ∅; a_logger := None |}.
Definition iso_requests : list Request :=
  [demo_call "POST" "/api/v1/tenants/t1/dot" iso_bob; demo_call "PUT" "/api/v1/tenants/t2" iso_carol; demo_call "PUT" "/api/v1/tenants/t3" iso_carol].
Definition iso_sched : list (nat + Outside) := mjoin (replicate 20 [inl 0%nat; inl 1%nat; inl 2%nat]).
Abbreviation iso_end := (run_pool outside iso_sched (tenant_goroutine Config.demo_config <$> iso_requests, iso_state)).
Example iso_outcome :
  ((λ p, match p with Leaf (Ok (_, r)) => rs_code r | _ => 0 end) <$> iso_end.1, tr_prefix <$> tenants (db_of iso_end.2)) =
  ([200; 200; 403], ["acme-02"; "zoo-01"; "bank-01"]%string).
Proof. vm_compute. reflexivity. Qed.
Lemma iso_tokens : Forall2 (tenant_request Config.demo_config) iso_requests (demo_session <$> [iso_bob; iso_carol; iso_carol]).
Proof.
  repeat constructor; try (exists (1000 * second); vm_compute; reflexivity); intros r id; vm_compute; by intros [= <- <-].
Qed.
Lemma tenants_isolated_witness :
  apart ["t1"; "t2"; "t2"]%string ["u2"; "u3"; "u3"]%string iso_db (db_of iso_end.2) ∧
  others tr_id ["t1"; "t2"; "t2"]%string (tenants iso_db) = [iso_tenant "t3" "bank-01"].
Proof.
  split; [|vm_compute; reflexivity].
  destruct (tenants_isolated Config.demo_config iso_requests (demo_session <$> [iso_bob; iso_carol; iso_carol]) iso_sched iso_state iso_tokens) as [Ha _].
  exact Ha.
Defined.
