(* ===== verification/Dnsd.v ===== *)
(** * The DNS daemon and the management daemon (src/cmd/dnsd/main.go)

    The two processes share the database and Redis. The management daemon
    announces a change by increasing a version in Redis; the DNS daemon polls
    the version, reloads when it differs from the last one it has applied,
    and publishes its statistics for the overview of the management API.
    [step] is the interleaving of the polling loop with configuration
    changes: the version is read in one step and the tables in another, so
    that changes may fall between the two. *)

From Stdlib Require Import QArith.
From S2P Require Import Prelude GoStrings GoNet Config Model DnsMsg Ecs Split StoreCache AnswerCache Dnssec RateLimit Metrics Upstream Ipdb Dualstack Files CertStore Threat Warmup Handler QueryLog Db World Repos Http Auth Admin CertMgr Ops Routes Guarantees.

(** ** The loops of the daemon *)

(** The members of the published statistics. *)
Record StatsPayload := {
  sp_instance_id : string; sp_qps : Q; sp_hit_rate_pct : Q; sp_error_rate_pct : Q; sp_hit_rate_total_pct : Q;
  sp_error_rate_total_pct : Q; sp_total_queries : Z; sp_total_hits : Z; sp_total_errors : Z; sp_ts : Z
}.
Class StatsJSON := { Marshal_stats : StatsPayload → outcome string }.

Record Daemon (S R C : Type) := { dn_core : Core S R; dn_last : Z; dn_certs : CertStore C }.
Arguments dn_core {S R C}. Arguments dn_last {S R C}. Arguments dn_certs {S R C}. Arguments Build_Daemon {S R C}.
(** The daemon and what surrounds it; the number of changes written but not
    announced yet is ghost state. *)
Record System (S R C : Type) := {
  y_world : World R; y_daemon : Daemon S R C; y_read : option Z; y_pending : nat; y_files : Files
}.
Arguments y_world {S R C}. Arguments y_daemon {S R C}. Arguments y_read {S R C}. Arguments y_pending {S R C}.
Arguments y_files {S R C}. Arguments Build_System {S R C}.

Section daemon.
Context {S R K C : Type} `{UnicodeCase} `{Cache S} `{Redis R} `{RedisSets R} `{RedisCount R} `{Collation} `{Lib}
  `{StatsJSON} `{ACME K C} (cfg : Config).

Definition stats_payload (s : Metrics.Stats) (now : Time) : StatsPayload :=
  let '(qps, hitRate, errRate) := Snapshot s in
  let '(tq, th, te) := Totals s in
  let pct (n : Z) := if 0 <? tq then (inject_Z n / inject_Z tq * 100)%Q else 0%Q in
  {| sp_instance_id := InstanceID cfg; sp_qps := qps; sp_hit_rate_pct := hitRate; sp_error_rate_pct := errRate;
     sp_hit_rate_total_pct := pct th; sp_error_rate_total_pct := pct te; sp_total_queries := tq; sp_total_hits := th;
     sp_total_errors := te; sp_ts := Unix now |}.
(** One tick of the publisher. *)
Definition push_stats (s : Metrics.Stats) : act R unit :=
  now ← time_Now;
  match Marshal_stats (stats_payload s now) with
  | Ok payload => redis (λ r now, ((rdb_set r now "dns:stats:overview" payload (15 * second)).1, ()))
  | _ => mret ()
  end.

(** [rdb.Get(ctx, "dns:config:version").Int64()] *)
Definition config_version (w : World R) : option Z :=
  match rdb_get (w_rdb w) (w_now w) "dns:config:version" with Ok (Some v) => Atoi v | _ => None end.
(** The two halves of a tick: the version that calls for a reload, and the
    reload; [core.ReloadAll] reads the tables of the world. *)
Definition poll_read (d : Daemon S R C) (w : World R) : option Z :=
  match config_version w with
  | Some v => if v =? dn_last d then None else Some v
  | None => None
  end.
Definition poll_reload (f : Files) (v : Z) (d : Daemon S R C) (w : World R) : Daemon S R C * World R :=
  let '(o, st) := core_ReloadAll {| a_world := w; a_core := dn_core d; a_jobs := ∅; a_logger := None |} in
  ({| dn_core := a_core st; dn_last := match o with Ok _ => v | _ => dn_last d end;
      dn_certs := RefreshCerts cfg f (dn_certs d) |}, a_world st).
(** One tick of the loop. *)
Definition poll (f : Files) (d : Daemon S R C) (w : World R) : Daemon S R C * World R :=
  match poll_read d w with
  | Some v => poll_reload f v d w
  | None => (d, w)
  end.

(** The start of the daemon up to its loops: the core over the given cache
    and query log, a first reload whose failure is only logged, and the
    certificates on disk. *)
Definition boot `{GBK} (files : string → option string) (v4file : outcome (list Z)) (v6file : outcome string)
    (listen : outcome unit) (cacheDrv : S) (lg : option (list QueryLogRow)) (f : Files) (w : World R)
    : outcome (Daemon S R C * option Broadcaster * World R) :=
  match NewCore files v4file v6file listen cfg cacheDrv lg (Some (w_rdb w)) with
  | Ok (c, b) =>
      match core_ReloadAll {| a_world := w; a_core := c; a_jobs := ∅; a_logger := None |} with
      | (Panic, _) => Panic
      | (_, st) =>
          Ok ({| dn_core := a_core st; dn_last := -1; dn_certs := RefreshCerts cfg f ∅ |}, b, a_world st)
      end
  | Err e => Err e
  | Panic => Panic
  end.

(** ** Polling and changing, interleaved *)

(** The tables a reload reads that decide how queries are answered. *)
Definition config_tables (d : DB) : list GroupRow * list UpstreamRow * list TenantRow * list RuleRow :=
  (upstream_groups d, upstreams d, tenants d, split_rules d).
Inductive step : System S R C → System S R C → Prop :=
| step_change w dm rd n f d :                                   (* a handler writes configuration *)
    step {| y_world := w; y_daemon := dm; y_read := rd; y_pending := n; y_files := f |}
         {| y_world := World.set_db d w; y_daemon := dm; y_read := rd; y_pending := Datatypes.S n; y_files := f |}
| step_announce w dm rd n f v :                                 (* and announces it *)
    (rdb_incr (w_rdb w) (w_now w) "dns:config:version").2 = Ok v →
    step {| y_world := w; y_daemon := dm; y_read := rd; y_pending := Datatypes.S n; y_files := f |}
         {| y_world := (bumpConfig w).2; y_daemon := dm; y_read := rd; y_pending := n; y_files := f |}
| step_other w w' dm rd n f f' :                                (* anything else, time included *)
    config_tables (w_db w') = config_tables (w_db w) → config_version w' = config_version w →
    step {| y_world := w; y_daemon := dm; y_read := rd; y_pending := n; y_files := f |}
         {| y_world := w'; y_daemon := dm; y_read := rd; y_pending := n; y_files := f' |}
| step_read w dm n f v :
    poll_read dm w = Some v →
    step {| y_world := w; y_daemon := dm; y_read := None; y_pending := n; y_files := f |}
         {| y_world := w; y_daemon := dm; y_read := Some v; y_pending := n; y_files := f |}
| step_reload w dm n f v :
    step {| y_world := w; y_daemon := dm; y_read := Some v; y_pending := n; y_files := f |}
         {| y_world := (poll_reload f v dm w).2; y_daemon := (poll_reload f v dm w).1; y_read := None; y_pending := n; y_files := f |}.
Definition reachable (s0 s : System S R C) : Prop := rtc step s0 s.

(** The core answers by the tables: groups, upstreams, pinned groups and
    rules are those of the database. *)
Definition in_step (d : DB) (c : Core S R) : Prop :=
  (∃ up0, c_up c = Upstream.Reload up0 (list_groups d) (list_upstreams d) (list_tenants d)) ∧
  c_split c = Split.Reload regexp_Compile (listed_rules d).
End daemon.

(** ** Lemmas *)

(** INCR adds one to the number a key holds (0 if there is none), which GET
    reads back; the result stays in the range of a signed 64-bit integer. *)
Class RedisCounter (R : Type) `{Redis R} `{RedisCount R} : Prop := {
  incr_value : ∀ r now k n, (rdb_incr r now k).2 = Ok n →
    rdb_get (rdb_incr r now k).1 now k = Ok (Some (fmt_d n)) ∧ n ≤ 9223372036854775807 ∧
    (rdb_get r now k = Ok None ∧ n = 1 ∨ ∃ v, rdb_get r now k = Ok (Some v) ∧ Atoi v = Some (n - 1));
}.

Section reload.
Context {S R K C : Type} `{UnicodeCase} `{Cache S} `{Redis R} `{RedisSets R} `{RedisCount R} `{RedisSession R} `{Collation} `{Lib}
  `{StatsJSON} `{ACME K C} `{!RedisDelLaws R} `{!RedisFrame R} `{!RedisCounter R} (cfg : Config).
Implicit Types st : ApiState S R.

Lemma w_set_faults fl (w : World R) :
  w_db (set_faults fl w) = w_db w ∧ config_version (set_faults fl w) = config_version w.
Proof. by destruct w. Qed.
(** A statement that only reads, and delivers values that fit the tables. *)
Definition reads {A} (Q : DB → A → Prop) (m : act R A) : Prop :=
  ∀ w, ∃ o fl, m w = (o, set_faults fl w) ∧ match o with Ok a => Q (w_db w) a | _ => True end.
Lemma reads_query {A} (f : DB → A) : reads (λ d a, a = f d) (query f).
Proof.
  intros w. unfold query, next_fault. destruct w as [db au r now fr [|o fl] me al]; simpl; [by exists (Ok (f db)), []|].
  destruct o as [e|]; [by exists (Err e), fl|by exists (Ok (f db)), fl].
Qed.
Lemma reads_try {A} (Q : DB → A → Prop) (m : act R A) : reads Q m → reads (λ _ _, True) (try_ m).
Proof.
  intros Hm w. destruct (Hm w) as (o & fl & Hr & _). unfold try_. rewrite Hr.
  destruct o as [a|e|]; [by exists (Ok (Ok a)), fl|by exists (Ok (Err e)), fl|by exists Panic, fl].
Qed.
Lemma set_faults_twice fl fl' (w : World R) : set_faults fl' (set_faults fl w) = set_faults fl' w.
Proof. by destruct w. Qed.
Lemma reads_groups : reads (λ d a, a = list_groups d) ListGroups.
Proof.
  intros w. unfold ListGroups, ListUpstreams, mbind, act_bind.
  destruct (reads_query (λ d, order_by (λ a b, cle (gr_name a) (gr_name b)) (upstream_groups d)) w) as (o & fl & -> & Ho).
  destruct o as [rows|e|]; [|by exists (Err e), fl|by exists Panic, fl]. rewrite Ho.
  destruct (reads_query (λ d, scan_upstream <$> order_by upstream_le (upstreams d)) (set_faults fl w)) as (o & fl' & -> & Ho').
  rewrite set_faults_twice. destruct (w_set_faults fl w) as [Hd _]. rewrite Hd in Ho'.
  destruct o as [us|e|]; [|by exists (Err e), fl'|by exists Panic, fl']. exists (Ok (list_groups (w_db w))), fl'.
  split; [|done]. rewrite Ho'. done.
Qed.

(** What a reload does: database and version stay; it succeeds with a core
    that is in step, or leaves the core alone. *)
Definition reloaded st (res : outcome unit * ApiState S R) : Prop :=
  w_db (a_world res.2) = w_db (a_world st) ∧ config_version (a_world res.2) = config_version (a_world st) ∧
  match res.1 with
  | Ok _ => in_step (w_db (a_world st)) (a_core res.2)
  | _ => a_core res.2 = a_core st
  end.
Lemma reloaded_bind {A} (Q : DB → A → Prop) (m : act R A) (k : A → api S R unit) st :
  reads Q m →
  (∀ a st', Q (w_db (a_world st)) a → w_db (a_world st') = w_db (a_world st) → a_core st' = a_core st → reloaded st' (k a st')) →
  reloaded st ((lift m ≫= k) st).
Proof.
  intros Hm Hk. unfold mbind, api_bind, lift, api_lift. destruct (Hm (a_world st)) as (o & fl & -> & Ho).
  destruct (w_set_faults fl (a_world st)) as [Hd Hv]. destruct o as [a|e|]; [|by split_and!..].
  destruct (Hk a (set_world (set_faults fl (a_world st)) st) Ho Hd eq_refl) as (H1' & H2' & H3').
  cbn [a_world set_world a_core] in *. rewrite Hd in H1', H3'. rewrite Hv in H2'.
  split_and!; [exact H1'|exact H2'|exact H3'].
Qed.
Lemma get_reload_hot now now' hs (r : R) k :
  HasPrefix k "dns:hot:" = false → rdb_get (foldl (reload_hot_tenant now) r hs) now' k = rdb_get r now' k.
Proof.
  intros Hk. revert r. induction hs as [|[t ds] hs IH]; intros r; [done|]. simpl. rewrite IH. unfold reload_hot_tenant. simpl.
  assert (hot_key t ≠ k) as Hne by (intros <-; unfold hot_key in Hk; by rewrite HasPrefix_app in Hk).
  destruct ds; [|rewrite get_sadd_ne by done]; by apply rdb_get_del_ne.
Qed.
Lemma core_ReloadAll_reloaded st : reloaded st (core_ReloadAll st).
Proof.
  unfold core_ReloadAll.
  eapply reloaded_bind; [apply reads_groups|intros gs st1 -> D1 C1].
  eapply reloaded_bind; [apply reads_query|intros us st2 -> D2 C2].
  eapply reloaded_bind; [apply reads_query|intros ts st3 -> D3 C3].
  eapply reloaded_bind; [apply reads_query|intros rs st4 -> D4 C4].
  eapply reloaded_bind; [apply reads_query|intros hs st5 _ D5 C5].
  eapply reloaded_bind; [eapply reads_try, reads_query|intros bs st6 _ D6 C6].
  assert (w_db (a_world st3) = w_db (a_world st) ∧ w_db (a_world st2) = w_db (a_world st) ∧
    w_db (a_world st1) = w_db (a_world st) ∧ w_db (a_world st6) = w_db (a_world st)) as (-> & -> & -> & D) by (split_and!; congruence).
  clear D1 D2 D3 D4 D5 D6.
  unfold core_do. destruct st6 as [w c jobs lg]. cbn [a_world a_core] in *.
  destruct c, w. simpl in *. unfold reloaded. cbn [fst snd a_world a_core]. split_and!.
  - done.
  - unfold config_version. cbn. by rewrite get_reload_hot.
  - unfold in_step. simpl. rewrite D. split; [eexists; reflexivity|reflexivity].
Qed.

(** A reload of the daemon, in these terms. *)
Lemma poll_reload_spec f v (dm : Daemon S R C) (w : World R) :
  let '(dm', w') := poll_reload cfg f v dm w in
  w_db w' = w_db w ∧ config_version w' = config_version w ∧
  (dn_last dm' = v ∧ in_step (w_db w) (dn_core dm') ∨ dn_last dm' = dn_last dm ∧ dn_core dm' = dn_core dm).
Proof.
  unfold poll_reload. pose proof (core_ReloadAll_reloaded {| a_world := w; a_core := dn_core dm; a_jobs := ∅; a_logger := None |}) as Hr.
  destruct (core_ReloadAll _) as [o st]. destruct Hr as (Hd & Hv & Hc). cbn [fst snd a_world a_core] in *.
  split_and!; [done|done|]. destruct o; [by left|by right..].
Qed.
Lemma in_step_tables d d' (c : Core S R) : config_tables d' = config_tables d → in_step d c → in_step d' c.
Proof.
  unfold config_tables, in_step, list_groups, list_upstreams, list_tenants, listed_rules. intros [= -> -> -> ->]. done.
Qed.

Record sys_inv (s : System S R C) : Prop := {
  si_bound : match config_version (y_world s) with
             | Some v => 0 ≤ v ∧ dn_last (y_daemon s) ≤ v ∧ (∀ u, y_read s = Some u → u ≤ v)
             | None => dn_last (y_daemon s) < 1 ∧ y_read s = None
             end;
  si_step : y_pending s = O → config_version (y_world s) = Some (dn_last (y_daemon s)) →
            in_step (w_db (y_world s)) (dn_core (y_daemon s));
}.
(** An announcement raises the version. *)
Lemma announce_version (w : World R) v :
  (rdb_incr (w_rdb w) (w_now w) "dns:config:version").2 = Ok v →
  0 ≤ default 0 (config_version w) →
  config_version (bumpConfig w).2 = Some v ∧ w_db (bumpConfig w).2 = w_db w ∧
  match config_version w with Some u => v = u + 1 | None => v = 1 end.
Proof.
  intros Hi H0'. destruct (incr_value _ _ _ _ Hi) as (Hg & Hmax & Hold).
  unfold bumpConfig, redis. destruct (rdb_incr _ _ _) as [r o] eqn:E. destruct w as [db au r0 now fr fa me al].
  unfold config_version in *. cbn in *. rewrite Hg. destruct Hold as [[Hn ->]|(x & Hx & Ha)].
  - rewrite Hn. split_and!; [|done|done]. by apply Atoi_fmt_d.
  - rewrite Hx, Ha in *. simpl in H0'. split_and!; [apply Atoi_fmt_d; lia|done|lia].
Qed.
Lemma step_inv s s' : step cfg s s' → sys_inv s → sys_inv s'.
Proof.
  intros Hs [Hb Hi]. destruct Hs as [w dm rd n f d|w dm rd n f v Hv|w w' dm rd n f f' Hd Hv|w dm n f v Hp|w dm n f v]; cbn [y_world y_daemon y_read y_pending] in *.
  - split; cbn [y_world y_daemon y_read y_pending]; [|done]. destruct w; exact Hb.
  - destruct (announce_version w v Hv) as (Hv' & _ & Hn); [destruct (config_version w); simpl; lia|].
    split; cbn [y_world y_daemon y_read y_pending]; rewrite Hv'.
    + destruct (config_version w) as [u|].
      * destruct Hb as (? & ? & Hr). split_and!; [lia|lia|]. intros x Hx. specialize (Hr x Hx). lia.
      * destruct Hb as [? ->]. split_and!; [lia|lia|done].
    + intros _ [= Heq]. destruct (config_version w); lia.
  - split; cbn [y_world y_daemon y_read y_pending]; rewrite Hv; [done|]. intros Hn Hl. eapply in_step_tables; eauto.
  - split; cbn [y_world y_daemon y_read y_pending]; [|done]. unfold poll_read in Hp.
    destruct (config_version w) as [u|]; [|done]. destruct (u =? dn_last dm); [done|]. injection Hp as <-.
    destruct Hb as (? & ? & _). split_and!; [done|done|]. intros x [= <-]. lia.
  - pose proof (poll_reload_spec f v dm w) as Hr. destruct (poll_reload cfg f v dm w) as [dm' w']. cbn [fst snd].
    destruct Hr as (Hd & Hv & Hc). split; cbn [y_world y_daemon y_read y_pending]; rewrite Hv.
    + destruct (config_version w) as [u|]; [|by destruct Hb]. destruct Hb as (? & ? & Hr). specialize (Hr v eq_refl).
      split_and!; [done| |done]. destruct Hc as [[-> _]|[-> _]]; done.
    + rewrite Hd. destruct Hc as [[_ Hin]|[-> ->]]; auto.
Qed.
Lemma reachable_sys_inv s0 s : sys_inv s0 → reachable cfg s0 s → sys_inv s.
Proof. intros H0' Hr. induction Hr; [done|]. eauto using step_inv. Qed.
Lemma calm_reload f v (dm : Daemon S R C) (w : World R) :
  w_faults w = [] → in_step (w_db w) (dn_core (poll_reload cfg f v dm w).1).
Proof.
  intros Hf. destruct (core_ReloadAll_run {| a_world := w; a_core := dn_core dm; a_jobs := ∅; a_logger := None |} Hf) as (st' & Hr & _).
  pose proof (core_ReloadAll_reloaded {| a_world := w; a_core := dn_core dm; a_jobs := ∅; a_logger := None |}) as (_ & _ & Hc).
  unfold poll_reload. rewrite Hr in *. exact Hc.
Qed.
End reload.

(** ** Demonstration *)

#[global] Instance demo_redis_counter : RedisCounter DemoRedis.
Proof.
  split. intros r now k n. cbn. destruct (dr_str r !! k) as [v|] eqn:Hv.
  - destruct (Atoi v) as [m|] eqn:Hm; [|done]. destruct (Z.ltb_spec m 9223372036854775807); [|done]. intros [= <-]. cbn.
    rewrite lookup_insert_eq. split_and!; [done|lia|]. right. exists v. split; [done|]. rewrite Hm. f_equal. lia.
  - intros [= <-]. cbn. rewrite lookup_insert_eq. split_and!; [done|lia|by left].
Qed.
Definition demo_stats_json : StatsJSON := {| Marshal_stats _ := Ok "{}"%string |}.
Definition demo_daemon : Daemon MemoryCache.t DemoRedis string := {| dn_core := demo_core None; dn_last := -1; dn_certs := ∅ |}.
Definition demo_system : System MemoryCache.t DemoRedis string :=
  {| y_world := demo_world demo_api_db; y_daemon := demo_daemon; y_read := None; y_pending := O; y_files := demo_files |}.

(** ** Properties *)

(** The daemon has just started: it has applied no version yet. *)
Definition started {S R C} `{Redis R} (s : System S R C) : Prop :=
  dn_last (y_daemon s) = -1 ∧ y_read s = None ∧ ∀ v, config_version (y_world s) = Some v → 0 ≤ v.

Lemma boot_started {S R K C} `{UnicodeCase} `{Cache S} `{Redis R} `{RedisSets R} `{RedisCount R} `{RedisSession R}
    `{Collation} `{Lib} `{ACME K C} `{GBK} `{!RedisDelLaws R} `{!RedisFrame R} (cfg : Config) files v4 v6 listen (st : S) lg f (w : World R)
    (d : Daemon S R C) b w' :
  boot cfg files v4 v6 listen st lg f w = Ok (d, b, w') → (∀ v, config_version w = Some v → 0 ≤ v) →
  started {| y_world := w'; y_daemon := d; y_read := None; y_pending := O; y_files := f |} ∧ w_db w' = w_db w.
Proof.
  intros Hb Hv. unfold boot in Hb. destruct (NewCore _ _ _ _ _ _ _ _) as [[c b']| |]; [|done..].
  destruct (core_ReloadAll_reloaded {| a_world := w; a_core := c; a_jobs := ∅; a_logger := None |}) as (Hd & Hver & _).
  destruct (core_ReloadAll _) as [[]  st']; simplify_eq; cbn in Hd, Hver; (split; [|done]); unfold started; cbn;
    rewrite Hver; done.
Qed.

Definition demo_changed : System MemoryCache.t DemoRedis string :=
  {| y_world := (bumpConfig (World.set_db (set_split_rules [rule_row demo_rule 0] demo_api_db) (demo_world demo_api_db))).2;
     y_daemon := demo_daemon; y_read := None; y_pending := O; y_files := demo_files |}.
Section demo.
Import Demo.
#[local] Existing Instances demo_acme.
End demo.

(** Documented behaviour of [encoding/json]: the object decodes to the
    members the overview looks for. *)
Class StatsJSONLaws `{StatsJSON} `{OpsJSON} : Prop := {
  Decode_Marshal_stats : ∀ p s, Marshal_stats p = Ok s → s ≠ ""%string ∧ Decode_published s = Some
    {| pb_qps := Some (sp_qps p); pb_hit_rate_pct := Some (sp_hit_rate_pct p); pb_error_rate_pct := Some (sp_error_rate_pct p);
       pb_total_queries := Some (inject_Z (sp_total_queries p)); pb_total_hits := Some (inject_Z (sp_total_hits p));
       pb_total_errors := Some (inject_Z (sp_total_errors p)); pb_instance_id := Some (sp_instance_id p) |};
}.

Lemma push_stats_run {R} `{Redis R} `{StatsJSON} cfg s (w : World R) payload :
  Marshal_stats (stats_payload cfg s (w_now w)) = Ok payload →
  (push_stats cfg s w).2 = World.set_rdb (rdb_set (w_rdb w) (w_now w) "dns:stats:overview" payload (15 * second)).1 w.
Proof. intros Hm. unfold push_stats, mbind, act_bind, time_Now. cbv beta iota. by rewrite Hm. Qed.
Lemma Qtrunc_inject z : Qtrunc (inject_Z z) = z.
Proof. unfold Qtrunc. simpl. by rewrite Z.quot_1_r. Qed.
(** The overview of the management API shows the DNS daemon: within
    fifteen seconds of a published tick it is the overview the daemon itself
    would show of its counters, whatever the counters of the API process. *)
Theorem overview_published {S R} `{UnicodeCase} `{Cache S} `{Redis R} `{RedisSets R} `{RedisCount R} `{RedisSession R} `{RedisMore R}
    `{Collation} `{OpsJSON} `{StatsJSON} `{!StatsJSONLaws} `{!RedisKeeps R} (dcfg acfg : Config) (s : Metrics.Stats) (st : ApiState S R) rq c payload now' :
  let w := a_world st in
  claimsFrom rq = Some c → (c_Role c =? RoleTenant)%string = false → InstanceID dcfg ≠ ""%string →
  Marshal_stats (stats_payload dcfg s (w_now w)) = Ok payload →
  (rdb_set (w_rdb w) (w_now w) "dns:stats:overview" payload (15 * second)).2 = None →
  w_now w ≤ now' < w_now w + 15 * second →
  let st' := set_world (World.set_now now' (push_stats dcfg s w).2) st in
  statsOverview acfg rq st' = (Ok {| rs_code := StatusOK; rs_body := BOverview (local_overview (InstanceID dcfg) s) |}, st').
Proof.
  intros w Hc Hrole Hid Hm Hset Ht st'. destruct (Decode_Marshal_stats _ _ Hm) as [Hne Hdec].
  assert (rdb_get (w_rdb (a_world st')) (w_now (a_world st')) "dns:stats:overview" = Ok (Some payload)) as Hget.
  { unfold st'. cbn [a_world set_world]. rewrite push_stats_run with (payload := payload) by done. fold w.
    destruct w. cbn in *. by apply rdb_get_set_fresh. }
  assert (published_overview (InstanceID acfg) {|
    pb_qps := Some (sp_qps (stats_payload dcfg s (w_now w))); pb_hit_rate_pct := Some (sp_hit_rate_pct (stats_payload dcfg s (w_now w)));
    pb_error_rate_pct := Some (sp_error_rate_pct (stats_payload dcfg s (w_now w)));
    pb_total_queries := Some (inject_Z (sp_total_queries (stats_payload dcfg s (w_now w))));
    pb_total_hits := Some (inject_Z (sp_total_hits (stats_payload dcfg s (w_now w))));
    pb_total_errors := Some (inject_Z (sp_total_errors (stats_payload dcfg s (w_now w))));
    pb_instance_id := Some (sp_instance_id (stats_payload dcfg s (w_now w))) |} = local_overview (InstanceID dcfg) s) as Hov.
  { unfold published_overview, local_overview, stats_payload. destruct (Snapshot s) as [[qps hr] er]. unfold Totals.
    cbn [pb_qps pb_hit_rate_pct pb_error_rate_pct pb_total_queries pb_total_hits pb_total_errors pb_instance_id sp_qps sp_hit_rate_pct
         sp_error_rate_pct sp_total_queries sp_total_hits sp_total_errors sp_instance_id].
    rewrite !Qtrunc_inject. apply String.eqb_neq in Hid. by rewrite Hid. }
  unfold statsOverview. unfold mbind at 1, api_bind at 1, lift at 1, api_lift at 1, redis_read. rewrite Hget. cbv beta iota.
  rewrite set_world_id. apply String.eqb_neq in Hne. rewrite Hne, Hdec, Hov, Hc, Hrole.
  unfold mbind, api_bind, mret, api_ret, reply, lift, api_lift, writeJSON, mret, act_ret. cbv beta iota. by rewrite set_world_id.
Qed.

(** Deleting a tenant removes its rules with it (ON DELETE CASCADE) but
    announces nothing: the daemon that was in step keeps the rule of the
    deleted tenant, and its next poll does not reload. *)
Section demo_delete.
Import Demo.
#[local] Existing Instances demo_acme.
Definition demo_tenant_rule : RuleRow :=
  {| rr_id := "r1"; rr_tenant_id := Some "t1"%string; rr_name := "own"; rr_match_type := "suffix"; rr_match_value := "cn"; rr_group_id := "g1";
     rr_priority := 5; rr_enabled := true; rr_created_at := 0 |}.
Definition demo_before : World DemoRedis := (bumpConfig (demo_world (set_split_rules [demo_tenant_rule] demo_api_db))).2.
Definition demo_deleted : World DemoRedis :=
  a_world (serve demo_config (demo_call "DELETE" "/api/v1/tenants/t1" demo_sysadmin)
             {| a_world := demo_before; a_core := demo_core None; a_jobs := ∅; a_logger := None |}).2.
Example tenant_delete_unannounced :
  let d := (poll demo_config demo_files demo_daemon demo_before).1 in
  split_rules (w_db demo_deleted) = [] ∧ dn_last d = 1 ∧ poll demo_config demo_files d demo_deleted = (d, demo_deleted).
Proof. split_and!; vm_compute; reflexivity. Qed.
End demo_delete.

(** ** The unused publisher (src/internal/dnsx/metrics.go [FlushToRedis]) *)

(** HSET; go-redis sends numbers as their text. *)
Inductive HVal := HStr (s : string) | HFloat (q : Q) | HInt (z : Z).
Class RedisHash (R : Type) := { rdb_hset : R → Time → string → list (string * HVal) → R * option string }.
(** A key holds a string or a hash; a command for the other type fails and
    changes nothing. *)
Class RedisHashLaws (R : Type) `{Redis R} `{RedisHash R} : Prop := {
  hset_string : ∀ r now k v fs, rdb_get r now k = Ok (Some v) → ∃ e, rdb_hset r now k fs = (r, Some e);
  get_hash : ∀ r now k fs, (rdb_hset r now k fs).2 = None → ∃ e, rdb_get (rdb_hset r now k fs).1 now k = Err e;
}.
Definition overview_fields (s : Metrics.Stats) (instanceID : string) (now : Time) : list (string * HVal) :=
  let '(qps, hitRate, errRate) := Snapshot s in
  let '(q, hit, err) := Totals s in
  [("instance_id"%string, HStr instanceID); ("qps"%string, HFloat qps); ("hit_rate_pct"%string, HFloat hitRate);
   ("error_rate_pct"%string, HFloat errRate); ("total_queries"%string, HInt q); ("total_hits"%string, HInt hit);
   ("total_errors"%string, HInt err); ("updated_at"%string, HInt (Unix now))].
Definition FlushToRedis {R} `{RedisHash R} (s : Metrics.Stats) (instanceID : string) : act R unit :=
  now ← time_Now;
  e ← redis (λ r now', rdb_hset r now' "dns:stats:overview" (overview_fields s instanceID now));
  match e with None => mret () | Some e => fail e end.

Lemma FlushToRedis_run {R} `{RedisHash R} s id (w : World R) :
  FlushToRedis s id w =
  let '(r, e) := rdb_hset (w_rdb w) (w_now w) "dns:stats:overview" (overview_fields s id (w_now w)) in
  (match e with None => Ok () | Some e => Err e end, World.set_rdb r w).
Proof. unfold FlushToRedis, mbind, act_bind, time_Now, redis. cbv beta iota. by destruct (rdb_hset _ _ _ _) as [r [e|]]. Qed.
(** It shares its key with [push_stats] but not the type of the value:
    while a published text is there it fails and changes nothing, and where
    it succeeds the overview shows the counters of the API process instead of
    those of the DNS daemon. *)
Lemma FlushToRedis_refused {R} `{RedisHashLaws R} s id (w : World R) v :
  rdb_get (w_rdb w) (w_now w) "dns:stats:overview" = Ok (Some v) → ∃ e, FlushToRedis s id w = (Err e, w).
Proof.
  intros Hv. rewrite FlushToRedis_run. destruct (hset_string _ _ _ _ (overview_fields s id (w_now w)) Hv) as [e ->].
  exists e. by destruct w.
Qed.
Lemma FlushToRedis_hides {S R} `{UnicodeCase} `{Cache S} `{RedisHashLaws R} `{RedisSets R} `{RedisCount R} `{RedisSession R} `{RedisMore R}
    `{Collation} `{OpsJSON} (cfg : Config) s id (st : ApiState S R) rq c :
  claimsFrom rq = Some c → (c_Role c =? RoleTenant)%string = false → (FlushToRedis s id (a_world st)).1 = Ok () →
  let st' := set_world (FlushToRedis s id (a_world st)).2 st in
  statsOverview cfg rq st' = (Ok {| rs_code := StatusOK; rs_body := BOverview (local_overview (InstanceID cfg) (c_stats (a_core st))) |}, st').
Proof.
  intros Hc Hrole. rewrite FlushToRedis_run.
  pose proof (get_hash (w_rdb (a_world st)) (w_now (a_world st)) "dns:stats:overview" (overview_fields s id (w_now (a_world st)))) as Hg.
  destruct (rdb_hset _ _ _ _) as [r [e|]]; [done|]. intros _ st'. destruct (Hg eq_refl) as [e He]. cbn [fst] in He.
  assert (rdb_get (w_rdb (a_world st')) (w_now (a_world st')) "dns:stats:overview" = Err e) as Hget.
  { unfold st'. cbn [a_world set_world snd]. by destruct (a_world st). }
  unfold statsOverview. unfold mbind at 1, api_bind at 1, lift at 1, api_lift at 1, redis_read. rewrite Hget. cbv beta iota.
  rewrite set_world_id. rewrite Hc, Hrole. unfold mbind, api_bind, core_get, mret, api_ret, reply, lift, api_lift, writeJSON, mret, act_ret. cbv beta iota.
  by rewrite set_world_id.
Qed.
(** The laws on a map of typed values. *)
Module HashDemo.
Abbreviation t := (gmap string (string + list (string * HVal))).
#[export] Instance hash_redis : Redis t := {|
  rdb_get r _ k := match r !! k with Some (inl v) => Ok (Some v) | Some (inr _) => Err "WRONGTYPE" | None => Ok None end;
  rdb_set r _ k v _ := (<[k := inl v]> r, None);
  rdb_del r _ ks := (foldl (λ r k, delete k r) r ks, None);
  rdb_scan r _ _ := ((map_to_list r).*1, None);
|}.
#[export] Instance hash_hset : RedisHash t := {|
  rdb_hset r _ k fs := match r !! k with
                       | Some (inl _) => (r, Some "WRONGTYPE"%string)
                       | Some (inr old) => (<[k := inr (fs ++ old)]> r, None)
                       | None => (<[k := inr fs]> r, None)
                       end |}.
#[export] Instance hash_laws : RedisHashLaws t.
Proof.
  split.
  - intros r now k v fs. simpl. destruct (r !! k) as [[|]|]; [eauto|done..].
  - intros r now k fs. simpl. destruct (r !! k) as [[|]|]; simpl; [done|..]; rewrite lookup_insert_eq; eauto.
Qed.
End HashDemo.
