(* ===== verification/Boot.v ===== *)
(** * Starting the two daemons (src/cmd/apid/main.go, src/cmd/dnsd/main.go,
    src/internal/api/server.go [New] and [Start])

    A start is a sequence of fallible steps. It ends with the daemon up, with
    [log.Fatalf], or with a panic; the trace records the goroutines launched,
    the sockets bound and the channels served, in that order. *)

From S2P Require Import Prelude GoStrings GoNet Config Model StoreCache Warmup Upstream Ipdb Files CertStore Handler Server Lifecycle QueryLog Db World Repos Auth Admin CertMgr Ops Guarantees Dnsd.

(** A channel of the management API: its address and, with mTLS, the CAs
    that client certificates must come from. *)
Record Channel := { ch_addr : string; ch_clientCAs : option string }.
(** A goroutine is recorded with what its first statement does: [NewTicker]
    panics on an interval that is not positive, and with it the process. *)
Inductive Ev := Spawn (name : string) (first : outcome unit) | Bind (addr : string) | Serve (ch : Channel).
Inductive Ended (A : Type) := Up (a : A) | Exit (msg : string) | Crash.
Arguments Up {A}. Arguments Exit {A}. Arguments Crash {A}.
Definition startup (A : Type) : Type := list Ev * Ended A.
#[global] Instance startup_ret : MRet startup := λ A a, ([], Up a).
#[global] Instance startup_bind : MBind startup := λ A B k m,
  match m.2 with
  | Up a => (m.1 ++ (k a).1, (k a).2)
  | Exit msg => (m.1, Exit msg)
  | Crash => (m.1, Crash)
  end.
Definition emit (e : Ev) : startup unit := ([e], Up ()).
(** [if err != nil { log.Fatalf(what, err) }] *)
Definition fatal {A} (what : string) (o : outcome A) : startup A :=
  ([], match o with Ok a => Up a | Err e => Exit (what +:+ e)%string | Panic => Crash end).

(** What lies outside the process: the servers' answers to a ping, the
    addresses that can be bound, the certificates of a PEM text. *)
Class Host := {
  redis_Ping : string → string → Z → option string;
  sql_Open : string → option string;
  sql_Ping : string → option string;
  net_Listen : string → option string;
  AppendCertsFromPEM : string → bool;
}.
Definition wrapped (what : string) (e : option string) : outcome unit :=
  match e with Some e => Err (what +:+ e)%string | None => Ok () end.
Definition NewTicker (d : Z) : outcome unit := if d <=? 0 then Panic else Ok ().

Section stores.
Context `{Host}.
Definition NewRedisCache (addr password : string) (db : Z) : outcome unit := wrapped "redis ping: " (redis_Ping addr password db).
Definition NewMySQLStore (dsn : string) : outcome unit :=
  match sql_Open dsn with
  | Some e => Err ("mysql open: " +:+ e)%string
  | None => wrapped "mysql ping: " (sql_Ping dsn)
  end.
(** No goroutine receives from its channel. *)
Definition NewStdoutLogWriter : QueryLogWriter := NewQueryLogWriter 0 [].
Definition new_log (cfg : Config) : startup QueryLogWriter :=
  if (LogDriver cfg =? "mysql")%string then
    _ ← emit (Spawn "querylog" (NewTicker (LogFlushInterval cfg)));
    mret (NewQueryLogWriter (LogBatchSize cfg) [])
  else mret NewStdoutLogWriter.
(** The cache, the database and the query log, opened in the same way by
    both daemons. *)
Definition open_stores (cfg : Config) : startup QueryLogWriter :=
  _ ← (if (CacheDriver cfg =? "redis")%string
       then fatal "redis: " (NewRedisCache (RedisAddr cfg) (RedisPassword cfg) (RedisDB cfg)) else mret ());
  _ ← fatal "mysql: " (NewMySQLStore (MySQLDSN cfg));
  new_log cfg.
(** The first probe two seconds after the start is [time.AfterFunc]'s. *)
Definition StartHealthChecks (cfg : Config) : startup unit := emit (Spawn "health" (NewTicker (HealthInterval cfg))).
End stores.

Section daemons.
Context {S R K C : Type} `{UnicodeCase} `{Redis R} `{RedisSets R} `{Collation} `{Lib} `{ACME K C} `{GBK} `{Host}.

(** *** The channels of the management API *)

Definition mustCert (cfg : Config) (f : Files) : startup (Loaded C) :=
  match LoadX509KeyPair f (TLSCertFile cfg) (TLSKeyFile cfg) with
  | Some c => mret c
  | None => ([], Exit "load tls cert")
  end.
(** The CAs of the admin channel: [None] without mTLS. *)
Definition admin_CAs (cfg : Config) (f : Files) : startup (outcome (option string)) :=
  if (APIMTLSCAFile cfg =? "")%string then mret (Ok None)
  else match (ReadFile f (APIMTLSCAFile cfg)).1 with
       | Ok pem =>
           if AppendCertsFromPEM pem then _ ← mustCert cfg f; mret (Ok (Some pem))
           else mret (Err "mtls ca: no certificates parsed")
       | Err e => mret (Err ("mtls ca: " +:+ e)%string)
       | Panic => ([], Crash)
       end.
(** [API.Start]: the error it returns, if any. *)
Definition api_Start (cfg : Config) (f : Files) : startup (outcome unit) :=
  match net_Listen (APIListen cfg) with
  | Some e => mret (Err ("api listen " +:+ APIListen cfg +:+ ": " +:+ e)%string)
  | None =>
      _ ← emit (Bind (APIListen cfg));
      _ ← emit (Serve {| ch_addr := APIListen cfg; ch_clientCAs := None |});
      match net_Listen (APIAdminListen cfg) with
      | Some e => mret (Err ("admin api listen " +:+ APIAdminListen cfg +:+ ": " +:+ e)%string)
      | None =>
          _ ← emit (Bind (APIAdminListen cfg));
          cas ← admin_CAs cfg f;
          match cas with
          | Ok cas => _ ← emit (Serve {| ch_addr := APIAdminListen cfg; ch_clientCAs := cas |}); mret (Ok ())
          | Err e => mret (Err e)
          | Panic => mret Panic
          end
      end
  end.

(** *** The two programs *)

Context (ParseDuration : string → option Z) (hostname : string) (stat : string → option string).
Context (files : string → option string) (v4file : outcome (list Z)) (v6file : outcome string) (listen : outcome unit).

(** [NewCore] and the first reload. *)
Definition start_core (cfg : Config) (cacheDrv : S) (f : Files) (w : World R) : startup (Daemon S R C * World R) :=
  match boot cfg files v4file v6file listen cacheDrv (Some []) f w with
  | Ok (d, _, w) => mret (d, w)
  | Err e => ([], Exit e)
  | Panic => ([], Crash)
  end.
Definition api_New (qlw : QueryLogWriter) (core : Core S R) (w : World R) : ApiState S R :=
  {| a_world := w; a_core := core; a_jobs := ∅; a_logger := Some qlw |}.
(** [cacheDrv] is the store of the cache, [w] the database and Redis, [f]
    the file system at the start. *)
Definition apid_main (file : option string) (e : env) (cacheDrv : S) (f : Files) (w : World R)
    : startup (Config * ApiState S R * CertState R) :=
  cfg ← fatal "config: " (Load ParseDuration hostname stat file e);
  qlw ← open_stores cfg;
  core ← start_core cfg cacheDrv f w;
  _ ← StartHealthChecks cfg;
  let '(mgr, cs) := New cfg {| cs_world := core.2; cs_files := f |} in
  _ ← fatal "certmgr: " mgr;
  _ ← emit (Spawn "renew" (Ok ()));
  err ← api_Start cfg (cs_files cs);
  _ ← fatal "api start: " err;
  mret (cfg, api_New qlw (dn_core core.1) (cs_world cs), cs).
(** [window] is what the listeners do in the 400 ms [Start] waits. *)
Definition dnsd_main (file : option string) (e : env) (cacheDrv : S) (f : Files) (w : World R)
    (window : list (option nat * option string)) : startup (Config * Daemon S R C * Life) :=
  cfg ← fatal "config: " (Load ParseDuration hostname stat file e);
  _ ← open_stores cfg;
  core ← start_core cfg cacheDrv f w;
  _ ← StartHealthChecks cfg;
  _ ← emit (Spawn "stats" (NewTicker (5 * second)));
  srv ← fatal "server: " (NewServer cfg (dn_certs core.1) (match LoadX509KeyPair f (TLSCertFile cfg) (TLSKeyFile cfg) with
                                                           | Some c => Ok (l_cert c)
                                                           | None => Err "load"
                                                           end));
  let life := default (start_life (sv_listeners srv)) (life_sched window (start_life (sv_listeners srv))) in
  _ ← fatal "start: " (Start_result life);
  _ ← emit (Spawn "poll" (NewTicker (10 * second)));
  _ ← emit (Spawn "certs" (NewTicker (60 * second)));
  mret (cfg, core.1, life).
End daemons.

(** ** Lemmas *)

Lemma startup_bind_up {A B} (m : startup A) (k : A → startup B) tr b :
  m ≫= k = (tr, Up b) → ∃ a t1 t2, m = (t1, Up a) ∧ k a = (t2, Up b) ∧ tr = t1 ++ t2.
Proof.
  destruct m as [t1 [a| |]]; unfold mbind, startup_bind; simpl; [|done..].
  intros [= <- Hk]. exists a, t1, (k a).1. split_and!; [done|by rewrite <- Hk; destruct (k a)|done].
Qed.
Lemma fatal_up {A} what (o : outcome A) tr a : fatal what o = (tr, Up a) → tr = [] ∧ o = Ok a.
Proof. destruct o; simpl; intros [=]; by subst. Qed.
Definition served (tr : list Ev) : list Channel := omap (λ e, match e with Serve ch => Some ch | _ => None end) tr.
Lemma served_app t1 t2 : served (t1 ++ t2) = served t1 ++ served t2.
Proof. unfold served. by rewrite omap_app. Qed.

Ltac up_step H :=
  let a := fresh "a" in let t1 := fresh "t" in let t2 := fresh "t" in let Hm := fresh "Hm" in
  apply startup_bind_up in H as (a & t1 & t2 & Hm & H & ->).

Section facts.
Context {S R K C : Type} `{UnicodeCase} `{Redis R} `{RedisSets R} `{Collation} `{Lib} `{ACME K C} `{GBK} `{Host}.

Definition stores_ready (cfg : Config) : Prop :=
  (CacheDriver cfg = "redis"%string → redis_Ping (RedisAddr cfg) (RedisPassword cfg) (RedisDB cfg) = None) ∧
  sql_Open (MySQLDSN cfg) = None ∧ sql_Ping (MySQLDSN cfg) = None.
Definition CAs_ready (cfg : Config) (f : Files) (cas : option string) : Prop :=
  match cas with
  | None => APIMTLSCAFile cfg = ""%string
  | Some pem => APIMTLSCAFile cfg ≠ ""%string ∧ (ReadFile f (APIMTLSCAFile cfg)).1 = Ok pem ∧ AppendCertsFromPEM pem = true ∧
                is_Some (LoadX509KeyPair f (TLSCertFile cfg) (TLSKeyFile cfg))
  end.
Definition channels (cfg : Config) (cas : option string) : list Channel :=
  [{| ch_addr := APIListen cfg; ch_clientCAs := None |}; {| ch_addr := APIAdminListen cfg; ch_clientCAs := cas |}].

Lemma open_stores_up cfg tr q : open_stores cfg = (tr, Up q) → stores_ready cfg ∧ served tr = [].
Proof.
  unfold open_stores. intros Hu. up_step Hu. up_step Hu.
  apply fatal_up in Hm0 as [-> Hs]. unfold NewMySQLStore, wrapped in Hs.
  destruct (sql_Open _) eqn:Ho; [done|]. destruct (sql_Ping _) eqn:Hp; [done|].
  assert (served t2 = []) as Hq.
  { clear -Hu. unfold new_log in Hu. destruct (LogDriver cfg =? "mysql")%string; by injection Hu as <-. }
  split.
  - split; [|done]. intros Hc. rewrite Hc in Hm. simpl in Hm. apply fatal_up in Hm as [_ Hr].
    revert Hr. unfold NewRedisCache, wrapped. by case_match.
  - rewrite !served_app, Hq, app_nil_r. destruct (CacheDriver cfg =? "redis")%string; [by apply fatal_up in Hm as [-> _]|].
    by injection Hm as <-.
Qed.
Lemma open_stores_ready cfg : stores_ready cfg → ∃ tr q, open_stores cfg = (tr, Up q).
Proof.
  intros (Hr & Ho & Hp). unfold open_stores, NewMySQLStore, NewRedisCache, wrapped. rewrite Ho, Hp.
  unfold new_log. destruct (String.eqb_spec (CacheDriver cfg) "redis") as [Hc|]; [rewrite (Hr Hc)|];
    destruct (LogDriver cfg =? "mysql")%string; eexists _, _; reflexivity.
Qed.
Lemma admin_CAs_up cfg f tr cas :
  admin_CAs cfg f = (tr, Up (Ok cas)) → served tr = [] ∧ CAs_ready cfg f cas.
Proof.
  unfold admin_CAs, mustCert, mbind, startup_bind.
  destruct (String.eqb_spec (APIMTLSCAFile cfg) "") as [Hf|Hf]; [by intros [= <- <-]|].
  destruct (ReadFile f (APIMTLSCAFile cfg)).1 as [pem|e|] eqn:Hr; [|done..].
  destruct (AppendCertsFromPEM pem) eqn:Ha; [|done].
  destruct (LoadX509KeyPair _ _ _) eqn:Hl; [|done]. intros [= <- <-]. simpl. rewrite Hl. eauto.
Qed.
Lemma admin_CAs_ready cfg f cas : CAs_ready cfg f cas → admin_CAs cfg f = ([], Up (Ok cas)).
Proof.
  unfold admin_CAs, mustCert, CAs_ready. destruct cas as [pem|]; [|by intros ->].
  intros (Hf & Hr & Ha & [c Hc]). apply String.eqb_neq in Hf. by rewrite Hf, Hr, Ha, Hc.
Qed.
Lemma api_Start_up cfg f tr :
  api_Start cfg f = (tr, Up (Ok ())) →
  net_Listen (APIListen cfg) = None ∧ net_Listen (APIAdminListen cfg) = None ∧
  ∃ cas, CAs_ready cfg f cas ∧ served tr = channels cfg cas.
Proof.
  unfold api_Start. destruct (net_Listen (APIListen cfg)); [done|]. intros Hs. up_step Hs. up_step Hs.
  injection Hm as <-. injection Hm0 as <-.
  destruct (net_Listen (APIAdminListen cfg)); [done|]. up_step Hs. up_step Hs. injection Hm as <-.
  destruct a2 as [cas|e|]; [|done..]. apply admin_CAs_up in Hm0 as [Hq Hc]. injection Hs as <-.
  split_and!; [done..|]. exists cas. split; [done|]. rewrite !served_app, Hq. done.
Qed.
Lemma api_Start_ready cfg f cas :
  net_Listen (APIListen cfg) = None → net_Listen (APIAdminListen cfg) = None → CAs_ready cfg f cas →
  ∃ tr, api_Start cfg f = (tr, Up (Ok ())).
Proof.
  intros Hl1 Hl2 Hc. unfold api_Start. rewrite Hl1, Hl2, (admin_CAs_ready _ _ _ Hc). eexists. reflexivity.
Qed.
Lemma api_Start_down cfg f : (∀ tr, api_Start cfg f ≠ (tr, Up (Ok ()))) → served (api_Start cfg f).1 ⊆ [{| ch_addr := APIListen cfg; ch_clientCAs := None |}].
Proof.
  unfold api_Start. destruct (net_Listen (APIListen cfg)); [intros _; apply list_subseteq_nil|].
  destruct (net_Listen (APIAdminListen cfg)); [done|].
  destruct (admin_CAs cfg f) as [t r] eqn:Ht.
  assert (served t = []) as Hq.
  { revert Ht. unfold admin_CAs, mustCert, mbind, startup_bind. repeat case_match; intros Ht; inversion Ht; by subst. }
  unfold mbind, startup_bind. simpl. destruct r as [[cas|e|]|e|]; simpl; rewrite ?app_nil_r, ?Hq; intros Hd; try done.
  by destruct (Hd (Bind (APIListen cfg) :: Serve {| ch_addr := APIListen cfg; ch_clientCAs := None |} :: Bind (APIAdminListen cfg) ::
    t ++ [Serve {| ch_addr := APIAdminListen cfg; ch_clientCAs := cas |}])).
Qed.
End facts.

(** A prefix of a start that serves nothing. *)
Definition silent {A} (m : startup A) : Prop := served m.1 = [].
(** What a start that does not succeed has served. *)
Definition down_serves (P : Channel → Prop) {A} (m : startup A) : Prop := (∀ a, m.2 ≠ Up a) → ∀ ch, ch ∈ served m.1 → P ch.
Lemma down_bind P {A B} (m : startup A) (k : A → startup B) :
  silent m → (∀ a, m.2 = Up a → down_serves P (k a)) → down_serves P (m ≫= k).
Proof.
  unfold silent, down_serves, mbind, startup_bind. intros Hs Hk. destruct (m.2) as [a| |]; simpl.
  - intros Hn ch. rewrite served_app, Hs. by apply Hk.
  - intros _ ch. rewrite Hs. by intros ?%elem_of_nil.
  - intros _ ch. rewrite Hs. by intros ?%elem_of_nil.
Qed.
Lemma silent_fatal {A} what (o : outcome A) : silent (fatal what o).
Proof. done. Qed.
Lemma silent_stores `{Host} cfg : silent (open_stores cfg).
Proof.
  unfold open_stores, silent, new_log.
  destruct (CacheDriver cfg =? "redis")%string; [|by destruct (NewMySQLStore _), (LogDriver cfg =? "mysql")%string].
  by destruct (NewRedisCache _ _ _), (NewMySQLStore _), (LogDriver cfg =? "mysql")%string.
Qed.

Section programs.
Context {S R K C : Type} `{UnicodeCase} `{Redis R} `{RedisSets R} `{Collation} `{Lib} `{ACME K C} `{GBK} `{Host}.
Context (ParseDuration : string → option Z) (hostname : string) (stat : string → option string).
Context (files : string → option string) (v4file : outcome (list Z)) (v6file : outcome string) (listen : outcome unit).

Lemma silent_core cfg (cacheDrv : S) f (w : World R) : silent (start_core (C := C) files v4file v6file listen cfg cacheDrv f w).
Proof. unfold silent, start_core. by destruct (boot _ _ _ _ _ _ _ _ _) as [[[d b] w']| |]. Qed.
Lemma start_core_up cfg (cacheDrv : S) f (w : World R) tr x :
  start_core (C := C) files v4file v6file listen cfg cacheDrv f w = (tr, Up x) →
  ∃ b, boot cfg files v4file v6file listen cacheDrv (Some []) f w = Ok (x.1, b, x.2).
Proof. unfold start_core. destruct (boot _ _ _ _ _ _ _ _ _) as [[[d b] w']| |]; intros E; inversion E; subst; eauto. Qed.

(** What the management daemon needs in order to start. *)
Definition apid_ready (cfg : Config) (cacheDrv : S) (f : Files) (w : World R) (cas : option string) : Prop :=
  stores_ready cfg ∧ net_Listen (APIListen cfg) = None ∧ net_Listen (APIAdminListen cfg) = None ∧
  ∃ (d : Daemon S R C) b w' mgr cs,
    boot cfg files v4file v6file listen cacheDrv (Some []) f w = Ok (d, b, w') ∧
    New cfg {| cs_world := w'; cs_files := f |} = (Ok mgr, cs) ∧ CAs_ready cfg (cs_files cs) cas.
Lemma apid_main_ready file e cfg cacheDrv f w cas :
  Load ParseDuration hostname stat file e = Ok cfg → apid_ready cfg cacheDrv f w cas →
  ∃ tr st, apid_main ParseDuration hostname stat files v4file v6file listen file e cacheDrv f w = (tr, Up st).
Proof.
  intros Hl (Hs & Hl1 & Hl2 & d & b & w' & mgr & cs & Hb & Hn & Hc).
  destruct (open_stores_ready cfg Hs) as (ts & q & Hq). destruct (api_Start_ready cfg (cs_files cs) cas Hl1 Hl2 Hc) as (ta & Ha).
  unfold apid_main, start_core. rewrite Hl. unfold mbind, startup_bind. simpl. rewrite Hq, Hb. simpl. rewrite Hn. simpl.
  rewrite Ha. simpl. eauto.
Qed.
Lemma apid_main_up file e cacheDrv f w tr st :
  apid_main ParseDuration hostname stat files v4file v6file listen file e cacheDrv f w = (tr, Up st) →
  ∃ cas, Load ParseDuration hostname stat file e = Ok st.1.1 ∧ apid_ready st.1.1 cacheDrv f w cas ∧
    CAs_ready st.1.1 (cs_files st.2) cas ∧ served tr = channels st.1.1 cas.
Proof.
  unfold apid_main. intros Hu. up_step Hu. apply fatal_up in Hm as [-> Hl]. rename a into cfg.
  up_step Hu. apply open_stores_up in Hm as [Hs Hq]. up_step Hu. apply start_core_up in Hm as Hb. destruct Hb as [b Hb].
  pose proof (silent_core cfg cacheDrv f w) as Hq1. rewrite Hm in Hq1. up_step Hu. injection Hm0 as <-.
  destruct (New cfg _) as [mgr cs] eqn:Hn. up_step Hu. apply fatal_up in Hm0 as [-> Hmg]. up_step Hu. injection Hm0 as <-.
  up_step Hu. up_step Hu. apply fatal_up in Hm1 as [-> ->]. destruct a5. apply api_Start_up in Hm0 as (Hl1 & Hl2 & cas & Hc & Hch).
  injection Hu as <- <-. exists cas. split; [done|]. split_and!; [|done|].
  - split; [done|]. split; [done|]. split; [done|]. subst mgr. exists a0.1, b, a0.2, a2, cs. done.
  - unfold silent in Hq1. simpl in Hq1. rewrite !served_app, Hq, Hq1, Hch. simpl. done.
Qed.
Lemma apid_main_down file e (cacheDrv : S) f (w : World R) :
  let '(tr, r) := apid_main ParseDuration hostname stat files v4file v6file listen file e cacheDrv f w in
  (∀ st, r ≠ Up st) →
  ∀ ch, ch ∈ served tr → ∃ cfg, Load ParseDuration hostname stat file e = Ok cfg ∧ ch = {| ch_addr := APIListen cfg; ch_clientCAs := None |}.
Proof.
  enough (down_serves (λ ch, ∃ cfg, Load ParseDuration hostname stat file e = Ok cfg ∧ ch = {| ch_addr := APIListen cfg; ch_clientCAs := None |})
    (apid_main ParseDuration hostname stat files v4file v6file listen file e cacheDrv f w)) as Hd.
  { by destruct (apid_main _ _ _ _ _ _ _ _ _ _ _ _) as [tr r]. }
  unfold apid_main. apply down_bind; [apply silent_fatal|]. intros cfg Hl. apply down_bind; [apply silent_stores|]. intros q _.
  apply down_bind; [apply silent_core|]. intros core _. apply down_bind; [done|]. intros _ _.
  destruct (New cfg _) as [mgr cs]. apply down_bind; [done|]. intros _ _. apply down_bind; [done|]. intros _ _.
  assert (Load ParseDuration hostname stat file e = Ok cfg) as Hl' by (destruct (Load _ _ _ _ _); simpl in Hl; congruence).
  pose proof (api_Start_down cfg (cs_files cs)) as Hdn.
  destruct (api_Start cfg (cs_files cs)) as [t [[[]|msg|]|msg|]]; unfold down_serves, mbind, startup_bind; simpl in *; intros Hn ch;
    try (rewrite ?app_nil_r; intros Hch; apply Hdn in Hch; [|done]; apply list_elem_of_singleton in Hch; by exists cfg).
  by destruct (Hn (cfg, api_New q (dn_core core.1) (cs_world cs), cs)).
Qed.
End programs.

(** ** Properties *)


(** The DNS daemon comes up exactly when its configuration is valid, the
    stores answer, its core can be built, its key pair loads and no listener
    has failed by the end of [Start]'s wait; it then runs the five loops and
    has the configuration's listeners. The first reload may fail. *)
Theorem dnsd_starts {S R K C} `{UnicodeCase} `{Redis R} `{RedisSets R} `{Collation} `{Lib} `{ACME K C} `{GBK} `{Host}
    ParseDuration hostname stat files v4file v6file listen file e (cacheDrv : S) f (w : World R) window :
  let life cfg := default (start_life (listeners cfg)) (life_sched window (start_life (listeners cfg))) in
  (∃ tr st, dnsd_main ParseDuration hostname stat files v4file v6file listen file e cacheDrv f w window = (tr, Up st)) ↔
  ∃ cfg (d : Daemon S R C) b w' c,
    Load ParseDuration hostname stat file e = Ok cfg ∧ stores_ready cfg ∧
    boot cfg files v4file v6file listen cacheDrv (Some []) f w = Ok (d, b, w') ∧
    LoadX509KeyPair f (TLSCertFile cfg) (TLSKeyFile cfg) = Some c ∧ lf_errs (life cfg) = [].
Proof.
  intros life. unfold dnsd_main. split.
  - intros (tr & st & Hu). up_step Hu. apply fatal_up in Hm as [-> Hl]. up_step Hu. apply open_stores_up in Hm as [Hs _].
    up_step Hu. apply start_core_up in Hm as [b Hb]. up_step Hu. up_step Hu. up_step Hu. apply fatal_up in Hm1 as [-> Hsrv].
    unfold NewServer in Hsrv. destruct (LoadX509KeyPair f _ _) as [c|] eqn:Hc; [|done]. injection Hsrv as <-.
    up_step Hu. apply fatal_up in Hm1 as [-> Hst]. exists a, a1.1, b, a1.2, c. split_and!; try done.
    revert Hst. unfold Start_result. by destruct (lf_errs _).
  - intros (cfg & d & b & w' & c & Hl & Hs & Hb & Hc & He). destruct (open_stores_ready cfg Hs) as (ts & q & Hq).
    unfold start_core, NewServer, Start_result. rewrite Hl. unfold mbind, startup_bind. simpl. rewrite Hq, Hb. simpl. rewrite Hc. simpl.
    fold (life cfg). rewrite He. simpl. eauto.
Qed.

(** *** Demonstration *)

Definition demo_host : Host := {|
  redis_Ping _ _ _ := None; sql_Open _ := None; sql_Ping _ := None; net_Listen _ := None;
  AppendCertsFromPEM pem := HasPrefix pem "PEM "
|}.
Definition boot_files : Files :=
  {| f_cwd := []; f_getwd := None; f_dirs := {[ [] ]};
     f_files := list_to_map [(["c.pem"], "PEM cert"); (["k.pem"], "key"); (["ca.pem"], "PEM ca")]%string; f_faults := [] |}.
Definition demo_apid (ParseDuration : string → option Z) (e : env) : startup (Config * ApiState MemoryCache.t DemoRedis * CertState DemoRedis) :=
  @apid_main _ _ _ _ ascii_case _ _ demo_collation demo_stdlib demo_acme ascii_gbk demo_host ParseDuration "h1" (λ _, None)
    (λ _, None) (Err "none") (Err "none") (Ok ()) None e MemoryCache.NewMemoryCache boot_files (demo_world demo_api_db).
(** With mTLS configured the customer channel still serves every route
    without a client certificate: both channels have the same handler. *)
Example apid_channels :
  served (demo_apid (λ _, None) (<["API_MTLS_CA_FILE" := "/ca.pem"]> Config.demo_env)).1 =
  [{| ch_addr := ":8080"; ch_clientCAs := None |}; {| ch_addr := ":8443"; ch_clientCAs := Some "PEM ca" |}]%string.
Proof. vm_compute. reflexivity. Qed.
(** An interval of zero is accepted by the configuration and ends the
    process in the goroutine of the health checks. *)
Example apid_zero_interval :
  let '(tr, r) := demo_apid (λ s, if (s =? "0s")%string then Some 0 else None) ((<["HEALTH_INTERVAL" := "0s"]> Config.demo_env)%string) in
  Spawn "health" Panic ∈ tr ∧ match r with Up _ => True | _ => False end.
Proof. vm_compute. split; [|exact I]. apply list_elem_of_In. simpl. auto. Qed.
