(* ===== verification/Commands.v ===== *)
(** * Command-line tools (src/cmd/gencert/main.go, src/cmd/debug-verify/main.go)

    The generator of development certificates, with the calendar of package
    time it uses, and the tool that prints one entry of the audit log beside
    its recomputed hash. *)

From S2P Require Import Prelude GoStrings GoNet Config Model StoreCache Files CertStore Sha256 QueryLog Db World Repos Http Auth Admin CertMgr Boot.

(** ** The calendar *)

Abbreviation day := (24 * hour).
(** Days from 1970-01-01 to a date; the year starts in March, so that the
    leap day is its last. *)
Definition days_before (y m : Z) : Z :=
  let y := if m <=? 2 then y - 1 else y in
  let mp := if m <=? 2 then m + 9 else m - 3 in
  365 * y + y / 4 - y / 100 + y / 400 + (153 * mp + 2) / 5 - 719468.
(** [time.Date], on days: months and days out of range carry over. *)
Definition date_days (y m d : Z) : Z := days_before (y + (m - 1) / 12) ((m - 1) mod 12 + 1) + d - 1.
(** [t.Date()], from the number of the day: centuries of a 400-year cycle,
    four-year periods, years, then the day of the year. The last century of
    a cycle and the last year of a period have a day more. *)
Definition civil_of_days (n : Z) : Z * Z * Z :=
  let z := n + 719468 in
  let n400 := z / 146097 in
  let d := z mod 146097 in
  let n100 := Z.min 3 (d / 36524) in
  let d := d - 36524 * n100 in
  let n4 := d / 1461 in
  let d := d - 1461 * n4 in
  let n1 := Z.min 3 (d / 365) in
  let d := d - 365 * n1 in
  let mp := (5 * d + 2) / 153 in
  let y := 400 * n400 + 100 * n100 + 4 * n4 + n1 in
  (if mp <? 10 then (y, mp + 3, d - (153 * mp + 2) / 5 + 1) else (y + 1, mp - 9, d - (153 * mp + 2) / 5 + 1)).
(** [t.AddDate(years, months, days)] in UTC. *)
Definition AddDate (t : Time) (years months days : Z) : Time :=
  let '(y, m, d) := civil_of_days (t / day) in date_days (y + years) (m + months) (d + days) * day + t mod day.

Example epoch : date_days 1970 1 1 = 0 ∧ civil_of_days 0 = (1970, 1, 1).
Proof. vm_compute. done. Qed.
Example leap_day : civil_of_days (date_days 2024 2 29) = (2024, 2, 29) ∧ civil_of_days (AddDate (date_days 2024 2 29 * day) 2 0 0 / day) = (2026, 3, 1).
Proof. vm_compute. done. Qed.
Example carry : civil_of_days (date_days 2023 14 31) = (2024, 3, 2).
Proof. vm_compute. done. Qed.

(** Every day has the date of [time.Date]. *)
Lemma civil_days n y m d : civil_of_days n = (y, m, d) → date_days y m d = n ∧ 1 ≤ m ≤ 12.
Proof.
  unfold civil_of_days. cbv zeta. set (z := n + 719468). set (c := z / 146097). set (r := z mod 146097).
  assert (n = 146097 * c + r - 719468 ∧ 0 ≤ r < 146097) as [En Hr] by (unfold c, r, z; divlia). clearbody c r. clear z. subst n.
  set (h := Z.min 3 (r / 36524)). set (r1 := r - 36524 * h).
  assert (0 ≤ h ≤ 3 ∧ 0 ≤ r1 ≤ 36524 ∧ r = 36524 * h + r1) as (Hh & Hr1 & E) by (unfold r1, h; divlia). clearbody h r1. subst r.
  set (q := r1 / 1461). set (r2 := r1 - 1461 * q).
  assert (0 ≤ q ≤ 24 ∧ 0 ≤ r2 ≤ 1460 ∧ r1 = 1461 * q + r2) as (Hq & Hr2 & E) by (unfold r2, q; divlia). clearbody q r2. subst r1.
  set (a := Z.min 3 (r2 / 365)). set (r3 := r2 - 365 * a).
  assert (0 ≤ a ≤ 3 ∧ 0 ≤ r3 ≤ 365 ∧ r2 = 365 * a + r3) as (Ha & Hr3 & E) by (unfold r3, a; divlia). clearbody a r3. subst r2.
  set (Y := 400 * c + 100 * h + 4 * q + a).
  assert (Y / 4 = 100 * c + 25 * h + q ∧ Y / 100 = 4 * c + h ∧ Y / 400 = c) as (H4 & H100 & H400) by (unfold Y; divlia).
  set (mp := (5 * r3 + 2) / 153). assert (0 ≤ mp ≤ 11) as Hmp by (unfold mp; divlia). clearbody mp.
  unfold date_days, days_before. cbv zeta.
  destruct (Z.ltb_spec mp 10); intros [= <- <- <-]; (split; [|lia]).
  - rewrite (Z.div_small (mp + 3 - 1)), (Z.mod_small (mp + 3 - 1)), Z.add_0_r by lia. rewrite (proj2 (Z.leb_gt _ _)) by lia.
    replace (mp + 3 - 1 + 1 - 3) with mp by lia. rewrite H4, H100, H400. unfold Y. lia.
  - rewrite (Z.div_small (mp - 9 - 1)), (Z.mod_small (mp - 9 - 1)), Z.add_0_r by lia. rewrite (proj2 (Z.leb_le _ _)) by lia.
    replace (mp - 9 - 1 + 1 + 9) with mp by lia. replace (Y + 1 - 1) with Y by lia. rewrite H4, H100, H400. unfold Y. lia.
Qed.
(** Two years are 730 or 731 days. *)
Lemma AddDate_two_years t : AddDate t 2 0 0 - t = 730 * day ∨ AddDate t 2 0 0 - t = 731 * day.
Proof.
  unfold AddDate. destruct (civil_of_days (t / day)) as [[y m] d] eqn:E. apply civil_days in E as [E Hm].
  assert (t = t / day * day + t mod day) as Ht by (unfold hour, second; divlia).
  assert (date_days (y + 2) (m + 0) (d + 0) - date_days y m d = 730 ∨ date_days (y + 2) (m + 0) (d + 0) - date_days y m d = 731) as Hd.
  { rewrite !Z.add_0_r. unfold date_days, days_before. cbv zeta.
    rewrite (Z.div_small (m - 1)), (Z.mod_small (m - 1)), !Z.add_0_r by lia. destruct (_ <=? 2); divlia. }
  rewrite E in Hd. generalize dependent (t mod day). generalize dependent (t / day). intros. nia.
Qed.

(** ** gencert *)

(** [x509.Certificate] as the tool fills it in; usages by their numbers in
    package x509. *)
Record Template := {
  SerialNumber : Z; Subject_CommonName : string; Subject_Organization : list string; NotBefore : Time; NotAfter : Time;
  KeyUsage : Z; ExtKeyUsage : list Z; t_DNSNames : list string; IPAddresses : list IP; IsCA : bool; BasicConstraintsValid : bool
}.
Definition KeyUsageDigitalSignature : Z := Z.shiftl 1 0.
Definition KeyUsageKeyEncipherment : Z := Z.shiftl 1 2.
Definition KeyUsageCertSign : Z := Z.shiftl 1 5.
Definition ExtKeyUsageServerAuth : Z := 1.
(** The rest of packages x509, pem and rand that the tool calls. *)
Class CertTool (K : Type) := {
  rand_Int : nat → Z;
  x509_CreateCertificate : Template → Template → K → outcome string;   (* template, parent, key of both *)
  pem_EncodeCertificate : string → string;                            (* type CERTIFICATE *)
}.

Section gencert.
Context {R K C : Type} `{UnicodeCase} `{ACME K C} `{CertTool K}.

Definition gencert_template (domain : string) (serial : Z) (now now' : Time) : Template :=
  {| SerialNumber := serial; Subject_CommonName := "*." +:+ domain; Subject_Organization := ["dns-platform dev"%string];
     NotBefore := now - hour; NotAfter := AddDate now' 2 0 0;
     KeyUsage := Z.lor (Z.lor KeyUsageDigitalSignature KeyUsageKeyEncipherment) KeyUsageCertSign;
     ExtKeyUsage := [ExtKeyUsageServerAuth]; t_DNSNames := ["*." +:+ domain; domain]%string; IPAddresses := [ParseIP "127.0.0.1"];
     IsCA := true; BasicConstraintsValid := true |}.
(** [if err := ...; err != nil { panic(err) }] *)
Definition or_panic {A} (m : outcome unit * Files) (k : Files → outcome A * Files) : outcome A * Files :=
  match m with (Ok _, f) => k f | (_, f) => (Panic, f) end.
(** The tool on its two flags: what it prints, and the files. [n] is the
    randomness, [now] and [now'] the two readings of the clock. [MkdirAll]
    fails on the empty path. *)
Definition gencert (domain out : string) (n : nat) (now now' : Time) (f : Files) : outcome string * Files :=
  match ecdsa_GenerateKey n with
  | Ok priv =>
      let tmpl := gencert_template domain (rand_Int n) now now' in
      match x509_CreateCertificate tmpl tmpl priv with
      | Ok der =>
          or_panic (if (out =? "")%string then (Err "mkdir : no such file or directory", f) else MkdirAll f out) (λ f,
          let certPEM := pem_EncodeCertificate der in
          let keyDER := match x509_MarshalECPrivateKey priv with Ok b => b | _ => ""%string end in
          let keyPEM := pem_Encode keyDER in
          or_panic (WriteFile f (path_Join [out; "fullchain.pem"%string]) certPEM) (λ f,
          or_panic (WriteFile f (path_Join [out; "privkey.pem"%string]) keyPEM) (λ f,
          (Ok ("OK: " +:+ out +:+ "/fullchain.pem + " +:+ out +:+ "/privkey.pem (wildcard *." +:+ domain +:+ ", valid 2y)" +:+ String "010" "")%string, f))))
      | _ => (Panic, f)
      end
  | _ => (Panic, f)
  end.

(** What parsing a certificate gives back: the names that went into it. *)
Class CertToolLaws : Prop :=
  pair_parses : ∀ tmpl k der kder,
    x509_CreateCertificate tmpl tmpl k = Ok der → x509_MarshalECPrivateKey k = Ok kder →
    ∃ l, tls_X509KeyPair (pem_EncodeCertificate der) (pem_Encode kder) = Some l ∧
         DNSNames l = t_DNSNames tmpl ∧ CommonName l = Subject_CommonName tmpl.

Lemma wildcard_norm d : validDomain d = true → norm_name ("*." +:+ d) = ("*." +:+ d)%string.
Proof.
  intros Hd. unfold norm_name, TrimSuffix.
  assert (HasSuffix ("*." +:+ d) "." = false) as ->.
  { apply validDomain_no_dot in Hd as Hn. destruct d as [|c d]; [by vm_compute in Hd|].
    unfold HasSuffix in *. simpl in *. by rewrite Nat.sub_0_r in Hn. }
  assert (is_ascii_string ("*." +:+ d) = true) as Ha by (rewrite is_ascii_app, (domain_ascii d) by (by apply domain_chars); done).
  rewrite ToLower_app by done. by rewrite (proj2 (validDomain_norm d Hd)).
Qed.
(** The names of the certificate: the domain and everything below it. *)
Lemma gencert_covers (l : Loaded C) d :
  validDomain d = true → DNSNames l = ["*." +:+ d; d]%string →
  covers (entry_of l) d = true ∧ ∀ label, covers (entry_of l) (label +:+ "." +:+ d) = true.
Proof.
  intros Hd Hl. assert (norm_name d = d) as Hn by apply (validDomain_norm d Hd).
  assert (∀ h, h = d ∨ (∃ label, h = label +:+ "." +:+ d)%string → covers (entry_of l) h = true) as Hc; [|split; [|intros label]; apply Hc; eauto].
  intros h Hh. unfold covers, entry_of. rewrite Hl, !fmap_cons, (wildcard_norm d Hd), Hn.
  apply existsb_exists. assert (∃ n, n ∈ ["*." +:+ d; d]%string ∧ covers_name h n = true) as (n & Hin & Hn').
  { destruct Hh as [->|[label ->]]; [exists d|exists ("*." +:+ d)%string]; (split; [set_solver|apply covers_name_spec; eauto 6]). }
  exists n. split; [|done]. apply list_elem_of_In. cbn [covered]. destruct (_ =? "")%string; [done|]. apply elem_of_app. by left.
Qed.

(** The directory can be made and takes the two files. *)
Definition room (f : Files) (out : string) : Prop :=
  (∀ q, q `prefix_of` path_of f out → f_files f !! q = None) ∧
  path_of f out ++ ["fullchain.pem"%string] ∉ f_dirs f ∧ path_of f out ++ ["privkey.pem"%string] ∉ f_dirs f.
Lemma out_path f out n : plain n = true → path_of f (path_Join [out; n]) = path_of f out ++ [n].
Proof. intros Hn. apply path_Join_plain; [done|by repeat constructor]. Qed.
Lemma gencert_run domain out n now now' f k der :
  f_faults f = [] → room f out → out ≠ ""%string → ecdsa_GenerateKey n = Ok k →
  (let tmpl := gencert_template domain (rand_Int n) now now' in x509_CreateCertificate tmpl tmpl k = Ok der) →
  ∃ msg, gencert domain out n now now' f =
    (Ok msg, set_files (<[path_of f out ++ ["privkey.pem"%string] := pem_Encode match x509_MarshalECPrivateKey k with Ok b => b | _ => ""%string end]>
                       (<[path_of f out ++ ["fullchain.pem"%string] := pem_EncodeCertificate der]> (f_files f)))
               (set_dirs (list_to_set (inits (path_of f out)) ∪ f_dirs f) f)).
Proof.
  intros Hf (Hfree & Hn1 & Hn2) Hout Hk Hc. unfold gencert. rewrite Hk. cbv zeta in *. rewrite Hc.
  rewrite (proj2 (String.eqb_neq out "")) by done.
  destruct (pair_run f out (path_Join [out; "fullchain.pem"%string]) (path_Join [out; "privkey.pem"%string]) "fullchain.pem" "privkey.pem"
    (pem_EncodeCertificate der) (pem_Encode match x509_MarshalECPrivateKey k with Ok b => b | _ => ""%string end)) as (Hm & Hw1 & Hw2);
    [done|done|by apply out_path|by apply out_path|done|done|].
  rewrite Hm. unfold or_panic. rewrite Hw1, Hw2. eauto.
Qed.
End gencert.

(** ** debug-verify *)

Section debug_verify.
Context (DATE_FORMAT : Time → string).
(** The row the tool reads; without it every variable keeps its zero value. *)
Definition debug_row (table : list AuditRec) : option AuditRec := list_find (λ r, ad_id r = 44) table ≫= λ x, Some x.2.
(** The lines it prints. *)
Definition debug_verify (table : list AuditRec) : list string :=
  let str (f : AuditRec → option string) := default ""%string (debug_row table ≫= f) in
  let ts := default ""%string ((DATE_FORMAT ∘ ad_ts) <$> debug_row table) in
  let calc := auditHash (str ad_prev_hash) ts (str ad_actor_id) (str ad_actor_name) (str ad_action) (str ad_target) (str ad_detail)
                (str ad_client_ip) (str ad_verifier) in
  ["id=" +:+ fmt_d (default 0 (ad_id <$> debug_row table)); "ts=" +:+ fmt_q ts;
   "aid=" +:+ fmt_q (str ad_actor_id) +:+ " an=" +:+ fmt_q (str ad_actor_name) +:+ " action=" +:+ fmt_q (str ad_action)
     +:+ " target=" +:+ fmt_q (str ad_target);
   "det=" +:+ fmt_q (str ad_detail) +:+ " cip=" +:+ fmt_q (str ad_client_ip) +:+ " ver=" +:+ fmt_q (str ad_verifier);
   "prev=" +:+ fmt_q (str ad_prev_hash); "calc=" +:+ calc; "db  =" +:+ str ad_entry_hash]%string.
End debug_verify.

(** Every row of a chain carries the hash of its own text. *)
Lemma chain_row DATE_FORMAT prev rows r :
  chain_from DATE_FORMAT prev rows → r ∈ rows →
  ∃ p, ad_prev_hash r = Some p ∧ ad_entry_hash r = Some (sha256_hex (row_text DATE_FORMAT p r)).
Proof.
  revert prev. induction rows as [|r' rows IH]; intros prev Hc Hr; [by apply not_elem_of_nil in Hr|].
  destruct Hc as (Hp & He & Hc). apply elem_of_cons in Hr as [->|Hr]; [by exists prev|by eapply IH].
Qed.
(** The tool confirms entry 44 of a log as [WriteAudit] left it: the hash it
    computes is the one it reads. *)
Lemma debug_verify_agrees `{SameText Format DATE_FORMAT} calls r :
  let T := run_audit Format [] calls in
  debug_row T = Some r →
  ∃ h, debug_verify DATE_FORMAT T !! 5%nat = Some ("calc=" +:+ h)%string ∧ debug_verify DATE_FORMAT T !! 6%nat = Some ("db  =" +:+ h)%string.
Proof.
  intros T Hr. assert (r ∈ T) as Hin.
  { unfold debug_row in Hr. destruct (list_find _ T) as [[i x]|] eqn:E; [|done]. injection Hr as ->.
    apply list_find_Some in E as (E & _ & _). by eapply list_elem_of_lookup_2. }
  destruct (chain_row DATE_FORMAT "" T r (run_audit_chain [] calls I) Hin) as (p & Hp & He).
  exists (sha256_hex (row_text DATE_FORMAT p r)). unfold debug_verify. rewrite Hr. cbn. by rewrite Hp, He.
Qed.

(** ** Properties *)

Lemma WriteFile_other f p s q : q ≠ path_of f p → f_files (WriteFile f p s).2 !! q = f_files f !! q ∧ f_cwd (WriteFile f p s).2 = f_cwd f.
Proof.
  intros Hq. unfold WriteFile, next_file_fault, path_of in *. destruct f as [cwd gw dirs files [|[x|] fs]]; simpl in *;
    destruct (_ || _); simpl; try done; [|destruct (ff_written x); simpl; [|done]|]; by rewrite ?lookup_insert_ne by done.
Qed.
Lemma MkdirAll_other f p : f_files (MkdirAll f p).2 = f_files f ∧ f_cwd (MkdirAll f p).2 = f_cwd f.
Proof. unfold MkdirAll, next_file_fault. destruct f as [cwd gw dirs files [|[x|] fs]]; simpl; by destruct (existsb _ _). Qed.
Lemma or_panic_other {A} (m : outcome unit * Files) (k : Files → outcome A * Files) f q :
  f_files m.2 !! q = f_files f !! q ∧ f_cwd m.2 = f_cwd f →
  (∀ f', f_files f' !! q = f_files f !! q → f_cwd f' = f_cwd f → f_files (k f').2 !! q = f_files f !! q) →
  f_files (or_panic m k).2 !! q = f_files f !! q.
Proof. intros [Hq Hc] Hk. destruct m as [[[]|e|] f']; simpl in *; auto. Qed.
(** The tool touches two files, whatever fails. *)
Lemma gencert_touches {K C} `{ACME K C} `{CertTool K} domain out n now now' f q :
  q ≠ path_of f out ++ ["fullchain.pem"%string] → q ≠ path_of f out ++ ["privkey.pem"%string] →
  f_files (gencert domain out n now now' f).2 !! q = f_files f !! q.
Proof.
  intros H1 H2. rewrite <-(out_path f) in H1, H2 by done. unfold gencert. destruct (ecdsa_GenerateKey n); [|done..]. cbv zeta.
  destruct (x509_CreateCertificate _ _ _); [|done..].
  apply or_panic_other; [destruct (out =? "")%string; [done|]; destruct (MkdirAll_other f out) as [-> ->]; done|]. intros f1 E1 C1.
  rewrite <-E1. assert (∀ p, path_of f1 p = path_of f p) as Hp1 by (intros p; unfold path_of; by rewrite C1).
  apply or_panic_other; [apply WriteFile_other; by rewrite Hp1|]. intros f2 E2 C2.
  rewrite <-E2. assert (∀ p, path_of f2 p = path_of f p) as Hp2 by (intros p; unfold path_of; by rewrite C2, C1).
  apply or_panic_other; [apply WriteFile_other; by rewrite Hp2|]. done.
Qed.

(** The certificates gencert makes work: when nothing fails it leaves
    a pair in its output directory that a daemon configured with the two
    files loads, whose names cover the domain and every name below it, and
    whose validity contains the moment and lasts 730 or 731 days; whatever
    fails, no file but the two is changed. *)
Theorem gencert_works {K C} `{UnicodeCase} `{ACME K C} `{CertTool K} `{!CertToolLaws} (cfg : Config) domain out n now now' f k kder der :
  (∀ q, q ≠ path_of f out ++ ["fullchain.pem"%string] → q ≠ path_of f out ++ ["privkey.pem"%string] →
     f_files (gencert domain out n now now' f).2 !! q = f_files f !! q) ∧
  let tmpl := gencert_template domain (rand_Int n) now now' in
  (f_faults f = [] → room f out → out ≠ ""%string → validDomain domain = true →
   ecdsa_GenerateKey n = Ok k → x509_MarshalECPrivateKey k = Ok kder → x509_CreateCertificate tmpl tmpl k = Ok der →
   TLSCertFile cfg = path_Join [out; "fullchain.pem"%string] → TLSKeyFile cfg = path_Join [out; "privkey.pem"%string] →
   ∃ msg f' l, gencert domain out n now now' f = (Ok msg, f') ∧ mustCert cfg f' = mret l ∧
     covers (entry_of l) domain = true ∧ (∀ label, covers (entry_of l) (label +:+ "." +:+ domain) = true) ∧
     NotBefore tmpl < now ∧ (NotAfter tmpl - now' = 730 * day ∨ NotAfter tmpl - now' = 731 * day)).
Proof.
  split; [intros q; apply gencert_touches|]. intros tmpl Hf Hroom Hout Hd Hk Hkd Hc Hcf Hkf.
  destruct (gencert_run domain out n now now' f k der) as [msg Hrun]; [done..|]. rewrite Hkd in Hrun.
  destruct (pair_parses tmpl k der kder Hc Hkd) as (l & Hl & Hnames & _).
  set (f' := set_files _ _) in Hrun. exists msg, f', l. split; [done|]. split.
  { unfold mustCert, LoadX509KeyPair. rewrite Hcf, Hkf, !out_path by done. change (path_of f' out) with (path_of f out). unfold f'. cbn [f_files set_files].
    rewrite lookup_insert_ne, !lookup_insert_eq by (by intros [=]%app_inv_head). by rewrite Hl. }
  destruct (gencert_covers l domain Hd Hnames). split_and!; [done|done| |apply AddDate_two_years].
  assert (0 < hour) by done. change (NotBefore tmpl) with (now - hour). lia.
Qed.

(** A certificate is the list of its names; one that cannot be written so is
    refused. *)
Definition demo_tool : CertTool string := {|
  rand_Int n := Z.of_nat n;
  x509_CreateCertificate tmpl parent k :=
    let names := Subject_CommonName tmpl :: t_DNSNames tmpl in
    if bool_decide (Split (Join names ",") "," = names) then Ok (Join names ",") else Err "x509: invalid name";
  pem_EncodeCertificate der := ("PEM " +:+ der)%string
|}.
Definition demo_tool_acme : ACME string string := {|
  ecdsa_GenerateKey := @ecdsa_GenerateKey _ _ demo_acme; x509_MarshalECPrivateKey := @x509_MarshalECPrivateKey _ _ demo_acme;
  x509_ParseECPrivateKey := @x509_ParseECPrivateKey _ _ demo_acme; pem_Encode := @pem_Encode _ _ demo_acme;
  pem_Decode := @pem_Decode _ _ demo_acme; x509_NotAfter := @x509_NotAfter _ _ demo_acme;
  tls_X509KeyPair c k := match Split (drop_str 4 c) "," with
                         | cn :: names => Some {| l_cert := c; DNSNames := names; CommonName := cn |}
                         | [] => None
                         end;
  LEDirectoryStaging := "staging"; LEDirectoryProduction := "production";
  lego_NewClient _ _ _ := Ok (); lego_ResolveAccountByKey _ := Ok None; lego_Register k := Ok "account"%string;
  lego_SetHTTP01Provider _ _ := Ok (); lego_SetDNS01Provider _ _ _ := Ok (); lego_Obtain _ _ := Err "offline"
|}.
#[global] Instance demo_tool_laws : @CertToolLaws string string demo_tool_acme demo_tool.
Proof.
  intros tmpl k der kder Hc _. cbn [x509_CreateCertificate demo_tool] in Hc. cbv zeta in Hc.
  destruct (bool_decide _) eqn:E; [|done]. apply bool_decide_eq_true in E.
  assert (Join (Subject_CommonName tmpl :: t_DNSNames tmpl) "," = der) as Hder by congruence. rewrite Hder in E.
  simpl. rewrite E. by eexists.
Qed.
Definition demo_tls_config : Config :=
  @config_of_env (λ _, None) "h1" (<["TLS_CERT_FILE" := "certs/fullchain.pem"]> (<["TLS_KEY_FILE" := "certs/privkey.pem"]> Config.demo_env))%string.
Lemma gencert_works_witness :
  let o := @gencert _ _ demo_tool_acme demo_tool "dns.example.com" "certs" 7 0 0 demo_files in
  ∃ msg f' l, o = (Ok msg, f') ∧ @mustCert _ _ demo_tool_acme demo_tls_config f' = mret l ∧
    covers (@entry_of ascii_case _ l) "acme.dns.example.com" = true.
Proof.
  destruct (@gencert_works _ _ ascii_case demo_tool_acme demo_tool _ demo_tls_config "dns.example.com" "certs" 7 0 0 demo_files "7" "7"
    "*.dns.example.com,*.dns.example.com,dns.example.com") as [_ Hw].
  destruct Hw as (msg & f' & l & Hr & Hm & _ & Hl & _);
    [reflexivity| |discriminate|vm_compute; reflexivity|reflexivity|reflexivity|vm_compute; reflexivity|reflexivity|reflexivity|].
  - split; [intros q _; apply lookup_empty|]. split; vm_compute; set_solver.
  - exists msg, f', l. split; [exact Hr|]. split; [exact Hm|]. exact (Hl "acme"%string).
Defined.
