(* ===== verification/Stop.v ===== *)
(** * Stopping the DNS daemon (src/cmd/dnsd/main.go, [Core.Close] in
    src/internal/dnsx/handler.go, [Manager.Close] in
    src/internal/dnsx/upstream.go)

    After a signal the main goroutine drains the listeners, then closes the
    core, the upstream manager, the cache and the database, while requests
    that were admitted before, or that still arrive on open DoT and DoQ
    connections, go on. The two sides interleave. *)

From S2P Require Import Prelude Config Lifecycle.

(** The main goroutine: draining, then before each of the closing calls. *)
Inductive MainPc := Draining | CloseCore | CloseManager | CloseCache | CloseDB | Gone.
#[global] Instance MainPc_eq_dec : EqDecision MainPc.
Proof. solve_decision. Defined.
#[global] Instance Kind_eq_dec : EqDecision Kind.
Proof. solve_decision. Defined.

(** [sp_threat] tells whether the core has a channel of threat checks;
    [sp_flight] are the requests before their send to it (line 349 of
    handler.go), by the listener that took them. *)
Record Stopping := {
  sp_pc : MainPc; sp_threat : bool; sp_chan_closed : bool; sp_probing : bool; sp_cache_open : bool; sp_db_open : bool;
  sp_flight : list Kind; sp_answered : nat; sp_crashed : bool
}.
Definition stopping (threat : bool) (flight : list Kind) : Stopping :=
  {| sp_pc := Draining; sp_threat := threat; sp_chan_closed := false; sp_probing := true; sp_cache_open := true; sp_db_open := true;
     sp_flight := flight; sp_answered := 0; sp_crashed := false |}.
(** [dns.Server.ShutdownContext] and [http.Server.Shutdown] wait for their
    requests; the connections of DoT and DoQ are served by goroutines that
    nothing waits for. *)
Definition waited (k : Kind) : bool := match k with KDns | KDoH => true | KDoT | KDoQ => false end.
Definition goto_pc (pc : MainPc) (s : Stopping) : Stopping :=
  {| sp_pc := pc; sp_threat := sp_threat s; sp_chan_closed := sp_chan_closed s; sp_probing := sp_probing s; sp_cache_open := sp_cache_open s;
     sp_db_open := sp_db_open s; sp_flight := sp_flight s; sp_answered := sp_answered s; sp_crashed := sp_crashed s |}.
(** [Core.Close]: closing the channel also ends the workers. *)
Definition Core_Close (s : Stopping) : Stopping :=
  {| sp_pc := CloseManager; sp_threat := sp_threat s; sp_chan_closed := sp_threat s; sp_probing := sp_probing s;
     sp_cache_open := sp_cache_open s; sp_db_open := sp_db_open s; sp_flight := sp_flight s; sp_answered := sp_answered s; sp_crashed := sp_crashed s |}.
(** [Manager.Close] ends the probe loop. *)
Definition Manager_Close (s : Stopping) : Stopping :=
  {| sp_pc := CloseCache; sp_threat := sp_threat s; sp_chan_closed := sp_chan_closed s; sp_probing := false;
     sp_cache_open := sp_cache_open s; sp_db_open := sp_db_open s; sp_flight := sp_flight s; sp_answered := sp_answered s; sp_crashed := sp_crashed s |}.
Definition Cache_Close (s : Stopping) : Stopping :=
  {| sp_pc := CloseDB; sp_threat := sp_threat s; sp_chan_closed := sp_chan_closed s; sp_probing := sp_probing s;
     sp_cache_open := false; sp_db_open := sp_db_open s; sp_flight := sp_flight s; sp_answered := sp_answered s; sp_crashed := sp_crashed s |}.
Definition DB_Close (s : Stopping) : Stopping :=
  {| sp_pc := Gone; sp_threat := sp_threat s; sp_chan_closed := sp_chan_closed s; sp_probing := sp_probing s;
     sp_cache_open := sp_cache_open s; sp_db_open := false; sp_flight := sp_flight s; sp_answered := sp_answered s; sp_crashed := sp_crashed s |}.
(** The main goroutine; [timeout] says that the ten seconds are over. *)
Definition main_step (timeout : bool) (s : Stopping) : option Stopping :=
  match sp_pc s with
  | Draining => if timeout || negb (existsb waited (sp_flight s)) then Some (goto_pc CloseCore s) else None
  | CloseCore => Some (Core_Close s)
  | CloseManager => Some (Manager_Close s)
  | CloseCache => Some (Cache_Close s)
  | CloseDB => Some (DB_Close s)
  | Gone => None
  end.
(** A query that arrives on a connection that is still open. *)
Definition arrive (k : Kind) (s : Stopping) : option Stopping :=
  if waited k then None
  else Some {| sp_pc := sp_pc s; sp_threat := sp_threat s; sp_chan_closed := sp_chan_closed s; sp_probing := sp_probing s;
               sp_cache_open := sp_cache_open s; sp_db_open := sp_db_open s; sp_flight := sp_flight s ++ [k];
               sp_answered := sp_answered s; sp_crashed := sp_crashed s |}.
(** The [i]th request goes on: its send to a closed channel panics, which
    the HTTP server recovers and nothing else does. *)
Definition proceed (i : nat) (s : Stopping) : option Stopping :=
  match sp_flight s !! i with
  | None => None
  | Some k =>
      let panics := sp_threat s && sp_chan_closed s in
      Some {| sp_pc := sp_pc s; sp_threat := sp_threat s; sp_chan_closed := sp_chan_closed s; sp_probing := sp_probing s;
              sp_cache_open := sp_cache_open s; sp_db_open := sp_db_open s; sp_flight := delete i (sp_flight s);
              sp_answered := if panics then sp_answered s else Datatypes.S (sp_answered s);
              sp_crashed := sp_crashed s || panics && negb (bool_decide (k = KDoH)) |}
  end.
(** The process runs until it crashes or the main goroutine returns. *)
Inductive StopEv := Main (timeout : bool) | Arrive (k : Kind) | Proceed (i : nat).
Definition stop_step (ev : StopEv) (s : Stopping) : option Stopping :=
  if sp_crashed s || bool_decide (sp_pc s = Gone) then None
  else match ev with
       | Main t => main_step t s
       | Arrive k => arrive k s
       | Proceed i => proceed i s
       end.
Fixpoint stop_run (l : list StopEv) (s : Stopping) : option Stopping :=
  match l with [] => Some s | ev :: l => match stop_step ev s with Some s => stop_run l s | None => None end end.

(** ** Lemmas *)

(** A schedule without a timeout, on listeners whose requests are waited
    for. *)
Definition orderly (ev : StopEv) : Prop := match ev with Main t => t = false | _ => True end.
Record drained (n : nat) (s : Stopping) : Prop := {
  dr_crash : sp_crashed s = false;
  dr_count : (sp_answered s + length (sp_flight s) = n)%nat;
  dr_kinds : Forall (λ k, waited k = true) (sp_flight s);
  dr_after : sp_pc s ≠ Draining → sp_flight s = [];
  dr_open : sp_pc s = Draining → sp_chan_closed s = false;
}.
Lemma existsb_waited l : Forall (λ k, waited k = true) l → existsb waited l = false → l = [].
Proof. destruct 1 as [|k l Hk]; simpl; [done|]. by rewrite Hk. Qed.
Lemma main_drained n t s s' : drained n s → t = false → main_step t s = Some s' → drained n s'.
Proof.
  intros [H1 H2 H3 H4 H5] -> Hs. unfold main_step in Hs. destruct (sp_pc s) eqn:Hp.
  - simpl in Hs. destruct (existsb waited (sp_flight s)) eqn:He; simpl in Hs; [done|]. injection Hs as <-.
    split; simpl; auto. intros _. by apply existsb_waited.
  - injection Hs as <-. split; simpl; auto; done.
  - injection Hs as <-. split; simpl; auto; done.
  - injection Hs as <-. split; simpl; auto; done.
  - injection Hs as <-. split; simpl; auto; done.
  - done.
Qed.
Lemma proceed_drained n i s s' : drained n s → proceed i s = Some s' → drained n s'.
Proof.
  intros [H1 H2 H3 H4 H5] Hs. unfold proceed in Hs. destruct (sp_flight s !! i) as [k|] eqn:Hi; [|done].
  assert (sp_pc s = Draining) as Hp.
  { destruct (decide (sp_pc s = Draining)) as [|Hn]; [done|]. by rewrite (H4 Hn) in Hi. }
  specialize (H5 Hp). rewrite H5, andb_false_r in Hs. injection Hs as <-. pose proof (lookup_lt_Some _ _ _ Hi).
  split; simpl; auto.
  - by rewrite H1.
  - rewrite length_delete by eauto. lia.
  - by apply Forall_delete.
  - done.
Qed.
Lemma step_drained n ev s s' :
  drained n s → orderly ev → (∀ k, ev = Arrive k → False) → stop_step ev s = Some s' → drained n s'.
Proof.
  unfold stop_step. intros Hd Ho Ha. destruct (_ || _); [done|]. destruct ev as [t|k|i]; simpl in *.
  - by apply main_drained.
  - by destruct (Ha k).
  - by apply proceed_drained.
Qed.
Definition left_to_do (s : Stopping) : nat :=
  length (sp_flight s) + match sp_pc s with Draining => 5 | CloseCore => 4 | CloseManager => 3 | CloseCache => 2 | CloseDB => 1 | Gone => 0 end.
Lemma step_left t ev s s' : ev = Main t ∨ (∃ i, ev = Proceed i) → stop_step ev s = Some s' → (left_to_do s' < left_to_do s)%nat.
Proof.
  unfold stop_step, left_to_do. intros Hev. destruct (_ || _); [done|]. destruct Hev as [->|[i ->]].
  - unfold main_step. destruct (sp_pc s); [destruct (_ || _)|..]; intros Hs; simplify_eq/=; lia.
  - unfold proceed. destruct (sp_flight s !! i) eqn:Hi; [|done]. intros Hs. simplify_eq/=.
    pose proof (lookup_lt_Some _ _ _ Hi). rewrite length_delete by eauto. lia.
Qed.

(** ** Properties *)


(** A query over DoT that is under way, or arrives, when the core is closed
    ends the process with a panic, if threat checks are on. *)
Example shutdown_dot_crash :
  sp_crashed <$> stop_run [Main false; Main false; Proceed 0] (stopping true [KDoT]) = Some true.
Proof. reflexivity. Qed.
