(* ===== verification/Bench.v ===== *)
(** * The benchmark tool (src/tools/dnsbench/main.go)

    Workers send the same query in a loop and record a latency and a verdict
    per round; the main loop counts ticks for the duration of the run and
    then reports counters, average and percentiles. The run is a sequence of
    events. The report is float64 arithmetic, modelled by rounding a
    quotient to 53 significant bits, ties to even; its numbers are far from
    the limits of the exponent. *)

From stdpp Require Import sorting.
From S2P Require Import Prelude GoStrings Config.

(** ** Float64 *)

(** A number [m * 2^e]. *)
Definition flt : Type := Z * Z.
(** The integer nearest to [a / b], ties to even. *)
Definition rne (a b : Z) : Z :=
  let q := a / b in
  let r := a mod b in
  if 2 * r <? b then q else if b <? 2 * r then q + 1 else q + q mod 2.
(** The exponent of [a / b]: [2^l <= a / b < 2^(l+1)]. *)
Definition expo (a b : Z) : Z :=
  let l := Z.log2 a - Z.log2 b in
  if a * 2 ^ Z.max 0 (- l) <? b * 2 ^ Z.max 0 l then l - 1 else l.
(** The float nearest to [a / b], for positive [a] and [b]. *)
Definition fl (a b : Z) : flt :=
  let e := expo a b - 52 in (rne (a * 2 ^ Z.max 0 (- e)) (b * 2 ^ Z.max 0 e), e).
Definition fmul_int (x : flt) (n : Z) : flt := fl (x.1 * n * 2 ^ Z.max 0 x.2) (2 ^ Z.max 0 (- x.2)).
Definition fdiv_int (x : flt) (n : Z) : flt := fl (x.1 * 2 ^ Z.max 0 x.2) (n * 2 ^ Z.max 0 (- x.2)).
(** [int(math.Ceil(x))] *)
Definition ceil (x : flt) : Z := - (- (x.1 * 2 ^ Z.max 0 x.2) / 2 ^ Z.max 0 (- x.2)).
(** An integer held as a float. *)
Definition fint (a : Z) : Z :=
  if a <=? 0 then 0 else let '(m, e) := fl a 1 in m * 2 ^ Z.max 0 e / 2 ^ Z.max 0 (- e).

(** ** The run *)

Record Bench := { sent : Z; okCount : Z; errCount : Z; lats : list Z }.
Definition record (d : Z) (ok : bool) (b : Bench) : Bench :=
  {| sent := sent b; okCount := okCount b + (if ok then 1 else 0); errCount := errCount b + (if ok then 0 else 1);
     lats := lats b ++ [fint (Z.quot d 1000)] |}.
(** What a round meets: whether connecting (TCP only), writing and reading
    succeed, and the duration up to the failure or the answer. *)
Record Round := { connected : bool; written : bool; answered : bool; took : Z }.
Definition udp_round (r : Round) (b : Bench) : Bench := record (took r) (written r && answered r) b.
(** [co] tells whether the worker has a connection. *)
Definition tcp_round (co : bool) (r : Round) (b : Bench) : bool * Bench :=
  if negb co && negb (connected r) then (false, b)
  else if negb (written r) then (false, record (took r) false b)
  else if negb (answered r) then (false, record (took r) false b)
  else (true, record (took r) true b).
(** The time between ticks: [time.Second / time.Duration(qps)]. *)
Definition interval (qps : Z) : outcome Z :=
  if qps =? 0 then Panic else let i := Z.quot second qps in Ok (if i <=? 0 then 1 else i).
Definition tick (b : Bench) : Bench :=
  {| sent := sent b + 1; okCount := okCount b; errCount := errCount b; lats := lats b |}.
Inductive BenchEv := Tick | Worker (i : nat) (r : Round).
Definition bench_step (udp : bool) (s : Bench * list bool) (ev : BenchEv) : Bench * list bool :=
  match ev with
  | Tick => (tick s.1, s.2)
  | Worker i r =>
      if udp then (udp_round r s.1, s.2)
      else match s.2 !! i with
           | Some co => let '(co, b) := tcp_round co r s.1 in (b, <[i := co]> s.2)
           | None => s
           end
  end.
(** [conns]: the connections made before the loops. *)
Definition bench_run (udp : bool) (conns : list bool) (evs : list BenchEv) : Bench :=
  (foldl (bench_step udp) ({| sent := 0; okCount := 0; errCount := 0; lats := [] |}, conns) evs).1.

(** ** The report *)

Definition sorted_lats (b : Bench) : list Z := merge_sort Z.le (lats b).
Definition pct_index (p n : Z) : Z :=
  let idx := ceil (fmul_int (fl p 100) n) - 1 in
  let idx := if idx <? 0 then 0 else idx in
  if n <=? idx then n - 1 else idx.
(** Milliseconds; [None] is zero. *)
Definition pct (p : Z) (sorted : list Z) : option flt :=
  match sorted with
  | [] => None
  | _ => match sorted !! Z.to_nat (pct_index p (Z.of_nat (length sorted))) with
         | Some v => if v =? 0 then None else Some (fl v 1000)
         | None => None
         end
  end.
Definition avg (sorted : list Z) : option flt :=
  let s := foldl (λ s v, fint (s + v)) 0 sorted in
  if (Z.of_nat (length sorted) =? 0) || (s =? 0) then None else Some (fdiv_int (fl s (Z.of_nat (length sorted))) 1000).
(** The success rate printed: [okCount / sent * 100]. *)
Definition success (b : Bench) : option flt :=
  if (okCount b =? 0) || (sent b =? 0) then None else Some (fmul_int (fl (okCount b) (sent b)) 100).

(** ** Lemmas *)

Lemma rne_bounds a b : 0 < b → 2 * a - b ≤ 2 * (rne a b * b) ≤ 2 * a + b.
Proof.
  intros Hb. unfold rne. pose proof (Z.div_mod a b ltac:(lia)) as Hd. pose proof (Z.mod_pos_bound a b Hb) as Hm.
  pose proof (Z.mod_pos_bound (a / b) 2 ltac:(lia)).
  destruct (Z.ltb_spec (2 * (a mod b)) b); [nia|]. destruct (Z.ltb_spec b (2 * (a mod b))); [nia|].
  assert (2 * (a mod b) = b) by lia. nia.
Qed.
Lemma rne_le a b t : 0 < b → a ≤ t * b → rne a b ≤ t.
Proof.
  intros Hb Ht. unfold rne. pose proof (Z.div_mod a b ltac:(lia)) as Hd. pose proof (Z.mod_pos_bound a b Hb) as Hm.
  pose proof (Z.mod_pos_bound (a / b) 2 ltac:(lia)).
  assert (a / b ≤ t) by (apply Z.div_le_upper_bound; lia).
  assert (a / b = t → a mod b = 0) by nia.
  destruct (Z.ltb_spec (2 * (a mod b)) b); [lia|]. assert (a / b < t) by lia.
  destruct (Z.ltb_spec b (2 * (a mod b))); lia.
Qed.
Lemma rne_exact a b t : 0 < b → a = t * b → rne a b = t.
Proof. intros Hb ->. unfold rne. rewrite Z.div_mul, Z_mod_mult by lia. by destruct (Z.ltb_spec (2 * 0) b); [|lia]. Qed.
Lemma pow2_pos k : 0 < 2 ^ Z.max 0 k.
Proof. apply Z.pow_pos_nonneg; lia. Qed.
(** [a / b < 2^l] for a known bound [l] of the size. *)
Lemma expo_lt a b l : 0 < a → 0 < b → 0 ≤ l → a < b * 2 ^ l → expo a b < l.
Proof.
  intros Ha Hb Hl Hlt. unfold expo. set (k := Z.log2 a - Z.log2 b).
  assert (k ≤ l) as Hk.
  { unfold k. pose proof (Z.log2_spec a Ha). pose proof (Z.log2_spec b Hb).
    assert (Z.log2 a < Z.succ (Z.log2 b) + l); [|lia].
    apply Z.log2_lt_pow2; [done|]. pose proof (Z.log2_nonneg b). rewrite Z.pow_add_r by lia.
    pose proof (Z.pow_pos_nonneg 2 l). nia. }
  destruct (Z.ltb_spec (a * 2 ^ Z.max 0 (- k)) (b * 2 ^ Z.max 0 k)) as [|Hge]; [lia|].
  destruct (decide (k = l)) as [E|]; [|lia]. exfalso. rewrite E in Hge.
  rewrite (Z.max_l 0 (- l)), (Z.max_r 0 l) in Hge by lia. lia.
Qed.

(** Rounding a quotient to a float and up again: right as long as the
    quotient keeps its distance to the integer below. *)
Lemma ceil_fl a b t l :
  0 < a → 0 < b → 0 ≤ l ≤ 40 → a < b * 2 ^ l → a ≤ t * b → b < 2 ^ 12 * (a - (t - 1) * b) → ceil (fl a b) = t.
Proof.
  intros Ha Hb Hl Hlt Hup Hlow. pose proof (expo_lt a b l Ha Hb ltac:(lia) Hlt) as He.
  unfold ceil, fl. set (k := 52 - expo a b). replace (expo a b - 52) with (- k) by lia. cbn [fst snd].
  rewrite !Z.opp_involutive, (Z.max_r 0 k), (Z.max_l 0 (- k)) by lia.
  change (2 ^ 0) with 1. rewrite !Z.mul_1_r.
  assert (2 ^ 12 ≤ 2 ^ k) as Hk by (apply Z.pow_le_mono_r; lia). set (B := 2 ^ k) in *.
  pose proof (rne_bounds (a * B) b Hb) as Hr. pose proof (rne_le (a * B) b (t * B) Hb ltac:(nia)) as Hm.
  set (m := rne (a * B) b) in *.
  assert ((t - 1) * B < m) as Hgt by (apply Z.lt_nge; intros Hn; nia).
  assert (- m / B = - t); [|lia].
  symmetry. apply (Z.div_unique_pos _ _ _ (t * B - m)); lia.
Qed.
(** The quotients [50/100], [95/100] and [99/100] as floats: not above the
    exact value, and less than one unit in the last place below. *)
Definition fits_below (p : Z) : Prop :=
  0 < p ∧ (fl p 100).2 = -53 ∧ 100 * (fl p 100).1 ≤ p * 2 ^ 53 < 100 * (fl p 100).1 + 100.
Lemma percentiles_fit p : p = 50 ∨ p = 95 ∨ p = 99 → fits_below p.
Proof. by intros [-> | [-> | ->]]; vm_compute. Qed.
Lemma pct_index_spec p n :
  fits_below p → p ≤ 100 → 0 < n < 2 ^ 40 → pct_index p n = (p * n + 99) / 100 - 1 ∧ 0 ≤ pct_index p n < n.
Proof.
  intros (Hp & He & Hm) Hp' Hn. set (t := (p * n + 99) / 100).
  assert (100 * t - 99 ≤ p * n ≤ 100 * t) as Ht.
  { unfold t. pose proof (Z.div_mod (p * n + 99) 100 ltac:(lia)). pose proof (Z.mod_pos_bound (p * n + 99) 100 ltac:(lia)). lia. }
  assert (ceil (fmul_int (fl p 100) n) = t) as Hc.
  { unfold fmul_int. rewrite He. set (m := (fl p 100).1) in *. change (2 ^ Z.max 0 (-53)) with 1.
    change (2 ^ Z.max 0 (- -53)) with (2 ^ 53). rewrite Z.mul_1_r.
    assert (0 < m) by lia. apply (ceil_fl _ _ t 40); nia. }
  unfold pct_index. rewrite Hc. assert (0 < t ≤ n) by nia.
  destruct (Z.ltb_spec (t - 1) 0); [lia|]. destruct (Z.leb_spec n (t - 1)); lia.
Qed.

Lemma filter_none (P : Z → Prop) `{∀ x, Decision (P x)} s : Forall (λ x, ¬ P x) s → filter P s = [].
Proof. induction 1 as [|x s Hx _ IH]; [done|]. by rewrite filter_cons_False. Qed.
Definition at_most (v : Z) (s : list Z) : Z := Z.of_nat (length (filter (λ x, x ≤ v) s)).
Definition below (v : Z) (s : list Z) : Z := Z.of_nat (length (filter (λ x, x < v) s)).
(** An element of a sorted list at [i]: more than [i] are not above it, at
    most [i] are below it. *)
Lemma sorted_rank (s : list Z) (i : nat) (v : Z) :
  StronglySorted Z.le s → s !! i = Some v → Z.of_nat i < at_most v s ∧ below v s ≤ Z.of_nat i.
Proof.
  unfold at_most, below. intros Hs. revert i. induction Hs as [|x s Hs IH Hx]; intros i Hi; [done|]. rewrite Forall_forall in Hx.
  destruct i as [|i]; simpl in Hi.
  - injection Hi as ->. rewrite filter_cons_True, filter_cons_False by lia. split; [simpl; lia|].
    rewrite filter_none; [simpl; lia|]. apply Forall_forall. intros y Hy. specialize (Hx y Hy). lia.
  - apply list_elem_of_lookup_2 in Hi as Hin. specialize (Hx v Hin). destruct (IH i Hi).
    rewrite filter_cons_True by lia. destruct (decide (x < v)); [rewrite filter_cons_True by done|rewrite filter_cons_False by done];
      simpl; lia.
Qed.
Lemma record_counts d ok b :
  okCount (record d ok b) + errCount (record d ok b) = okCount b + errCount b + 1 ∧ sent (record d ok b) = sent b ∧
  Z.of_nat (length (lats (record d ok b))) = Z.of_nat (length (lats b)) + 1.
Proof. simpl. rewrite length_app. simpl. destruct ok; lia. Qed.
Definition is_tick (ev : BenchEv) : Z := match ev with Tick => 1 | _ => 0 end.
Definition accounted (b : Bench) : Prop := Z.of_nat (length (lats b)) = okCount b + errCount b.
Lemma bench_step_counts udp s ev :
  accounted s.1 → accounted (bench_step udp s ev).1 ∧ sent (bench_step udp s ev).1 = sent s.1 + is_tick ev.
Proof.
  intros Hs. destruct ev as [|i r]; [done|]. simpl. rewrite Z.add_0_r.
  assert (∀ d ok, accounted (record d ok s.1) ∧ sent (record d ok s.1) = sent s.1) as Hr.
  { intros d ok. destruct (record_counts d ok s.1) as (? & ? & ?). split; [|done]. unfold accounted in *. lia. }
  destruct udp; [apply Hr|]. destruct (s.2 !! i) as [co|]; [|done].
  unfold tcp_round. repeat case_match; simplify_eq; first [done|apply Hr].
Qed.
(** Every recorded round has one verdict; ticks are counted apart. *)
Lemma bench_run_counts udp conns evs :
  accounted (bench_run udp conns evs) ∧ sent (bench_run udp conns evs) = foldr (λ ev n, is_tick ev + n) 0 evs.
Proof.
  unfold bench_run. set (s0 := (_, conns)). assert (accounted s0.1) as H0 by done.
  replace (foldr (λ ev n, is_tick ev + n) 0 evs) with (sent s0.1 + foldr (λ ev n, is_tick ev + n) 0 evs) by done.
  clearbody s0. revert s0 H0. induction evs as [|ev evs IH]; intros s Hs; simpl; [rewrite Z.add_0_r; done|].
  destruct (bench_step_counts udp s ev Hs) as [Ha Hn]. destruct (IH _ Ha) as [? ->]. rewrite Hn. split; [done|lia].
Qed.
Lemma sorted_lats_spec b : StronglySorted Z.le (sorted_lats b) ∧ sorted_lats b ≡ₚ lats b.
Proof. split; [apply StronglySorted_merge_sort; apply _|apply merge_sort_Permutation]. Qed.

(** ** Properties *)


Definition demo_round (ok : bool) (d : Z) : BenchEv := Worker 0 {| connected := true; written := true; answered := ok; took := d * millisecond |}.
(** Four rounds within the time of one tick. *)
Definition demo_bench : list BenchEv := [Tick; demo_round true 3; demo_round true 1; demo_round false 2000; demo_round true 2].
(** The workers do not wait for ticks, so the printed success rate, a share
    of the ticks, can be 300 percent. *)
Example success_above_100 : success (bench_run true [] demo_bench) = Some (fl 300 1).
Proof. by vm_compute. Qed.
